(* ===== verification/_CoqProject ===== *)
-Q . S2P
Prelude.v
Machine.v
Planned.v
Vga.v
Preempt.v
Screen.v
Serial.v
Digits.v
Kprintf.v
Pic.v
Panic.v
Safety.v
Idt.v
X86.v
Entry.v
Pmm.v
PmmSpec.v
PmmFit.v
Gdt.v
Pit.v
Keyboard.v
Memory.v
Uptime.v
Kernel.v
KernelSpec.v
KernelBoot.v
KernelTypes.v
KernelRun.v
KernelTime.v
KernelEntry.v
Boot.v
