(* ===== verification/Prelude.v ===== *)
(** * AstraOS: a verification of the kernel

    AstraOS is a 32-bit x86 kernel: a Multiboot loader enters [kernel_main], which
    sets up the screen, the serial port, the descriptor tables, the interrupt
    controllers, the frame allocator, the timer and the keyboard, runs a self-test
    and then echoes keys and prints the uptime for ever. This library translates
    its C and assembly sources into executable definitions and proves what they do.

    ** The parts and how they interact

    The loader finds the Multiboot header and jumps to [_start] (boot/boot.s), which
    calls [kernel_main] on the kernel's own stack; linker.ld has laid out the image.
    [kernel_main] (kernel/kernel.c) calls the initialisers one after the other.
    Everything printed goes through [kprintf]/[kputs], which send each character to
    the VGA console and to the serial port. The timer and keyboard drivers register
    a callback with the interrupt dispatcher, which the IRQ stubs (interrupts/isr.s)
    enter; the dispatcher acknowledges the interrupt controllers. The main loop learns of
    interrupts through the tick counter and the keyboard ring buffer only.

    ** Files

    - [Prelude] (this file): C integers with their truncations ([u8] to [u64],
      [s32], the operators [+u], [*u], ...), C strings ([bytes]), arrays, the outcome
      type and monad [M], lenses, loops, generic lemmas and tactics.
    - [Machine]: port I/O and the processor (the inline assembly of all files).
    - [Planned] (process/scheduler.c, fs/vfs.c): two types and three empty functions.
    - [Vga] (drivers/vga.c, drivers/vga.h): record [vga] holds [vga_buffer],
      [vga_row], [vga_col], [vga_color].
    - [Preempt]: interruption inside functions. The class [Preempt] marks the places
      where interrupts are served, [PreemptOk] is what the console drivers assume of
      them, and [outb_i], [inb_i], [wait_bit] are the interruptible port accesses and
      the polling loop.
    - [Screen]: the functions of drivers/vga.c that run with interrupts on, access by
      access: [vga_putchar_i], [vga_scroll_i]; [Drawing] is what they assume.
    - [Serial] (drivers/serial.c, drivers/serial.h): no state of its own.
    - [Digits]: the divide-and-remainder digit loop shared by two number printers.
    - [Kprintf] (kernel/kprintf.c).
    - [Pic] (interrupts/pic.c, interrupts/pic.h).
    - [Panic]: [kernel_panic] of kernel/kernel.c.
    - [Safety]: code that keeps an invariant and does not fault, on any hardware; the
      class [Safe] is the interface between the drivers and the machine's invariant.
    - [Idt] (interrupts/idt.c, interrupts/idt.h, interrupts/interrupts.c): record
      [idt_state] holds [idt], [idt_ptr] and the callback table [irq_handlers].
    - [X86]: registers, byte memory, the instructions the assembly files use, the
      calling convention ([Abi]) and the delivery of interrupts through the IDT.
    - [Entry] (interrupts/isr.s, [interrupt_frame_t] of interrupts/idt.h): the macros
      [ISR_NOERR], [ISR_ERR], [IRQ], the 48 [stubs] and [common_stub] as code of
      [X86]; [take] is an interrupt from the vector to [iret].
    - [Pmm] (memory/pmm.c, memory/pmm.h, the Multiboot types of kernel/kernel.h):
      record [pmm] holds [bitmap], [total_frames], [free_frames]. [PmmSpec] has the
      abstract allocator, the client relation and the theorems; [PmmFit] the first-fit
      reference and the counter on overlapping maps.
    - [Gdt] (kernel/gdt.c): record [gdt_state] holds [gdt] and [gdt_ptr].
    - [Pit] (drivers/pit.c, drivers/pit.h): record [pit] holds [ticks].
    - [Keyboard] (drivers/keyboard.c): record [kb] holds [kb_buf], [kb_head],
      [kb_tail].
    - [Memory] (memory/memory.c): record [heap] holds [heap_offset].
    - [Uptime]: the number formatter inside the main loop of kernel/kernel.c.
    - [Kernel] (the rest of kernel/kernel.c): the state [kernel] is the tuple of all
      the records above; [kernel_boot] is [kernel_main] up to the self-test,
      [run_selftest], [kernel_round] and [kernel_main] follow.
      [KernelSpec], [KernelBoot] and [KernelRun] have its theorems, [KernelTypes] the
      typing of its whole state, [KernelTime] the clock and [pit_sleep_ms] in the
      running kernel, [KernelEntry] the entry stubs under it.
    - [Boot] (boot/boot.s, linker.ld): the Multiboot header, the section layout, the
      stack and [_start].

    Operations keep the names they have in C. A part of a function that has a
    definition of its own (a loop body, a branch) has a name that says what it does:
    [add_region] and [mmap_walk] are the loops of [pmm_init], [conversion] is the
    switch of [kprintf], [irq_dispatch] the second half of [irq_handler].

    ** State and effects

    Code runs in the monad [M S] of the prelude: a statement takes the state and
    returns ([Ret]), halts the processor for good ([Halted], the [cli; hlt] loop of
    [kernel_panic]), exhausts its polling budget ([Hung]) or leaves the behaviour C
    defines ([Fault]). An access to an array outside its bounds is either a [Fault]
    ([fetch], [fetch_dim]) or leaves the empty list in the place of the array ([wr],
    [access]), which stays empty: an invariant that fixes the lengths of the arrays
    excludes both. Each driver is written for any machine state [S] with a lens
    ([Lens S C]) on its own statics, and different statics do not overlap
    ([Indep]); [Kernel] instantiates all of them with one tuple. This is how the
    theorem of a driver serves inside the kernel: the lens laws carry what the
    driver leaves alone.

    A device is a function of the whole interaction so far ([Hardware], [port_in]):
    an [inb] answers from the trace of port accesses and processor events, so every
    deterministic device with every timing is covered. Drivers are specified
    against replays of the trace: [Serial] computes what a 16550 has put on the
    line, [Pic] the state of two 8259As, [Pit] the state of an 8253 channel.

    Interrupts: once [sti] has been executed, the hardware may deliver any list of
    IRQ frames ([Interrupts], [pending], again a function of the trace) between any
    two statements of the kernel, before every port access and every round of a
    polling loop inside the serial driver, before every access of [vga_putchar] to
    the screen and its variables, between the accesses of the
    keyboard reader to the ring buffer, after every reading of the clock by
    [pit_sleep_ms], and before every [hlt]; [irqs] runs the real [irq_handler] on each,
    with the interrupt flag clear ([serve]). Taking an interrupt is an event of the
    trace ([EVector]): the devices see it, and the theorems on the clock and the key
    queue are in terms of it ([timer_vectors], [key_events]). The drivers are verified against the
    class [PreemptOk] (and [KbPreempt] for the reader), and [KernelSpec] shows that
    the kernel's interrupts are an instance. In [Keyboard], [kb_step] also has the
    reader and the handler as a step relation. [KernelEntry] shows that [serve] is
    what happens between the vector and [iret]: the state of [X86] and the state of
    the C program run side by side there.

    Parameters of the model, which are not C code of the repository: the devices,
    physical memory as the loader leaves it ([PhysMem]), addresses the linker chooses
    ([Image], [return_addr], [stack_bottom], the sizes of the sections), what a compiled
    C function leaves in scratch registers and in the stack below it ([clobber] of
    [Abi], within the i386 calling convention), the [cpuid] instruction and the arrival
    of interrupts. [pit_sleep_ms] takes the wait in its loop as an argument; in the
    kernel it is [Kernel.hlt], the halt and the interrupts that end it.

    ** Fuel

    The C code polls hardware without bound. [wait_bit] takes a budget of reads,
    and returns [Hung] when it is exhausted; [serial_putchar_hangs] and
    [pmm_init_hangs] show that this is a behaviour of the code and not of the model.
    Positive theorems assume [uart_live fuel LSR_TX_EMPTY]: the transmitter becomes
    ready within [fuel] reads, whatever happened before. Those that pass through
    [serial_init] assume [loopback_answers fuel], too: within [fuel] reads after the port
    was set up for the loopback test and given the test byte, and only then, a
    byte is received. A 16550 does both with a budget of 2 ([live_16550],
    [answers_16550], of the device [uart16550]). [mmap_walk] uses the same budget for its
    rounds, and a memory map of [n] entries needs [n + 1]. [fill_digits] runs at most
    32 times, enough for any base above 1; the main loop is run for any given number
    of rounds, because it has no end; in [Boot], [kmain] is still busy after them, and
    so is [_start]. The stubs need at most 21 instructions, [_start] four up to the
    call. A sleep of [k] ticks needs more than [n * k] rounds when the timer is among every [n]
    wake-ups ([wakes]).
    All other loops are bounded by the source.

    ** What the theorems show

    - The machine: [start_spec], [kernel_boot_spec], [kernel_rounds_spec]: from the
      loader's jump on, the exact transcript of the screen and of the serial line,
      with the tables, the controllers, the allocator and the interrupt flag at the
      end, whatever interrupts arrive. The uptime shown is determined by the timer
      interrupts taken ([round_clocks], [readings]), the keys echoed by the scan codes
      read ([offered]): in order, once each, none lost while the queue has room.
      [kernel_main_typed]: on any hardware, memory and interrupts, the whole state
      keeps its C types, nothing faults and no array is accessed outside its bounds. [start_refuses]: another loader.
    - Interrupts below C: [kernel_irqs_transparent]: after boot any sequence of
      hardware interrupts leaves the interrupted code's registers and stack alone,
      and does to the kernel what [serve] does. [exception_entry]: every exception,
      from the vector to the halt, whatever code it interrupts. [kernel_exception]:
      the same for the booted kernel, after any number of rounds and interrupts.
    - Frames: [pmm_setup_free], [pmm_setup_count] and [pmm_setup_excess]: exactly which
      frames start-up makes available and what it counts; [pmm_refines_allocator]:
      the bitmap implements a set; [pmm_alloc_first_fit]: the search equals a naive
      one; [pmm_clients_safe]: no frame is ever owned twice; [image_never_allocated]:
      none is part of the kernel; [pmm_alloc_free_roundtrip].
    - Heap: [kmalloc_spec], [kmallocs_disjoint].
    - Keyboard: [keyboard_interleaved], [keyboard_irq1_spec],
      [keyboard_getchar_spec].
    - Interrupts in C: [irq_handler_acks], [irq_register_dispatch], [kernel_irqs_spec],
      [idt_init_gates], [interrupts_init_spec], and the lemmas [pic_init_remaps],
      [pic_mask_spec].
    - Timer: [pit_init_spec]; [kernel_sleep]: how long [pit_sleep_ms] sleeps, with
      interrupts also between its test and its [hlt]; [kernel_uptime_complete]: every
      second up to the clock's is shown.
    - Segments: [gdt_init_flat], [gdt_set_entry_decode].
    - Consoles: [vga_putchar_interrupted], [vga_puts_refines] (the terminal as a list of rows), [vga_safe],
      [serial_puts_spec], [serial_init_spec], [kprintf_spec], [emit_uint_roundtrip],
      [uptime_buf_text], and the lemmas [vga_scroll_spec], [vga_puts_text],
      [emit_int_decimal], [panic_halted].
    - Limits of the code: [pmm_init_hangs], and the lemmas
      [serial_failed_init_mutes], [serial_putchar_hangs], [kmalloc_wraps], [pit_sleep_overflow],
      [extended_code_typed], [pic_init_keeps_masks], [unaligned_region],
      [report_wraps].

    ** Not modelled

    The build files and grub.cfg. Of the processor: paging and privilege changes (the
    kernel uses neither), and timing. The instruction stream of compiled C is not
    modelled: C runs as its source on the state of the C program, and the assembly
    around it on [X86]. Hence a C operation without defined behaviour is [Fault] and
    not the exception a compiler may turn it into, or a lost array; [kernel_main_typed]
    shows that the kernel has neither, and [kernel_exception] what an exception from elsewhere (a
    non-maskable interrupt, a machine check) does. The depth of the stack
    [kernel_main] needs depends on the compiler: [kernel_irqs_transparent] and
    [kernel_exception] ask for 64 bytes below the interrupted code. *)

From Stdlib Require Export ZArith Lia.
From stdpp Require Export base list list_numbers numbers gmap strings.

#[local] Open Scope Z_scope.

(** ** Machine integers

    A C unsigned integer of width [w] is a [Z] in [0, 2^w); every place where C
    reduces modulo [2^w] (a store into a narrower type, unsigned arithmetic, a
    cast) is written out with one of these truncations. *)

Definition u8 (z : Z) : Z := z mod 256.
Definition u16 (z : Z) : Z := z mod 65536.
Definition u32 (z : Z) : Z := z mod 4294967296.
Definition u64 (z : Z) : Z := z mod 18446744073709551616.

(** [(int32_t)z]: two's complement reinterpretation. *)
Definition s32 (z : Z) : Z :=
  if u32 z <? 2147483648 then u32 z else u32 z - 4294967296.

Declare Scope c_scope.
Delimit Scope c_scope with C.
Notation "a +u b" := (u32 (a + b)) (at level 50, left associativity) : c_scope.
Notation "a -u b" := (u32 (a - b)) (at level 50, left associativity) : c_scope.
Notation "a *u b" := (u32 (a * b)) (at level 40, left associativity) : c_scope.
Notation "a <<u b" := (u32 (Z.shiftl a b)) (at level 45, left associativity) : c_scope.
Notation "~u a" := (u32 (Z.lnot a)) (at level 35, right associativity) : c_scope.

(** ** C strings and arrays *)

(** The bytes of a string literal, without the terminating NUL. *)
Definition bytes (s : string) : list Z :=
  map (fun a => Z.of_N (Ascii.N_of_ascii a)) (String.list_ascii_of_string s).

(** Arrays. An access outside an array is undefined behaviour in C: it leaves [[]]
    in its place, on which every further access is outside. The invariants of all
    components fix the lengths of their arrays, so they say that no access so far
    was outside. [access a i] is [a] after an access at [i]; a store is an access;
    [load] is the element at an index, if there is one; [rd] is the same where the
    access is accounted for otherwise, and 0 outside. *)
#[global] Instance Z_inhabited_0 : Inhabited Z | 0 := populate 0.

Definition in_array {A : Type} (a : list A) (i : Z) : bool :=
  (0 <=? i) && (i <? Z.of_nat (length a)).
Definition access {A : Type} (a : list A) (i : Z) : list A :=
  if in_array a i then a else [].

Definition load {A : Type} (a : list A) (i : Z) : option A :=
  if in_array a i then a !! Z.to_nat i else None.

Definition rd (a : list Z) (i : Z) : Z := a !!! Z.to_nat i.
Definition wr {A : Type} (a : list A) (i : Z) (v : A) : list A := <[Z.to_nat i := v]> (access a i).

Notation "a .[ i ]" := (rd a i) (at level 1, left associativity, format "a .[ i ]") : c_scope.
Notation "a .[ i <- v ]" := (wr a i v) (at level 1, left associativity, format "a .[ i  <-  v ]") : c_scope.

(** ** Counted loops: [for (i = lo; i < hi; i++) a = f i a] *)

Fixpoint iter_from {A : Type} (n : nat) (i : Z) (f : Z → A → A) (a : A) : A :=
  match n with
  | O => a
  | S n => iter_from n (i + 1) f (f i a)
  end.

Definition for_range {A : Type} (lo hi : Z) (f : Z → A → A) (a : A) : A :=
  iter_from (Z.to_nat (hi - lo)) lo f a.

(** Conversion should compare loops and accesses, not run them. *)
#[global] Strategy 1000 [iter_from for_range in_array access wr].

(** ** Outcomes and the kernel monad

    A kernel function runs on a state [S] and either returns ([Ret]), stops the
    processor for good ([Halted]: interrupts off, [hlt] in a loop), is still
    busy-waiting on a device when the polling budget is used up ([Hung]), or
    performs an access that C leaves undefined ([Fault]). *)

Inductive outcome (S A : Type) : Type :=
| Ret (a : A) (s : S)
| Halted (s : S)
| Hung (s : S)
| Fault (s : S).
Arguments Ret {S A} a s.
Arguments Halted {S A} s.
Arguments Hung {S A} s.
Arguments Fault {S A} s.

Definition M (S A : Type) : Type := S → outcome S A.

#[global] Instance M_ret (S : Type) : MRet (M S) := fun A a s => Ret a s.

#[global] Instance M_bind (S : Type) : MBind (M S) :=
  fun A B f m s =>
    match m s with
    | Ret a s' => f a s'
    | Halted s' => Halted s'
    | Hung s' => Hung s'
    | Fault s' => Fault s'
    end.

Definition halted {S A : Type} : M S A := fun s => Halted s.
Definition hung {S A : Type} : M S A := fun s => Hung s.
Definition fault {S A : Type} : M S A := fun s => Fault s.

(** The element of an array at an index; reading outside is undefined. *)
Definition fetch {S A : Type} (a : list A) (i : Z) : M S A :=
  match load a i with Some x => mret x | None => fault end.

(** The same for an array declared with [dim] elements. *)
Definition fetch_dim {S A : Type} `{!Inhabited A} (dim : Z) (a : list A) (i : Z) : M S A :=
  if (0 <=? i) && (i <? dim) then mret (a !!! Z.to_nat i) else fault.

(** The state in which an outcome leaves the machine. *)
Definition final {S A : Type} (o : outcome S A) : S :=
  match o with Ret _ s | Halted s | Hung s | Fault s => s end.

Definition returns {S A : Type} (o : outcome S A) : bool :=
  match o with Ret _ _ => true | _ => false end.

(** Run [f] on every element in order. *)
Fixpoint mapM_ {S A : Type} (f : A → M S unit) (l : list A) : M S unit :=
  match l with
  | [] => mret tt
  | x :: l => f x;; mapM_ f l
  end.

(** ** Component states inside a machine state

    The file-scope [static] variables of a source file form that component's
    record [C]; [Lens S C] says that a machine state [S] has such a component,
    [Indep S C D] that two components do not share storage. *)

Class Lens (S C : Type) := {
  view : S → C;
  put : C → S → S;
  view_put : ∀ c s, view (put c s) = c;
  put_view : ∀ s, put (view s) s = s;
  put_put : ∀ c c' s, put c (put c' s) = put c s
}.

Class Indep (S C D : Type) `{!Lens S C} `{!Lens S D} : Prop := {
  view_put_r : ∀ (c : C) (s : S), view (C := D) (put c s) = view s;
  view_put_l : ∀ (d : D) (s : S), view (C := C) (put d s) = view s;
  put_comm : ∀ (c : C) (d : D) (s : S), put c (put d s) = put d (put c s)
}.

Definition gets {S C A : Type} `{!Lens S C} (f : C → A) : M S A :=
  fun s => Ret (f (view s)) s.
Definition modify {S C : Type} `{!Lens S C} (f : C → C) : M S unit :=
  fun s => Ret tt (put (f (view s)) s).

(** Every state is a component of itself. *)
#[global] Program Instance lens_id (S : Type) : Lens S S := {|
  view := fun s => s;
  put := fun c _ => c
|}.
Solve All Obligations with by intros; try destruct s.

(** The two halves of a pair. *)
#[global] Program Instance lens_fst (A B : Type) : Lens (A * B) A := {|
  view := fst;
  put := fun a s => (a, s.2)
|}.
Solve All Obligations with by intros; try destruct s.

#[global] Program Instance lens_snd (A B : Type) : Lens (A * B) B := {|
  view := snd;
  put := fun b s => (s.1, b)
|}.
Solve All Obligations with by intros; try destruct s.

#[global] Instance indep_pair (A B : Type) : Indep (A * B) B A.
Proof. by split. Qed.

(** A component of the first half. *)
#[global] Program Instance lens_in_fst (A B C : Type) `{!Lens A C} : Lens (A * B) C | 10 := {|
  view := fun s => view s.1;
  put := fun c s => (put c s.1, s.2)
|}.
Next Obligation. intros. apply view_put. Qed.
Next Obligation. intros A B C L [a b]. cbn. by rewrite put_view. Qed.
Next Obligation. intros. cbn. by rewrite put_put. Qed.

#[global] Instance indep_in_fst (A B C D : Type) `{!Lens A C} `{!Lens A D} `{!Indep A C D} :
  Indep (A * B) C D | 10.
Proof.
  split; intros; cbn; [apply view_put_r|apply view_put_l|by rewrite put_comm].
Qed.

#[global] Instance indep_in_fst_snd (A B C : Type) `{!Lens A C} : Indep (A * B) C B | 10.
Proof. by split. Qed.

(** ** Hint databases and tactics *)

Create Rewrite HintDb lens.
Create HintDb urange discriminated.

#[export] Hint Rewrite @view_put @put_view @put_put : lens.

(** Compute views through nested [put]s. *)
Ltac lens := autorewrite with lens; try done.

(** Normalise truncations of values [lia] can bound. *)
Ltac utrunc :=
  unfold u8, u16, u32, u64 in *;
  repeat match goal with
  | |- context [?a mod ?m] => rewrite (Z.mod_small a m) by lia
  end.

(** [lia] with [/] and [mod] by constants. *)
Ltac dlia := Z.to_euclidean_division_equations; lia.

(** ** Monad lemmas *)

Section monad.
Context {S : Type}.

Lemma bind_ret {A B : Type} (m : M S A) (f : A → M S B) s a s' :
  m s = Ret a s' → (m ≫= f) s = f a s'.
Proof. intros H. unfold mbind, M_bind. by rewrite H. Qed.

Lemma fetch_in {A : Type} `{!Inhabited A} (a : list A) i (s : S) :
  0 ≤ i < Z.of_nat (length a) → fetch a i s = Ret (a !!! Z.to_nat i) s.
Proof.
  intros. unfold fetch, load, in_array. rewrite (proj2 (Z.leb_le _ _)), (proj2 (Z.ltb_lt _ _)) by lia.
  cbn [andb]. by rewrite list_lookup_lookup_total_lt by lia.
Qed.

Lemma fetch_dim_in {A : Type} `{!Inhabited A} dim (a : list A) i (s : S) :
  0 ≤ i < dim → fetch_dim dim a i s = Ret (a !!! Z.to_nat i) s.
Proof.
  intros. unfold fetch_dim. by rewrite (proj2 (Z.leb_le _ _)), (proj2 (Z.ltb_lt _ _)) by lia.
Qed.

Lemma bind_assoc {A B C : Type} (m : M S A) (f : A → M S B) (g : B → M S C) s :
  ((m ≫= f) ≫= g) s = (m ≫= (fun a => f a ≫= g)) s.
Proof. unfold mbind, M_bind. by destruct (m s). Qed.

Lemma bind_ext {A B : Type} (m : M S A) (f g : A → M S B) s :
  (∀ a s, f a s = g a s) → (m ≫= f) s = (m ≫= g) s.
Proof. intros H. unfold mbind, M_bind. destruct (m s); [apply H|done..]. Qed.

Lemma mapM_app {A : Type} (f : A → M S unit) l1 l2 s :
  mapM_ f (l1 ++ l2) s = (mapM_ f l1 ≫= (fun _ => mapM_ f l2)) s.
Proof.
  revert s. induction l1 as [|x l1 IH]; intros s; [done|].
  cbn. rewrite bind_assoc. unfold mbind, M_bind. destruct (f x s); [apply IH|done..].
Qed.

Lemma mapM_fold {A : Type} (f : A → M S unit) (g : A → S → S) l s :
  (∀ x s, f x s = Ret tt (g x s)) →
  mapM_ f l s = Ret tt (fold_left (fun s x => g x s) l s).
Proof.
  intros Hf. revert s. induction l as [|x l IH]; intros s; [done|].
  cbn. rewrite (bind_ret _ _ _ _ _ (Hf x s)). apply IH.
Qed.

(** A sequence of updates of one component is one update. *)
Lemma mapM_modify {C A : Type} `{!Lens S C} (f : A → C → C) l (s : S) :
  mapM_ (fun x => modify (f x)) l s
  = Ret tt (put (fold_left (fun c x => f x c) l (view s)) s).
Proof.
  revert s. induction l as [|x l IH]; intros s; cbn [mapM_ fold_left].
  - by rewrite put_view.
  - rewrite (bind_ret (modify (f x)) _ s tt (put (f x (view s)) s) eq_refl), IH.
    by rewrite view_put, put_put.
Qed.

End monad.

(** ** Loop lemmas *)

Section loops.
Context {A : Type}.
Implicit Types (f g : Z → A → A) (a : A).

Lemma iter_from_ind (P : Z → A → Prop) f n i a :
  P i a →
  (∀ j x, i ≤ j < i + Z.of_nat n → P j x → P (j + 1) (f j x)) →
  P (i + Z.of_nat n) (iter_from n i f a).
Proof.
  revert i a. induction n as [|n IH]; intros i a H0 Hs; cbn [iter_from].
  - by rewrite Z.add_0_r.
  - replace (i + Z.of_nat (Datatypes.S n)) with (i + 1 + Z.of_nat n) by lia.
    apply IH; [apply Hs; [lia|done]|intros j x ?; apply Hs; lia].
Qed.

(** The invariant rule for counted loops. *)
Lemma for_range_ind (P : Z → A → Prop) f lo hi a :
  lo ≤ hi → P lo a →
  (∀ i x, lo ≤ i < hi → P i x → P (i + 1) (f i x)) →
  P hi (for_range lo hi f a).
Proof.
  intros Hle H0 Hs. unfold for_range.
  replace hi with (lo + Z.of_nat (Z.to_nat (hi - lo))) at 1 by lia.
  apply iter_from_ind; [done|]. intros j x ?. apply Hs. lia.
Qed.

Lemma for_range_empty f lo hi a : hi ≤ lo → for_range lo hi f a = a.
Proof. intros. unfold for_range. by replace (Z.to_nat (hi - lo)) with O by lia. Qed.

Lemma iter_from_S f n i a :
  iter_from (S n) i f a = f (i + Z.of_nat n) (iter_from n i f a).
Proof.
  revert i a. induction n as [|n IH]; intros i a.
  - cbn [iter_from]. by rewrite Z.add_0_r.
  - change (iter_from (S (S n)) i f a) with (iter_from (S n) (i + 1) f (f i a)).
    rewrite IH. cbn [iter_from]. f_equal. lia.
Qed.

Lemma for_range_last f lo hi a :
  lo ≤ hi → for_range lo (hi + 1) f a = f hi (for_range lo hi f a).
Proof.
  intros. unfold for_range.
  replace (Z.to_nat (hi + 1 - lo)) with (S (Z.to_nat (hi - lo))) by lia.
  rewrite iter_from_S. f_equal. lia.
Qed.

Lemma for_range_first f lo hi a :
  lo < hi → for_range lo hi f a = for_range (lo + 1) hi f (f lo a).
Proof.
  intros. unfold for_range.
  by replace (Z.to_nat (hi - lo)) with (S (Z.to_nat (hi - (lo + 1)))) by lia.
Qed.

Lemma iter_from_ext f g n i a :
  (∀ j x, i ≤ j < i + Z.of_nat n → f j x = g j x) →
  iter_from n i f a = iter_from n i g a.
Proof.
  revert i a. induction n as [|n IH]; intros i a H; [done|]. cbn.
  rewrite H by lia. apply IH. intros. apply H. lia.
Qed.

Lemma for_range_ext f g lo hi a :
  (∀ j x, lo ≤ j < hi → f j x = g j x) →
  for_range lo hi f a = for_range lo hi g a.
Proof. intros H. apply iter_from_ext. intros. apply H. lia. Qed.

(** A doubly nested row-major loop is one loop over the flat index. *)
Lemma for_range_nested f h w a :
  0 ≤ h → 0 ≤ w →
  for_range 0 h (fun y => for_range 0 w (fun x => f (y * w + x))) a
  = for_range 0 (h * w) f a.
Proof.
  intros Hh Hw.
  apply (for_range_ind (fun y x => x = for_range 0 (y * w) f a)); [done..|].
  intros y x Hy ->.
  transitivity (for_range 0 (y * w + w) f a); [|f_equal; lia].
  apply (for_range_ind (fun j z => z = for_range 0 (y * w + j) f a)); [done| |].
  - by rewrite Z.add_0_r.
  - intros j z Hj ->. rewrite Z.add_assoc, for_range_last; [done|nia].
Qed.

End loops.

(** ** Arrays *)

Section array_access.
Context {A : Type}.
Implicit Types (a : list A) (i : Z) (v : A).

Lemma access_in a i : 0 ≤ i < Z.of_nat (length a) → access a i = a.
Proof. intros. unfold access, in_array. by rewrite (proj2 (Z.leb_le _ _)), (proj2 (Z.ltb_lt _ _)) by lia. Qed.

Lemma access_cases a i :
  (0 ≤ i < Z.of_nat (length a) ∧ access a i = a) ∨
  ((i < 0 ∨ Z.of_nat (length a) ≤ i) ∧ access a i = []).
Proof.
  destruct (decide (0 ≤ i < Z.of_nat (length a))).
  - left. by rewrite access_in.
  - right. split; [lia|]. unfold access, in_array.
    destruct (Z.leb_spec 0 i), (Z.ltb_spec i (Z.of_nat (length a))); done || lia.
Qed.

(** What is lost stays lost. *)
Lemma access_nil i : access (@nil A) i = [].
Proof. destruct (access_cases (@nil A) i) as [[? _]|[_ ?]]; [cbn in *; lia|done]. Qed.
Lemma wr_nil i v : wr [] i v = [].
Proof. unfold wr. by rewrite access_nil. Qed.

(** An array that is still there was accessed inside. *)
Lemma access_length a i : access a i ≠ [] → 0 ≤ i < Z.of_nat (length a).
Proof. by destruct (access_cases a i) as [[? _]|[_ ->]]. Qed.
Lemma wr_length a i v : wr a i v ≠ [] → 0 ≤ i < Z.of_nat (length a).
Proof. intros H. apply access_length. unfold wr in H. by destruct (access a i). Qed.

Lemma wr_in a i v : 0 ≤ i < Z.of_nat (length a) → wr a i v = <[Z.to_nat i := v]> a.
Proof. intros. unfold wr. by rewrite access_in. Qed.

Lemma length_wr a i v : 0 ≤ i < Z.of_nat (length a) → length (wr a i v) = length a.
Proof. intros. rewrite wr_in by done. apply length_insert. Qed.

Lemma Forall_access (P : A → Prop) a i : Forall P a → Forall P (access a i).
Proof. intros. unfold access. by destruct (in_array a i). Qed.

Lemma Forall_wr (P : A → Prop) a i v : Forall P a → P v → Forall P (wr a i v).
Proof. intros. by apply Forall_insert; [apply Forall_access|]. Qed.

End array_access.

Lemma load_rd a i : 0 ≤ i < Z.of_nat (length a) → load a i = Some (rd a i).
Proof.
  intros. unfold load, in_array, rd. rewrite (proj2 (Z.leb_le _ _)), (proj2 (Z.ltb_lt _ _)) by lia.
  cbn [andb]. by rewrite list_lookup_lookup_total_lt by lia.
Qed.

Lemma rd_wr_eq a i v : 0 ≤ i < Z.of_nat (length a) → rd (wr a i v) i = v.
Proof.
  intros. rewrite wr_in by done. unfold rd. apply list_lookup_total_insert_eq. lia.
Qed.

Lemma rd_wr_ne a i j v :
  0 ≤ i < Z.of_nat (length a) → 0 ≤ j → i ≠ j → rd (wr a i v) j = rd a j.
Proof.
  intros. rewrite wr_in by done. unfold rd. apply list_lookup_total_insert_ne. lia.
Qed.

Lemma rd_ext a b :
  length a = length b →
  (∀ i, 0 ≤ i < Z.of_nat (length a) → rd a i = rd b i) → a = b.
Proof.
  intros Hl H. apply list_eq. intros i.
  destruct (decide (i < length a)%nat) as [Hi|Hi].
  - specialize (H (Z.of_nat i)). unfold rd in H. rewrite Nat2Z.id in H.
    rewrite !list_lookup_total_alt in H.
    destruct (lookup_lt_is_Some_2 a i Hi) as [x Hx].
    destruct (lookup_lt_is_Some_2 b i) as [y Hy]; [lia|].
    rewrite Hx, Hy in *. cbn in H. rewrite H; [done|lia].
  - rewrite !lookup_ge_None_2 by lia. done.
Qed.

Lemma rd_app a b i :
  0 ≤ i →
  rd (a ++ b) i
  = if i <? Z.of_nat (length a) then rd a i else rd b (i - Z.of_nat (length a)).
Proof.
  intros. unfold rd. destruct (Z.ltb_spec i (Z.of_nat (length a))).
  - rewrite lookup_total_app_l; [done|lia].
  - rewrite lookup_total_app_r by lia. f_equal. lia.
Qed.

Lemma rd_drop a n i : 0 ≤ i → rd (drop n a) i = rd a (i + Z.of_nat n).
Proof.
  intros. unfold rd. rewrite lookup_total_drop. f_equal. lia.
Qed.

Lemma rd_replicate n x i : 0 ≤ i < Z.of_nat n → rd (replicate n x) i = x.
Proof. intros. unfold rd. apply lookup_total_replicate_2. lia. Qed.

Lemma Forall_rd (P : Z → Prop) a i :
  Forall P a → 0 ≤ i < Z.of_nat (length a) → P (rd a i).
Proof.
  intros H Hi. unfold rd. eapply Forall_lookup_total_1; [done|lia].
Qed.

(** ** Truncations *)

Lemma u8_range z : 0 ≤ u8 z < 256.
Proof. by apply Z.mod_pos_bound. Qed.
Lemma u16_range z : 0 ≤ u16 z < 65536.
Proof. by apply Z.mod_pos_bound. Qed.
Lemma u32_range z : 0 ≤ u32 z < 4294967296.
Proof. by apply Z.mod_pos_bound. Qed.
Lemma u8_id z : 0 ≤ z < 256 → u8 z = z.
Proof. apply Z.mod_small. Qed.
Lemma u16_id z : 0 ≤ z < 65536 → u16 z = z.
Proof. apply Z.mod_small. Qed.
Lemma u32_id z : 0 ≤ z < 4294967296 → u32 z = z.
Proof. apply Z.mod_small. Qed.
Lemma s32_range z : -2147483648 ≤ s32 z < 2147483648.
Proof.
  pose proof (u32_range z). unfold s32. destruct (Z.ltb_spec (u32 z) 2147483648); lia.
Qed.
Lemma s32_id z : -2147483648 ≤ z < 2147483648 → s32 z = z.
Proof.
  intros. unfold s32, u32. destruct (decide (0 ≤ z)).
  - rewrite Z.mod_small by lia. destruct (Z.ltb_spec z 2147483648); lia.
  - rewrite <- (Z.mod_add z 1), Z.mod_small by lia.
    destruct (Z.ltb_spec (z + 1 * 4294967296) 2147483648); lia.
Qed.

Lemma u8_u8 c : u8 (u8 c) = u8 c.
Proof. apply u8_id, u8_range. Qed.

#[export] Hint Resolve u8_range u16_range u32_range s32_range : urange.

(** ** Bits of truncated words *)

Lemma testbit_u8 z k : 0 ≤ k → Z.testbit (u8 z) k = (k <? 8) && Z.testbit z k.
Proof.
  intros. change (u8 z) with (z mod 2 ^ 8). destruct (Z.ltb_spec k 8).
  - by rewrite Z.mod_pow2_bits_low.
  - by rewrite Z.mod_pow2_bits_high.
Qed.

Lemma testbit_u16 z k : 0 ≤ k → Z.testbit (u16 z) k = (k <? 16) && Z.testbit z k.
Proof.
  intros. change (u16 z) with (z mod 2 ^ 16). destruct (Z.ltb_spec k 16).
  - by rewrite Z.mod_pow2_bits_low.
  - by rewrite Z.mod_pow2_bits_high.
Qed.

Lemma testbit_u32 z k : 0 ≤ k → Z.testbit (u32 z) k = (k <? 32) && Z.testbit z k.
Proof.
  intros. change (u32 z) with (z mod 2 ^ 32). destruct (Z.ltb_spec k 32).
  - by rewrite Z.mod_pow2_bits_low.
  - by rewrite Z.mod_pow2_bits_high.
Qed.

(** Bit [k] of the single-bit mask [1 << j]. *)
Lemma testbit_shiftl1 j k : 0 ≤ j → 0 ≤ k → Z.testbit (Z.shiftl 1 j) k = (k =? j).
Proof.
  intros. rewrite Z.shiftl_1_l.
  destruct (Z.eqb_spec k j) as [->|Hne]; [by rewrite Z.pow2_bits_true|].
  apply Z.pow2_bits_false. lia.
Qed.

(** The idiom [(w >> j) & 1] reads bit [j]. *)
Lemma land1_shiftr w j : 0 ≤ j → Z.land (Z.shiftr w j) 1 = Z.b2z (Z.testbit w j).
Proof.
  intros. change 1 with (Z.ones 1). rewrite Z.land_ones by lia.
  rewrite Z.shiftr_div_pow2, Z.testbit_spec' by lia. done.
Qed.

(** Range of a word from its bits. *)
Lemma bits_range w n : 0 ≤ n → 0 ≤ w → (∀ k, n ≤ k → Z.testbit w k = false) → w < 2 ^ n.
Proof.
  intros Hn Hw H. destruct (decide (w = 0)) as [->|]; [lia|].
  apply Z.log2_lt_pow2; [lia|]. destruct (Z.le_gt_cases n (Z.log2 w)) as [Hl|]; [|done].
  specialize (H _ Hl). rewrite Z.bit_log2 in H; [done|lia].
Qed.

Lemma testbit_small a n k : 0 ≤ a < 2 ^ n → 0 ≤ n ≤ k → Z.testbit a k = false.
Proof.
  intros Ha Hk. rewrite <- (Z.mod_small a (2 ^ n)) by done.
  by apply Z.mod_pow2_bits_high.
Qed.

(** Packing a low field below a high one. *)
Lemma lor_shiftl a b n :
  0 ≤ n → 0 ≤ a < 2 ^ n → Z.lor a (Z.shiftl b n) = a + b * 2 ^ n.
Proof.
  intros Hn Ha. rewrite <- Z.shiftl_mul_pow2 by done.
  assert (Z.land a (Z.shiftl b n) = 0) as H0.
  { apply Z.bits_inj'. intros k Hk. rewrite Z.land_spec, Z.bits_0.
    destruct (Z.lt_ge_cases k n).
    - rewrite (Z.shiftl_spec_low b n k) by done. apply andb_false_r.
    - by rewrite (testbit_small a n k) by lia. }
  by rewrite Z.add_nocarry_lxor, Z.lxor_lor.
Qed.

(** The idiom [v & (1u << n)] tests bit [n]. *)
Lemma land_bit v n : 0 ≤ n < 32 → (Z.land v (u32 (Z.shiftl 1 n)) =? 0) = negb (Z.testbit v n).
Proof.
  intros Hn. destruct (Z.testbit v n) eqn:E; cbn [negb].
  - apply Z.eqb_neq. intros Hz.
    assert (Z.testbit (Z.land v (u32 (Z.shiftl 1 n))) n = true) as Hb.
    { rewrite Z.land_spec, E, testbit_u32, testbit_shiftl1, Z.eqb_refl by lia.
      by rewrite (proj2 (Z.ltb_lt _ _)) by lia. }
    by rewrite Hz, Z.bits_0 in Hb.
  - apply Z.eqb_eq, Z.bits_inj'. intros k Hk.
    rewrite Z.land_spec, Z.bits_0, testbit_u32, testbit_shiftl1 by lia.
    destruct (Z.eqb_spec k n) as [->|]; [by rewrite E|]. by rewrite !andb_false_r.
Qed.
