(* ===== verification/Machine.v ===== *)
(** The processor as the kernel sees it: port I/O against a device given by its
    responses, the interrupt flag, the descriptor-table registers and the
    segment registers (the inline assembly of src/).

    A device is a function of the whole interaction so far: the byte [inb]
    returns is [port_in] of the trace of port accesses and processor events.
    Any deterministic hardware, with any timing, is such a function; what a
    driver relies on is stated as a property of it. *)

From S2P Require Import Prelude.

#[local] Open Scope Z_scope.
#[local] Open Scope c_scope.

(** What the kernel and the processor do to the outside, in order. *)
Inductive event : Type :=
| EIn (port v : Z)          (* inb: the byte read *)
| EOut (port v : Z)         (* outb *)
| EPause                    (* pause *)
| EHlt                      (* hlt *)
| ESti
| ECli
| ELgdt (limit base : Z)
| ELidt (limit base : Z)
| ELjmp (sel : Z)           (* far jump: CS reload *)
| ESeg (sel : Z)            (* DS, ES, FS, GS, SS reload *)
| EVector (v : Z).          (* an interrupt or exception is taken *)

#[global] Instance event_eq_dec : EqDecision event.
Proof. solve_decision. Defined.

Record cpu : Type := mk_cpu {
  trace : list event;        (* oldest first *)
  if_flag : bool;            (* EFLAGS.IF *)
  gdtr : Z * Z;              (* limit, base *)
  idtr : Z * Z;
  seg_cs : Z;
  seg_data : Z               (* DS = ES = FS = GS = SS *)
}.

Definition log (e : event) (c : cpu) : cpu :=
  mk_cpu (trace c ++ [e]) (if_flag c) (gdtr c) (idtr c) (seg_cs c) (seg_data c).

Definition set_if (b : bool) (c : cpu) : cpu :=
  mk_cpu (trace c) b (gdtr c) (idtr c) (seg_cs c) (seg_data c).

(** The processor takes an interrupt: it acknowledges it with the vector (the
    controllers see this) and clears the interrupt flag. *)
Definition take_vector (v : Z) (c : cpu) : cpu := set_if false (log (EVector v) c).

(** The hardware behind the I/O ports. *)
Class Hardware : Type := port_in : list event → Z → Z.

Section io.
Context {S : Type} `{!Lens S cpu} `{!Hardware}.

(** [static inline void outb(uint16_t port, uint8_t val)] *)
Definition outb (port val : Z) : M S unit := modify (log (EOut (u16 port) (u8 val))).

(** [static inline uint8_t inb(uint16_t port)] *)
Definition inb (port : Z) : M S Z :=
  fun s =>
    let v := u8 (port_in (trace (view s)) (u16 port)) in
    Ret v (put (log (EIn (u16 port) v) (view s)) s).

Definition pause : M S unit := modify (log EPause).

(** [interrupts_enable] / [interrupts_disable]: the sti and cli instructions. *)
Definition sti : M S unit := modify (fun c => set_if true (log ESti c)).
Definition cli : M S unit := modify (fun c => set_if false (log ECli c)).

Definition lidt (limit base : Z) : M S unit :=
  modify (fun c => mk_cpu (trace c ++ [ELidt limit base]) (if_flag c) (gdtr c)
                     (limit, base) (seg_cs c) (seg_data c)).

Definition lgdt (limit base : Z) : M S unit :=
  modify (fun c => mk_cpu (trace c ++ [ELgdt limit base]) (if_flag c) (limit, base)
                     (idtr c) (seg_cs c) (seg_data c)).

Definition ljmp (sel : Z) : M S unit :=
  modify (fun c => mk_cpu (trace c ++ [ELjmp sel]) (if_flag c) (gdtr c) (idtr c)
                     sel (seg_data c)).

Definition load_segs (sel : Z) : M S unit :=
  modify (fun c => mk_cpu (trace c ++ [ESeg sel]) (if_flag c) (gdtr c) (idtr c)
                     (seg_cs c) sel).

End io.

(** Keep everything but the trace. *)
Definition with_trace (tr : list event) (c : cpu) : cpu :=
  mk_cpu tr (if_flag c) (gdtr c) (idtr c) (seg_cs c) (seg_data c).

Lemma with_trace_trace tr c : trace (with_trace tr c) = tr.
Proof. done. Qed.

Lemma with_trace_twice tr tr' c : with_trace tr (with_trace tr' c) = with_trace tr c.
Proof. done. Qed.

Lemma log_with_trace e c : log e c = with_trace (trace c ++ [e]) c.
Proof. done. Qed.

Lemma with_trace_id c : with_trace (trace c) c = c.
Proof. by destruct c. Qed.

#[export] Hint Rewrite with_trace_trace with_trace_twice log_with_trace : lens.

(** ** Events the polling loop may produce *)

(** A read of [port], or a pause. *)
Definition poll_event (port : Z) (e : event) : Prop :=
  match e with EIn p _ => p = u16 port | EPause => True | _ => False end.

(** The port accesses among [l] are on the ports [P], and no interrupt is taken. *)
Definition on_ports (P : Z → bool) (l : list event) : Prop :=
  Forall (fun e => match e with EIn p _ | EOut p _ => P p = true | EVector _ => False | _ => True end) l.

Lemma on_ports_app P l1 l2 : on_ports P l1 → on_ports P l2 → on_ports P (l1 ++ l2).
Proof. intros. by apply Forall_app. Qed.

Lemma on_ports_impl (P Q : Z → bool) l :
  (∀ p, P p = true → Q p = true) → on_ports P l → on_ports Q l.
Proof. intros H Hl. eapply Forall_impl; [exact Hl|]. intros [] He; cbn in *; auto. Qed.

Lemma on_ports_poll port P l :
  P (u16 port) = true → Forall (poll_event port) l → on_ports P l.
Proof.
  intros HP Hl. eapply Forall_impl; [exact Hl|]. intros [] He; cbn in *; try done. by subst.
Qed.

(** The machine after the further events [l], nothing else changed. *)
Definition grow {S : Type} `{!Lens S cpu} (l : list event) (s : S) : S :=
  put (with_trace (trace (view s) ++ l) (view s)) s.

Section io_lemmas.
Context {S : Type} `{!Lens S cpu}.

Lemma view_grow l (s : S) : view (grow l s) = with_trace (trace (view s) ++ l) (view s).
Proof. apply view_put. Qed.

Lemma trace_grow l (s : S) : trace (view (grow l s)) = trace (view s) ++ l.
Proof. by rewrite view_grow. Qed.

Lemma grow_grow l1 l2 (s : S) : grow l2 (grow l1 s) = grow (l1 ++ l2) s.
Proof.
  unfold grow. rewrite view_put, put_put. cbn. by rewrite app_assoc.
Qed.

Lemma grow_nil (s : S) : grow [] s = s.
Proof. unfold grow. by rewrite app_nil_r, with_trace_id, put_view. Qed.

Lemma grow_inj l1 l2 (s : S) : grow l1 s = grow l2 s → l1 = l2.
Proof.
  intros H. apply (app_inv_head (trace (view s))). by rewrite <- !trace_grow, H.
Qed.

Lemma view_grow_other {D : Type} `{!Lens S D} `{!Indep S cpu D} l (s : S) :
  view (C := D) (grow l s) = view s.
Proof. apply view_put_r. Qed.

Lemma put_grow {D : Type} `{!Lens S D} `{!Indep S cpu D} (d : D) l (s : S) :
  put d (grow l s) = grow l (put d s).
Proof. unfold grow. by rewrite <- put_comm, view_put_l. Qed.

Lemma put_cpu_grow (c : cpu) l (s : S) : put c (grow l s) = put c s.
Proof. apply put_put. Qed.

Context `{!Hardware}.

Lemma outb_eq port v (s : S) :
  outb port v s = Ret tt (grow [EOut (u16 port) (u8 v)] s).
Proof. done. Qed.

Lemma inb_eq port (s : S) :
  let v := u8 (port_in (trace (view s)) (u16 port)) in
  inb port s = Ret v (grow [EIn (u16 port) v] s).
Proof. done. Qed.

End io_lemmas.

(** Run a straight-line sequence of port writes: each step extends the trace. *)
Ltac step_outb := rewrite (bind_ret _ _ _ _ _ (outb_eq _ _ _)), ?grow_grow; cbn [app].
