(* ===== verification/Planned.v ===== *)
(** The interfaces that announce later versions (process/scheduler.c,
    process/scheduler.h, fs/vfs.c, fs/vfs.h): two handle types, and three functions
    whose bodies hold comments only. Nothing in the kernel calls them. *)

From S2P Require Import Prelude.

(** A 32-bit unsigned and a 32-bit signed integer. *)
Definition pid_t : Type := Z.
Definition fd_t : Type := Z.

Section planned.
Context {S : Type}.

Definition scheduler_init : M S unit := mret tt.

Definition scheduler_yield : M S unit := mret tt.

Definition vfs_init : M S unit := mret tt.

End planned.
