(* ===== verification/Vga.v ===== *)
(** The VGA text console (drivers/vga.c, drivers/vga.h): an 80x25 screen of
    16-bit cells, a cursor and a colour attribute; the terminal it implements,
    as a list of rows, and the proof that it does. *)

From S2P Require Import Prelude.

#[local] Open Scope Z_scope.
#[local] Open Scope c_scope.

Definition VGA_WIDTH : Z := 80.
Definition VGA_HEIGHT : Z := 25.

(** [vga_color_t] *)
Inductive vga_color_t : Type :=
| VGA_COLOR_BLACK | VGA_COLOR_BLUE | VGA_COLOR_GREEN | VGA_COLOR_CYAN
| VGA_COLOR_RED | VGA_COLOR_MAGENTA | VGA_COLOR_BROWN | VGA_COLOR_LIGHT_GREY
| VGA_COLOR_DARK_GREY | VGA_COLOR_LIGHT_BLUE | VGA_COLOR_LIGHT_GREEN
| VGA_COLOR_LIGHT_CYAN | VGA_COLOR_LIGHT_RED | VGA_COLOR_LIGHT_MAGENTA
| VGA_COLOR_YELLOW | VGA_COLOR_WHITE.

Definition color_code (c : vga_color_t) : Z :=
  match c with
  | VGA_COLOR_BLACK => 0 | VGA_COLOR_BLUE => 1 | VGA_COLOR_GREEN => 2
  | VGA_COLOR_CYAN => 3 | VGA_COLOR_RED => 4 | VGA_COLOR_MAGENTA => 5
  | VGA_COLOR_BROWN => 6 | VGA_COLOR_LIGHT_GREY => 7 | VGA_COLOR_DARK_GREY => 8
  | VGA_COLOR_LIGHT_BLUE => 9 | VGA_COLOR_LIGHT_GREEN => 10
  | VGA_COLOR_LIGHT_CYAN => 11 | VGA_COLOR_LIGHT_RED => 12
  | VGA_COLOR_LIGHT_MAGENTA => 13 | VGA_COLOR_YELLOW => 14 | VGA_COLOR_WHITE => 15
  end.

(** The statics of vga.c; [vga_buffer] is the cell memory at 0xB8000. *)
Record vga : Type := mk_vga {
  vga_buffer : list Z;
  vga_row : Z;
  vga_col : Z;
  vga_color : Z
}.

Definition set_buffer (b : list Z) (v : vga) : vga :=
  mk_vga b (vga_row v) (vga_col v) (vga_color v).
Definition set_cursor (r c : Z) (v : vga) : vga :=
  mk_vga (vga_buffer v) r c (vga_color v).

(** Pack a foreground/background pair into one attribute byte. *)
Definition make_color (fg bg : vga_color_t) : Z :=
  u8 (Z.lor (u8 (color_code fg)) (Z.shiftl (u8 (color_code bg)) 4)).

(** Pack a character and an attribute into one cell. *)
Definition make_entry (c color : Z) : Z :=
  u16 (Z.lor (u16 c) (Z.shiftl (u16 color) 8)).

(** [vga_buffer[dst] = vga_buffer[src]] *)
Definition move_cell (dst src : Z) (buf : list Z) : list Z :=
  let buf := access buf src in buf.[dst <- buf.[src]].

(** Scroll the screen up by one line: the two loops on the cells, ... *)
Definition scroll_cells (color : Z) (buf : list Z) : list Z :=
  let buf :=
    for_range 0 (VGA_HEIGHT - 1) (fun y =>
      for_range 0 VGA_WIDTH (fun x =>
        move_cell (y * VGA_WIDTH + x) ((y + 1) * VGA_WIDTH + x))) buf in
  for_range 0 VGA_WIDTH (fun x buf =>
    buf.[(VGA_HEIGHT - 1) * VGA_WIDTH + x <- make_entry 32 color]) buf.

(** ... and the whole function. *)
Definition vga_scroll (v : vga) : vga :=
  mk_vga (scroll_cells (vga_color v) (vga_buffer v)) (VGA_HEIGHT - 1)
    (vga_col v) (vga_color v).

Definition vga_clear (v : vga) : vga :=
  let v := set_cursor 0 0 v in
  set_buffer
    (for_range 0 VGA_HEIGHT (fun y =>
       for_range 0 VGA_WIDTH (fun x buf =>
         buf.[y * VGA_WIDTH + x <- make_entry 32 (vga_color v)])) (vga_buffer v)) v.

Definition vga_set_color (fg bg : vga_color_t) (v : vga) : vga :=
  mk_vga (vga_buffer v) (vga_row v) (vga_col v) (make_color fg bg).

Definition vga_init (v : vga) : vga :=
  vga_clear (vga_set_color VGA_COLOR_LIGHT_GREY VGA_COLOR_BLACK v).

(** [if (++vga_row == VGA_HEIGHT) vga_scroll();] *)
Definition next_row (v : vga) : vga :=
  let v := set_cursor (vga_row v +u 1) (vga_col v) v in
  if vga_row v =? VGA_HEIGHT then vga_scroll v else v.

Definition vga_putchar (c : Z) (v : vga) : vga :=
  if c =? 10 then next_row (set_cursor (vga_row v) 0 v)
  else if c =? 13 then set_cursor (vga_row v) 0 v
  else
    let v := set_buffer
               ((vga_buffer v).[vga_row v * VGA_WIDTH + vga_col v
                                  <- make_entry (u8 c) (vga_color v)]) v in
    let v := set_cursor (vga_row v) (vga_col v +u 1) v in
    if vga_col v =? VGA_WIDTH then next_row (set_cursor (vga_row v) 0 v) else v.

(** [while ( *str) vga_putchar( *str++);] on the bytes before the NUL. *)
Fixpoint vga_puts (str : list Z) (v : vga) : vga :=
  match str with
  | [] => v
  | c :: str => vga_puts str (vga_putchar c v)
  end.

(** ** Invariant *)

Definition cells : nat := Z.to_nat (VGA_HEIGHT * VGA_WIDTH).

Record vga_ok (v : vga) : Prop := {
  vga_ok_length : length (vga_buffer v) = cells;
  vga_ok_row : 0 ≤ vga_row v < VGA_HEIGHT;
  vga_ok_col : 0 ≤ vga_col v < VGA_WIDTH;
  vga_ok_cells : Forall (fun e => 0 ≤ e < 65536) (vga_buffer v)
}.

(** ** The terminal: what the console is for *)

Record term : Type := mk_term {
  t_rows : list (list Z);
  t_row : nat;
  t_col : nat;
  t_attr : Z
}.

Definition blank_row (attr : Z) : list Z := replicate 80 (make_entry 32 attr).

(** Move to the start of the next row; past the last one, the top row leaves
    the screen and a blank row enters at the bottom. *)
Definition t_newline (t : term) : term :=
  if decide (t_row t = 24%nat)
  then mk_term (tail (t_rows t) ++ [blank_row (t_attr t)]) 24 0 (t_attr t)
  else mk_term (t_rows t) (S (t_row t)) 0 (t_attr t).

Definition t_write (e : Z) (t : term) : term :=
  mk_term (alter (fun row => <[t_col t := e]> row) (t_row t) (t_rows t))
    (t_row t) (t_col t) (t_attr t).

Definition t_putchar (c : Z) (t : term) : term :=
  if decide (c = 10) then t_newline t
  else if decide (c = 13) then mk_term (t_rows t) (t_row t) 0 (t_attr t)
  else
    let t := t_write (make_entry c (t_attr t)) t in
    if decide (t_col t = 79%nat) then t_newline t
    else mk_term (t_rows t) (t_row t) (S (t_col t)) (t_attr t).

Definition t_puts (str : list Z) (t : term) : term := fold_left (fun t c => t_putchar c t) str t.

(** The console state shows the terminal. *)
Record shows (v : vga) (t : term) : Prop := {
  shows_buffer : vga_buffer v = mjoin (t_rows t);
  shows_height : length (t_rows t) = 25%nat;
  shows_width : Forall (fun row => length row = 80%nat) (t_rows t);
  shows_row : vga_row v = Z.of_nat (t_row t);
  shows_col : vga_col v = Z.of_nat (t_col t);
  shows_attr : vga_color v = t_attr t;
  shows_row_lt : (t_row t < 25)%nat;
  shows_col_lt : (t_col t < 80)%nat
}.

(** ** Lemmas *)

Lemma scroll_copy buf :
  length buf = cells →
  let buf' := for_range 0 (VGA_HEIGHT - 1) (fun y =>
    for_range 0 VGA_WIDTH (fun x =>
      move_cell (y * VGA_WIDTH + x) ((y + 1) * VGA_WIDTH + x))) buf in
  length buf' = cells ∧
  ∀ i, 0 ≤ i < 2000 → rd buf' i = if i <? 1920 then rd buf (i + 80) else rd buf i.
Proof.
  intros Hl buf'. unfold buf', VGA_HEIGHT, VGA_WIDTH. clear buf'.
  rewrite (for_range_ext _ (fun y => for_range 0 80 (fun x =>
    (fun k => move_cell k (k + 80)) (y * 80 + x)))).
  2: { intros y x _. apply for_range_ext. intros j b _. f_equal. lia. }
  rewrite (for_range_nested (fun k => move_cell k (k + 80))) by lia.
  change ((25 - 1) * 80) with 1920.
  apply (for_range_ind (fun k b => length b = cells ∧ ∀ i, 0 ≤ i < 2000 →
    rd b i = if i <? k then rd buf (i + 80) else rd buf i)); [lia|split; [done|]|].
  - intros i Hi. destruct (Z.ltb_spec i 0); [lia|done].
  - intros k b Hk [Hb IH].
    assert (Z.of_nat (length b) = 2000) as Hb' by (rewrite Hb; unfold cells, VGA_HEIGHT, VGA_WIDTH; lia).
    unfold move_cell. cbv zeta. rewrite access_in by lia.
    split; [by rewrite length_wr by lia|]. intros i Hi.
    destruct (decide (i = k)) as [->|Hne].
    + rewrite rd_wr_eq by lia.
      rewrite IH by lia. destruct (Z.ltb_spec (k + 80) k); [lia|].
      destruct (Z.ltb_spec k (k + 1)); [done|lia].
    + rewrite rd_wr_ne by lia. rewrite IH by lia.
      destruct (Z.ltb_spec i k), (Z.ltb_spec i (k + 1)); done || lia.
Qed.

(** Storing [e] at [lo .. hi - 1]. *)
Lemma fill_spec e off lo hi buf :
  0 ≤ off + lo → lo ≤ hi → off + hi ≤ Z.of_nat (length buf) →
  let buf' := for_range lo hi (fun x b => b.[off + x <- e]) buf in
  length buf' = length buf ∧
  ∀ i, 0 ≤ i → rd buf' i = if (off + lo <=? i) && (i <? off + hi) then e else rd buf i.
Proof.
  intros H0 Hle Hhi.
  apply (for_range_ind (fun x b => length b = length buf ∧ ∀ i, 0 ≤ i →
    rd b i = if (off + lo <=? i) && (i <? off + x) then e else rd buf i));
    [done|split; [done|]|].
  - intros i Hi. destruct (Z.leb_spec (off + lo) i), (Z.ltb_spec i (off + lo)); done || lia.
  - intros x b Hx [Hb IH]. split; [by rewrite length_wr by lia|]. intros i Hi.
    destruct (decide (i = off + x)) as [->|Hne].
    + rewrite rd_wr_eq by lia.
      destruct (Z.leb_spec (off + lo) (off + x)), (Z.ltb_spec (off + x) (off + (x + 1))); done || lia.
    + rewrite rd_wr_ne by lia. rewrite IH by lia.
      destruct (Z.leb_spec (off + lo) i), (Z.ltb_spec i (off + x)),
        (Z.ltb_spec i (off + (x + 1))); done || lia.
Qed.

Lemma scroll_cells_eq color buf :
  length buf = cells → scroll_cells color buf = drop 80 buf ++ blank_row color.
Proof.
  intros Hl. destruct (scroll_copy _ Hl) as [Hl' Hrd]. unfold scroll_cells.
  set (b := for_range 0 (VGA_HEIGHT - 1) _ _) in *. clearbody b. cbn zeta in Hrd.
  destruct (fill_spec (make_entry 32 color) ((VGA_HEIGHT - 1) * VGA_WIDTH)
              0 VGA_WIDTH b) as [Hl2 Hrd2];
    [unfold VGA_HEIGHT, VGA_WIDTH; lia..|rewrite Hl'; done|].
  unfold cells, VGA_HEIGHT, VGA_WIDTH in *.
  apply rd_ext.
  - rewrite Hl2, Hl', length_app, length_drop, Hl. unfold blank_row.
    rewrite length_replicate. lia.
  - intros i. rewrite Hl2, Hl'. intros Hi.
    rewrite Hrd2, Hrd, rd_app, length_drop, Hl by lia.
    unfold blank_row.
    destruct (Z.leb_spec ((25 - 1) * 80 + 0) i), (Z.ltb_spec i ((25 - 1) * 80 + 80)),
      (Z.ltb_spec i (Z.of_nat (Z.to_nat (25 * 80) - 80))), (Z.ltb_spec i 1920);
      try lia; cbn [andb].
    + by rewrite rd_replicate by lia.
    + by rewrite rd_drop by lia.
Qed.

Lemma scroll_buffer v :
  length (vga_buffer v) = cells →
  vga_buffer (vga_scroll v) = drop 80 (vga_buffer v) ++ blank_row (vga_color v).
Proof. apply scroll_cells_eq. Qed.

Lemma join_insert (rows : list (list Z)) w r c e :
  Forall (fun row => length row = w) rows → (r < length rows)%nat → (c < w)%nat →
  <[(r * w + c)%nat := e]> (mjoin rows)
  = mjoin (alter (fun row => <[c := e]> row) r rows).
Proof.
  intros Hw. revert r. induction Hw as [|row rows Hrow Hw IH]; intros r Hr Hc; cbn in *; [lia|].
  destruct r as [|r]; cbn.
  - rewrite insert_app_l by lia. done.
  - rewrite insert_app_r_alt by lia. f_equal.
    replace (w + r * w + c - length row)%nat with (r * w + c)%nat by lia.
    apply IH; lia.
Qed.

Lemma join_length (rows : list (list Z)) w :
  Forall (fun row => length row = w) rows → length (mjoin rows) = (length rows * w)%nat.
Proof.
  induction 1 as [|row rows Hrow Hw IH]; [done|].
  change (mjoin (row :: rows)) with (row ++ mjoin rows).
  rewrite length_app, IH. cbn. lia.
Qed.

Lemma shows_length v t : shows v t → length (vga_buffer v) = cells.
Proof.
  intros []. rewrite shows_buffer0, (join_length _ 80), shows_height0 by done. done.
Qed.

Lemma reshape_width (l : list Z) w h :
  length l = (h * w)%nat →
  Forall (fun row => length row = w) (reshape (replicate h w) l).
Proof.
  revert l. induction h as [|h IH]; intros l Hl; cbn in *; [constructor|].
  constructor; [rewrite length_take; lia|]. apply IH. rewrite length_drop. lia.
Qed.

(** Any console state within its invariant shows some terminal. *)
Lemma shows_exists v : vga_ok v → ∃ t, shows v t.
Proof.
  intros [Hl Hr Hc _]. unfold VGA_HEIGHT, VGA_WIDTH in *.
  exists (mk_term (reshape (replicate 25 80%nat) (vga_buffer v))
            (Z.to_nat (vga_row v)) (Z.to_nat (vga_col v)) (vga_color v)).
  split; cbn [t_rows t_row t_col t_attr]; try lia; try done.
  - rewrite join_reshape; [done|]. by rewrite Hl.
  - by apply reshape_width.
Qed.

Lemma shows_scroll v t :
  shows v t → t_row t = 24%nat →
  shows (vga_scroll v)
    (mk_term (tail (t_rows t) ++ [blank_row (t_attr t)]) 24 (t_col t) (t_attr t)).
Proof.
  intros Hs Hrow. pose proof (shows_length _ _ Hs) as Hlen. destruct Hs.
  split; cbn [t_rows t_row t_col t_attr]; try done; try lia.
  - rewrite scroll_buffer by done. rewrite shows_buffer0, shows_attr0.
    destruct (t_rows t) as [|r rs]; [done|]. cbn [tail].
    inversion_clear shows_width0 as [|?? Hr Hrs].
    change (mjoin (r :: rs)) with (r ++ mjoin rs).
    by rewrite <- Hr, drop_app_length, join_app.
  - rewrite length_app. destruct (t_rows t); cbn in *; lia.
  - apply Forall_app. split; [|by repeat constructor].
    destruct (t_rows t); [done|]. by inversion shows_width0.
Qed.

Lemma shows_cr v t : shows v t → shows (set_cursor (vga_row v) 0 v)
  (mk_term (t_rows t) (t_row t) 0 (t_attr t)).
Proof. intros []. split; cbn; done || lia. Qed.

Lemma shows_next_row v t :
  shows v t → t_col t = 0%nat → shows (next_row v) (t_newline t).
Proof.
  intros Hs Hc. pose proof (shows_row _ _ Hs). pose proof (shows_row_lt _ _ Hs).
  unfold next_row, t_newline, VGA_HEIGHT. cbn [vga_row set_cursor].
  rewrite u32_id by lia. case_decide as Hd.
  - rewrite (proj2 (Z.eqb_eq _ _)) by lia.
    pose proof (shows_scroll _ _ Hs Hd) as Hs2. rewrite Hc in Hs2.
    replace (vga_scroll (set_cursor (vga_row v + 1) (vga_col v) v)) with (vga_scroll v);
      [done|]. unfold vga_scroll. done.
  - rewrite (proj2 (Z.eqb_neq _ _)) by lia. destruct Hs.
    split; cbn; done || lia.
Qed.

Lemma shows_write v t c :
  shows v t → 0 ≤ c < 256 →
  shows (set_buffer ((vga_buffer v).[vga_row v * VGA_WIDTH + vga_col v
                                       <- make_entry (u8 c) (vga_color v)]) v)
    (t_write (make_entry c (t_attr t)) t).
Proof.
  intros Hs Hc. pose proof (shows_length _ _ Hs) as Hl. destruct Hs. split; cbn [t_rows t_row t_col t_attr t_write set_buffer vga_buffer
    vga_row vga_col vga_color]; try done.
  - rewrite shows_row0, shows_col0, shows_attr0, shows_buffer0, (u8_id c) by done.
    rewrite wr_in by (rewrite <- shows_buffer0, Hl; unfold cells, VGA_HEIGHT, VGA_WIDTH; lia).
    rewrite <- (join_insert _ 80) by (done || lia). f_equal.
    unfold VGA_WIDTH. lia.
  - by rewrite length_alter.
  - apply Forall_alter; [done|]. intros row _ Hrow. cbn. by rewrite length_insert.
Qed.

Lemma shows_putchar v t c :
  shows v t → 0 ≤ c < 256 → shows (vga_putchar c v) (t_putchar c t).
Proof.
  intros Hs Hc. unfold vga_putchar, t_putchar.
  destruct (Z.eqb_spec c 10); case_decide; try done.
  { replace (t_newline t) with (t_newline (mk_term (t_rows t) (t_row t) 0 (t_attr t))) by done.
    by apply shows_next_row; [apply shows_cr|]. }
  destruct (Z.eqb_spec c 13); case_decide; try done.
  { by apply shows_cr. }
  pose proof (shows_write _ _ c Hs Hc) as Hw.
  set (v1 := set_buffer _ v) in *. set (t1 := t_write _ t) in *. clearbody v1 t1.
  destruct Hw as []. unfold VGA_WIDTH. cbn [set_cursor vga_col vga_row].
  rewrite u32_id by lia. case_decide.
  - rewrite (proj2 (Z.eqb_eq _ _)) by lia.
    replace (t_newline t1) with (t_newline (mk_term (t_rows t1) (t_row t1) 0 (t_attr t1))) by done.
    apply shows_next_row; [|done]. split; cbn; done || lia.
  - rewrite (proj2 (Z.eqb_neq _ _)) by lia. split; cbn; done || lia.
Qed.

Lemma shows_ok v t :
  shows v t → Forall (fun e => 0 ≤ e < 65536) (vga_buffer v) → vga_ok v.
Proof.
  intros Hs Hc. pose proof (shows_length _ _ Hs). destruct Hs.
  split; unfold VGA_HEIGHT, VGA_WIDTH; done || lia.
Qed.

Lemma cells_scroll v :
  vga_ok v → Forall (fun e => 0 ≤ e < 65536) (vga_buffer (vga_scroll v)).
Proof.
  intros [Hl _ _ Hc]. rewrite scroll_buffer by done. apply Forall_app. split.
  - by apply Forall_drop.
  - apply Forall_replicate. apply u16_range.
Qed.

Lemma cells_next_row v :
  vga_ok v → Forall (fun e => 0 ≤ e < 65536) (vga_buffer (next_row v)).
Proof.
  intros Hok. unfold next_row. cbn [vga_row set_cursor].
  destruct (_ =? VGA_HEIGHT); [|apply Hok].
  exact (cells_scroll _ Hok).
Qed.

Lemma vga_ok_set_cursor v c :
  vga_ok v → 0 ≤ c < VGA_WIDTH → vga_ok (set_cursor (vga_row v) c v).
Proof. intros []; by split. Qed.

Lemma vga_ok_next_row v : vga_ok v → vga_ok (next_row v).
Proof.
  intros Hok. pose proof (cells_next_row v Hok) as Hc. destruct Hok as [Hl Hr Hcol _].
  unfold next_row, VGA_HEIGHT in *. cbn [vga_row set_cursor] in *. rewrite u32_id in * by lia.
  destruct (Z.eqb_spec (vga_row v + 1) 25); split; try done; try (cbn; unfold VGA_HEIGHT; lia).
  rewrite scroll_buffer by done. unfold blank_row. rewrite length_app, length_drop, length_replicate.
  cbn [vga_buffer set_cursor]. rewrite Hl. done.
Qed.

(** The cell under the cursor is one of the screen. *)
Lemma cursor_cell v :
  vga_ok v → 0 ≤ vga_row v * VGA_WIDTH + vga_col v < Z.of_nat (length (vga_buffer v)).
Proof. intros [Hl Hr Hc _]. rewrite Hl. unfold cells, VGA_HEIGHT, VGA_WIDTH in *. lia. Qed.

(** Any value may be put: the driver keeps its low byte. *)
Lemma vga_ok_putchar v c : vga_ok v → vga_ok (vga_putchar c v).
Proof.
  intros Hok. unfold vga_putchar.
  destruct (c =? 10); [by apply vga_ok_next_row, vga_ok_set_cursor|].
  destruct (c =? 13); [by apply vga_ok_set_cursor|].
  set (v1 := set_buffer _ v).
  assert (vga_ok v1) as [Hl Hr Hc Hw].
  { pose proof (cursor_cell v Hok). destruct Hok. split; cbn; try done; [by rewrite length_wr|].
    apply Forall_wr; [done|]. apply u16_range. }
  clearbody v1. cbn [vga_col vga_row set_cursor]. unfold VGA_WIDTH in Hc |- *. rewrite u32_id by lia.
  destruct (Z.eqb_spec (vga_col v1 + 1) 80).
  - apply vga_ok_next_row. by split; [..|done].
  - split; try done. cbn. unfold VGA_WIDTH. lia.
Qed.

Lemma vga_puts_fold str v : vga_puts str v = fold_left (fun v c => vga_putchar c v) str v.
Proof. revert v. induction str as [|c str IH]; intros v; [done|apply IH]. Qed.

Lemma vga_ok_puts str v : vga_ok v → vga_ok (vga_puts str v).
Proof.
  revert v. induction str as [|c str IH]; intros v Hok; [done|]. by apply IH, vga_ok_putchar.
Qed.

Lemma clear_buffer v :
  length (vga_buffer v) = cells →
  vga_buffer (vga_clear v) = replicate cells (make_entry 32 (vga_color v)).
Proof.
  intros Hl. unfold vga_clear. cbn [vga_buffer set_buffer set_cursor vga_color].
  set (e := make_entry 32 (vga_color v)). unfold VGA_HEIGHT, VGA_WIDTH.
  rewrite (for_range_nested (fun k b => wr b k e)) by lia.
  change (25 * 80) with 2000.
  set (b := for_range 0 2000 _ _).
  assert (length b = length (vga_buffer v) ∧
          ∀ i, 0 ≤ i → rd b i = if (0 <=? i) && (i <? 2000) then e else rd (vga_buffer v) i)
    as [Hl' Hrd] by (apply (fill_spec e 0 0 2000); [lia..|by rewrite Hl]).
  clearbody b.
  rewrite Hl in Hl'. apply rd_ext; [by rewrite Hl', length_replicate|].
  rewrite Hl'. intros i Hi. rewrite Hrd by lia.
  unfold cells, VGA_HEIGHT, VGA_WIDTH in *. rewrite rd_replicate by lia.
  destruct (Z.leb_spec 0 i), (Z.ltb_spec i 2000); done || lia.
Qed.

(** ** Operations as a client sees them *)

Inductive vga_op : Type :=
| OpPutchar (c : Z)
| OpPuts (str : list Z)
| OpSetColor (fg bg : vga_color_t)
| OpClear.

Definition vga_run (o : vga_op) (v : vga) : vga :=
  match o with
  | OpPutchar c => vga_putchar c v
  | OpPuts str => vga_puts str v
  | OpSetColor fg bg => vga_set_color fg bg v
  | OpClear => vga_clear v
  end.

Lemma vga_ok_clear v : length (vga_buffer v) = cells → vga_ok (vga_clear v).
Proof.
  intros Hl. pose proof (clear_buffer v Hl) as Hb.
  split; rewrite ?Hb; cbn [vga_row vga_col vga_clear set_buffer set_cursor];
    unfold VGA_HEIGHT, VGA_WIDTH; try lia.
  - apply length_replicate.
  - apply Forall_replicate, u16_range.
Qed.

Lemma vga_ok_run o v : vga_ok v → vga_ok (vga_run o v).
Proof.
  intros Hok. destruct o; cbn in *.
  - by apply vga_ok_putchar.
  - by apply vga_ok_puts.
  - destruct Hok. by split.
  - apply vga_ok_clear, Hok.
Qed.

(** A buffer that was lost to an access outside stays lost. *)
Lemma vga_lost o v : vga_buffer v = [] → vga_buffer (vga_run o v) = [].
Proof.
  assert (∀ (f : Z → list Z → list Z) lo hi, (∀ i, f i [] = []) → for_range lo hi f [] = []) as Hloop.
  { intros f lo hi Hf. unfold for_range. generalize (Z.to_nat (hi - lo)) as n. intros n.
    revert lo. induction n as [|n IH]; intros i; [reflexivity|]. cbn [iter_from]. by rewrite Hf. }
  assert (∀ w, vga_buffer w = [] → vga_buffer (next_row w) = []) as Hnext.
  { intros w Hw. unfold next_row. destruct (_ =? VGA_HEIGHT); [|done].
    change (scroll_cells (vga_color w) (vga_buffer w) = []). unfold scroll_cells. rewrite Hw.
    set (b := for_range 0 (VGA_HEIGHT - 1) _ []). assert (b = []) as ->.
    - apply Hloop. intros y. apply Hloop. intros x. unfold move_cell. cbv zeta.
      by rewrite access_nil, wr_nil.
    - apply Hloop. intros x. apply wr_nil. }
  assert (∀ c w, vga_buffer w = [] → vga_buffer (vga_putchar c w) = []) as Hput.
  { intros c w Hw. unfold vga_putchar. destruct (c =? 10); [by apply Hnext|].
    destruct (c =? 13); [done|]. cbn zeta.
    destruct (_ =? VGA_WIDTH); [apply Hnext|]; cbn [vga_buffer set_cursor set_buffer];
      by rewrite Hw, wr_nil. }
  intros Hv. destruct o as [c|str|fg bg|]; cbn [vga_run]; [by apply Hput| |done|].
  - revert v Hv. induction str as [|c str IH]; intros v Hv; [done|]. by apply IH, Hput.
  - unfold vga_clear. cbn [vga_buffer set_cursor set_buffer]. rewrite Hv.
    apply Hloop. intros y. apply Hloop. intros x. apply wr_nil.
Qed.

(** ** Properties *)

(** C39: After [vga_init] on the 2000-cell text buffer, whatever sequence of
    driver calls follows, the cursor stays on the screen, the buffer keeps its
    2000 cells and every cell is a 16-bit word. An access outside the buffer would
    have lost it for good ([vga_lost]): so no call reads or writes outside. *)
Theorem vga_safe (v : vga) (ops : list vga_op) :
  length (vga_buffer v) = cells →
  vga_ok (fold_left (fun v o => vga_run o v) ops (vga_init v)).
Proof.
  intros Hl. assert (vga_ok (vga_init v)) as Hok by (by apply vga_ok_clear).
  revert Hok. generalize (vga_init v). clear v Hl.
  induction ops as [|o ops IH]; intros v Hok; [done|]. by apply IH, vga_ok_run.
Qed.

(** C16: The driver implements an 80x25 terminal: if the console shows the
    terminal [t], then after [vga_puts str] it shows [t] with [str] typed,
    including newlines, carriage returns, line wrap and scrolling. *)
Theorem vga_puts_refines (v : vga) (t : term) (str : list Z) :
  shows v t → Forall (fun c => 0 ≤ c < 256) str →
  shows (vga_puts str v) (t_puts str t).
Proof.
  intros Hs Hstr. revert v t Hs.
  induction Hstr as [|c str Hc Hstr IH]; intros v t Hs; [done|].
  apply IH. by apply shows_putchar.
Qed.

(** The nested in-place copy loops of [vga_scroll] drop the first row and
    append a blank one in the current colour, with the cursor on the last row. *)
Lemma vga_scroll_spec (v : vga) :
  length (vga_buffer v) = cells →
  vga_scroll v
  = mk_vga (drop 80 (vga_buffer v) ++ replicate 80 (make_entry 32 (vga_color v)))
      24 (vga_col v) (vga_color v).
Proof.
  intros Hl. unfold vga_scroll. by rewrite (scroll_cells_eq _ _ Hl).
Qed.

(** A text without control characters that ends before the right edge
    appears at the cursor in the current colour, cell by cell, and nothing else
    changes on the screen. *)
Lemma vga_puts_text (v : vga) (str : list Z) :
  vga_ok v → Forall (fun c => 0 ≤ c < 256 ∧ c ≠ 10 ∧ c ≠ 13) str →
  vga_col v + Z.of_nat (length str) < VGA_WIDTH →
  vga_puts str v
  = mk_vga
      (list_inserts (Z.to_nat (vga_row v * VGA_WIDTH + vga_col v))
         (map (fun c => make_entry c (vga_color v)) str) (vga_buffer v))
      (vga_row v) (vga_col v + Z.of_nat (length str)) (vga_color v).
Proof.
  intros Hok Hstr. revert v Hok.
  induction Hstr as [|c str (Hc & Hc10 & Hc13) Hstr IH]; intros v Hok Hlen.
  { cbn. rewrite Z.add_0_r. by destruct v. }
  cbn [length vga_puts] in *. pose proof (vga_ok_row v Hok). pose proof (vga_ok_col v Hok).
  pose proof (vga_ok_putchar v c Hok) as Hok'. revert IH Hok'. unfold vga_putchar.
  rewrite (proj2 (Z.eqb_neq c 10) Hc10), (proj2 (Z.eqb_neq c 13) Hc13).
  cbn [set_cursor set_buffer vga_col vga_row vga_buffer vga_color].
  unfold VGA_WIDTH in *. rewrite u32_id, u8_id, (proj2 (Z.eqb_neq (vga_col v + 1) 80)) by lia.
  intros IH Hok'. rewrite IH; [|done|cbn; lia].
  cbn [set_cursor set_buffer vga_col vga_row vga_buffer vga_color map list_inserts].
  f_equal; [|lia]. rewrite wr_in by by apply cursor_cell. unfold VGA_WIDTH.
  replace (Z.to_nat (vga_row v * 80 + (vga_col v + 1)))
    with (S (Z.to_nat (vga_row v * 80 + vga_col v))) by lia.
  by rewrite list_insert_inserts_lt by lia.
Qed.

(** A screen cell holds exactly the character and the colours it was built
    from: the low byte is the character, the high byte has the foreground in
    its low nibble and the background in its high nibble. *)
Lemma make_entry_decode (c : Z) (fg bg : vga_color_t) :
  0 ≤ c < 256 →
  let e := make_entry c (make_color fg bg) in
  u8 e = c ∧ Z.land (Z.shiftr e 8) 15 = color_code fg ∧ Z.shiftr e 12 = color_code bg.
Proof.
  intros Hc e. unfold e, make_entry.
  assert (0 ≤ make_color fg bg < 256) as Hcol by apply u8_range.
  assert (Z.land (make_color fg bg) 15 = color_code fg ∧
          Z.shiftr (make_color fg bg) 4 = color_code bg) as [Hfg Hbg]
    by (by destruct fg, bg).
  rewrite lor_shiftl by (rewrite ?u16_id; lia). rewrite !u16_id by (rewrite ?u16_id; lia).
  assert (Z.shiftr (c + make_color fg bg * 2 ^ 8) 8 = make_color fg bg) as H8.
  { rewrite Z.shiftr_div_pow2 by lia. dlia. }
  split_and!.
  - unfold u8. dlia.
  - by rewrite H8.
  - by rewrite <- (Z.shiftr_shiftr _ 8 4), H8 by lia.
Qed.

(** ** Witnesses *)

Definition vga0 : vga := mk_vga (replicate cells 0) 0 0 0.

Lemma vga_safe_witness :
  vga_ok (fold_left (fun v o => vga_run o v)
            [OpPuts (bytes "AstraOS"); OpPutchar 10; OpClear] (vga_init vga0)).
Proof.
  apply vga_safe. apply length_replicate.
Defined.

Definition term0 : term := mk_term (replicate 25 (replicate 80 0)) 24 3 7.

Lemma vga_puts_refines_witness :
  shows (vga_puts [65; 10; 66] (mk_vga (replicate cells 0) 24 3 7))
    (t_puts [65; 10; 66] term0).
Proof.
  apply vga_puts_refines; [|repeat constructor; lia].
  split; try (by vm_compute); cbn; try lia. repeat constructor.
Defined.
