(* ===== verification/Preempt.v ===== *)
(** Interruption inside functions: the operation [preempt] marks the places of a
    driver where an interrupt may be served, and [PreemptOk] is what the drivers
    assume of the code that then runs. *)

From S2P Require Import Prelude Machine Vga.

#[local] Open Scope Z_scope.

(** The ports of COM1. *)
Definition uart_port (p : Z) : bool := (0x3F8 <=? p) && (p <=? 0x3FF).

(** Accesses to other devices than COM1, and interrupts. *)
Definition off_uart : list event → Prop :=
  Forall (fun e => match e with EIn p _ | EOut p _ => uart_port p = false | _ => True end).

Lemma off_uart_app l1 l2 : off_uart l1 → off_uart l2 → off_uart (l1 ++ l2).
Proof. intros. by apply Forall_app. Qed.

Lemma on_ports_off_uart P l :
  (∀ p, P p = true → uart_port p = false) → on_ports P l → off_uart l.
Proof. intros H Hl. eapply Forall_impl; [exact Hl|]. intros [] He; cbn in *; auto. Qed.

(** The accesses to COM1 among the events [l]. *)
Definition com1_event (e : event) : bool :=
  match e with EIn p _ | EOut p _ => uart_port p | _ => false end.
Definition com1 (l : list event) : list event := List.filter com1_event l.

Lemma com1_app l1 l2 : com1 (l1 ++ l2) = com1 l1 ++ com1 l2.
Proof. apply List.filter_app. Qed.

Lemma com1_off l : off_uart l → com1 l = [].
Proof.
  induction 1 as [|e l He Hl IH]; [done|]. unfold com1 in *. cbn [List.filter]. rewrite IH.
  destruct e; cbn [com1_event]; by rewrite ?He.
Qed.

(** Serve the interrupts that are pending. *)
Class Preempt (S : Type) : Type := preempt : M S unit.

(** Whatever is served returns, keeps the screen and the serial port alone and
    otherwise changes the machine along [drift]. The console drivers' own steps
    are drift, too: [drift s s'] says that between [s] and [s'] only consoles and
    interrupt handlers have been at work. *)
Class PreemptOk (S : Type) `{!Lens S vga} `{!Lens S cpu} `{!Preempt S} : Type := {
  drift : S → S → Prop;
  drift_preorder :: PreOrder drift;
  drift_screen (v : vga) s : drift s (put v s);
  drift_uart l s : on_ports uart_port l → drift s (grow l s);
  drift_if s s' : drift s s' → if_flag (view s') = if_flag (view s);
  drift_trace s s' : drift s s' → ∃ l, trace (view s') = trace (view s) ++ l;
  preempt_runs s :
    ∃ s' l, preempt s = Ret tt s' ∧ drift s s' ∧ view (C := vga) s' = view s ∧
      trace (view s') = trace (view s) ++ l ∧ off_uart l
}.

(** A machine on which every interrupt is a key press: the scan code is read and
    the controller gets its end-of-interrupt command. *)
Section busy.
Context {S : Type} `{!Lens S vga} `{!Lens S cpu} `{!Indep S cpu vga} `{!Hardware}.

Definition busy : Preempt S := inb 0x60;; outb 0x20 0x20.

#[local] Existing Instance busy.

(** Nothing but the screen and the trace has changed. *)
Definition console_only (s s' : S) : Prop := ∃ l (v : vga), s' = grow l (put v s).

#[local] Instance console_only_preorder : PreOrder console_only.
Proof.
  split.
  - intros s. exists [], (view s). by rewrite grow_nil, put_view.
  - intros s1 s2 s3 (l1 & v1 & ->) (l2 & v2 & ->). exists (l1 ++ l2), v2.
    by rewrite put_grow, put_put, grow_grow.
Qed.

Program Definition busy_ok : PreemptOk S := {| drift := console_only |}.
Next Obligation. intros v s. exists [], v. by rewrite grow_nil. Qed.
Next Obligation. intros l s _. exists l, (view s). by rewrite put_view. Qed.
Next Obligation. intros s s' (l & v & ->). by rewrite view_grow, view_put_l. Qed.
Next Obligation. intros s s' (l & v & ->). exists l. by rewrite trace_grow, view_put_l. Qed.
Next Obligation.
  intros s. eexists _, _. split.
  { unfold preempt, busy. rewrite (bind_ret _ _ _ _ _ (inb_eq 0x60 s)), outb_eq, grow_grow.
    reflexivity. }
  split; [eexists _, (view s); by rewrite put_view|].
  split; [by apply view_grow_other|]. split; [by rewrite trace_grow|]. by repeat constructor.
Qed.

End busy.

(** ** Interruptible port access *)

Section port.
Context {S : Type} `{!Lens S vga} `{!Lens S cpu} `{!Preempt S} `{!Hardware}.

Definition outb_i (port v : Z) : M S unit := preempt;; outb port v.
Definition inb_i (port : Z) : M S Z := preempt;; inb port.

(** [while (!(inb(port) & mask)) pause;] with a budget of [fuel] reads. *)
Fixpoint wait_bit (fuel : nat) (port mask : Z) : M S unit :=
  match fuel with
  | O => hung
  | Datatypes.S fuel =>
      v ← inb_i port;
      if Z.land v mask =? 0 then preempt;; pause;; wait_bit fuel port mask else mret tt
  end.

End port.

(** ** Polling *)

Section polling.
Context `{!Hardware}.

Definition ready (port mask : Z) (tr : list event) : bool :=
  negb (Z.land (u8 (port_in tr (u16 port))) mask =? 0).

(** The device sets an awaited bit within [n] reads of the status port, whatever
    other devices are accessed in between. *)
Fixpoint responds (n : nat) (port mask : Z) (tr : list event) : Prop :=
  match n with
  | O => False
  | S n => ∀ l, off_uart l →
      ready port mask (tr ++ l) = true ∨
      ∀ l', off_uart l' →
        responds n port mask
          (tr ++ l ++ [EIn (u16 port) (u8 (port_in (tr ++ l) (u16 port)))] ++ l' ++ [EPause])
  end.

Lemma responds_mono n m port mask tr :
  (n ≤ m)%nat → responds n port mask tr → responds m port mask tr.
Proof.
  revert m tr. induction n as [|n IH]; intros m tr Hm Hr; [done|].
  destruct m as [|m]; [lia|]. intros l Hl. destruct (Hr l Hl) as [?|Hn]; [by left|right].
  intros l' Hl'. apply IH; [lia|]. by apply Hn.
Qed.

Lemma responds_ready n port mask :
  (∀ tr, ready port mask tr = true) → (0 < n)%nat → ∀ tr, responds n port mask tr.
Proof. intros Hr Hn tr. destruct n; [lia|]. intros l _. left. apply Hr. Qed.

End polling.

(** ** Steps that leave the screen alone *)

(** Nothing is sent to the serial port. *)
Definition no_send : list event → Prop :=
  Forall (fun e => match e with EOut p _ => uart_port p = false | _ => True end).

Lemma off_no_send l : off_uart l → no_send l.
Proof. intros Hl. eapply Forall_impl; [exact Hl|]. by intros [] He. Qed.

Section steps.
Context {S : Type} `{!Lens S vga} `{!Lens S cpu} `{!Indep S cpu vga} `{!Preempt S}
  `{!PreemptOk S} `{!Hardware}.

(** From [s] to [s'] the events [l] happened and the screen did not change. *)
Record quiet (l : list event) (s s' : S) : Prop := {
  quiet_drift : drift s s';
  quiet_vga : view (C := vga) s' = view s;
  quiet_trace : trace (view s') = trace (view s) ++ l
}.

Lemma quiet_refl s : quiet [] s s.
Proof. split; [reflexivity|done|]. by rewrite app_nil_r. Qed.

Lemma quiet_trans l1 l2 s1 s2 s3 : quiet l1 s1 s2 → quiet l2 s2 s3 → quiet (l1 ++ l2) s1 s3.
Proof.
  intros [D1 V1 T1] [D2 V2 T2]. split; [by etransitivity|by rewrite V2|].
  by rewrite T2, T1, app_assoc.
Qed.

Lemma quiet_grow l s : on_ports uart_port l → quiet l s (grow l s).
Proof.
  intros Hl. split; [by apply drift_uart|by apply view_grow_other|by rewrite trace_grow].
Qed.

Lemma preempt_quiet s : ∃ s' l, preempt s = Ret tt s' ∧ quiet l s s' ∧ off_uart l.
Proof. destruct (preempt_runs s) as (s' & l & E & D & V & T & O). by exists s', l. Qed.

Lemma outb_i_run port v s :
  uart_port (u16 port) = true →
  ∃ s' l, outb_i port v s = Ret tt s' ∧ quiet (l ++ [EOut (u16 port) (u8 v)]) s s' ∧ off_uart l.
Proof.
  intros Hp. destruct (preempt_quiet s) as (s1 & l & E & Q & O).
  eexists _, l. unfold outb_i. rewrite (bind_ret _ _ _ _ _ E), outb_eq.
  split; [done|]. split; [|done]. apply (quiet_trans _ _ _ _ _ Q), quiet_grow.
  by repeat constructor.
Qed.

Lemma inb_i_run port s :
  uart_port (u16 port) = true →
  ∃ s' l, let v := u8 (port_in (trace (view s) ++ l) (u16 port)) in
    inb_i port s = Ret v s' ∧ quiet (l ++ [EIn (u16 port) v]) s s' ∧ off_uart l.
Proof.
  intros Hp. destruct (preempt_quiet s) as (s1 & l & E & Q & O).
  eexists _, l. cbn zeta. rewrite <- (quiet_trace _ _ _ Q).
  unfold inb_i. rewrite (bind_ret _ _ _ _ _ E), inb_eq.
  split; [done|]. split; [|done]. apply (quiet_trans _ _ _ _ _ Q), quiet_grow.
  by repeat constructor.
Qed.

(** A responsive device ends the wait, and nothing is sent. *)
Lemma wait_bit_ret n port mask s :
  uart_port (u16 port) = true → responds n port mask (trace (view s)) →
  ∃ s' l, wait_bit n port mask s = Ret tt s' ∧ quiet l s s' ∧ no_send l.
Proof.
  intros Hp. revert s. induction n as [|n IH]; intros s Hr; [done|].
  cbn [wait_bit responds] in *.
  destruct (inb_i_run port s Hp) as (s1 & l & E & Q & O). cbn zeta in *.
  rewrite (bind_ret _ _ _ _ _ E). unfold ready in Hr.
  set (v := u8 (port_in (trace (view s) ++ l) (u16 port))) in *.
  assert (no_send (l ++ [EIn (u16 port) v])) as N
    by (apply Forall_app; split; [by apply off_no_send|by repeat constructor]).
  destruct (Hr l O) as [Hv|Hn].
  { apply negb_true_iff in Hv. fold v in Hv. rewrite Hv. eauto. }
  destruct (Z.land v mask =? 0) eqn:Ev; [|eauto].
  destruct (preempt_quiet s1) as (s2 & l' & E' & Q' & O').
  rewrite (bind_ret _ _ _ _ _ E'), (bind_ret pause _ _ tt (grow [EPause] s2) eq_refl).
  assert (quiet ((l ++ [EIn (u16 port) v]) ++ l' ++ [EPause]) s (grow [EPause] s2)) as Q2.
  { apply (quiet_trans _ _ _ _ _ Q), (quiet_trans _ _ _ _ _ Q'), quiet_grow. by repeat constructor. }
  destruct (IH (grow [EPause] s2)) as (s3 & l3 & E3 & Q3 & N3).
  { rewrite (quiet_trace _ _ _ Q2). rewrite <- !app_assoc. by apply Hn. }
  rewrite E3. exists s3, (((l ++ [EIn (u16 port) v]) ++ l' ++ [EPause]) ++ l3).
  split; [done|]. split; [by apply (quiet_trans _ _ _ _ _ Q2)|].
  apply Forall_app_2; [|done]. apply Forall_app_2; [done|].
  apply Forall_app_2; [by apply off_no_send|by repeat constructor].
Qed.

(** A device that never sets the bit keeps the kernel waiting for ever. *)
Lemma wait_bit_hung n port mask s :
  (∀ tr, ready port mask tr = false) → ∃ s', wait_bit n port mask s = Hung s'.
Proof.
  intros Hr. revert s. induction n as [|n IH]; intros s; [by eexists|]. cbn [wait_bit].
  destruct (preempt_quiet s) as (s1 & l & E & _ & _). unfold inb_i.
  rewrite bind_assoc, (bind_ret _ _ _ _ _ E), (bind_ret _ _ _ _ _ (inb_eq port s1)).
  specialize (Hr (trace (view s1))). unfold ready in Hr. apply negb_false_iff in Hr as ->.
  destruct (preempt_quiet (grow [EIn (u16 port) (u8 (port_in (trace (view s1)) (u16 port)))] s1))
    as (s2 & l2 & E2 & _ & _).
  rewrite (bind_ret _ _ _ _ _ E2), (bind_ret pause _ _ tt (grow [EPause] s2) eq_refl). apply IH.
Qed.

End steps.
