(* ===== verification/Screen.v ===== *)
(** The console functions of drivers/vga.c that run with interrupts enabled, access
    by access: interrupts may be served before every access to the screen and its
    variables. Interrupted or not, they do what the functions of [Vga] say. *)

From S2P Require Import Prelude Machine Vga Preempt.

#[local] Open Scope Z_scope.
#[local] Open Scope c_scope.

Section screen.
Context {S : Type} `{!Lens S vga} `{!Preempt S}.

(** A read, a write. *)
Definition peek {A : Type} (f : vga → A) : M S A := preempt;; gets f.
Definition poke (f : vga → vga) : M S unit := preempt;; modify f.

(** A read of the text buffer. *)
Definition access_cell (i : Z) (v : vga) : vga := set_buffer (access (vga_buffer v) i) v.
Definition peek_cell (i : Z) : M S Z :=
  preempt;; modify (access_cell i);; gets (fun v => (vga_buffer v).[i]).

(** [for (i = lo; i < hi; i++) body(i)], for [n] = hi - lo. *)
Fixpoint repeat_from (n : nat) (i : Z) (body : Z → M S unit) : M S unit :=
  match n with
  | O => mret tt
  | Datatypes.S n => body i;; repeat_from n (i + 1) body
  end.

Definition for_each (lo hi : Z) (body : Z → M S unit) : M S unit :=
  repeat_from (Z.to_nat (hi - lo)) lo body.

Definition write_cell (i e : Z) (v : vga) : vga := set_buffer (vga_buffer v).[i <- e] v.

Definition vga_scroll_i : M S unit :=
  for_each 0 (VGA_HEIGHT - 1) (fun y =>
    for_each 0 VGA_WIDTH (fun x =>
      e ← peek_cell ((y + 1) * VGA_WIDTH + x);
      poke (write_cell (y * VGA_WIDTH + x) e)));;
  for_each 0 VGA_WIDTH (fun x =>
    color ← peek vga_color;
    poke (write_cell ((VGA_HEIGHT - 1) * VGA_WIDTH + x) (make_entry 32 color)));;
  poke (fun v => set_cursor (VGA_HEIGHT - 1) (vga_col v) v).

Definition next_row_i : M S unit :=
  row ← peek vga_row;
  poke (fun v => set_cursor (row +u 1) (vga_col v) v);;
  if row +u 1 =? VGA_HEIGHT then vga_scroll_i else mret tt.

Definition vga_putchar_i (c : Z) : M S unit :=
  if c =? 10 then
    poke (fun v => set_cursor (vga_row v) 0 v);; next_row_i
  else if c =? 13 then
    poke (fun v => set_cursor (vga_row v) 0 v)
  else
    row ← peek vga_row;
    col ← peek vga_col;
    color ← peek vga_color;
    poke (write_cell (row * VGA_WIDTH + col) (make_entry (u8 c) color));;
    col ← peek vga_col;
    poke (fun v => set_cursor (vga_row v) (col +u 1) v);;
    if col +u 1 =? VGA_WIDTH then
      poke (fun v => set_cursor (vga_row v) 0 v);; next_row_i
    else mret tt.

End screen.

(** ** Drawing

    What the console relies on: interrupts return and leave the screen alone. [P]
    holds while drawing, [R] is what interrupts and drawing may do to the machine. *)

Class Drawing {S : Type} `{!Lens S vga} `{!Preempt S} (P : S → Prop) (R : S → S → Prop) : Prop := {
  draw_preorder :: PreOrder R;
  draw_keeps s s' : R s s' → P s → P s';
  draw_screen v s : P s → R s (put v s);
  draw_preempt s : P s → ∃ s', preempt s = Ret tt s' ∧ R s s' ∧ view (C := vga) s' = view s
}.

Section draws.
Context {S : Type} `{!Lens S vga} `{!Preempt S} (P : S → Prop) (R : S → S → Prop)
  `{!Drawing P R}.

(** [m] turns the screen [v] into [v']. *)
Definition draws (v v' : vga) (m : M S unit) : Prop :=
  ∀ s, P s → view s = v → ∃ s', m s = Ret tt s' ∧ R s s' ∧ view s' = v'.

Lemma draws_ret v : draws v v (mret tt).
Proof. intros s _ Hv. by exists s. Qed.

Lemma draws_bind v1 v2 v3 m k : draws v1 v2 m → draws v2 v3 k → draws v1 v3 (m;; k).
Proof.
  intros Hm Hk s Hp Hv. destruct (Hm s Hp Hv) as (s1 & E1 & R1 & V1).
  destruct (Hk s1) as (s2 & E2 & R2 & V2); [by eapply draw_keeps|done|].
  exists s2. rewrite (bind_ret _ _ _ _ _ E1). split; [done|]. split; [by etransitivity|done].
Qed.

Lemma draws_poke f v : draws v (f v) (poke f).
Proof.
  intros s Hp Hv. destruct (draw_preempt s Hp) as (s1 & E1 & R1 & V1).
  assert (P s1) as Hp1 by by eapply draw_keeps. exists (put (f v) s1). unfold poke.
  rewrite (bind_ret _ _ _ _ _ E1), <- Hv, <- V1. split; [done|].
  split; [|apply view_put]. etransitivity; [exact R1|by apply draw_screen].
Qed.

Lemma draws_peek {A : Type} (f : vga → A) v v' (k : A → M S unit) :
  draws v v' (k (f v)) → draws v v' (peek f ≫= k).
Proof.
  intros Hk s Hp Hv. destruct (draw_preempt s Hp) as (s1 & E1 & R1 & V1).
  destruct (Hk s1) as (s2 & E2 & R2 & V2); [by eapply draw_keeps|by rewrite V1|].
  exists s2. unfold peek. rewrite bind_assoc, (bind_ret _ _ _ _ _ E1).
  rewrite (bind_ret (gets f) _ s1 _ s1 eq_refl), V1, Hv. split; [done|].
  split; [by etransitivity|done].
Qed.

Lemma draws_peek_cell i v v' (k : Z → M S unit) :
  draws (access_cell i v) v' (k (access (vga_buffer v) i).[i]) → draws v v' (peek_cell i ≫= k).
Proof.
  intros Hk s Hp Hv. destruct (draws_poke (access_cell i) v s Hp Hv) as (s1 & E1 & R1 & V1).
  destruct (Hk s1) as (s2 & E2 & R2 & V2); [by eapply draw_keeps|done|].
  exists s2. unfold peek_cell. rewrite bind_assoc.
  destruct (draw_preempt s Hp) as (s0 & E0 & _).
  unfold poke in E1. rewrite (bind_ret _ _ _ _ _ E0) in E1. rewrite (bind_ret _ _ _ _ _ E0).
  rewrite bind_assoc, (bind_ret _ _ _ _ _ E1).
  rewrite (bind_ret (gets _) _ s1 _ s1 eq_refl), V1. split; [exact E2|].
  split; [by etransitivity|done].
Qed.

Lemma draws_for (f : Z → vga → vga) body lo hi v :
  (∀ i v, draws v (f i v) (body i)) → draws v (for_range lo hi f v) (for_each lo hi body).
Proof.
  intros Hb. unfold for_each, for_range. generalize (Z.to_nat (hi - lo)) as n. intros n.
  revert lo v. induction n as [|n IH]; intros lo v; [apply draws_ret|].
  cbn [repeat_from iter_from]. by eapply draws_bind.
Qed.

End draws.

(** Loops that only change the cells. *)
Lemma for_range_cells f g lo hi b v :
  (∀ i b, f i (set_buffer b v) = set_buffer (g i b) v) →
  for_range lo hi f (set_buffer b v) = set_buffer (for_range lo hi g b) v.
Proof.
  intros Hf. unfold for_range. generalize (Z.to_nat (hi - lo)) as n. intros n.
  revert lo b. induction n as [|n IH]; intros lo b; [done|].
  cbn [iter_from]. by rewrite Hf, IH.
Qed.

Section putchar.
Context {S : Type} `{!Lens S vga} `{!Preempt S} (P : S → Prop) (R : S → S → Prop)
  `{!Drawing P R}.

Lemma draws_scroll v : draws P R v (vga_scroll v) vga_scroll_i.
Proof.
  set (row := fun y => for_range 0 VGA_WIDTH (fun x v =>
    set_buffer (move_cell (y * VGA_WIDTH + x) ((y + 1) * VGA_WIDTH + x) (vga_buffer v)) v)).
  set (blank := fun x v => write_cell ((VGA_HEIGHT - 1) * VGA_WIDTH + x) (make_entry 32 (vga_color v)) v).
  assert (vga_scroll v = (fun v => set_cursor (VGA_HEIGHT - 1) (vga_col v) v)
    (for_range 0 VGA_WIDTH blank (for_range 0 (VGA_HEIGHT - 1) row v))) as ->.
  { assert (set_buffer (vga_buffer v) v = v) as Hv by by destruct v.
    pose proof (for_range_cells row (fun y => for_range 0 VGA_WIDTH (fun x =>
      move_cell (y * VGA_WIDTH + x) ((y + 1) * VGA_WIDTH + x))) 0 (VGA_HEIGHT - 1) (vga_buffer v) v) as E1.
    rewrite Hv in E1. rewrite E1 by (intros y b; by apply for_range_cells).
    rewrite (for_range_cells blank (fun x buf =>
      buf.[(VGA_HEIGHT - 1) * VGA_WIDTH + x <- make_entry 32 (vga_color v)])) by done.
    reflexivity. }
  unfold vga_scroll_i. eapply (draws_bind P R); [|eapply (draws_bind P R); [|]].
  - apply (draws_for P R row). intros y w. unfold row at 1.
    apply (draws_for P R). intros x u.
    apply (draws_peek_cell P R).
    apply (draws_poke P R (write_cell (y * VGA_WIDTH + x) _) (access_cell ((y + 1) * VGA_WIDTH + x) u)).
  - apply (draws_for P R blank). intros x u. unfold blank. apply (draws_peek P R), (draws_poke P R).
  - apply (draws_poke P R (fun v => set_cursor (VGA_HEIGHT - 1) (vga_col v) v)).
Qed.

Lemma draws_next_row v : draws P R v (next_row v) next_row_i.
Proof.
  unfold next_row_i, next_row. apply (draws_peek P R). eapply (draws_bind P R); [apply (draws_poke P R)|].
  cbn [vga_row set_cursor]. destruct (_ =? VGA_HEIGHT); [apply draws_scroll|apply (draws_ret P R)].
Qed.

Lemma draws_putchar c v : draws P R v (vga_putchar c v) (vga_putchar_i c).
Proof.
  unfold vga_putchar_i, vga_putchar. destruct (c =? 10).
  { eapply (draws_bind P R); [apply (draws_poke P R)|apply draws_next_row]. }
  destruct (c =? 13); [apply (draws_poke P R (fun v => set_cursor (vga_row v) 0 v))|].
  do 3 apply (draws_peek P R). eapply (draws_bind P R); [apply (draws_poke P R)|].
  apply (draws_peek P R). eapply (draws_bind P R); [apply (draws_poke P R)|].
  cbn [vga_col set_cursor set_buffer write_cell]. destruct (_ =? VGA_WIDTH); [|apply (draws_ret P R)].
  eapply (draws_bind P R); [apply (draws_poke P R)|apply draws_next_row].
Qed.

Lemma putchar_run c (s : S) :
  P s → ∃ s', vga_putchar_i c s = Ret tt s' ∧ R s s' ∧ view s' = vga_putchar c (view s).
Proof. intros Hp. by apply draws_putchar. Qed.

End putchar.

(** ** Properties *)

Section properties.
Context {S : Type} `{!Lens S vga} `{!Lens S cpu} `{!Indep S cpu vga} `{!Preempt S}
  `{!PreemptOk S}.

(** Interrupts have been served and the screen has been drawn on. *)
Definition drawn (s s' : S) : Prop :=
  drift s s' ∧ ∃ l, trace (view s') = trace (view s) ++ l ∧ off_uart l.

#[export] Instance drawn_preorder : PreOrder drawn.
Proof.
  split.
  - intros s. split; [reflexivity|]. exists []. rewrite app_nil_r. split; [done|constructor].
  - intros s1 s2 s3 (D1 & l1 & T1 & O1) (D2 & l2 & T2 & O2). split; [by etransitivity|].
    exists (l1 ++ l2). rewrite T2, T1, app_assoc. split; [done|by apply off_uart_app].
Qed.

#[export] Instance preempt_drawing : Drawing (fun _ : S => True) drawn.
Proof.
  split; [apply _|done| |].
  - intros v s _. split; [apply drift_screen|]. exists [].
    rewrite view_put_l, app_nil_r. split; [done|constructor].
  - intros s _. destruct (preempt_runs s) as (s' & l & E & D & V & T & O).
    exists s'. split; [done|]. split; [|done]. split; [done|by exists l].
Qed.

(** C15: interrupted before any of its accesses to the screen and its variables, by
    any interrupts that keep away from the screen, [vga_putchar] returns and does
    to the screen what it does uninterrupted, scrolling included; besides that only
    the interrupts' own work has been done. *)
Theorem vga_putchar_interrupted c (s : S) :
  ∃ s' l, vga_putchar_i c s = Ret tt s' ∧ view s' = vga_putchar c (view s) ∧
    drift s s' ∧ trace (view s') = trace (view s) ++ l ∧ off_uart l.
Proof.
  destruct (putchar_run (fun _ => True) drawn c s I) as (s' & E & (D & l & T & O) & V).
  by exists s', l.
Qed.

End properties.

(** ** The property at a concrete machine *)

Section on_busy.
#[local] Instance kb_only : Hardware := fun _ _ => 0x1E.
#[local] Existing Instances busy busy_ok.

(** The last line ends: the screen scrolls, and a key is pressed at every access. *)
Lemma vga_putchar_interrupted_witness :
  let v := mk_vga (replicate 2000 0) 24 79 7 in
  let s := (v, mk_cpu [] true (0, 0) (0, 0) 8 16) in
  ∃ s' l, vga_putchar_i 65 s = Ret tt s' ∧ view s' = vga_putchar 65 v ∧ trace (view s') = l.
Proof.
  intros v s. destruct (vga_putchar_interrupted 65 s) as (s' & l & E & V & _ & T & _).
  exists s', l. exact (conj E (conj V T)).
Defined.

End on_busy.
