(* ===== verification/Serial.v ===== *)
(** The COM1 driver (drivers/serial.c, drivers/serial.h): a polling 16550
    driver, what a 16550 puts on the line for a trace of port writes, and the
    proof that the driver transmits what it is given. *)

From S2P Require Import Prelude Machine Vga Preempt.

#[local] Open Scope Z_scope.
#[local] Open Scope c_scope.

Definition SERIAL_COM1 : Z := 0x3F8.

(** Register offsets *)
Definition SERIAL_DATA : Z := 0.
Definition SERIAL_INT_ENABLE : Z := 1.
Definition SERIAL_BAUD_LOW : Z := 0.
Definition SERIAL_BAUD_HIGH : Z := 1.
Definition SERIAL_FIFO_CTRL : Z := 2.
Definition SERIAL_LINE_CTRL : Z := 3.
Definition SERIAL_MODEM_CTRL : Z := 4.
Definition SERIAL_LINE_STATUS : Z := 5.

(** Register bits *)
Definition LCR_8BITS : Z := 0x03.
Definition LCR_DLAB : Z := 0x80.
Definition FCR_ENABLE : Z := 0x01.
Definition FCR_CLR_RX : Z := 0x02.
Definition FCR_CLR_TX : Z := 0x04.
Definition FCR_14BYTE : Z := 0xC0.
Definition MCR_DTR : Z := 0x01.
Definition MCR_RTS : Z := 0x02.
Definition MCR_OUT2 : Z := 0x08.
Definition MCR_LOOP : Z := 0x10.
Definition LSR_DATA_READY : Z := 0x01.
Definition LSR_TX_EMPTY : Z := 0x20.
Definition BAUD_115200 : Z := 1.

Section serial.
Context {S : Type} `{!Lens S vga} `{!Lens S cpu} `{!Preempt S} `{!Hardware}.
Variable fuel : nat.

(** [int serial_init(void)]; the result is 1 or 0. *)
Definition serial_init : M S Z :=
  outb_i (SERIAL_COM1 + SERIAL_INT_ENABLE) 0x00;;
  outb_i (SERIAL_COM1 + SERIAL_LINE_CTRL) LCR_DLAB;;
  outb_i (SERIAL_COM1 + SERIAL_BAUD_LOW) (Z.land BAUD_115200 0xFF);;
  outb_i (SERIAL_COM1 + SERIAL_BAUD_HIGH) (Z.land (Z.shiftr BAUD_115200 8) 0xFF);;
  outb_i (SERIAL_COM1 + SERIAL_LINE_CTRL) LCR_8BITS;;
  outb_i (SERIAL_COM1 + SERIAL_FIFO_CTRL)
    (Z.lor (Z.lor (Z.lor FCR_ENABLE FCR_CLR_RX) FCR_CLR_TX) FCR_14BYTE);;
  outb_i (SERIAL_COM1 + SERIAL_MODEM_CTRL) (Z.lor (Z.lor MCR_DTR MCR_RTS) MCR_OUT2);;
  outb_i (SERIAL_COM1 + SERIAL_MODEM_CTRL)
    (Z.lor (Z.lor (Z.lor MCR_DTR MCR_RTS) MCR_OUT2) MCR_LOOP);;
  outb_i (SERIAL_COM1 + SERIAL_DATA) 0xAE;;
  wait_bit fuel (SERIAL_COM1 + SERIAL_LINE_STATUS) LSR_DATA_READY;;
  echo ← inb_i (SERIAL_COM1 + SERIAL_DATA);
  if negb (echo =? 0xAE) then mret 0
  else
    outb_i (SERIAL_COM1 + SERIAL_MODEM_CTRL) (Z.lor (Z.lor MCR_DTR MCR_RTS) MCR_OUT2);;
    mret 1.

Definition serial_putchar (c : Z) : M S unit :=
  wait_bit fuel (SERIAL_COM1 + SERIAL_LINE_STATUS) LSR_TX_EMPTY;;
  outb_i (SERIAL_COM1 + SERIAL_DATA) (u8 c).

Fixpoint serial_puts (str : list Z) : M S unit :=
  match str with
  | [] => mret tt
  | c :: str =>
      (if c =? 10 then serial_putchar 13 else mret tt);;
      serial_putchar c;;
      serial_puts str
  end.

End serial.

(** ** The 16550 as its data sheet describes it

    A write to offset 0 is transmitted unless DLAB is set (then it is the baud
    divisor) or loopback is on (then it goes to the receiver). *)

Record uart : Type := mk_uart { dlab : bool; loopback : bool; wire : list Z }.

Definition uart_reset : uart := mk_uart false false [].

Definition uart_step (u : uart) (e : event) : uart :=
  match e with
  | EOut p v =>
      if p =? 0x3FB then mk_uart (Z.testbit v 7) (loopback u) (wire u)
      else if p =? 0x3FC then mk_uart (dlab u) (Z.testbit v 4) (wire u)
      else if p =? 0x3F8 then
        if dlab u || loopback u then u else mk_uart (dlab u) (loopback u) (wire u ++ [v])
      else u
  | _ => u
  end.

Definition uart_of (tr : list event) : uart := fold_left uart_step tr uart_reset.

(** The port is set up for data and connected to the line. *)
Definition online (tr : list event) : Prop :=
  dlab (uart_of tr) = false ∧ loopback (uart_of tr) = false.

(** The status bit [mask] comes up within [n] reads, whatever happened before: for
    [LSR_TX_EMPTY], a byte being sent is gone after a time. *)
Definition uart_live `{!Hardware} (n : nat) (mask : Z) : Prop :=
  ∀ tr, responds n (SERIAL_COM1 + SERIAL_LINE_STATUS) mask tr.

(** The port writes that precede the wait of the loopback test. *)
Definition serial_setup : list (Z * Z) :=
  [(0x3F9, 0); (0x3FB, 0x80); (0x3F8, 1); (0x3F9, 0); (0x3FB, 0x03); (0x3FA, 0xC7);
   (0x3FC, 0x0B); (0x3FC, 0x1B); (0x3F8, 0xAE)].
Definition setup_events : list event := map (fun w => EOut (u16 w.1) (u8 w.2)) serial_setup.

(** Right after the port was set up, put in loopback mode and given the test byte,
    and not accessed since, some byte is received within [n] reads of the status. *)
Definition loopback_answers `{!Hardware} (n : nat) : Prop :=
  ∀ tr l, com1 l = setup_events →
    responds n (SERIAL_COM1 + SERIAL_LINE_STATUS) LSR_DATA_READY (tr ++ l).

Lemma uart_live_ready `{!Hardware} n mask :
  (∀ tr, ready (SERIAL_COM1 + SERIAL_LINE_STATUS) mask tr = true) → (0 < n)%nat → uart_live n mask.
Proof. exact (responds_ready n _ mask). Qed.

(** [serial_puts] sends CR before every LF. *)
Definition crlf (str : list Z) : list Z :=
  flat_map (fun c => if c =? 10 then [13; 10] else [c]) str.

(** More text on the line. *)
Definition uart_out (cs : list Z) (u : uart) : uart :=
  mk_uart (dlab u) (loopback u) (wire u ++ if loopback u then [] else map u8 cs).

(** ** Lemmas *)

Lemma uart_of_app tr l : uart_of (tr ++ l) = fold_left uart_step l (uart_of tr).
Proof. apply fold_left_app. Qed.

Lemma uart_no_send l u : no_send l → fold_left uart_step l u = u.
Proof.
  intros Hl. revert u. induction Hl as [|e l He Hl IH]; intros u; [done|]. cbn [fold_left].
  rewrite IH. destruct e; try done. unfold uart_port in He. cbn [uart_step].
  by rewrite !(proj2 (Z.eqb_neq port _)) by lia.
Qed.

Lemma uart_com1 l u : fold_left uart_step l u = fold_left uart_step (com1 l) u.
Proof.
  revert u. induction l as [|e l IH]; intros u; [done|]. unfold com1 in *. cbn [fold_left List.filter].
  destruct (com1_event e) eqn:He; cbn [fold_left]; rewrite IH; [done|]. f_equal.
  destruct e; try done. cbn [com1_event uart_step] in *. unfold uart_port in He.
  by rewrite !(proj2 (Z.eqb_neq port _)) by lia.
Qed.

(** Accesses to other devices do not concern the port. *)
Lemma uart_other tr l : off_uart l → uart_of (tr ++ l) = uart_of tr.
Proof. intros Hl. rewrite uart_of_app. by apply uart_no_send, off_no_send. Qed.

Lemma uart_out_app a b u : uart_out b (uart_out a u) = uart_out (a ++ b) u.
Proof.
  unfold uart_out. cbn. f_equal. rewrite <- app_assoc.
  destruct (loopback u); [done|]. by rewrite map_app.
Qed.

Lemma uart_out_nil u : uart_out [] u = u.
Proof. destruct u as [d [] w]; unfold uart_out; cbn; by rewrite app_nil_r. Qed.

Lemma crlf_app a b : crlf (a ++ b) = crlf a ++ crlf b.
Proof. apply flat_map_app. Qed.

Section serial_lemmas.
Context {S : Type} `{!Lens S vga} `{!Lens S cpu} `{!Indep S cpu vga} `{!Preempt S}
  `{!PreemptOk S} `{!Hardware}.
Variable fuel : nat.

(** The UART is in data mode (its divisor latch is closed). *)
Definition data_mode (s : S) : Prop := dlab (uart_of (trace (view s))) = false.

(** From [s] to [s'] the port saw the writes [es]; the screen did not change. *)
Definition uart_run (es : list event) (s s' : S) : Prop :=
  ∃ l, quiet l s s' ∧ ∀ u, fold_left uart_step l u = fold_left uart_step es u.

Lemma uart_run_trans a b s1 s2 s3 :
  uart_run a s1 s2 → uart_run b s2 s3 → uart_run (a ++ b) s1 s3.
Proof.
  intros (l1 & Q1 & U1) (l2 & Q2 & U2). exists (l1 ++ l2).
  split; [by apply (quiet_trans _ _ _ s2)|]. intros u. by rewrite !fold_left_app, U1, U2.
Qed.

Lemma uart_run_refl s : uart_run [] s s.
Proof. exists []. split; [apply quiet_refl|done]. Qed.

Lemma uart_run_of es s s' :
  uart_run es s s' → uart_of (trace (view s')) = fold_left uart_step es (uart_of (trace (view s))).
Proof. intros (l & Q & U). by rewrite (quiet_trace _ _ _ Q), uart_of_app, U. Qed.

Lemma uart_run_outb port v s :
  uart_port (u16 port) = true →
  ∃ s', outb_i port v s = Ret tt s' ∧ uart_run [EOut (u16 port) (u8 v)] s s'.
Proof.
  intros Hp. destruct (outb_i_run port v s Hp) as (s' & l & E & Q & O).
  exists s'. split; [done|]. eexists. split; [done|]. intros u.
  rewrite fold_left_app. by rewrite (uart_no_send l) by by apply off_no_send.
Qed.

(** Writes to the port, one after the other. *)
Lemma run_writes {A : Type} (ws : list (Z * Z)) (k : M S A) s :
  Forall (fun w => uart_port (u16 w.1) = true) ws →
  ∃ s' l, foldr (fun w k => outb_i w.1 w.2;; k) k ws s = k s' ∧ quiet l s s' ∧
    com1 l = map (fun w => EOut (u16 w.1) (u8 w.2)) ws.
Proof.
  intros Hws. revert s. induction Hws as [|[p v] ws Hp Hws IH]; intros s; cbn [foldr map fst snd].
  { exists s, []. split; [done|]. split; [apply quiet_refl|done]. }
  destruct (outb_i_run p v s Hp) as (s1 & l1 & E1 & Q1 & O1).
  destruct (IH s1) as (s2 & l2 & E2 & Q2 & C2).
  exists s2, ((l1 ++ [EOut (u16 p) (u8 v)]) ++ l2). rewrite (bind_ret _ _ _ _ _ E1).
  split; [done|]. split; [by apply (quiet_trans _ _ _ s1)|].
  rewrite !com1_app, (com1_off l1), C2 by done. unfold com1. cbn [List.filter com1_event].
  cbn [fst] in Hp. by rewrite Hp.
Qed.

Lemma uart_run_wait mask s :
  responds fuel (SERIAL_COM1 + SERIAL_LINE_STATUS) mask (trace (view s)) →
  ∃ s', wait_bit fuel (SERIAL_COM1 + SERIAL_LINE_STATUS) mask s = Ret tt s' ∧ uart_run [] s s'.
Proof.
  intros live. destruct (wait_bit_ret fuel (SERIAL_COM1 + SERIAL_LINE_STATUS) mask s)
    as (s' & l & E & Q & N); [done|exact live|].
  exists s'. split; [done|]. exists l. split; [done|]. intros u. by apply uart_no_send.
Qed.

(** From [s] to [s'] the text [cs] was sent; the screen did not change. *)
Record sends (cs : list Z) (s s' : S) : Prop := {
  sends_drift : drift s s';
  sends_vga : view (C := vga) s' = view s;
  sends_uart : uart_of (trace (view s')) = uart_out cs (uart_of (trace (view s)))
}.

Lemma sends_refl s : sends [] s s.
Proof. split; [reflexivity|done|]. by rewrite uart_out_nil. Qed.

Lemma sends_trans a b s1 s2 s3 : sends a s1 s2 → sends b s2 s3 → sends (a ++ b) s1 s3.
Proof.
  intros [D1 V1 U1] [D2 V2 U2]. split; [by etransitivity|by rewrite V2|].
  by rewrite U2, U1, uart_out_app.
Qed.

Lemma sends_data_mode cs s s' : sends cs s s' → data_mode s → data_mode s'.
Proof. intros [_ _ U] Hd. unfold data_mode. by rewrite U. Qed.

(** One character: on an online port it is the next byte on the line; with
    loopback on the line stays silent. *)
Lemma serial_putchar_run c s :
  uart_live fuel LSR_TX_EMPTY → data_mode s →
  ∃ s', serial_putchar fuel c s = Ret tt s' ∧ sends [c] s s'.
Proof.
  intros live Hd. destruct (uart_run_wait LSR_TX_EMPTY s (live _)) as (s1 & E1 & R1).
  destruct (uart_run_outb (SERIAL_COM1 + SERIAL_DATA) (u8 c) s1) as (s2 & E2 & R2); [done|].
  exists s2. unfold serial_putchar. rewrite (bind_ret _ _ _ _ _ E1). split; [done|].
  pose proof (uart_run_trans [] _ _ _ _ R1 R2) as R. pose proof (uart_run_of _ _ _ R) as U.
  destruct R as (l & [D V _] & _). split; [done|done|]. rewrite U. cbn. rewrite u8_u8.
  unfold data_mode in Hd. destruct (uart_of (trace (view s))) as [d lo w]. cbn in *. subst d.
  unfold uart_out. cbn. by destruct lo; rewrite ?app_nil_r.
Qed.

Lemma serial_puts_run str s :
  uart_live fuel LSR_TX_EMPTY → data_mode s →
  ∃ s', serial_puts fuel str s = Ret tt s' ∧ sends (crlf str) s s'.
Proof.
  intros live. revert s. induction str as [|c str IH]; intros s Hd.
  { exists s. split; [done|apply sends_refl]. }
  assert (∃ s1, (if c =? 10 then serial_putchar fuel 13 else mret tt) s = Ret tt s1 ∧
    sends (if c =? 10 then [13] else []) s s1) as (s1 & E1 & R1).
  { destruct (c =? 10); [by apply serial_putchar_run|]. exists s. split; [done|apply sends_refl]. }
  destruct (serial_putchar_run c s1 live) as (s2 & E2 & R2); [by eapply sends_data_mode|].
  pose proof (sends_trans _ _ _ _ _ R1 R2) as R.
  destruct (IH s2) as (s3 & E3 & R3); [by eapply sends_data_mode|].
  exists s3. cbn [serial_puts]. rewrite (bind_ret _ _ _ _ _ E1), (bind_ret _ _ _ _ _ E2).
  split; [done|]. replace (crlf (c :: str)) with (((if c =? 10 then [13] else []) ++ [c]) ++ crlf str).
  { by apply (sends_trans _ _ _ s2). }
  unfold crlf. cbn [flat_map]. f_equal. by destruct (Z.eqb_spec c 10) as [->|].
Qed.

End serial_lemmas.

Lemma uart_setup u : fold_left uart_step setup_events u = mk_uart false true (wire u).
Proof. destruct u as [[] [] w]; done. Qed.

(** ** Properties *)

Section properties.
Context {S : Type} `{!Lens S vga} `{!Lens S cpu} `{!Indep S cpu vga} `{!Preempt S}
  `{!PreemptOk S} `{!Hardware}.
Variable fuel : nat.

Lemma serial_init_run (s : S) :
  loopback_answers fuel →
  let u := uart_of (trace (view s)) in
  ∃ s' l v, serial_init fuel s = Ret (if v =? 0xAE then 1 else 0) s' ∧ quiet l s s' ∧
    In (EIn 0x3F8 v) l ∧ uart_of (trace (view s')) = mk_uart false (negb (v =? 0xAE)) (wire u).
Proof.
  intros answers u.
  assert (∃ s1 l, serial_init fuel s = (wait_bit fuel (SERIAL_COM1 + SERIAL_LINE_STATUS) LSR_DATA_READY;;
    echo ← inb_i (SERIAL_COM1 + SERIAL_DATA);
    if negb (echo =? 0xAE) then mret 0
    else outb_i (SERIAL_COM1 + SERIAL_MODEM_CTRL) (Z.lor (Z.lor MCR_DTR MCR_RTS) MCR_OUT2);; mret 1) s1 ∧
    quiet l s s1 ∧ com1 l = setup_events) as (s1 & l1 & -> & Q1 & C1).
  { apply (run_writes serial_setup). by repeat constructor. }
  assert (uart_run setup_events s s1) as R1
    by (exists l1; split; [done|]; intros w; by rewrite uart_com1, C1).
  destruct (uart_run_wait fuel LSR_DATA_READY s1) as (s2 & E2 & R2).
  { rewrite (quiet_trace _ _ _ Q1). by apply answers. }
  rewrite (bind_ret _ _ _ _ _ E2). pose proof (uart_run_trans _ _ _ _ _ R1 R2) as R12.
  pose proof (uart_run_of _ _ _ R12) as U2. rewrite app_nil_r, uart_setup in U2.
  destruct R12 as (l2 & Q2 & _).
  destruct (inb_i_run (SERIAL_COM1 + SERIAL_DATA) s2) as (s3 & l3 & E3 & Q3 & O3); [done|].
  cbn zeta in E3, Q3. revert E3 Q3. generalize (u8 (port_in (trace (view s2) ++ l3)
    (u16 (SERIAL_COM1 + SERIAL_DATA)))) as v. intros v E3 Q3. rewrite (bind_ret _ _ _ _ _ E3).
  change (u16 (SERIAL_COM1 + SERIAL_DATA)) with 0x3F8 in Q3.
  pose proof (quiet_trans _ _ _ _ _ Q2 Q3) as Q23.
  assert (uart_of (trace (view s3)) = mk_uart false true (wire u)) as U3.
  { rewrite (quiet_trace _ _ _ Q3), app_assoc, uart_of_app, uart_other, U2 by done. done. }
  assert (In (EIn 0x3F8 v) (l2 ++ l3 ++ [EIn 0x3F8 v])) as Hin
    by (apply in_or_app; right; apply in_or_app; right; by left).
  destruct (v =? 0xAE) eqn:Ev; cbn [negb].
  - destruct (uart_run_outb (SERIAL_COM1 + SERIAL_MODEM_CTRL)
      (Z.lor (Z.lor MCR_DTR MCR_RTS) MCR_OUT2) s3) as (s4 & E4 & R4); [done|].
    pose proof (uart_run_of _ _ _ R4) as U4. rewrite U3 in U4. destruct R4 as (l4 & Q4 & _).
    exists s4, ((l2 ++ l3 ++ [EIn 0x3F8 v]) ++ l4), v. rewrite Ev, (bind_ret _ _ _ _ _ E4).
    split; [done|]. split; [by apply (quiet_trans _ _ _ _ _ Q23)|].
    split; [apply in_or_app; by left|]. by rewrite U4.
  - exists s3, (l2 ++ l3 ++ [EIn 0x3F8 v]), v. by rewrite Ev, U3.
Qed.

(** C37: On a UART that receives a byte in the loopback test, [serial_init]
    terminates, interrupted or not; it programs the port, sends nothing down the
    line, leaves the screen alone, and returns 1 with the port online exactly when
    the byte it read back was 0xAE; otherwise it returns 0 and the port is still
    in loopback. *)
Theorem serial_init_spec (s : S) :
  loopback_answers fuel →
  let u := uart_of (trace (view s)) in
  ∃ s' l v, serial_init fuel s = Ret (if v =? 0xAE then 1 else 0) s' ∧ drift s s' ∧
    view (C := vga) s' = view s ∧ trace (view s') = trace (view s) ++ l ∧ In (EIn 0x3F8 v) l ∧
    uart_of (trace (view s')) = mk_uart false (negb (v =? 0xAE)) (wire u).
Proof.
  intros live u. destruct (serial_init_run s live) as (s' & l & v & E & [D V T] & I & U).
  by exists s', l, v.
Qed.

(** C36: On an online port with a live transmitter, [serial_puts] terminates and
    the line carries exactly the bytes of the string, each LF preceded by a CR;
    interrupts may be served between any two accesses to the port. *)
Theorem serial_puts_spec (str : list Z) (s : S) :
  uart_live fuel LSR_TX_EMPTY → online (trace (view s)) →
  ∃ s', serial_puts fuel str s = Ret tt s' ∧ drift s s' ∧ view (C := vga) s' = view s ∧
    online (trace (view s')) ∧
    wire (uart_of (trace (view s'))) = wire (uart_of (trace (view s))) ++ map u8 (crlf str).
Proof.
  intros live [Hd Hlo]. destruct (serial_puts_run fuel str s live Hd) as (s' & E & [D V U]).
  exists s'. do 3 (split; [done|]). unfold online. rewrite U. unfold uart_out. by rewrite Hlo.
Qed.

(** After a failed [serial_init] the port is left in loopback mode, so no
    string the kernel prints afterwards reaches the line. *)
Lemma serial_failed_init_mutes (s s' : S) (str : list Z) :
  loopback_answers fuel → uart_live fuel LSR_TX_EMPTY →
  serial_init fuel s = Ret 0 s' →
  ∃ s'', serial_puts fuel str s' = Ret tt s'' ∧
    wire (uart_of (trace (view s''))) = wire (uart_of (trace (view s))).
Proof.
  intros Hdr Htx Hi. destruct (serial_init_run s Hdr) as (s1 & l & v & Hi' & _ & _ & U).
  rewrite Hi in Hi'. destruct (v =? 0xAE); [done|]. injection Hi' as <-.
  destruct (serial_puts_run fuel str s' Htx) as (s2 & E & [_ _ U2]);
    [unfold data_mode; by rewrite U|].
  exists s2. split; [done|]. rewrite U2, U. cbn. by rewrite app_nil_r.
Qed.

(** If the transmitter never reports empty, no polling budget is enough for
    [serial_putchar]: the kernel waits for ever instead of falling back to the
    screen. *)
Lemma serial_putchar_hangs (c : Z) (s : S) :
  (∀ tr, ready (SERIAL_COM1 + SERIAL_LINE_STATUS) LSR_TX_EMPTY tr = false) →
  ∃ s', serial_putchar fuel c s = Hung s'.
Proof.
  intros Hr. destruct (wait_bit_hung fuel _ _ s Hr) as [s1 Hw].
  exists s1. unfold serial_putchar, mbind, M_bind. by rewrite Hw.
Qed.

End properties.

(** ** A 16550

    The device of the data sheet, with a transmitter for one byte, at the speed of
    one byte per read of the status: the byte in the transmitter ([ns_shift]) leaves
    on the next one, for the line or, in loopback, for the receiver's FIFO ([ns_rx]).
    Data Ready is up while that FIFO holds a byte; reading the data register takes
    the byte out. It meets what the theorems assume of the port. *)

Record ns16550 : Type := mk_ns {
  ns_dlab : bool;
  ns_loop : bool;
  ns_shift : option Z;
  ns_rx : list Z
}.

Definition ns_step (c : ns16550) (e : event) : ns16550 :=
  match e with
  | EOut p v =>
      if p =? 0x3FB then mk_ns (Z.testbit v 7) (ns_loop c) (ns_shift c) (ns_rx c)
      else if p =? 0x3FC then mk_ns (ns_dlab c) (Z.testbit v 4) (ns_shift c) (ns_rx c)
      else if p =? 0x3FA then
        mk_ns (ns_dlab c) (ns_loop c) (ns_shift c) (if Z.testbit v 1 then [] else ns_rx c)
      else if (p =? 0x3F8) && negb (ns_dlab c) then mk_ns false (ns_loop c) (Some v) (ns_rx c)
      else c
  | EIn p _ =>
      if p =? 0x3FD then
        mk_ns (ns_dlab c) (ns_loop c) None
          (match ns_shift c with
           | Some v => if ns_loop c then ns_rx c ++ [v] else ns_rx c
           | None => ns_rx c
           end)
      else if (p =? 0x3F8) && negb (ns_dlab c) then mk_ns false (ns_loop c) (ns_shift c) (tail (ns_rx c))
      else c
  | _ => c
  end.

Definition ns_of (tr : list event) : ns16550 :=
  fold_left ns_step tr (mk_ns false false None []).

Definition ns_status (c : ns16550) : Z :=
  (match ns_rx c with [] => 0 | _ => 1 end) + (match ns_shift c with None => 0x60 | Some _ => 0 end).

Definition uart16550 : Hardware := fun tr p =>
  if p =? 0x3FD then ns_status (ns_of tr)
  else if p =? 0x3F8 then default 0 (head (ns_rx (ns_of tr)))
  else 0xFF.

(** A machine whose COM1 is such a device. *)
Definition has_16550 (hw : Hardware) : Prop :=
  ∀ tr p, uart_port p = true → port_in (Hardware := hw) tr p = port_in (Hardware := uart16550) tr p.

Lemma ns_com1 l c : fold_left ns_step l c = fold_left ns_step (com1 l) c.
Proof.
  revert c. induction l as [|e l IH]; intros c; [done|]. unfold com1 in *. cbn [fold_left List.filter].
  destruct (com1_event e) eqn:He; cbn [fold_left]; rewrite IH; [done|]. f_equal.
  destruct e; try done; cbn [com1_event ns_step] in *; unfold uart_port in He;
    by rewrite !(proj2 (Z.eqb_neq port _)) by lia.
Qed.

Lemma ns_off tr l : off_uart l → ns_of (tr ++ l) = ns_of tr.
Proof. intros Hl. unfold ns_of. by rewrite fold_left_app, ns_com1, com1_off. Qed.

Section on_16550.
Context (hw : Hardware) (Hns : has_16550 hw).

Lemma ns_ready mask tr :
  ready (H := hw) (SERIAL_COM1 + SERIAL_LINE_STATUS) mask tr
  = negb (Z.land (u8 (ns_status (ns_of tr))) mask =? 0).
Proof. unfold ready. by rewrite Hns. Qed.

(** One read of the status later the transmitter is empty. *)
Lemma ns_polled tr l l' v :
  off_uart l → off_uart l' →
  ns_of (tr ++ l ++ [EIn (u16 (SERIAL_COM1 + SERIAL_LINE_STATUS)) v] ++ l' ++ [EPause])
  = ns_step (ns_of tr) (EIn 0x3FD v).
Proof.
  intros Hl Hl'. unfold ns_of. rewrite !fold_left_app, (ns_com1 l), (com1_off l) by done.
  cbn [fold_left]. by rewrite (ns_com1 l'), (com1_off l').
Qed.

Lemma live_16550 n : (2 ≤ n)%nat → uart_live (H := hw) n LSR_TX_EMPTY.
Proof.
  intros Hn tr. apply (responds_mono 2); [done|]. intros l Hl. right. intros l' Hl'.
  intros l2 Hl2. left. rewrite ns_ready, ns_off, ns_polled by done.
  cbn. unfold ns_status. cbn. by destruct (match ns_shift _ with Some _ => _ | None => _ end).
Qed.

Lemma answers_16550 n : (2 ≤ n)%nat → loopback_answers (H := hw) n.
Proof.
  intros Hn tr l Hl. apply (responds_mono 2); [done|]. intros l1 Hl1. right. intros l' Hl'.
  intros l2 Hl2. left. rewrite ns_ready, ns_off, ns_polled by done.
  unfold ns_of. rewrite fold_left_app, (ns_com1 l), Hl.
  by destruct (fold_left ns_step tr _) as [[] [] sh rx].
Qed.

End on_16550.

(** ** Witnesses *)

Definition cpu0 : cpu := mk_cpu [] false (0, 0) (0, 0) 8 16.

(** A machine with a screen and a serial port. *)
Definition con0 : vga * cpu := (vga0, cpu0).

(** No UART: every read floats high. *)
Definition no_uart : Hardware := fun _ _ => 0xFF.

(** A UART whose transmitter is stuck. *)
Definition stuck_uart : Hardware := fun _ _ => 0.

(** The witnesses run on machines that take an interrupt at every access. *)
Section on_uart16550.
#[local] Existing Instances uart16550 busy busy_ok.

Lemma serial_init_spec_witness :
  ∃ s' l v, serial_init 2 con0 = Ret (if v =? 0xAE then 1 else 0) s' ∧
    drift con0 s' ∧ view (C := vga) s' = vga0 ∧ trace (view s') = trace (view con0) ++ l ∧
    In (EIn 0x3F8 v) l ∧ uart_of (trace (view s')) = mk_uart false (negb (v =? 0xAE)) [].
Proof.
  refine (serial_init_spec 2 con0 _). by apply (answers_16550 uart16550).
Defined.

Lemma serial_puts_spec_witness :
  ∃ s', serial_puts 2 (bytes "ok") con0 = Ret tt s' ∧ drift con0 s' ∧
    view (C := vga) s' = vga0 ∧ online (trace (view s')) ∧
    wire (uart_of (trace (view s'))) = [111; 107].
Proof.
  refine (serial_puts_spec 2 (bytes "ok") con0 _ _); [|done]. by apply (live_16550 uart16550).
Defined.

(** The 16550 passes the test. *)
Lemma serial_init_on_16550 :
  match serial_init 2 con0 with Ret r s => r = 1 ∧ online (trace (view s)) | _ => False end.
Proof. by vm_compute. Qed.

End on_uart16550.

Section on_no_uart.
#[local] Existing Instances no_uart busy busy_ok.

Lemma serial_failed_init_mutes_witness :
  let s' := final (serial_init 1 con0) in
  ∃ s'', serial_puts 1 (bytes "lost") s' = Ret tt s'' ∧
    wire (uart_of (trace (view s''))) = wire (uart_of (trace (view con0))).
Proof.
  intros s'. apply (serial_failed_init_mutes 1 con0 s' (bytes "lost")).
  - intros tr l _. apply responds_ready; [done|lia].
  - apply uart_live_ready; [done|lia].
  - by vm_compute.
Defined.

End on_no_uart.

Section on_stuck_uart.
#[local] Existing Instances stuck_uart busy busy_ok.

Lemma serial_putchar_hangs_witness :
  ∃ s', serial_putchar 1000 65 con0 = Hung s'.
Proof. by apply (serial_putchar_hangs 1000 65 con0). Defined.

End on_stuck_uart.
