(* ===== verification/Digits.v ===== *)
(** Positional digits: the remainder-and-divide loop that both number printers
    of the kernel run ([emit_uint] in kernel/kprintf.c, the uptime line of
    kernel/kernel.c), and its agreement with a reference decimal printer. *)

From stdpp Require Export pretty.
From S2P Require Import Prelude.

#[local] Open Scope Z_scope.

(** The digits of [val], least significant first; none for 0. *)
Fixpoint lsd (n : nat) (base val : Z) : list Z :=
  match n with
  | O => []
  | S n => if 0 <? val then val mod base :: lsd n base (val / base) else []
  end.

(** The number a digit list stands for. *)
Fixpoint lsd_value (base : Z) (ds : list Z) : Z :=
  match ds with
  | [] => 0
  | d :: ds => d + base * lsd_value base ds
  end.

Lemma lsd_0 n base val : val ≤ 0 → lsd n base val = [].
Proof. intros. destruct n; cbn; [done|]. destruct (Z.ltb_spec 0 val); done || lia. Qed.

Lemma div_lt_pow base n val :
  1 < base → 0 ≤ val < base ^ Z.of_nat (S n) → 0 ≤ val / base < base ^ Z.of_nat n.
Proof.
  intros Hb [H0 Hlt]. rewrite Nat2Z.inj_succ, Z.pow_succ_r in Hlt by lia. split.
  - apply Z.div_pos; lia.
  - apply Z.div_lt_upper_bound; lia.
Qed.

Lemma lsd_length n base val k :
  1 < base → 0 ≤ val < base ^ Z.of_nat k → (length (lsd n base val) ≤ k)%nat.
Proof.
  intros Hb. revert n val. induction k as [|k IH]; intros n val Hv.
  - rewrite lsd_0; [done|]. cbn in Hv. lia.
  - destruct n as [|n]; [cbn; lia|]. cbn [lsd]. destruct (0 <? val); cbn [length]; [|lia].
    apply le_n_S, IH. by apply div_lt_pow.
Qed.

Lemma lsd_range n base val :
  1 < base → Forall (fun d => 0 ≤ d < base) (lsd n base val).
Proof.
  intros Hb. revert val. induction n as [|n IH]; intros val; [constructor|].
  cbn [lsd]. destruct (0 <? val); constructor; [|done]. apply Z.mod_pos_bound. lia.
Qed.

Lemma lsd_value_lsd n base val :
  1 < base → 0 ≤ val < base ^ Z.of_nat n → lsd_value base (lsd n base val) = val.
Proof.
  intros Hb. revert val. induction n as [|n IH]; intros val Hv.
  - cbn in Hv |- *. lia.
  - cbn [lsd]. destruct (Z.ltb_spec 0 val); cbn [lsd_value]; [|lia].
    rewrite IH by by apply div_lt_pow. rewrite (Z.div_mod val base) at 3 by lia. lia.
Qed.

(** Extra fuel changes nothing once the value is exhausted. *)
Lemma lsd_fuel n m base val :
  1 < base → 0 ≤ val < base ^ Z.of_nat n → (n ≤ m)%nat → lsd m base val = lsd n base val.
Proof.
  intros Hb. revert m val. induction n as [|n IH]; intros m val Hv Hm.
  - cbn in Hv. by rewrite lsd_0 by lia.
  - destruct m as [|m]; [lia|]. cbn [lsd]. destruct (0 <? val); [|done].
    f_equal. apply IH; [by apply div_lt_pow|lia].
Qed.

(** The leading digit is not 0. *)
Lemma lsd_last n base val d :
  1 < base → 0 ≤ val < base ^ Z.of_nat n → last (lsd n base val) = Some d → 0 < d.
Proof.
  intros Hb. revert val. induction n as [|n IH]; intros val Hv; [done|].
  cbn [lsd]. destruct (Z.ltb_spec 0 val); [|done].
  pose proof (div_lt_pow _ _ _ Hb Hv) as Hd. rewrite last_cons.
  destruct (last (lsd n base (val / base))) as [d'|] eqn:El.
  - intros [= <-]. by eapply IH.
  - intros [= <-]. apply last_None in El.
    pose proof (lsd_value_lsd n base _ Hb Hd) as Hv0. rewrite El in Hv0. cbn in Hv0.
    pose proof (Z.div_mod val base). pose proof (Z.mod_pos_bound val base). lia.
Qed.

(** ** The reference decimal printer *)

Definition decimal (val : Z) : list Z := bytes (pretty val).

Lemma bytes_cons a s : bytes (String a s) = Z.of_N (Ascii.N_of_ascii a) :: bytes s.
Proof. done. Qed.

Lemma digit_char d :
  0 ≤ d < 10 → Z.of_N (Ascii.N_of_ascii (pretty_N_char (Z.to_N d))) = 48 + d.
Proof.
  intros. assert (d = 0 ∨ d = 1 ∨ d = 2 ∨ d = 3 ∨ d = 4 ∨ d = 5 ∨ d = 6 ∨ d = 7
    ∨ d = 8 ∨ d = 9) as Hd by lia. by destruct_or! Hd; subst d.
Qed.

Lemma pretty_go_lsd n val s :
  0 ≤ val < 10 ^ Z.of_nat n →
  bytes (pretty_N_go (Z.to_N val) s) = rev (map (Z.add 48) (lsd n 10 val)) ++ bytes s.
Proof.
  revert val s. induction n as [|n IH]; intros val s Hv.
  - cbn in Hv. by replace val with 0 by lia.
  - cbn [lsd]. destruct (Z.ltb_spec 0 val) as [Hp|Hp].
    + rewrite pretty_N_go_step by lia.
      replace (Z.to_N val `div` 10)%N with (Z.to_N (val / 10)) by (by rewrite Z2N.inj_div by lia).
      replace (Z.to_N val `mod` 10)%N with (Z.to_N (val mod 10)) by (by rewrite Z2N.inj_mod by lia).
      rewrite IH by by apply div_lt_pow. rewrite bytes_cons, digit_char.
      * cbn [map rev]. by rewrite <- app_assoc.
      * apply Z.mod_pos_bound. lia.
    + by replace val with 0 by lia.
Qed.

(** Printing the digits in reverse is printing the number. *)
Lemma decimal_lsd n val :
  0 < val < 10 ^ Z.of_nat n → decimal val = rev (map (Z.add 48) (lsd n 10 val)).
Proof.
  intros Hv. unfold decimal. destruct val as [|p|p]; [lia| |lia].
  unfold pretty, pretty_Z, pretty, pretty_positive, pretty, pretty_N.
  rewrite decide_False by done.
  change (N.pos p) with (Z.to_N (Z.pos p)).
  rewrite (pretty_go_lsd n) by lia. apply app_nil_r.
Qed.

Lemma decimal_neg val : val < 0 → decimal val = 45 :: decimal (- val).
Proof. intros. destruct val as [|p|p]; done || lia. Qed.
