(* ===== verification/Kprintf.v ===== *)
(** kernel/kprintf.c: formatted output to the screen and the serial port.

    [vga] and [cpu] are reached through their lenses, so the formatter is
    verified for any machine that has the two consoles. *)

From S2P Require Import Prelude Machine Vga Preempt Screen Serial Digits.

#[local] Open Scope Z_scope.
#[local] Open Scope c_scope.

(** The variadic arguments, as [va_arg] finds them: a 32-bit word or a
    pointer to a C string ([None] for NULL). *)
Inductive va : Type :=
| VInt (z : Z)
| VStr (s : option (list Z)).

Definition digits_lc : list Z := bytes "0123456789abcdef".
Definition digits_uc : list Z := bytes "0123456789ABCDEF".

(** [while (val > 0) { buf[i++] = digits[val % base]; val /= base; }] with
    [buf] of 32 bytes; [None] when the loop would write past the buffer or read past
    the digits (or is given fewer than the 33 rounds that 32 writes and the exit
    test need). *)
Fixpoint fill_digits (n : nat) (digits : list Z) (base val i : Z) (buf : list Z)
  : option (Z * list Z) :=
  match n with
  | O => None
  | S n =>
      if 0 <? val then
        if i <? 32 then
          d ← load digits (val mod base);
          fill_digits n digits base (val / base) (i + 1) buf.[i <- d]
        else None
      else Some (i, buf)
  end.

Section kprintf.
Context {S : Type} `{!Lens S vga} `{!Lens S cpu} `{!Preempt S} `{!Hardware}.
Variable fuel : nat.

Definition emit (c : Z) : M S unit :=
  vga_putchar_i c;; serial_putchar fuel c.

Definition emit_str (s : option (list Z)) : M S unit :=
  mapM_ emit (match s with None => bytes "(null)" | Some s => s end).

(** [while (i > 0) emit(buf[--i]);] *)
Fixpoint emit_rev (i : nat) (buf : list Z) : M S unit :=
  match i with
  | O => mret tt
  | Datatypes.S i => c ← fetch buf (Z.of_nat i); emit c;; emit_rev i buf
  end.

(** [buf] is uninitialised in C; only cells that were written are emitted. *)
Definition emit_uint (val base : Z) (upper : bool) : M S unit :=
  let digits := if upper then digits_uc else digits_lc in
  if val =? 0 then emit 48
  else
    match fill_digits 33 digits base val 0 (replicate 32 0) with
    | Some (i, buf) => emit_rev (Z.to_nat i) buf
    | None => fault
    end.

Definition emit_int (val : Z) : M S unit :=
  if val <? 0 then emit 45;; emit_uint (u32 (- val)) 10 false
  else emit_uint (u32 val) 10 false.

Definition kputs (str : option (list Z)) : M S unit := emit_str str.

(** The [switch] on the character after a percent sign; [k] is the rest of the
    loop. A missing or ill-typed argument is undefined in C. *)
Definition conversion (d : Z) (ap : list va) (k : list va → M S unit) : M S unit :=
  if d =? 99 (* c *) then
    match ap with VInt z :: ap => emit (u8 z);; k ap | _ => fault end
  else if d =? 115 (* s *) then
    match ap with VStr s :: ap => emit_str s;; k ap | _ => fault end
  else if d =? 100 (* d *) then
    match ap with VInt z :: ap => emit_int (s32 z);; k ap | _ => fault end
  else if d =? 117 (* u *) then
    match ap with VInt z :: ap => emit_uint (u32 z) 10 false;; k ap | _ => fault end
  else if d =? 120 (* x *) then
    match ap with VInt z :: ap => emit_uint (u32 z) 16 false;; k ap | _ => fault end
  else if d =? 88 (* X *) then
    match ap with VInt z :: ap => emit_uint (u32 z) 16 true;; k ap | _ => fault end
  else if d =? 37 (* % *) then emit 37;; k ap
  else emit 37;; emit d;; k ap.

(** The format string is the list of its bytes before the NUL. When it ends in
    a lone percent sign the default case emits the NUL and [fmt++] steps over
    it: the next test reads past the end of the string. *)
Fixpoint kprintf (fmt : list Z) (ap : list va) : M S unit :=
  match fmt with
  | [] => mret tt
  | c :: fmt =>
      if negb (c =? 37 (* % *)) then emit c;; kprintf fmt ap
      else
        match fmt with
        | [] => emit 37;; emit 0;; fault
        | d :: fmt => conversion d ap (fun ap => kprintf fmt ap)
        end
  end.

End kprintf.

(** ** What is printed: a pure formatter *)

(** [val] in [base], most significant digit first. *)
Definition uint_text (base : Z) (upper : bool) (val : Z) : list Z :=
  if val =? 0 then [48]
  else rev (map (rd (if upper then digits_uc else digits_lc)) (lsd 32 base val)).

Definition str_text (s : option (list Z)) : list Z := default (bytes "(null)") s.

(** The text of one conversion and the arguments left, or [None] where C
    leaves it undefined. *)
Definition conv_text (d : Z) (ap : list va) : option (list Z * list va) :=
  if d =? 99 then match ap with VInt z :: ap => Some ([u8 z], ap) | _ => None end
  else if d =? 115 then match ap with VStr s :: ap => Some (str_text s, ap) | _ => None end
  else if d =? 100 then match ap with VInt z :: ap => Some (decimal (s32 z), ap) | _ => None end
  else if d =? 117 then match ap with VInt z :: ap => Some (decimal (u32 z), ap) | _ => None end
  else if d =? 120 then
    match ap with VInt z :: ap => Some (uint_text 16 false (u32 z), ap) | _ => None end
  else if d =? 88 then
    match ap with VInt z :: ap => Some (uint_text 16 true (u32 z), ap) | _ => None end
  else if d =? 37 then Some ([37], ap)
  else Some ([37; d], ap).

(** The whole output of a call, and whether it ends normally: not with an
    argument missing or the format string overrun. *)
Fixpoint format (fmt : list Z) (ap : list va) : list Z * bool :=
  match fmt with
  | [] => ([], true)
  | c :: fmt =>
      if negb (c =? 37) then let '(t, ok) := format fmt ap in (c :: t, ok)
      else
        match fmt with
        | [] => ([37; 0], false)
        | d :: fmt =>
            match conv_text d ap with
            | Some (t, ap) => let '(t', ok) := format fmt ap in (t ++ t', ok)
            | None => ([], false)
            end
        end
  end.

(** Reading a number back: the value of a digit character. *)
Definition digit_value (c : Z) : Z :=
  if c <? 58 then c - 48 else if c <? 91 then c - 55 else c - 87.

Definition parse_uint (base : Z) (text : list Z) : Z :=
  fold_left (fun acc c => acc * base + digit_value c) text 0.

(** ** Digit generation *)

Lemma take_wr (buf : list Z) i d :
  (i < length buf)%nat → take (S i) (wr buf (Z.of_nat i) d) = take i buf ++ [d].
Proof.
  intros Hi. rewrite wr_in, Nat2Z.id by lia.
  rewrite (take_S_r _ _ d) by by apply list_lookup_insert_eq.
  by rewrite take_insert_ge by lia.
Qed.

Lemma fill_digits_spec n digits base val i buf :
  1 < base ≤ Z.of_nat (length digits) → 0 ≤ val < base ^ Z.of_nat n → length buf = 32%nat →
  (i + length (lsd n base val) ≤ 32)%nat →
  ∃ buf', fill_digits (S n) digits base val (Z.of_nat i) buf
          = Some (Z.of_nat (i + length (lsd n base val)), buf') ∧
    take (i + length (lsd n base val)) buf' = take i buf ++ map (rd digits) (lsd n base val).
Proof.
  intros Hb. revert val i buf. induction n as [|n IH]; intros val i buf Hv Hbuf Hi.
  - cbn in Hv |- *. assert (val = 0) as -> by lia. cbn. exists buf.
    by rewrite Nat.add_0_r, app_nil_r.
  - remember (S n) as n'. cbn [fill_digits]. subst n'. cbn [lsd] in *.
    destruct (Z.ltb_spec 0 val).
    + cbn [length map] in *. destruct (Z.ltb_spec (Z.of_nat i) 32); [|lia].
      rewrite load_rd by (pose proof (Z.mod_pos_bound val base); lia). cbn [mbind option_bind].
      destruct (IH (val / base) (S i) (wr buf (Z.of_nat i) (rd digits (val mod base))))
        as (buf' & Hf & Ht); [apply div_lt_pow; [lia|done]|by rewrite length_wr by lia|lia|].
      exists buf'. replace (Z.of_nat i + 1) with (Z.of_nat (S i)) by lia.
      rewrite Hf. rewrite Nat.add_succ_r. split; [done|].
      rewrite <- Nat.add_succ_l, Ht, take_wr by lia. by rewrite <- app_assoc.
    + cbn. exists buf. by rewrite Nat.add_0_r, app_nil_r.
Qed.

Lemma lsd_len32 base val n :
  2 ≤ base → 0 ≤ val < 4294967296 → (length (lsd n base val) ≤ 32)%nat.
Proof.
  intros Hb Hv. apply lsd_length; [lia|]. split; [lia|].
  apply Z.lt_le_trans with (2 ^ 32); [lia|]. apply Z.pow_le_mono_l. lia.
Qed.

(** ** Printing, as a relation between machine states *)

Section prints.
Context {S : Type} `{!Lens S vga} `{!Lens S cpu} `{!Indep S cpu vga} `{!Preempt S}
  `{!PreemptOk S} `{!Hardware}.
Variable fuel : nat.

(** From [s] to [s'] the text [cs] was put on both consoles. *)
Record printed (cs : list Z) (s s' : S) : Prop := {
  printed_drift : drift s s';
  vga_printed : view (C := vga) s' = vga_puts cs (view s);
  trace_printed : uart_of (trace (view s')) = uart_out cs (uart_of (trace (view s)))
}.

(** [m] prints [cs] and then returns, or ([ok = false]) faults. *)
Definition runs (ok : bool) (m : M S unit) (cs : list Z) : Prop :=
  ∀ s, data_mode s →
    ∃ s', m s = (if ok then Ret tt s' else Fault s') ∧ printed cs s s'.

(** [m] terminates and prints [cs]. *)
Definition prints : M S unit → list Z → Prop := runs true.

Lemma data_mode_printed cs s s' : printed cs s s' → data_mode s → data_mode s'.
Proof. intros Hp Hd. unfold data_mode. by rewrite (trace_printed _ _ _ Hp). Qed.

Lemma vga_puts_app a b v : vga_puts (a ++ b) v = vga_puts b (vga_puts a v).
Proof. rewrite !vga_puts_fold. apply fold_left_app. Qed.

Lemma printed_nil s : printed [] s s.
Proof. split; [reflexivity|done|]. by rewrite uart_out_nil. Qed.

Lemma printed_app a b s s' s'' :
  printed a s s' → printed b s' s'' → printed (a ++ b) s s''.
Proof.
  intros [D1 V1 U1] [D2 V2 U2]. split; [by etransitivity|..].
  - by rewrite V2, V1, vga_puts_app.
  - by rewrite U2, U1, uart_out_app.
Qed.

Lemma prints_ret : prints (mret tt) [].
Proof. intros s _. exists s. split; [done|apply printed_nil]. Qed.

Lemma prints_bind ok m1 m2 a b :
  prints m1 a → runs ok m2 b → runs ok (m1;; m2) (a ++ b).
Proof.
  intros H1 H2 s Hd. destruct (H1 s Hd) as (s' & E1 & P1).
  destruct (H2 s') as (s'' & E2 & P2); [by eapply data_mode_printed|].
  exists s''. rewrite (bind_ret _ _ _ _ _ E1). split; [done|]. by eapply printed_app.
Qed.

Lemma runs_fault : runs false fault [].
Proof. intros s _. exists s. split; [done|apply printed_nil]. Qed.

Hypothesis live : uart_live fuel LSR_TX_EMPTY.

Lemma prints_emit c : prints (emit fuel c) [c].
Proof.
  intros s Hd. unfold emit.
  destruct (putchar_run (fun _ => True) drawn c s I) as (s1 & E1 & (D1 & l & T & O) & V1).
  rewrite (bind_ret _ _ _ _ _ E1).
  assert (uart_of (trace (view s1)) = uart_of (trace (view s))) as Et by (rewrite T; by apply uart_other).
  destruct (serial_putchar_run fuel c s1 live) as (s2 & E & [D V U]).
  { unfold data_mode. by rewrite Et. }
  exists s2. split; [done|]. split; [by etransitivity|by rewrite V|by rewrite U, Et].
Qed.

Lemma prints_mapM cs : prints (mapM_ (emit fuel) cs) cs.
Proof.
  induction cs as [|c cs IH]; [apply prints_ret|].
  apply (prints_bind _ _ _ [c]); [apply prints_emit|done].
Qed.

Lemma prints_emit_str s : prints (emit_str fuel s) (str_text s).
Proof. destruct s; apply prints_mapM. Qed.

Lemma prints_emit_rev i buf :
  (i ≤ length buf)%nat → prints (emit_rev fuel i buf) (rev (take i buf)).
Proof.
  induction i as [|i IH]; intros Hi; [apply prints_ret|].
  cbn [emit_rev]. destruct (lookup_lt_is_Some_2 buf i) as [d Hd]; [lia|].
  rewrite (take_S_r _ _ _ Hd), rev_app_distr.
  assert (prints (emit fuel d;; emit_rev fuel i buf) ([d] ++ rev (take i buf))) as Hp
    by (apply prints_bind; [apply prints_emit|apply IH; lia]).
  intros s Hs. rewrite (bind_ret _ _ s d s); [by apply Hp|].
  rewrite fetch_in, Nat2Z.id by lia. by rewrite (list_lookup_total_correct _ _ _ Hd).
Qed.

Lemma prints_emit_uint val base upper :
  2 ≤ base ≤ 16 → 0 ≤ val < 4294967296 →
  prints (emit_uint fuel val base upper) (uint_text base upper val).
Proof.
  intros Hb Hv. unfold emit_uint, uint_text.
  destruct (Z.eqb_spec val 0); [apply prints_emit|].
  set (digits := if upper then digits_uc else digits_lc).
  destruct (fill_digits_spec 32 digits base val 0 (replicate 32 0)) as (buf & Hf & Ht);
    [by destruct upper; cbn; lia| |done|apply lsd_len32; lia|].
  { split; [lia|]. apply Z.lt_le_trans with (2 ^ 32); [lia|]. apply Z.pow_le_mono_l. lia. }
  cbn [Nat.add] in *. change (Z.of_nat 0) with 0 in Hf. rewrite Hf, Nat2Z.id.
  change (take 0 (replicate 32 0) ++ map (rd digits) (lsd 32 base val))
    with (map (rd digits) (lsd 32 base val)) in Ht. rewrite <- Ht. apply prints_emit_rev.
  apply (f_equal length) in Ht. rewrite length_take, length_map in Ht. lia.
Qed.

End prints.

(** ** Numbers *)

Lemma digits_decimal d : 0 ≤ d < 10 → rd digits_lc d = 48 + d.
Proof.
  intros. assert (d = 0 ∨ d = 1 ∨ d = 2 ∨ d = 3 ∨ d = 4 ∨ d = 5 ∨ d = 6 ∨ d = 7
    ∨ d = 8 ∨ d = 9) as Hd by lia. by destruct_or! Hd; subst d.
Qed.

Lemma uint_text_decimal val :
  0 ≤ val < 4294967296 → uint_text 10 false val = decimal val.
Proof.
  intros Hv. unfold uint_text. destruct (Z.eqb_spec val 0) as [->|]; [done|].
  rewrite (decimal_lsd 32) by (change (Z.of_nat 32) with 32; lia). f_equal.
  apply map_ext_in. intros d Hd. apply digits_decimal.
  pose proof (lsd_range 32 10 val ltac:(lia)) as Hr.
  rewrite List.Forall_forall in Hr. by apply Hr.
Qed.

Lemma digit_value_digits (upper : bool) d :
  0 ≤ d < 16 → digit_value (rd (if upper then digits_uc else digits_lc) d) = d.
Proof.
  intros. assert (d = 0 ∨ d = 1 ∨ d = 2 ∨ d = 3 ∨ d = 4 ∨ d = 5 ∨ d = 6 ∨ d = 7
    ∨ d = 8 ∨ d = 9 ∨ d = 10 ∨ d = 11 ∨ d = 12 ∨ d = 13 ∨ d = 14 ∨ d = 15) as Hd by lia.
  by destruct upper; destruct_or! Hd; subst d.
Qed.

Lemma parse_rev base ds (upper : bool) :
  Forall (fun d => 0 ≤ d < 16) ds →
  parse_uint base (rev (map (rd (if upper then digits_uc else digits_lc)) ds))
  = lsd_value base ds.
Proof.
  unfold parse_uint. intros Hds. induction Hds as [|d ds Hd Hds IH]; [done|]. cbn [map rev lsd_value].
  rewrite fold_left_app, IH. cbn [fold_left].
  rewrite digit_value_digits by done. lia.
Qed.

Section conversions.
Context {S : Type} `{!Lens S vga} `{!Lens S cpu} `{!Indep S cpu vga} `{!Preempt S}
  `{!PreemptOk S} `{!Hardware}.
Variable fuel : nat.
Hypothesis live : uart_live fuel LSR_TX_EMPTY.

Lemma prints_decimal val :
  0 ≤ val < 4294967296 → prints (emit_uint fuel val 10 false : M S unit) (decimal val).
Proof. intros. rewrite <- uint_text_decimal by done. apply prints_emit_uint; done || lia. Qed.

Lemma prints_emit_int z : prints (emit_int fuel (s32 z) : M S unit) (decimal (s32 z)).
Proof.
  pose proof (s32_range z). unfold emit_int. destruct (Z.ltb_spec (s32 z) 0).
  - rewrite u32_id, decimal_neg by lia.
    apply (prints_bind _ _ _ [45]); [by apply prints_emit|]. apply prints_decimal. lia.
  - rewrite u32_id by lia. apply prints_decimal. lia.
Qed.

Lemma runs_conversion ok d ap (k : list va → M S unit) t' :
  (∀ t ap', conv_text d ap = Some (t, ap') → runs ok (k ap') t') →
  match conv_text d ap with
  | Some (t, _) => runs ok (conversion fuel d ap k) (t ++ t')
  | None => runs false (conversion fuel d ap k) []
  end.
Proof.
  intros Hk. unfold conv_text, conversion in *.
  destruct (d =? 99);
    [destruct ap as [|[z|s] ap]; try apply runs_fault; apply prints_bind; eauto using prints_emit|].
  destruct (d =? 115);
    [destruct ap as [|[z|s] ap]; try apply runs_fault; apply prints_bind; eauto using prints_emit_str|].
  destruct (d =? 100);
    [destruct ap as [|[z|s] ap]; try apply runs_fault; apply prints_bind; eauto using prints_emit_int|].
  destruct (d =? 117);
    [destruct ap as [|[z|s] ap]; try apply runs_fault; apply prints_bind;
     eauto using prints_decimal, u32_range|].
  destruct (d =? 120);
    [destruct ap as [|[z|s] ap]; try apply runs_fault; apply prints_bind;
     eauto using prints_emit_uint, u32_range with lia|].
  destruct (d =? 88);
    [destruct ap as [|[z|s] ap]; try apply runs_fault; apply prints_bind;
     eauto using prints_emit_uint, u32_range with lia|].
  destruct (d =? 37); [apply prints_bind; eauto using prints_emit|].
  apply (prints_bind _ _ _ [37]); [by apply prints_emit|].
  apply (prints_bind _ _ _ [d]); eauto using prints_emit.
Qed.

Lemma runs_kprintf n fmt ap :
  (length fmt ≤ n)%nat →
  runs (format fmt ap).2 (kprintf fuel fmt ap : M S unit) (format fmt ap).1.
Proof.
  revert fmt ap. induction n as [|n IH]; intros fmt ap Hn.
  { destruct fmt; cbn in *; [|lia]. apply prints_ret. }
  destruct fmt as [|c fmt]; cbn [format kprintf] in *; [apply prints_ret|].
  cbn [length] in Hn. destruct (negb (c =? 37)).
  - specialize (IH fmt ap ltac:(lia)). destruct (format fmt ap) as [t ok].
    by apply (prints_bind _ _ _ [c]); [apply prints_emit|].
  - destruct fmt as [|d fmt]; [|cbn [length] in Hn].
    { apply (prints_bind _ _ _ [37]); [by apply prints_emit|].
      apply (prints_bind _ _ _ [0] []); [by apply prints_emit|]. apply runs_fault. }
    pose proof (runs_conversion (match conv_text d ap with Some (_, ap) => (format fmt ap).2
      | None => true end) d ap (fun ap => kprintf fuel fmt ap)
      (match conv_text d ap with Some (_, ap) => (format fmt ap).1 | None => [] end)) as Hc.
    destruct (conv_text d ap) as [[t ap']|]; [|by apply Hc].
    destruct (format fmt ap') as [t' ok] eqn:E. apply Hc. intros ?? [= <- <-].
    specialize (IH fmt ap' ltac:(lia)). by rewrite E in IH.
Qed.

End conversions.

(** ** Properties *)

Section properties.
Context {S : Type} `{!Lens S vga} `{!Lens S cpu} `{!Indep S cpu vga} `{!Preempt S}
  `{!PreemptOk S} `{!Hardware}.
Variable fuel : nat.

(** C14: [kprintf] puts the text of its format string on both consoles: it
    terminates, types the text on the screen and sends the same bytes down the
    serial line (unless the port is in loopback), whatever the format string and
    arguments; it ends in a fault exactly where the format string asks for a
    missing argument or ends in a lone percent sign. *)
Theorem kprintf_spec (fmt : list Z) (ap : list va) (s : S) :
  uart_live fuel LSR_TX_EMPTY → data_mode s →
  let '(t, ok) := format fmt ap in
  ∃ s', kprintf fuel fmt ap s = (if ok then Ret tt s' else Fault s') ∧
    printed t s s'.
Proof.
  intros live Hd. pose proof (runs_kprintf fuel live (length fmt) fmt ap (le_n _) s Hd) as H1.
  by destruct (format fmt ap).
Qed.

(** C38: A number printed by [emit_uint] in any base from 2 to 16 reads back as
    that number, has no leading zero and at most 32 digits. *)
Theorem emit_uint_roundtrip (val base : Z) (upper : bool) :
  uart_live fuel LSR_TX_EMPTY → 2 ≤ base ≤ 16 → 0 ≤ val < 4294967296 →
  ∃ t, prints (S := S) (emit_uint fuel val base upper) t ∧
    parse_uint base t = val ∧ (length t ≤ 32)%nat ∧
    (val ≠ 0 → ∃ d, head t = Some d ∧ 0 < digit_value d).
Proof.
  intros live Hb Hv. assert (0 ≤ val < base ^ Z.of_nat 32) as Hp.
  { split; [lia|]. apply Z.lt_le_trans with (2 ^ 32); [lia|]. apply Z.pow_le_mono_l. lia. }
  exists (uint_text base upper val). split; [by apply prints_emit_uint; [|lia|]|].
  unfold uint_text. destruct (Z.eqb_spec val 0) as [->|Hne]; [by repeat split; cbn; lia|].
  assert (Forall (fun d => 0 ≤ d < 16) (lsd 32 base val)) as Hr.
  { eapply Forall_impl; [by apply lsd_range; lia|]. cbn. lia. }
  split_and!.
  - rewrite parse_rev by done. apply lsd_value_lsd; lia.
  - rewrite length_rev, length_map. apply lsd_len32; lia.
  - intros _. destruct (last (lsd 32 base val)) as [d|] eqn:El.
    + exists (rd (if upper then digits_uc else digits_lc) d).
      pose proof (lsd_last 32 base val d ltac:(lia) Hp El).
      apply last_Some in El as [l' El]. rewrite El in Hr |- *.
      apply Forall_app in Hr as [_ Hr]. inversion_clear Hr.
      rewrite map_app, rev_app_distr. split; [done|]. rewrite digit_value_digits; lia.
    + apply last_None in El. pose proof (lsd_value_lsd 32 base val) as Hval.
      rewrite El in Hval. cbn in Hval. lia.
Qed.

(** [%d] prints the ordinary decimal numeral of every 32-bit integer, sign
    included; in particular -2147483648 is printed right. *)
Lemma emit_int_decimal (z : Z) :
  uart_live fuel LSR_TX_EMPTY → -2147483648 ≤ z < 2147483648 →
  prints (S := S) (emit_int fuel z) (bytes (pretty z)).
Proof.
  intros live Hz. rewrite <- (s32_id z) by done. by apply prints_emit_int.
Qed.

End properties.

(** The digit loop never reads or writes outside: it stops after at most 32
    digits in every base, 10 in decimal and 8 in hexadecimal. *)
Lemma fill_digits_bound (digits : list Z) (base val : Z) :
  2 ≤ base ≤ Z.of_nat (length digits) → 0 ≤ val < 4294967296 →
  ∃ i buf, fill_digits 33 digits base val 0 (replicate 32 0) = Some (i, buf) ∧
    0 ≤ i ≤ 32 ∧ (base = 10 → i ≤ 10) ∧ (base = 16 → i ≤ 8).
Proof.
  intros Hb Hv. pose proof (lsd_len32 base val 32 ltac:(lia) Hv) as H32.
  destruct (fill_digits_spec 32 digits base val 0 (replicate 32 0)) as (buf & Hf & _);
    [lia| |done|done|].
  { split; [lia|]. apply Z.lt_le_trans with (2 ^ 32); [lia|]. apply Z.pow_le_mono_l. lia. }
  eexists _, buf. split; [exact Hf|]. cbn [Nat.add]. split; [lia|]. split; intros ->.
  - pose proof (lsd_length 32 10 val 10). lia.
  - pose proof (lsd_length 32 16 val 8). lia.
Qed.

(** ** Witnesses *)

Section on_uart16550.
#[local] Existing Instances uart16550 busy busy_ok.

Lemma kprintf_spec_witness :
  ∃ s', kprintf 2 (bytes "n=%u 0x%X %s%") [VInt 42; VInt 48879; VStr None] con0
        = Fault s' ∧ printed (bytes "n=42 0xBEEF (null)%" ++ [0]) con0 s'.
Proof.
  refine (kprintf_spec 2 (bytes "n=%u 0x%X %s%")
           [VInt 42; VInt 48879; VStr None] con0 _ _); [|done].
  by apply (live_16550 uart16550).
Defined.

Lemma emit_uint_roundtrip_witness :
  ∃ t, prints (S := vga * cpu) (emit_uint 2 48879 16 true) t ∧
    parse_uint 16 t = 48879 ∧ (length t ≤ 32)%nat ∧
    (48879 ≠ 0 → ∃ d, head t = Some d ∧ 0 < digit_value d).
Proof. apply emit_uint_roundtrip; [by apply (live_16550 uart16550)|lia..]. Defined.

End on_uart16550.
