(* ===== verification/Pic.v ===== *)
(** The dual 8259A driver (interrupts/pic.c, interrupts/pic.h), the state a pair
    of 8259As is in after a trace of port writes, and the proof that the driver
    remaps, masks and unmasks as intended. *)

From S2P Require Import Prelude Machine.

#[local] Open Scope Z_scope.
#[local] Open Scope c_scope.

Definition PIC_MASTER_OFFSET : Z := 0x20.
Definition PIC_SLAVE_OFFSET : Z := 0x28.

Definition PIC_MASTER_CMD : Z := 0x20.
Definition PIC_MASTER_DATA : Z := 0x21.
Definition PIC_SLAVE_CMD : Z := 0xA0.
Definition PIC_SLAVE_DATA : Z := 0xA1.

Definition ICW1_INIT : Z := 0x10.
Definition ICW1_ICW4 : Z := 0x01.
Definition ICW4_8086 : Z := 0x01.
Definition PIC_EOI : Z := 0x20.
Definition PIC_OCW3_ISR : Z := 0x0B.

Section pic.
Context {S : Type} `{!Lens S cpu} `{!Hardware}.

Definition io_wait : M S unit := outb 0x80 0.

Definition pic_init : M S unit :=
  mask_master ← inb PIC_MASTER_DATA;
  mask_slave ← inb PIC_SLAVE_DATA;
  outb PIC_MASTER_CMD (Z.lor ICW1_INIT ICW1_ICW4);; io_wait;;
  outb PIC_SLAVE_CMD (Z.lor ICW1_INIT ICW1_ICW4);; io_wait;;
  outb PIC_MASTER_DATA PIC_MASTER_OFFSET;; io_wait;;
  outb PIC_SLAVE_DATA PIC_SLAVE_OFFSET;; io_wait;;
  outb PIC_MASTER_DATA 0x04;; io_wait;;
  outb PIC_SLAVE_DATA 0x02;; io_wait;;
  outb PIC_MASTER_DATA ICW4_8086;; io_wait;;
  outb PIC_SLAVE_DATA ICW4_8086;; io_wait;;
  outb PIC_MASTER_DATA mask_master;;
  outb PIC_SLAVE_DATA mask_slave.

Definition pic_send_eoi (irq : Z) : M S unit :=
  (if 8 <=? irq then outb PIC_SLAVE_CMD PIC_EOI else mret tt);;
  outb PIC_MASTER_CMD PIC_EOI.

Definition pic_set_mask (irq : Z) : M S unit :=
  let '(port, irq) :=
    if irq <? 8 then (PIC_MASTER_DATA, irq) else (PIC_SLAVE_DATA, u8 (irq - 8)) in
  m ← inb port;
  let val := Z.lor m (u8 (1 <<u irq)) in
  outb port val.

Definition pic_clear_mask (irq : Z) : M S unit :=
  let '(port, irq) :=
    if irq <? 8 then (PIC_MASTER_DATA, irq) else (PIC_SLAVE_DATA, u8 (irq - 8)) in
  m ← inb port;
  let val := Z.land m (u8 (~u (1 <<u irq))) in
  outb port val.

(** C leaves the order of the two reads open; the slave is read first here. *)
Definition pic_read_isr : M S Z :=
  outb PIC_MASTER_CMD PIC_OCW3_ISR;;
  outb PIC_SLAVE_CMD PIC_OCW3_ISR;;
  slave ← inb PIC_SLAVE_CMD;
  master ← inb PIC_MASTER_CMD;
  mret (u16 (Z.lor (Z.shiftl slave 8) master)).

End pic.

(** ** The 8259A as its data sheet describes it

    A command write with bit 4 set is ICW1: it clears the mask and makes the
    next data writes ICW2 (vector offset), ICW3 (cascade wiring) and, if bit 0
    of ICW1 asked for it, ICW4. Any other data write sets the mask (OCW1). *)

Inductive icw : Type := Expect2 | Expect3 | Expect4 | Ready.

Record i8259 : Type := mk_i8259 {
  phase : icw;
  need4 : bool;
  offset : Z;
  cascade : Z;
  imr : Z
}.

Definition i8259_reset : i8259 := mk_i8259 Ready false 0 0 0.

Definition i8259_cmd (v : Z) (p : i8259) : i8259 :=
  if Z.testbit v 4
  then mk_i8259 Expect2 (Z.testbit v 0) (offset p) (cascade p) 0
  else p.

Definition i8259_data (v : Z) (p : i8259) : i8259 :=
  match phase p with
  | Expect2 => mk_i8259 Expect3 (need4 p) v (cascade p) (imr p)
  | Expect3 => mk_i8259 (if need4 p then Expect4 else Ready) (need4 p) (offset p) v (imr p)
  | Expect4 => mk_i8259 Ready (need4 p) (offset p) (cascade p) (imr p)
  | Ready => mk_i8259 Ready (need4 p) (offset p) (cascade p) (u8 v)
  end.

Definition i8259_step (cmd data : Z) (p : i8259) (e : event) : i8259 :=
  match e with
  | EOut port v =>
      if port =? cmd then i8259_cmd v p
      else if port =? data then i8259_data v p else p
  | _ => p
  end.

Definition master_of (tr : list event) : i8259 :=
  fold_left (i8259_step 0x20 0x21) tr i8259_reset.
Definition slave_of (tr : list event) : i8259 :=
  fold_left (i8259_step 0xA0 0xA1) tr i8259_reset.

(** Is IRQ line [n] (0-15) masked? *)
Definition masked (tr : list event) (n : Z) : bool :=
  if n <? 8 then Z.testbit (imr (master_of tr)) n
  else Z.testbit (imr (slave_of tr)) (n - 8).

(** Both chips are out of their initialisation sequence. *)
Definition pics_ready (tr : list event) : Prop :=
  phase (master_of tr) = Ready ∧ phase (slave_of tr) = Ready.

(** A data port of an initialised 8259A reads back its mask. *)
Definition imr_readback `{!Hardware} : Prop :=
  ∀ tr, pics_ready tr →
    u8 (port_in tr 0x21) = imr (master_of tr) ∧ u8 (port_in tr 0xA1) = imr (slave_of tr).

(** ** Lemmas *)

Lemma master_app tr l : master_of (tr ++ l) = fold_left (i8259_step 0x20 0x21) l (master_of tr).
Proof. apply fold_left_app. Qed.
Lemma slave_app tr l : slave_of (tr ++ l) = fold_left (i8259_step 0xA0 0xA1) l (slave_of tr).
Proof. apply fold_left_app. Qed.

(** The ports of the two controllers and of [io_wait]. *)
Definition pic_port (p : Z) : bool :=
  (p =? 0x20) || (p =? 0x21) || (p =? 0xA0) || (p =? 0xA1) || (p =? 0x80).

(** Accesses to other devices do not concern the controllers. *)
Lemma pics_other tr l :
  on_ports (fun p => negb (pic_port p)) l →
  master_of (tr ++ l) = master_of tr ∧ slave_of (tr ++ l) = slave_of tr.
Proof.
  intros Hl. rewrite master_app, slave_app. generalize (master_of tr), (slave_of tr).
  unfold pic_port in Hl. induction Hl as [|e l He Hl IH]; intros m sl; [done|].
  cbn [fold_left]. destruct e; try apply IH. cbn [i8259_step].
  rewrite !(proj2 (Z.eqb_neq port _)) by lia. apply IH.
Qed.

Lemma masked_other tr l k : on_ports (fun p => negb (pic_port p)) l →
  masked (tr ++ l) k = masked tr k.
Proof. intros Hl. unfold masked. by destruct (pics_other tr l Hl) as [-> ->]. Qed.

Lemma pics_ready_other tr l : on_ports (fun p => negb (pic_port p)) l →
  pics_ready tr → pics_ready (tr ++ l).
Proof. intros Hl. unfold pics_ready. by destruct (pics_other tr l Hl) as [-> ->]. Qed.

(** The initialisation words, without the reads and the final masks. *)
Definition icw_events : list event :=
  [EOut 0x20 0x11; EOut 0x80 0; EOut 0xA0 0x11; EOut 0x80 0; EOut 0x21 0x20; EOut 0x80 0;
   EOut 0xA1 0x28; EOut 0x80 0; EOut 0x21 0x04; EOut 0x80 0; EOut 0xA1 0x02; EOut 0x80 0;
   EOut 0x21 0x01; EOut 0x80 0; EOut 0xA1 0x01; EOut 0x80 0].

Lemma master_icw p : fold_left (i8259_step 0x20 0x21) icw_events p = mk_i8259 Ready true 0x20 4 0.
Proof. done. Qed.
Lemma slave_icw p : fold_left (i8259_step 0xA0 0xA1) icw_events p = mk_i8259 Ready true 0x28 2 0.
Proof. done. Qed.

Lemma imr_step_range cmd data p e :
  0 ≤ imr p < 256 → 0 ≤ imr (i8259_step cmd data p e) < 256.
Proof.
  intros Hp. destruct e; try done. cbn. destruct (_ =? cmd).
  - unfold i8259_cmd. destruct (Z.testbit v 4); [cbn; lia|done].
  - destruct (_ =? data); [|done]. unfold i8259_data.
    destruct (phase p); try done. apply u8_range.
Qed.

Lemma imr_range cmd data tr : 0 ≤ imr (fold_left (i8259_step cmd data) tr i8259_reset) < 256.
Proof.
  assert (0 ≤ imr i8259_reset < 256) as H0 by (cbn; lia). revert H0.
  generalize i8259_reset. induction tr as [|e tr IH]; intros p Hp; [done|].
  by apply IH, imr_step_range.
Qed.

(** Setting or clearing one bit of a mask byte. *)
Lemma testbit_set m j k :
  0 ≤ m < 256 → 0 ≤ j < 8 → 0 ≤ k < 8 →
  Z.testbit (u8 (Z.lor m (u8 (u32 (Z.shiftl 1 j))))) k = (k =? j) || Z.testbit m k.
Proof.
  intros. rewrite testbit_u8, Z.lor_spec, testbit_u8, testbit_u32, testbit_shiftl1 by lia.
  destruct (Z.ltb_spec k 8), (Z.ltb_spec k 32); try lia. cbn. apply orb_comm.
Qed.

Lemma testbit_clear m j k :
  0 ≤ m < 256 → 0 ≤ j < 8 → 0 ≤ k < 8 →
  Z.testbit (u8 (Z.land m (u8 (u32 (Z.lnot (u32 (Z.shiftl 1 j))))))) k
  = negb (k =? j) && Z.testbit m k.
Proof.
  intros. rewrite testbit_u8, Z.land_spec, testbit_u8, testbit_u32, Z.lnot_spec,
    testbit_u32, testbit_shiftl1 by lia.
  destruct (Z.ltb_spec k 8), (Z.ltb_spec k 32); try lia. cbn. apply andb_comm.
Qed.

(** Two lines of the same chip are the same line iff their bits are. *)
Lemma same_line k irq :
  0 ≤ k < 16 → 0 ≤ irq < 16 → (k <? 8) = (irq <? 8) →
  (k mod 8 =? irq mod 8) = (k =? irq).
Proof.
  intros Hk Hirq. destruct (Z.ltb_spec k 8), (Z.ltb_spec irq 8); intros; try done;
    destruct (Z.eqb_spec k irq), (Z.eqb_spec (k mod 8) (irq mod 8)); done || dlia.
Qed.

(** Reading back and rewriting one data port changes one chip's mask. *)
Lemma masked_rewrite tr irq v w k :
  pics_ready tr → 0 ≤ irq < 16 → 0 ≤ k < 16 →
  let port := if irq <? 8 then 0x21 else 0xA1 in
  masked (tr ++ [EIn port v; EOut port w]) k
  = if bool_decide ((k <? 8) = (irq <? 8)) then Z.testbit (u8 w) (k mod 8) else masked tr k.
Proof.
  intros [Hm Hs] Hirq Hk. unfold masked. rewrite master_app, slave_app.
  destruct (Z.ltb_spec irq 8), (Z.ltb_spec k 8); cbn -[Z.modulo];
    unfold i8259_data; rewrite ?Hm, ?Hs; cbn -[Z.modulo]; try done.
  - by rewrite Z.mod_small by lia.
  - f_equal. dlia.
Qed.

Section pic_lemmas.
Context {S : Type} `{!Lens S cpu} `{!Hardware}.

Lemma pic_send_eoi_eq irq (s : S) :
  pic_send_eoi irq s
  = Ret tt (grow (if 8 <=? irq then [EOut 0xA0 0x20; EOut 0x20 0x20] else [EOut 0x20 0x20]) s).
Proof.
  unfold pic_send_eoi. destruct (8 <=? irq).
  - step_outb. by rewrite outb_eq, grow_grow.
  - done.
Qed.

(** The value of the 16-bit in-service register read at a point of the trace. *)
Definition isr_reads (tr : list event) : list event :=
  let t1 := tr ++ [EOut 0x20 0x0B; EOut 0xA0 0x0B] in
  let slave := u8 (port_in t1 0xA0) in
  let t2 := t1 ++ [EIn 0xA0 slave] in
  [EOut 0x20 0x0B; EOut 0xA0 0x0B; EIn 0xA0 slave; EIn 0x20 (u8 (port_in t2 0x20))].

Definition isr_value (tr : list event) : Z :=
  match isr_reads tr with
  | [_; _; EIn _ slave; EIn _ master] => master + slave * 256
  | _ => 0
  end.

Lemma pic_read_isr_eq (s : S) :
  pic_read_isr s = Ret (isr_value (trace (view s))) (grow (isr_reads (trace (view s))) s).
Proof.
  unfold pic_read_isr. do 2 step_outb.
  rewrite (bind_ret _ _ _ _ _ (inb_eq _ _)), (bind_ret _ _ _ _ _ (inb_eq _ _)).
  rewrite !grow_grow, !trace_grow. unfold mret, M_ret, isr_value, isr_reads.
  cbn [app]. rewrite <- !app_assoc. cbn [app]. f_equal.
  set (a := u8 _). set (b := u8 _).
  assert (0 ≤ a < 256) by apply u8_range. assert (0 ≤ b < 256) by apply u8_range.
  rewrite Z.lor_comm, lor_shiftl by lia. rewrite u16_id; lia.
Qed.

End pic_lemmas.

Section pic_props.
Context {S : Type} `{!Lens S cpu} `{!Hardware}.

Lemma pic_init_eq (s : S) :
  let mm := u8 (port_in (trace (view s)) 0x21) in
  let ms := u8 (port_in (trace (view s) ++ [EIn 0x21 mm]) 0xA1) in
  pic_init s
  = Ret tt (grow ([EIn 0x21 mm; EIn 0xA1 ms] ++ icw_events ++ [EOut 0x21 mm; EOut 0xA1 ms]) s).
Proof.
  intros mm ms. unfold pic_init, io_wait. do 2 rewrite (bind_ret _ _ _ _ _ (inb_eq _ _)).
  rewrite grow_grow, trace_grow.
  change (u8 (port_in (trace (view s)) (u16 PIC_MASTER_DATA))) with mm.
  change (u8 (port_in (trace (view s) ++ [EIn (u16 PIC_MASTER_DATA) mm]) (u16 PIC_SLAVE_DATA)))
    with ms.
  do 17 step_outb. rewrite outb_eq, grow_grow.
  unfold mm, ms. rewrite !(u8_id (u8 _)) by apply u8_range. done.
Qed.

Lemma pic_mask_eq irq (f : Z → Z → Z) (s : S) :
  0 ≤ irq < 16 →
  let port := if irq <? 8 then 0x21 else 0xA1 in
  let m := u8 (port_in (trace (view s)) port) in
  (let '(port, irq) :=
     if irq <? 8 then (PIC_MASTER_DATA, irq) else (PIC_SLAVE_DATA, u8 (irq - 8)) in
   m ← inb port; outb port (f m irq)) s
  = Ret tt (grow [EIn port m; EOut port (u8 (f m (irq mod 8)))] s).
Proof.
  intros Hirq. destruct (Z.ltb_spec irq 8); cbn zeta; unfold PIC_MASTER_DATA, PIC_SLAVE_DATA.
  - rewrite (bind_ret _ _ _ _ _ (inb_eq _ _)), outb_eq, grow_grow.
    by rewrite (Z.mod_small irq 8) by lia.
  - rewrite (bind_ret _ _ _ _ _ (inb_eq _ _)), outb_eq, grow_grow.
    rewrite (u8_id (irq - 8)) by lia. by replace (irq mod 8) with (irq - 8) by dlia.
Qed.

(** [pic_init] as a step: masks kept, controllers remapped. *)
Lemma pic_init_run (s : S) :
  imr_readback → pics_ready (trace (view s)) →
  ∃ l, pic_init s = Ret tt (grow l s) ∧ on_ports pic_port l ∧
    pics_ready (trace (view s) ++ l) ∧
    (∀ n, 0 ≤ n < 16 → masked (trace (view s) ++ l) n = masked (trace (view s)) n) ∧
    offset (master_of (trace (view s) ++ l)) = 32 ∧
    offset (slave_of (trace (view s) ++ l)) = 40.
Proof.
  intros Hrb Hr. eexists. split; [apply pic_init_eq|]. split; [by repeat constructor|].
  destruct (Hrb _ Hr) as [Hm _].
  destruct (Hrb (trace (view s) ++ [EIn 0x21 (u8 (port_in (trace (view s)) 0x21))])) as [_ Hs].
  { unfold pics_ready. by rewrite master_app, slave_app. }
  unfold masked, pics_ready.
  rewrite master_app, slave_app, !fold_left_app, master_icw, slave_icw. cbn.
  split; [done|]. split; [|done]. intros n _. rewrite slave_app in Hs. cbn in Hs.
  by rewrite Hs, Hm, !(u8_id (imr _)) by apply imr_range.
Qed.

(** A read-modify-write of one line's mask register: [b] says what becomes of a
    bit, given whether it is the line's own. *)
Lemma pic_mask_run (s : S) irq k (f : Z → Z → Z) (b : bool → bool → bool) :
  (∀ m j k, 0 ≤ m < 256 → 0 ≤ j < 8 → 0 ≤ k < 8 →
     Z.testbit (u8 (f m j)) k = b (k =? j) (Z.testbit m k)) →
  (∀ x, b false x = x) →
  imr_readback → pics_ready (trace (view s)) → 0 ≤ irq < 16 → 0 ≤ k < 16 →
  ∃ l, (let '(port, irq) :=
          if irq <? 8 then (PIC_MASTER_DATA, irq) else (PIC_SLAVE_DATA, u8 (irq - 8)) in
        m ← inb port; outb port (f m irq)) s = Ret tt (grow l s) ∧
    pics_ready (trace (view s) ++ l) ∧
    masked (trace (view s) ++ l) k = b (k =? irq) (masked (trace (view s)) k) ∧
    offset (master_of (trace (view s) ++ l)) = offset (master_of (trace (view s))) ∧
    offset (slave_of (trace (view s) ++ l)) = offset (slave_of (trace (view s))).
Proof.
  intros Hf Hb Hrb Hr Hirq Hk. eexists. split; [by apply pic_mask_eq|].
  set (tr := trace (view s)) in *.
  rewrite masked_rewrite, u8_u8, Hf by (done || apply u8_range || by apply Z.mod_pos_bound).
  destruct Hr as [Hm Hs]. unfold pics_ready. rewrite master_app, slave_app.
  split; [|split; [|destruct (irq <? 8); cbn; unfold i8259_data; by rewrite ?Hm, ?Hs]].
  { destruct (irq <? 8); cbn; unfold i8259_data; by rewrite ?Hm, ?Hs. }
  case_bool_decide as Hsame.
  - rewrite same_line by done. f_equal.
    destruct (Hrb tr (conj Hm Hs)) as [Em Es]. unfold masked. rewrite <- Hsame.
    destruct (Z.ltb_spec k 8); rewrite ?Em, ?Es; [by rewrite Z.mod_small by lia|].
    f_equal. dlia.
  - destruct (Z.eqb_spec k irq) as [->|]; [done|]. by rewrite Hb.
Qed.

Lemma pic_clear_run (s : S) irq k :
  imr_readback → pics_ready (trace (view s)) → 0 ≤ irq < 16 → 0 ≤ k < 16 →
  ∃ l, pic_clear_mask irq s = Ret tt (grow l s) ∧ pics_ready (trace (view s) ++ l) ∧
    masked (trace (view s) ++ l) k = negb (k =? irq) && masked (trace (view s)) k ∧
    offset (master_of (trace (view s) ++ l)) = offset (master_of (trace (view s))) ∧
    offset (slave_of (trace (view s) ++ l)) = offset (slave_of (trace (view s))).
Proof.
  apply (pic_mask_run s irq k (fun m irq => Z.land m (u8 (~u (1 <<u irq))))
           (fun own x => negb own && x)); [apply testbit_clear|done].
Qed.

(** The two port accesses of [pic_clear_mask], and what they do to every line. *)
Lemma pic_clear_events (s : S) irq :
  imr_readback → pics_ready (trace (view s)) → 0 ≤ irq < 16 →
  let port := if irq <? 8 then 0x21 else 0xA1 in
  let m := u8 (port_in (trace (view s)) port) in
  let l := [EIn port m; EOut port (u8 (Z.land m (u8 (~u (1 <<u (irq mod 8))))))] in
  pic_clear_mask irq s = Ret tt (grow l s) ∧ on_ports pic_port l ∧
  pics_ready (trace (view s) ++ l) ∧
  offset (master_of (trace (view s) ++ l)) = offset (master_of (trace (view s))) ∧
  offset (slave_of (trace (view s) ++ l)) = offset (slave_of (trace (view s))) ∧
  ∀ k, 0 ≤ k < 16 →
    masked (trace (view s) ++ l) k = negb (k =? irq) && masked (trace (view s)) k.
Proof.
  intros Hrb Hr Hirq port m l.
  assert (pic_clear_mask irq s = Ret tt (grow l s)) as E
    by exact (pic_mask_eq irq (fun m irq => Z.land m (u8 (~u (1 <<u irq)))) s Hirq).
  assert (∀ k, 0 ≤ k < 16 → pics_ready (trace (view s) ++ l) ∧
    offset (master_of (trace (view s) ++ l)) = offset (master_of (trace (view s))) ∧
    offset (slave_of (trace (view s) ++ l)) = offset (slave_of (trace (view s))) ∧
    masked (trace (view s) ++ l) k = negb (k =? irq) && masked (trace (view s)) k) as Hl.
  { intros k Hk. destruct (pic_clear_run s irq k Hrb Hr Hirq Hk) as (l' & E' & Hr' & Hm & Ho1 & Ho2).
    rewrite E in E'. injection E' as E'%grow_inj. by rewrite E'. }
  split; [done|]. split; [unfold l, port; by destruct (irq <? 8); repeat constructor|].
  destruct (Hl 0) as (? & ? & ? & _); [lia|]. split_and!; try done.
  intros k Hk. by apply Hl.
Qed.

Lemma pic_set_run (s : S) irq k :
  imr_readback → pics_ready (trace (view s)) → 0 ≤ irq < 16 → 0 ≤ k < 16 →
  ∃ l, pic_set_mask irq s = Ret tt (grow l s) ∧ pics_ready (trace (view s) ++ l) ∧
    masked (trace (view s) ++ l) k = (k =? irq) || masked (trace (view s)) k ∧
    offset (master_of (trace (view s) ++ l)) = offset (master_of (trace (view s))) ∧
    offset (slave_of (trace (view s) ++ l)) = offset (slave_of (trace (view s))).
Proof.
  apply (pic_mask_run s irq k (fun m irq => Z.lor m (u8 (1 <<u irq)))
           (fun own x => own || x)); [apply testbit_set|done].
Qed.

(** ** Properties *)

(** Whatever state the controllers were in, [pic_init] completes their
    initialisation sequence: IRQs 0-7 on vectors 0x20-0x27, IRQs 8-15 on
    0x28-0x2F, slave wired to IR2, and as masks the two bytes read at the
    beginning. *)
Lemma pic_init_remaps (s : S) :
  ∃ l mm ms, pic_init s = Ret tt (grow l s) ∧
    take 2 l = [EIn 0x21 mm; EIn 0xA1 ms] ∧
    master_of (trace (view s) ++ l) = mk_i8259 Ready true PIC_MASTER_OFFSET 4 mm ∧
    slave_of (trace (view s) ++ l) = mk_i8259 Ready true PIC_SLAVE_OFFSET 2 ms.
Proof.
  do 3 eexists. split; [apply pic_init_eq|]. split; [done|].
  rewrite master_app, slave_app, !fold_left_app, master_icw, slave_icw.
  cbn. by rewrite !u8_u8.
Qed.

(** On controllers whose mask registers read back, [pic_init] leaves every
    interrupt line exactly as masked or unmasked as it found it. *)
Lemma pic_init_keeps_masks (s : S) (n : Z) :
  imr_readback → pics_ready (trace (view s)) → 0 ≤ n < 16 →
  ∃ l, pic_init s = Ret tt (grow l s) ∧ pics_ready (trace (view s) ++ l) ∧
    masked (trace (view s) ++ l) n = masked (trace (view s)) n.
Proof.
  intros Hrb Hr Hn. destruct (pic_init_run s Hrb Hr) as (l & ? & _ & ? & Hm & _). exists l.
  split_and!; auto.
Qed.

(** [pic_clear_mask] unmasks and [pic_set_mask] masks exactly the given
    line, on either controller, and leaves the other fifteen as they are. *)
Lemma pic_mask_spec (s : S) (irq k : Z) :
  imr_readback → pics_ready (trace (view s)) → 0 ≤ irq < 16 → 0 ≤ k < 16 →
  (∃ l, pic_clear_mask irq s = Ret tt (grow l s) ∧ pics_ready (trace (view s) ++ l) ∧
     masked (trace (view s) ++ l) k = negb (k =? irq) && masked (trace (view s)) k) ∧
  (∃ l, pic_set_mask irq s = Ret tt (grow l s) ∧ pics_ready (trace (view s) ++ l) ∧
     masked (trace (view s) ++ l) k = (k =? irq) || masked (trace (view s)) k).
Proof.
  intros Hrb Hr Hirq Hk. split.
  - destruct (pic_clear_run s irq k Hrb Hr Hirq Hk) as (l & ? & ? & ? & _). by exists l.
  - destruct (pic_set_run s irq k Hrb Hr Hirq Hk) as (l & ? & ? & ? & _). by exists l.
Qed.

End pic_props.

(** ** Witnesses *)

(** Controllers whose data ports read back the mask, and any in-service bits. *)
Definition pic_hw : Hardware := fun tr p =>
  if p =? 0x21 then imr (master_of tr) else if p =? 0xA1 then imr (slave_of tr) else 0.

Lemma pic_hw_readback : imr_readback (H := pic_hw).
Proof. intros tr _. split; apply u8_id, imr_range. Qed.

(** The machine the BIOS hands over: all slave lines and IRQ 3-7 masked. *)
Definition cpu_bios : cpu :=
  mk_cpu [EOut 0x21 0xF8; EOut 0xA1 0xFF] false (0, 0) (0, 0) 8 16.
