(* ===== verification/Panic.v ===== *)
(** [kernel_panic] of kernel/kernel.c: the end of every unrecoverable path. *)

From S2P Require Import Prelude Machine Vga Preempt Screen Serial Kprintf.

#[local] Open Scope Z_scope.

Definition nl : list Z := [10].

Definition panic_head : list Z := nl ++ nl ++ bytes "*** KERNEL PANIC ***" ++ nl.
Definition panic_tail : list Z := nl ++ bytes "System halted." ++ nl.

Section panic.
Context {S : Type} `{!Lens S vga} `{!Lens S cpu} `{!Preempt S} `{!Hardware}.
Variable fuel : nat.

(** Never returns: the result type is arbitrary. [for (;;) hlt] with interrupts
    off stops the processor. *)
Definition kernel_panic {A : Type} (msg : list Z) : M S A :=
  cli;;
  modify (vga_set_color VGA_COLOR_WHITE VGA_COLOR_RED);;
  modify (vga_puts panic_head);;
  modify (vga_puts msg);;
  modify (vga_puts panic_tail);;
  serial_puts fuel panic_head;;
  serial_puts fuel msg;;
  serial_puts fuel panic_tail;;
  modify (log EHlt);;
  halted.

End panic.

(** ** Lemmas *)

Section panic_lemmas.
Context {S : Type} `{!Lens S vga} `{!Lens S cpu} `{!Indep S cpu vga} `{!Preempt S}
  `{!PreemptOk S} `{!Hardware}.
Variable fuel : nat.

Definition panic_text (msg : list Z) : list Z := panic_head ++ msg ++ panic_tail.

(** The three [vga_puts] calls type one text. *)
Lemma panic_screen {A : Type} msg (s : S) (k : M S A) :
  (modify (vga_set_color VGA_COLOR_WHITE VGA_COLOR_RED);;
   modify (vga_puts panic_head);; modify (vga_puts msg);; modify (vga_puts panic_tail);; k) s
  = k (put (vga_puts (panic_text msg)
              (vga_set_color VGA_COLOR_WHITE VGA_COLOR_RED (view s))) s).
Proof.
  unfold mbind, M_bind, modify. rewrite !view_put, !put_put. unfold panic_text.
  by rewrite !vga_puts_app.
Qed.

(** Consecutive [serial_puts] calls send one text. *)
Lemma panic_serial {A : Type} msg (s : S) (k : M S A) :
  uart_live fuel LSR_TX_EMPTY → data_mode s →
  ∃ s', (serial_puts fuel panic_head;; serial_puts fuel msg;; serial_puts fuel panic_tail;; k) s
       = k s' ∧ sends (crlf (panic_text msg)) s s'.
Proof.
  intros live Hd.
  destruct (serial_puts_run fuel panic_head s live Hd) as (s1 & E1 & R1).
  pose proof (sends_data_mode _ _ _ R1 Hd) as D1.
  destruct (serial_puts_run fuel msg s1 live D1) as (s2 & E2 & R2).
  pose proof (sends_data_mode _ _ _ R2 D1) as D2.
  destruct (serial_puts_run fuel panic_tail s2 live D2) as (s3 & E3 & R3).
  exists s3. rewrite (bind_ret _ _ _ _ _ E1), (bind_ret _ _ _ _ _ E2), (bind_ret _ _ _ _ _ E3).
  split; [done|]. unfold panic_text. rewrite !crlf_app.
  apply (sends_trans _ _ _ s1); [done|]. by apply (sends_trans _ _ _ s2).
Qed.

Lemma panic_halted {A : Type} (msg : list Z) (s : S) :
  uart_live fuel LSR_TX_EMPTY → data_mode s →
  ∃ s', kernel_panic (A := A) fuel msg s = Halted s' ∧
    if_flag (view s') = false ∧
    view (C := vga) s'
    = vga_puts (panic_text msg) (vga_set_color VGA_COLOR_WHITE VGA_COLOR_RED (view s)) ∧
    uart_of (trace (view s')) = uart_out (crlf (panic_text msg)) (uart_of (trace (view s))).
Proof.
  intros live Hd. unfold kernel_panic.
  set (s1 := put (set_if false (log ECli (view s))) s).
  rewrite (bind_ret cli _ s tt s1 eq_refl), panic_screen.
  set (s2 := put (vga_puts (panic_text msg) _) s1).
  assert (view s2 = set_if false (log ECli (view (C := cpu) s))) as Ec
    by (unfold s2, s1; by rewrite view_put_l, view_put).
  assert (uart_of (trace (view s2)) = uart_of (trace (view s))) as Et.
  { rewrite Ec. cbn [set_if log trace]. by rewrite uart_of_app. }
  edestruct (panic_serial (A := A) msg s2) as (s3 & -> & [D V U]);
    [done|unfold data_mode; by rewrite Et|].
  rewrite (bind_ret (modify (log EHlt)) _ _ tt (grow [EHlt] s3) eq_refl).
  eexists. split; [done|]. rewrite view_grow, view_grow_other, V.
  split; [|split].
  - cbn [with_trace if_flag]. by rewrite (drift_if _ _ D), Ec.
  - unfold s2. rewrite view_put. unfold s1. by rewrite view_put_r.
  - cbn [with_trace trace]. rewrite uart_of_app, U, Et. done.
Qed.

(** ** Properties *)

End panic_lemmas.

Section noreturn.
Context {S : Type} `{!Lens S vga} `{!Lens S cpu} `{!Preempt S} `{!Hardware}.
Variable fuel : nat.

Lemma bind_noreturn {A B : Type} (m : M S A) (f : A → M S B) s :
  (∀ a s, returns (f a s) = false) → returns ((m ≫= f) s) = false.
Proof. intros Hf. unfold mbind, M_bind. destruct (m s); done. Qed.

(** What follows a panic is never run. *)
Lemma panic_bind {A B : Type} (msg : list Z) (f : A → M S B) (s : S) :
  (kernel_panic fuel msg ≫= f) s = kernel_panic fuel msg s.
Proof.
  unfold kernel_panic. do 9 (rewrite bind_assoc; apply bind_ext; clear s; intros _ s). done.
Qed.

(** [kernel_panic] never returns to its caller, on any hardware. *)
Lemma kernel_panic_noreturn {A : Type} (msg : list Z) (s : S) :
  returns (kernel_panic (A := A) fuel msg s) = false.
Proof.
  unfold kernel_panic. revert s. intros s. do 9 (apply bind_noreturn; clear s; intros _ s).
  done.
Qed.

End noreturn.
