(* ===== verification/Safety.v ===== *)
(** Safety on any hardware: an invariant of the machine that every statement keeps
    whatever the devices answer, whether the code returns, halts or waits for
    ever, with C's undefined behaviour excluded. The console drivers are safe for
    any machine whose invariant meets the interface [Safe]. *)

From S2P Require Import Prelude Machine Vga Preempt Screen Serial Digits Kprintf Pic Panic.

#[local] Open Scope Z_scope.
#[local] Open Scope c_scope.

(** ** Safe code

    From a state in [I], [m] does not fault, stops in a state in [I], and returns
    a result in [Q] if it returns. *)

Definition safe {S A : Type} (I : S → Prop) (Q : A → Prop) (m : M S A) : Prop :=
  ∀ s, I s →
    match m s with
    | Ret a s' => Q a ∧ I s'
    | Halted s' | Hung s' => I s'
    | Fault _ => False
    end.

Definition any {A : Type} (_ : A) : Prop := True.

Section safe.
Context {S : Type} (I : S → Prop).

Lemma safe_ret {A : Type} (Q : A → Prop) a : Q a → safe I Q (mret a : M S A).
Proof. by intros Ha s Hs. Qed.

Lemma safe_bind {A B : Type} (P : A → Prop) (Q : B → Prop) (m : M S A) (k : A → M S B) :
  safe I P m → (∀ a, P a → safe I Q (k a)) → safe I Q (m ≫= k).
Proof.
  intros Hm Hk s Hs. specialize (Hm s Hs). unfold mbind, M_bind.
  destruct (m s) as [a s'|s'|s'|s']; try done. destruct Hm as [Ha Hs']. by apply Hk.
Qed.

Lemma safe_then {B : Type} (Q : B → Prop) (m : M S unit) (k : M S B) :
  safe I any m → safe I Q k → safe I Q (m;; k).
Proof. intros Hm Hk. by apply (safe_bind any). Qed.

Lemma safe_any {A : Type} (Q : A → Prop) (m : M S A) : safe I Q m → safe I any m.
Proof. intros Hm s Hs. specialize (Hm s Hs). by destruct (m s) as [a s'|s'|s'|s']; [destruct Hm|..]. Qed.

Lemma safe_halted {A : Type} (Q : A → Prop) : safe I Q (halted : M S A).
Proof. by intros s Hs. Qed.

Lemma safe_hung {A : Type} (Q : A → Prop) : safe I Q (hung : M S A).
Proof. by intros s Hs. Qed.

Lemma safe_gets {C A : Type} `{!Lens S C} (Q : A → Prop) (f : C → A) :
  (∀ s, I s → Q (f (view s))) → safe I Q (gets f).
Proof. intros Hf s Hs. split; [by apply Hf|done]. Qed.

Lemma safe_modify {C : Type} `{!Lens S C} (f : C → C) :
  (∀ s, I s → I (put (f (view s)) s)) → safe I any (modify f).
Proof. intros Hf s Hs. split; [done|by apply Hf]. Qed.

Lemma safe_if {A : Type} (Q : A → Prop) (b : bool) (m n : M S A) :
  safe I Q m → safe I Q n → safe I Q (if b then m else n).
Proof. by destruct b. Qed.

Lemma safe_mapM {A : Type} (f : A → M S unit) l :
  (∀ x, x ∈ l → safe I any (f x)) → safe I any (mapM_ f l).
Proof.
  induction l as [|x l IH]; intros Hf; [by apply safe_ret|].
  apply safe_then; [apply Hf; by left|]. apply IH. intros y Hy. apply Hf. by right.
Qed.

End safe.

(** ** What devices and the screen see *)

(** Ports have 16 bits and carry bytes; descriptor-table registers a 16-bit limit
    and a 32-bit base; selectors 16 bits. *)
Definition event_ok (e : event) : Prop :=
  match e with
  | EIn p v | EOut p v => 0 ≤ p < 65536 ∧ 0 ≤ v < 256
  | ELgdt l b | ELidt l b => 0 ≤ l < 65536 ∧ 0 ≤ b < 4294967296
  | ELjmp sel | ESeg sel => 0 ≤ sel < 65536
  | _ => True
  end.

Record cpu_ok (c : cpu) : Prop := {
  cpu_ok_trace : Forall event_ok (trace c);
  cpu_ok_gdtr : 0 ≤ (gdtr c).1 < 65536 ∧ 0 ≤ (gdtr c).2 < 4294967296;
  cpu_ok_idtr : 0 ≤ (idtr c).1 < 65536 ∧ 0 ≤ (idtr c).2 < 4294967296;
  cpu_ok_segs : 0 ≤ seg_cs c < 65536 ∧ 0 ≤ seg_data c < 65536
}.

Record screen_ok (v : vga) : Prop := {
  screen_ok_vga : vga_ok v;
  screen_ok_color : 0 ≤ vga_color v < 256
}.

Lemma cpu_ok_log e c : cpu_ok c → event_ok e → cpu_ok (log e c).
Proof. intros [T G I S] He. split; [|done..]. apply Forall_app. by split; [|constructor]. Qed.

Lemma cpu_ok_if b c : cpu_ok c → cpu_ok (set_if b c).
Proof. by intros []. Qed.

Lemma next_row_color v : vga_color (next_row v) = vga_color v.
Proof. unfold next_row. by destruct (_ =? VGA_HEIGHT). Qed.

Lemma putchar_color c v : vga_color (vga_putchar c v) = vga_color v.
Proof.
  unfold vga_putchar. destruct (c =? 10); [by rewrite next_row_color|].
  destruct (c =? 13); [done|]. destruct (_ =? VGA_WIDTH); [by rewrite next_row_color|done].
Qed.

Lemma screen_ok_putchar c v : screen_ok v → screen_ok (vga_putchar c v).
Proof. intros [H1 H2]. split; [by apply vga_ok_putchar|by rewrite putchar_color]. Qed.

Lemma screen_ok_puts str v : screen_ok v → screen_ok (vga_puts str v).
Proof.
  revert v. induction str as [|c str IH]; intros v Hv; [done|]. by apply IH, screen_ok_putchar.
Qed.

Lemma screen_ok_set_color fg bg v : screen_ok v → screen_ok (vga_set_color fg bg v).
Proof. intros [[] _]. split; [by split|apply u8_range]. Qed.

Lemma screen_ok_init v : screen_ok v → screen_ok (vga_init v).
Proof. intros [[]]. split; [by apply vga_ok_clear|apply u8_range]. Qed.

(** ** The interface

    What the drivers rely on in the machine's invariant: it says that the processor
    ([SafeCpu]) and the screen ([SafeIO]) are well-formed and nothing else about
    them, and interrupts keep it ([Safe]), also the part of it that is not about the
    screen while the screen is being drawn on. *)

Class SafeCpu {S : Type} `{!Lens S cpu} (I : S → Prop) : Prop := {
  safe_cpu s : I s → cpu_ok (view s);
  safe_put_cpu c s : I s → cpu_ok c → I (put c s)
}.

Class SafeIO {S : Type} `{!Lens S vga} `{!Lens S cpu} (I : S → Prop) : Prop := {
  safe_io_cpu :: SafeCpu I;
  safe_screen s : I s → screen_ok (view s);
  safe_put_screen v s : I s → screen_ok v → I (put v s)
}.

Class Safe {S : Type} `{!Lens S vga} `{!Lens S cpu} `{!Preempt S} (I : S → Prop) : Prop := {
  safe_io :: SafeIO I;
  safe_serves (v : vga) s : I (put v s) →
    ∃ s', preempt s = Ret tt s' ∧ view (C := vga) s' = view s ∧ I (put v s')
}.

Section paint.
Context {S : Type} `{!Lens S vga} `{!Lens S cpu} (I : S → Prop) `{!SafeIO I}.

Lemma safe_paint (f : vga → vga) :
  (∀ v, screen_ok v → screen_ok (f v)) → safe I any (modify f).
Proof.
  intros Hf. apply safe_modify. intros s Hs. apply safe_put_screen; [done|].
  by apply Hf, safe_screen.
Qed.

End paint.

Section io.
Context {S : Type} `{!Lens S cpu} `{!Hardware} (I : S → Prop) `{!SafeCpu I}.

Lemma safe_log e : event_ok e → safe I any (modify (log e)).
Proof.
  intros He. apply safe_modify. intros s Hs. apply safe_put_cpu; [done|].
  by apply cpu_ok_log; [apply safe_cpu|].
Qed.

Lemma safe_outb port v : safe I any (outb port v).
Proof. apply safe_log. split; [apply u16_range|apply u8_range]. Qed.

Lemma safe_inb port : safe I (fun v => 0 ≤ v < 256) (inb port).
Proof.
  intros s Hs. split; [apply u8_range|]. apply safe_put_cpu; [done|].
  apply cpu_ok_log; [by apply safe_cpu|]. split; [apply u16_range|apply u8_range].
Qed.

Lemma safe_sti : safe I any sti.
Proof.
  apply safe_modify. intros s Hs. apply safe_put_cpu; [done|].
  by apply cpu_ok_if, cpu_ok_log; [apply safe_cpu|].
Qed.

Lemma safe_cli : safe I any cli.
Proof.
  apply safe_modify. intros s Hs. apply safe_put_cpu; [done|].
  by apply cpu_ok_if, cpu_ok_log; [apply safe_cpu|].
Qed.

(** ** The interrupt controllers *)

Lemma safe_pic_init : safe I any pic_init.
Proof.
  unfold pic_init. eapply safe_bind; [apply safe_inb|]. intros mm _.
  eapply safe_bind; [apply safe_inb|]. intros ms _.
  do 17 (apply safe_then; [apply safe_outb|]). apply safe_outb.
Qed.

Lemma safe_pic_send_eoi n : safe I any (pic_send_eoi n).
Proof.
  apply safe_then; [apply safe_if; [apply safe_outb|by apply safe_ret]|apply safe_outb].
Qed.

Lemma safe_pic_clear_mask n : safe I any (pic_clear_mask n).
Proof.
  unfold pic_clear_mask. destruct (n <? 8); cbn zeta iota; (eapply safe_bind; [apply safe_inb|]);
    intros v _; apply safe_outb.
Qed.

Lemma safe_pic_read_isr : safe I any pic_read_isr.
Proof.
  unfold pic_read_isr. do 2 (apply safe_then; [apply safe_outb|]).
  eapply safe_bind; [apply safe_inb|]. intros v _. eapply safe_bind; [apply safe_inb|].
  intros v' _. by apply safe_ret.
Qed.

End io.

(** ** The console drivers *)

Section consoles.
Context {S : Type} `{!Lens S vga} `{!Lens S cpu} `{!Preempt S} `{!Hardware}
  (I : S → Prop) `{!Safe I}.

Lemma safe_preempt : safe I any preempt.
Proof.
  intros s Hs. destruct (safe_serves (view s) s) as (s' & -> & V & Hs'); [by rewrite put_view|].
  rewrite <- V, put_view in Hs'. done.
Qed.

(** While the screen is drawn on, the invariant holds of the machine with another
    screen: the one from before. *)
Definition undrawn (s : S) : Prop := ∃ v : vga, I (put v s).
Definition keeps (s s' : S) : Prop := ∀ v : vga, I (put v s) → I (put v s').

#[local] Instance safe_drawing : Drawing undrawn keeps.
Proof.
  split.
  - split; [by intros s v|]. intros s1 s2 s3 H1 H2 v Hv. by apply H2, H1.
  - intros s s' Hk [v Hv]. exists v. by apply Hk.
  - intros v s _ w. by rewrite put_put.
  - intros s [v Hv]. destruct (safe_serves v s Hv) as (s' & E & V & _).
    exists s'. split; [done|]. split; [|done]. intros w Hw.
    destruct (safe_serves w s Hw) as (s'' & E' & _ & Hw'). rewrite E in E'. by injection E' as <-.
Qed.

Lemma safe_vga_putchar_i c : safe I any (vga_putchar_i c).
Proof.
  intros s Hs. destruct (putchar_run undrawn keeps c s) as (s' & -> & Hk & V);
    [exists (view s); by rewrite put_view|].
  split; [done|]. specialize (Hk (view s)). rewrite put_view in Hk. specialize (Hk Hs).
  assert (s' = put (vga_putchar c (view s)) (put (view (C := vga) s) s')) as ->
    by by rewrite put_put, <- V, put_view.
  apply safe_put_screen; [done|]. by apply screen_ok_putchar, safe_screen.
Qed.

Lemma safe_outb_i port v : safe I any (outb_i port v).
Proof. apply safe_then; [apply safe_preempt|apply (safe_outb I)]. Qed.

Lemma safe_inb_i port : safe I (fun v => 0 ≤ v < 256) (inb_i port).
Proof. apply safe_then; [apply safe_preempt|apply (safe_inb I)]. Qed.

Lemma safe_wait n port mask : safe I any (wait_bit n port mask).
Proof.
  induction n as [|n IH]; [apply safe_hung|]. cbn [wait_bit].
  eapply safe_bind; [apply safe_inb_i|]. intros v _. apply safe_if; [|by apply safe_ret].
  apply safe_then; [apply safe_preempt|]. apply safe_then; [by apply (safe_log I)|done].
Qed.

Variable fuel : nat.

Lemma safe_serial_putchar c : safe I any (serial_putchar fuel c).
Proof. apply safe_then; [apply safe_wait|apply safe_outb_i]. Qed.

Lemma safe_serial_puts str : safe I any (serial_puts fuel str).
Proof.
  induction str as [|c str IH]; [by apply safe_ret|]. cbn [serial_puts].
  apply safe_then; [apply safe_if; [apply safe_serial_putchar|by apply safe_ret]|].
  apply safe_then; [apply safe_serial_putchar|done].
Qed.

Lemma safe_serial_init : safe I any (serial_init fuel).
Proof.
  unfold serial_init. do 9 (apply safe_then; [apply safe_outb_i|]).
  apply safe_then; [apply safe_wait|]. eapply safe_bind; [apply safe_inb_i|]. intros v _.
  apply safe_if; [by apply safe_ret|]. apply safe_then; [apply safe_outb_i|by apply safe_ret].
Qed.

Lemma safe_emit c : safe I any (emit fuel c).
Proof.
  apply safe_then; [apply safe_vga_putchar_i|apply safe_serial_putchar].
Qed.

Lemma safe_emit_str s : safe I any (emit_str fuel s).
Proof. apply safe_mapM. intros c _. apply safe_emit. Qed.

Lemma safe_fetch {A : Type} `{!Inhabited A} (Q : A → Prop) (a : list A) i :
  0 ≤ i < Z.of_nat (length a) → Q (a !!! Z.to_nat i) → safe I Q (fetch a i).
Proof. intros Hi HQ s Hs. by rewrite fetch_in. Qed.

Lemma safe_fetch_dim {A : Type} `{!Inhabited A} dim (a : list A) i :
  0 ≤ i < dim → safe I any (fetch_dim dim a i).
Proof. intros Hi s Hs. by rewrite fetch_dim_in. Qed.

Lemma safe_emit_rev i buf : (i ≤ length buf)%nat → safe I any (emit_rev fuel i buf).
Proof.
  induction i as [|i IH]; intros Hi; [by apply safe_ret|].
  eapply safe_bind; [apply (safe_fetch any); [lia|done]|]. intros c _.
  apply safe_then; [apply safe_emit|apply IH; lia].
Qed.

(** The digits of a 32-bit number fit the buffer. *)
Lemma safe_emit_uint val base upper :
  2 ≤ base ≤ 16 → 0 ≤ val < 4294967296 → safe I any (emit_uint fuel val base upper).
Proof.
  intros Hb Hv. unfold emit_uint. apply safe_if; [apply safe_emit|].
  destruct (fill_digits_spec 32 (if upper then digits_uc else digits_lc) base val 0 (replicate 32 0))
    as (buf & Hf & Ht); [by destruct upper; cbn; lia| |done|apply lsd_len32; lia|].
  { split; [lia|]. apply Z.lt_le_trans with (2 ^ 32); [lia|]. apply Z.pow_le_mono_l. lia. }
  change (Z.of_nat 0) with 0 in Hf. rewrite Hf. apply safe_emit_rev.
  apply (f_equal length) in Ht. rewrite length_app, length_map, length_take in Ht.
  cbn [Nat.add take length] in *. rewrite Nat2Z.id. lia.
Qed.

Lemma safe_emit_int z : safe I any (emit_int fuel z).
Proof.
  unfold emit_int. apply safe_if; [|apply safe_emit_uint; [lia|apply u32_range]].
  apply safe_then; [apply safe_emit|]. apply safe_emit_uint; [lia|apply u32_range].
Qed.

Lemma safe_conversion d ap (k : list va → M S unit) :
  match conv_text d ap with Some (_, ap') => safe I any (k ap') | None => False end →
  safe I any (conversion fuel d ap k).
Proof.
  unfold conv_text, conversion. intros Hk.
  destruct (d =? 99); [destruct ap as [|[z|s] ap]; try done; apply safe_then; [apply safe_emit|done]|].
  destruct (d =? 115); [destruct ap as [|[z|s] ap]; try done; apply safe_then; [apply safe_emit_str|done]|].
  destruct (d =? 100); [destruct ap as [|[z|s] ap]; try done; apply safe_then; [apply safe_emit_int|done]|].
  destruct (d =? 117); [destruct ap as [|[z|s] ap]; try done; apply safe_then;
    [apply safe_emit_uint; [lia|apply u32_range]|done]|].
  destruct (d =? 120); [destruct ap as [|[z|s] ap]; try done; apply safe_then;
    [apply safe_emit_uint; [lia|apply u32_range]|done]|].
  destruct (d =? 88); [destruct ap as [|[z|s] ap]; try done; apply safe_then;
    [apply safe_emit_uint; [lia|apply u32_range]|done]|].
  destruct (d =? 37); [apply safe_then; [apply safe_emit|done]|].
  do 2 (apply safe_then; [apply safe_emit|]). done.
Qed.

(** A format string that asks for what it gets. *)
Lemma safe_kprintf fmt ap :
  (format fmt ap).2 = true → safe I any (kprintf fuel fmt ap).
Proof.
  assert (∀ n fmt ap, (length fmt ≤ n)%nat → (format fmt ap).2 = true →
    safe I any (kprintf fuel fmt ap)) as Hn.
  { clear fmt ap. intros n. induction n as [|n IH]; intros fmt ap Hn Hf.
    { destruct fmt; cbn in *; [by apply safe_ret|lia]. }
    destruct fmt as [|c fmt]; cbn [format kprintf length] in *; [by apply safe_ret|].
    destruct (negb (c =? 37)).
    - apply safe_then; [apply safe_emit|]. apply IH; [lia|]. by destruct (format fmt ap).
    - destruct fmt as [|d fmt]; [done|]. cbn [length] in Hn. apply safe_conversion.
      destruct (conv_text d ap) as [[t ap']|]; [|done]. apply IH; [lia|].
      by destruct (format fmt ap'). }
  by apply (Hn (length fmt)).
Qed.

Lemma safe_kernel_panic {A : Type} (Q : A → Prop) msg : safe I Q (kernel_panic fuel msg).
Proof.
  unfold kernel_panic. apply safe_then; [apply (safe_cli I)|].
  apply safe_then; [apply (safe_paint I); intros; by apply screen_ok_set_color|].
  do 3 (apply safe_then; [apply (safe_paint I); intros; by apply screen_ok_puts|]).
  do 3 (apply safe_then; [apply safe_serial_puts|]).
  apply safe_then; [by apply (safe_log I)|apply safe_halted].
Qed.

End consoles.
