(* ===== verification/Idt.v ===== *)
(** The interrupt descriptor table and the interrupt dispatcher
    (interrupts/idt.c, interrupts/idt.h, interrupts/interrupts.c).

    IRQ callbacks are C function pointers; here they are values of a type [H]
    that the machine chooses, run by [call]. *)

From S2P Require Import Prelude Machine Vga Preempt Screen Serial Digits Kprintf Pic Panic.

#[local] Open Scope Z_scope.
#[local] Open Scope c_scope.

(** [interrupt_frame_t] *)
Record frame : Type := mk_frame {
  fr_ds : Z;
  fr_edi : Z; fr_esi : Z; fr_ebp : Z; fr_esp_dummy : Z;
  fr_ebx : Z; fr_edx : Z; fr_ecx : Z; fr_eax : Z;
  fr_int_no : Z; fr_err_code : Z;
  fr_eip : Z; fr_cs : Z; fr_eflags : Z; fr_useresp : Z; fr_ss : Z
}.

(** [idt_entry_t] *)
Record gate : Type := mk_gate {
  g_base_low : Z;
  g_sel : Z;
  g_zero : Z;
  g_flags : Z;
  g_base_high : Z
}.

#[global] Instance gate_inhabited : Inhabited gate := populate (mk_gate 0 0 0 0 0).

(** The statics of idt.c; [None] is a null handler. *)
Record idt_state (H : Type) : Type := mk_idt {
  idt : list gate;
  idt_ptr : Z * Z;
  irq_handlers : list (option H)
}.
Arguments mk_idt {H} idt idt_ptr irq_handlers.
Arguments idt {H} i.
Arguments idt_ptr {H} i.
Arguments irq_handlers {H} i.

Definition NUM_IRQS : Z := 16.
Definition IDT_GATE_FLAGS : Z := 0x8E.

(** The assembly stubs of isr.s. *)
Inductive stub : Type := Isr (n : Z) | Irq (n : Z).

(** The calls of [idt_init], in order. *)
Definition gate_calls : list (Z * stub) :=
  [(0, Isr 0); (1, Isr 1); (2, Isr 2); (3, Isr 3); (4, Isr 4); (5, Isr 5); (6, Isr 6);
   (7, Isr 7); (8, Isr 8); (9, Isr 9); (10, Isr 10); (11, Isr 11); (12, Isr 12);
   (13, Isr 13); (14, Isr 14); (15, Isr 15); (16, Isr 16); (17, Isr 17); (18, Isr 18);
   (19, Isr 19); (20, Isr 20); (21, Isr 21); (22, Isr 22); (23, Isr 23); (24, Isr 24);
   (25, Isr 25); (26, Isr 26); (27, Isr 27); (28, Isr 28); (29, Isr 29); (30, Isr 30);
   (31, Isr 31);
   (32, Irq 0); (33, Irq 1); (34, Irq 2); (35, Irq 3); (36, Irq 4); (37, Irq 5);
   (38, Irq 6); (39, Irq 7); (40, Irq 8); (41, Irq 9); (42, Irq 10); (43, Irq 11);
   (44, Irq 12); (45, Irq 13); (46, Irq 14); (47, Irq 15)].

Definition exception_names : list (list Z) :=
  [bytes "Division By Zero"; bytes "Debug";
   bytes "Non-Maskable Interrupt"; bytes "Breakpoint";
   bytes "Overflow"; bytes "Bound Range Exceeded";
   bytes "Invalid Opcode"; bytes "Device Not Available";
   bytes "Double Fault"; bytes "Coprocessor Segment Overrun";
   bytes "Invalid TSS"; bytes "Segment Not Present";
   bytes "Stack-Segment Fault"; bytes "General Protection Fault";
   bytes "Page Fault"; bytes "Reserved";
   bytes "x87 Floating-Point"; bytes "Alignment Check";
   bytes "Machine Check"; bytes "SIMD Floating-Point";
   bytes "Virtualisation"; bytes "Control Protection";
   bytes "Reserved"; bytes "Reserved"; bytes "Reserved"; bytes "Reserved";
   bytes "Reserved"; bytes "Reserved";
   bytes "Hypervisor Injection"; bytes "VMM Communication";
   bytes "Security Exception"; bytes "Reserved"].

Definition exception_fmt : list Z :=
  nl ++ bytes "[EXCEPTION #%u: %s]  err=0x%x  eip=0x%x  cs=0x%x" ++ nl.

(** ** Operations on the tables *)

Section tables.
Context {H : Type}.

Definition irq_register_handler (irq : Z) (handler : option H) (d : idt_state H) : idt_state H :=
  if irq <? NUM_IRQS
  then mk_idt (idt d) (idt_ptr d) (wr (irq_handlers d) irq handler)
  else d.

Definition idt_set_gate (vector base : Z) (d : idt_state H) : idt_state H :=
  mk_idt
    (wr (idt d) vector
       (mk_gate (u16 (Z.land base 0xFFFF)) 0x08 0 IDT_GATE_FLAGS
          (u16 (Z.land (Z.shiftr base 16) 0xFFFF))))
    (idt_ptr d) (irq_handlers d).

Definition set_idt_ptr (p : Z * Z) (d : idt_state H) : idt_state H :=
  mk_idt (idt d) p (irq_handlers d).

End tables.

(** ** Dispatch *)

Section idt.
Context {S H : Type} `{!Lens S vga} `{!Lens S cpu} `{!Lens S (idt_state H)}
  `{!Preempt S} `{!Hardware}.
Variable fuel : nat.
(** Running a callback. *)
Variable call : H → frame → M S unit.
(** Where the linker put the assembly stubs and the table. *)
Variable stub_addr : stub → Z.
Variable idt_addr : Z.

Definition isr_handler (f : frame) : M S unit :=
  let vec := fr_int_no f in
  name ← (if vec <? 32 then fetch exception_names vec else mret (bytes "Unknown"));
  kprintf fuel exception_fmt
    [VInt vec; VStr (Some name); VInt (fr_err_code f); VInt (fr_eip f); VInt (fr_cs f)];;
  kernel_panic fuel (bytes "Unhandled CPU exception").

(** The end of [irq_handler]: run the callback, if any, and acknowledge. *)
Definition irq_dispatch (irq : Z) (f : frame) : M S unit :=
  hs ← gets irq_handlers;
  (if irq <? NUM_IRQS then
     handler ← fetch_dim NUM_IRQS hs irq;
     match handler with Some h => call h f | None => mret tt end
   else mret tt);;
  pic_send_eoi irq.

Definition irq_handler (f : frame) : M S unit :=
  let irq := u8 (fr_int_no f -u PIC_MASTER_OFFSET) in
  if irq =? 7 then
    isr ← pic_read_isr;
    if Z.land isr (1 <<u 7) =? 0 then mret tt (* spurious IRQ7: no EOI *)
    else irq_dispatch irq f
  else if irq =? 15 then
    isr ← pic_read_isr;
    if Z.land isr (1 <<u 15) =? 0 then pic_send_eoi 2 (* spurious IRQ15 *)
    else irq_dispatch irq f
  else irq_dispatch irq f.

Definition idt_init : M S unit :=
  mapM_ (fun c => modify (C := idt_state H) (idt_set_gate c.1 (stub_addr c.2))) gate_calls;;
  modify (C := idt_state H) (set_idt_ptr (u16 (256 * 8 - 1), idt_addr));;
  p ← gets (C := idt_state H) idt_ptr;
  lidt p.1 p.2.

(** interrupts/interrupts.c *)
Definition interrupts_init : M S unit :=
  pic_init;; idt_init;; pic_clear_mask 2.

End idt.

(** ** What the processor reads in a gate *)

Definition gate_offset (g : gate) : Z := g_base_low g + g_base_high g * 65536.
Definition gate_present (g : gate) : bool := Z.testbit (g_flags g) 7.
Definition gate_dpl (g : gate) : Z := Z.land (Z.shiftr (g_flags g) 5) 3.
Definition gate_type (g : gate) : Z := Z.land (g_flags g) 31.

(** An interrupt gate for ring 0 through the kernel code segment. *)
Definition kernel_gate (g : gate) (addr : Z) : Prop :=
  gate_offset g = addr ∧ g_sel g = 0x08 ∧ gate_present g = true ∧ gate_dpl g = 0 ∧
  gate_type g = 14.

(** The stub a vector is meant to enter. *)
Definition vector_stub (v : Z) : stub := if v <? 32 then Isr v else Irq (v - 32).

Record idt_ok {H : Type} (d : idt_state H) : Prop := {
  idt_ok_gates : length (idt d) = 256%nat;
  idt_ok_handlers : length (irq_handlers d) = 16%nat
}.

(** ** Lemmas *)

Lemma pic_not_uart p : pic_port p = true → uart_port p = false.
Proof. unfold pic_port, uart_port. lia. Qed.

Lemma uart_not_pic p : uart_port p = true → negb (pic_port p) = true.
Proof. unfold pic_port, uart_port. lia. Qed.

Section table_lemmas.
Context {H : Type}.
Implicit Types d : idt_state H.

Lemma idt_ok_register irq h d : 0 ≤ irq → idt_ok d → idt_ok (irq_register_handler irq h d).
Proof.
  intros Hi [Hg Hh]. unfold irq_register_handler, NUM_IRQS.
  destruct (Z.ltb_spec irq 16); split; cbn; rewrite ?length_wr by lia; done.
Qed.

Lemma idt_ok_set_gate v base d : 0 ≤ v < 256 → idt_ok d → idt_ok (idt_set_gate v base d).
Proof. intros Hv [Hg Hh]. split; cbn; rewrite ?length_wr by lia; done. Qed.

(** The address split across a gate is put together again. *)
Lemma kernel_gate_set base :
  0 ≤ base < 4294967296 →
  kernel_gate (mk_gate (u16 (Z.land base 0xFFFF)) 0x08 0 IDT_GATE_FLAGS
                 (u16 (Z.land (Z.shiftr base 16) 0xFFFF))) base.
Proof.
  intros Hb. split_and!; try done. unfold gate_offset. cbn [g_base_low g_base_high].
  change 0xFFFF with (Z.ones 16). rewrite !Z.land_ones, Z.shiftr_div_pow2 by lia.
  change (2 ^ 16) with 65536. unfold u16. dlia.
Qed.

Definition set_gates (stub_addr : stub → Z) (calls : list (Z * stub)) d : idt_state H :=
  fold_left (fun d c => idt_set_gate c.1 (stub_addr c.2) d) calls d.

#[global] Strategy 1000 [set_gates].

Lemma set_gates_ok stub_addr calls d :
  Forall (fun c => 0 ≤ c.1 < 256) calls → idt_ok d → idt_ok (set_gates stub_addr calls d).
Proof.
  unfold set_gates. intros Hc. revert d. induction Hc as [|[v s] calls Hv _ IH]; intros d Hd; [done|].
  by apply IH, idt_ok_set_gate.
Qed.

Lemma set_gates_app stub_addr c1 c2 d :
  set_gates stub_addr (c1 ++ c2) d = set_gates stub_addr c2 (set_gates stub_addr c1 d).
Proof. apply fold_left_app. Qed.

Lemma set_gates_handlers stub_addr calls d :
  irq_handlers (set_gates stub_addr calls d) = irq_handlers d.
Proof.
  unfold set_gates. revert d. induction calls as [|[v s] calls IH]; intros d; [done|].
  cbn. by rewrite IH.
Qed.

Lemma gate_calls_seq :
  gate_calls = map (fun v => (v, vector_stub v)) (seqZ 0 48).
Proof. done. Qed.

(** Vectors below [n] get their gates, the others keep what they had. *)
Lemma set_gates_lookup stub_addr n v d :
  idt_ok d → (n ≤ 256)%nat → 0 ≤ v < 256 →
  (∀ s, 0 ≤ stub_addr s < 4294967296) →
  let d' := set_gates stub_addr (map (fun v => (v, vector_stub v)) (seqZ 0 (Z.of_nat n))) d in
  (v < Z.of_nat n → kernel_gate (idt d' !!! Z.to_nat v) (stub_addr (vector_stub v))) ∧
  (Z.of_nat n ≤ v → idt d' !!! Z.to_nat v = idt d !!! Z.to_nat v).
Proof.
  intros Hd Hn Hv Ha. cbn zeta. induction n as [|n IH].
  { split; [lia|done]. }
  destruct IH as [IH1 IH2]; [lia|].
  rewrite seqZ_S, map_app, set_gates_app, Nat2Z.inj_succ.
  set (d' := set_gates _ (map _ (seqZ 0 (Z.of_nat n))) d) in *.
  assert (idt_ok d') as [Hl _].
  { apply set_gates_ok; [|done]. apply Forall_map, Forall_forall. intros k Hk%elem_of_seqZ. cbn. lia. }
  clearbody d'. unfold set_gates. cbn [map fold_left fst snd Z.add idt_set_gate idt].
  rewrite wr_in by lia. split; intros Hlt.
  - destruct (decide (v = Z.of_nat n)) as [->|Hne].
    + rewrite list_lookup_total_insert_eq by lia. cbn [Z.add]. by apply kernel_gate_set.
    + rewrite list_lookup_total_insert_ne by lia. apply IH1. lia.
  - rewrite list_lookup_total_insert_ne by lia. apply IH2. lia.
Qed.

End table_lemmas.

Section idt_lemmas.
Context {S H : Type} `{!Lens S vga} `{!Lens S cpu} `{!Lens S (idt_state H)}
  `{!Indep S cpu vga} `{!Indep S cpu (idt_state H)} `{!Preempt S} `{!PreemptOk S} `{!Hardware}.
Variable fuel : nat.
Variable call : H → frame → M S unit.
Variable stub_addr : stub → Z.
Variable idt_addr : Z.

Definition table_after (d : idt_state H) : idt_state H :=
  set_idt_ptr (2047, idt_addr) (set_gates stub_addr gate_calls d).

Lemma table_after_gates d v :
  idt_ok d → 0 ≤ v < 256 → (∀ st, 0 ≤ stub_addr st < 4294967296) →
  let g := idt (table_after d) !!! Z.to_nat v in
  if v <? 48 then kernel_gate g (stub_addr (vector_stub v)) else g = idt d !!! Z.to_nat v.
Proof.
  intros Hd Hv Ha. cbv zeta. unfold table_after. rewrite gate_calls_seq.
  assert (∀ q (e : idt_state H), idt (set_idt_ptr q e) = idt e) as -> by done.
  assert (48 = Z.of_nat 48) as -> by done.
  destruct (set_gates_lookup stub_addr 48 v d Hd ltac:(lia) Hv Ha) as [H1 H2].
  destruct (Z.ltb_spec v (Z.of_nat 48)); auto.
Qed.

Lemma idt_init_eq (s : S) :
  idt_init stub_addr idt_addr s
  = Ret tt (put (mk_cpu (trace (view s) ++ [ELidt 2047 idt_addr]) (if_flag (view s))
                   (gdtr (view s)) (2047, idt_addr) (seg_cs (view s)) (seg_data (view s)))
             (put (table_after (view s)) s)).
Proof.
  unfold idt_init.
  rewrite (bind_ret _ _ s tt (put (set_gates stub_addr gate_calls (view s)) s)).
  2: { apply (mapM_modify (fun c => idt_set_gate c.1 (stub_addr c.2))). }
  rewrite (bind_ret (modify _) _ _ tt (put (table_after (view s)) s)).
  2: { unfold modify. by rewrite view_put, put_put. }
  rewrite (bind_ret (gets _) _ _ (2047, idt_addr) (put (table_after (view s)) s)).
  2: { unfold gets. by rewrite view_put. }
  unfold lidt, modify. by rewrite view_put_l.
Qed.

(** [interrupts_init] as a step: the tables loaded, the controllers remapped and
    the cascade line open. *)
Lemma interrupts_init_run (s : S) :
  imr_readback → pics_ready (trace (view s)) →
  ∃ l, interrupts_init (H := H) stub_addr idt_addr s
       = Ret tt (put (mk_cpu (trace (view s) ++ l) (if_flag (view s)) (gdtr (view s))
                        (2047, idt_addr) (seg_cs (view s)) (seg_data (view s)))
                   (put (table_after (view s)) s)) ∧
    on_ports pic_port l ∧ pics_ready (trace (view s) ++ l) ∧
    offset (master_of (trace (view s) ++ l)) = 32 ∧
    offset (slave_of (trace (view s) ++ l)) = 40 ∧
    ∀ k, 0 ≤ k < 16 →
      masked (trace (view s) ++ l) k = negb (k =? 2) && masked (trace (view s)) k.
Proof.
  intros Hrb Hr. unfold interrupts_init.
  destruct (pic_init_run s Hrb Hr) as (l & E & Hp & Hr1 & Hm & Ho1 & Ho2).
  rewrite (bind_ret _ _ _ _ _ E), (bind_ret _ _ _ _ _ (idt_init_eq _)).
  rewrite view_grow, (view_grow_other (D := idt_state H)). cbn [with_trace trace if_flag gdtr seg_cs seg_data].
  set (tr1 := (trace (view s) ++ l) ++ [ELidt 2047 idt_addr]).
  rewrite (put_grow (D := idt_state H)), put_cpu_grow.
  set (s1 := put (mk_cpu _ _ _ _ _ _) _).
  assert (trace (view s1) = tr1) as Ht by (unfold s1; by rewrite view_put).
  assert (master_of tr1 = master_of (trace (view s) ++ l) ∧
    slave_of tr1 = slave_of (trace (view s) ++ l)) as [Em Es].
  { unfold tr1. by rewrite !master_app, !slave_app. }
  destruct (pic_clear_events s1 2 Hrb) as (E2 & Hp2 & Hr2 & Ho3 & Ho4 & Hm2);
    [unfold pics_ready; by rewrite Ht, Em, Es|lia|].
  rewrite Ht in *. eexists (l ++ [ELidt 2047 idt_addr] ++ _). split.
  { rewrite E2. unfold grow. rewrite Ht. unfold s1. rewrite put_put, view_put. unfold with_trace.
    cbn [if_flag gdtr idtr seg_cs seg_data]. unfold tr1. rewrite <- !app_assoc. reflexivity. }
  unfold tr1 in *. rewrite <- !app_assoc in *. split.
  { apply on_ports_app; [done|]. apply on_ports_app; [by repeat constructor|exact Hp2]. }
  split; [exact Hr2|]. rewrite <- Ho1, <- Ho2, <- Em, <- Es. split; [exact Ho3|].
  split; [exact Ho4|]. intros k Hk. rewrite <- Hm by done. unfold masked. rewrite <- Em, <- Es.
  by apply Hm2.
Qed.

(** The line [isr_handler] prints. *)
Definition exception_text (f : frame) : list Z :=
  nl ++ bytes "[EXCEPTION #" ++ decimal (u32 (fr_int_no f)) ++ bytes ": " ++
  (if fr_int_no f <? 32 then exception_names !!! Z.to_nat (fr_int_no f) else bytes "Unknown") ++
  bytes "]  err=0x" ++ uint_text 16 false (u32 (fr_err_code f)) ++
  bytes "  eip=0x" ++ uint_text 16 false (u32 (fr_eip f)) ++
  bytes "  cs=0x" ++ uint_text 16 false (u32 (fr_cs f)) ++ nl.

Lemma exception_format f :
  format exception_fmt
    [VInt (fr_int_no f);
     VStr (Some (if fr_int_no f <? 32 then exception_names !!! Z.to_nat (fr_int_no f)
                 else bytes "Unknown"));
     VInt (fr_err_code f); VInt (fr_eip f); VInt (fr_cs f)]
  = (exception_text f, true).
Proof.
  unfold exception_text. generalize (fr_int_no f) as v, (fr_err_code f) as e,
    (fr_eip f) as i, (fr_cs f) as c. intros v e i c.
  generalize (if v <? 32 then exception_names !!! Z.to_nat v else bytes "Unknown") as name.
  intros name. reflexivity.
Qed.

Lemma isr_halted f (s : S) :
  0 ≤ fr_int_no f → uart_live fuel LSR_TX_EMPTY → data_mode s →
  ∃ s', isr_handler fuel f s = Halted s' ∧ if_flag (view s') = false ∧
    let msg := panic_text (bytes "Unhandled CPU exception") in
    view (C := vga) s'
    = vga_puts msg (vga_set_color VGA_COLOR_WHITE VGA_COLOR_RED
        (vga_puts (exception_text f) (view s))) ∧
    uart_of (trace (view s'))
    = uart_out (crlf msg) (uart_out (exception_text f) (uart_of (trace (view s)))).
Proof.
  intros Hpos live Hd. unfold isr_handler. cbn zeta.
  rewrite (bind_ret _ _ s (if fr_int_no f <? 32 then exception_names !!! Z.to_nat (fr_int_no f)
    else bytes "Unknown") s).
  2: { destruct (Z.ltb_spec (fr_int_no f) 32); [|done]. apply fetch_in. cbn. lia. }
  destruct (runs_kprintf fuel live _ exception_fmt
    [VInt (fr_int_no f);
     VStr (Some (if fr_int_no f <? 32 then exception_names !!! Z.to_nat (fr_int_no f)
                 else bytes "Unknown"));
     VInt (fr_err_code f); VInt (fr_eip f); VInt (fr_cs f)] (le_n _) s Hd) as (s1 & E1 & P1).
  rewrite exception_format in E1, P1. cbn [fst snd] in *.
  rewrite (bind_ret _ _ _ _ _ E1).
  destruct (panic_halted (A := unit) fuel (bytes "Unhandled CPU exception") s1 live
    (data_mode_printed _ _ _ P1 Hd)) as (s2 & E2 & Hif & Hv & Hu).
  exists s2. split; [done|]. split; [done|]. cbn zeta.
  by rewrite Hv, Hu, (vga_printed _ _ _ P1), (trace_printed _ _ _ P1).
Qed.

(** ** Spurious interrupts and acknowledgement *)

(** The in-service bit the handler tests for lines 7 and 15 is clear. *)
Definition spurious (tr : list event) (n : Z) : bool :=
  ((n =? 7) || (n =? 15)) && negb (Z.testbit (isr_value tr) n).

(** What the handler reads before dispatching. *)
Definition checks (tr : list event) (n : Z) : list event :=
  if (n =? 7) || (n =? 15) then isr_reads tr else [].

Lemma irq_number n : 0 ≤ n < 16 → u8 (32 + n -u PIC_MASTER_OFFSET) = n.
Proof.
  intros. unfold PIC_MASTER_OFFSET. replace (32 + n - 32) with n by lia.
  rewrite u32_id, u8_id; lia.
Qed.

Lemma irq_handler_cases f n (s : S) :
  fr_int_no f = 32 + n → 0 ≤ n < 16 →
  irq_handler (H := H) call f s
  = if spurious (trace (view s)) n
    then (if n =? 15 then pic_send_eoi 2 else mret tt) (grow (checks (trace (view s)) n) s)
    else irq_dispatch call n f (grow (checks (trace (view s)) n) s).
Proof.
  intros Hno Hn. unfold irq_handler, spurious, checks. rewrite Hno, irq_number by done.
  destruct (Z.eqb_spec n 7) as [->|]; [|destruct (Z.eqb_spec n 15) as [->|]].
  - rewrite (bind_ret _ _ _ _ _ (pic_read_isr_eq s)), land_bit by lia. cbn [Z.eqb orb andb Pos.eqb].
    by destruct (Z.testbit _ 7).
  - rewrite (bind_ret _ _ _ _ _ (pic_read_isr_eq s)), land_bit by lia. cbn [Z.eqb orb andb Pos.eqb].
    by destruct (Z.testbit _ 15).
  - cbn [orb andb]. by rewrite grow_nil.
Qed.

Lemma irq_dispatch_eq f n (s : S) :
  0 ≤ n < 16 →
  irq_dispatch (H := H) call n f s
  = ((match irq_handlers (view (C := idt_state H) s) !!! Z.to_nat n with
      | Some h => call h f | None => mret tt end);; pic_send_eoi n) s.
Proof.
  intros Hn. unfold irq_dispatch.
  rewrite (bind_ret (gets _) _ s _ s eq_refl).
  rewrite (proj2 (Z.ltb_lt n NUM_IRQS)) by (unfold NUM_IRQS; lia).
  by rewrite bind_assoc, (bind_ret _ _ _ _ _ (fetch_dim_in NUM_IRQS _ n s Hn)).
Qed.

(** Number of end-of-interrupt commands sent to a controller. *)
Definition eois (cmd : Z) (l : list event) : nat :=
  length (filter (fun e => e = EOut cmd PIC_EOI) l).

Lemma eois_app cmd l1 l2 : eois cmd (l1 ++ l2) = (eois cmd l1 + eois cmd l2)%nat.
Proof. unfold eois. by rewrite filter_app, length_app. Qed.

Lemma eois_checks cmd tr n : eois cmd (checks tr n) = 0%nat.
Proof.
  unfold checks. destruct (_ || _); [|done].
  unfold eois, isr_reads, PIC_EOI. rewrite !filter_cons. repeat case_decide; done.
Qed.

Lemma eoi_events (n : Z) :
  0 ≤ n < 16 →
  ∃ l, (∀ s : S, pic_send_eoi n s = Ret tt (grow l s)) ∧
    eois 0x20 l = 1%nat ∧ eois 0xA0 l = if 8 <=? n then 1%nat else 0%nat.
Proof.
  intros Hn. eexists. split; [intros s; apply pic_send_eoi_eq|]. by destruct (8 <=? n).
Qed.

End idt_lemmas.

(** ** The interface between the dispatcher and the drivers

    A driver's callback returns and leaves acknowledging to the dispatcher. *)

Class IrqCallbacks {S H : Type} `{!Lens S cpu} (call : H → frame → M S unit) : Prop :=
  callback_returns h f (s : S) :
    ∃ s' l, call h f s = Ret tt s' ∧ trace (view s') = trace (view s) ++ l ∧
      eois 0x20 l = 0%nat ∧ eois 0xA0 l = 0%nat.

(** ** Properties *)

Section properties.
Context {S H : Type} `{!Lens S vga} `{!Lens S cpu} `{!Lens S (idt_state H)}
  `{!Indep S cpu vga} `{!Indep S cpu (idt_state H)} `{!Preempt S} `{!PreemptOk S} `{!Hardware}.
Variable fuel : nat.
Variable call : H → frame → M S unit.
Variable stub_addr : stub → Z.
Variable idt_addr : Z.

(** C29: After [idt_init] the processor's IDTR covers the 256-entry table;
    vectors 0-31 are present ring-0 interrupt gates into the exception stub of
    the same number, vectors 32-47 into IRQ stubs 0-15, and every other entry
    of the table is what it was (not present, in the zeroed table). *)
Theorem idt_init_gates (s : S) :
  idt_ok (view (C := idt_state H) s) → (∀ st, 0 ≤ stub_addr st < 4294967296) →
  ∃ s', idt_init (H := H) stub_addr idt_addr s = Ret tt s' ∧
    idtr (view s') = (256 * 8 - 1, idt_addr) ∧
    ∀ v, 0 ≤ v < 256 →
      let g := idt (view (C := idt_state H) s') !!! Z.to_nat v in
      if v <? 48 then kernel_gate g (stub_addr (vector_stub v))
      else g = idt (view (C := idt_state H) s) !!! Z.to_nat v.
Proof.
  intros Hok Ha. eexists. split; [apply idt_init_eq|]. split; [by rewrite view_put|].
  intros v Hv. cbn zeta. rewrite view_put_r, view_put. by apply table_after_gates.
Qed.

(** C30: [interrupts_init] leaves both controllers remapped away from the CPU
    exceptions, the cascade line 2 unmasked and every other line as masked as it
    was, loads the IDT and does not enable interrupts. *)
Theorem interrupts_init_spec (s : S) (k : Z) :
  imr_readback → pics_ready (trace (view s)) → 0 ≤ k < 16 →
  ∃ s', interrupts_init (H := H) stub_addr idt_addr s = Ret tt s' ∧
    offset (master_of (trace (view s'))) = 32 ∧ offset (slave_of (trace (view s'))) = 40 ∧
    masked (trace (view s')) k = negb (k =? 2) && masked (trace (view s)) k ∧
    idtr (view s') = (2047, idt_addr) ∧ if_flag (view s') = if_flag (view s).
Proof.
  intros Hrb Hr Hk.
  destruct (interrupts_init_run stub_addr idt_addr s Hrb Hr) as (l & E & _ & _ & H1 & H2 & Hm).
  eexists. split; [exact E|]. rewrite !view_put. cbn [trace idtr if_flag]. by split_and!; auto.
Qed.

(** C17: Each hardware interrupt is acknowledged exactly once at every
    controller that raised it, and a spurious one not at all where it did not
    come from: IRQ 0-7 get one EOI at the master, IRQ 8-15 one at each
    controller; a spurious IRQ7 gets none, a spurious IRQ15 only the master's. *)
Theorem irq_handler_acks (f : frame) (n : Z) (s : S) :
  IrqCallbacks call → fr_int_no f = 32 + n → 0 ≤ n < 16 →
  let sp := spurious (trace (view s)) n in
  ∃ s' l, irq_handler call f s = Ret tt s' ∧ trace (view s') = trace (view s) ++ l ∧
    eois 0x20 l = (if sp && (n =? 7) then 0%nat else 1%nat) ∧
    eois 0xA0 l = (if (8 <=? n) && negb sp then 1%nat else 0%nat).
Proof.
  intros Hcb Hno Hn sp. rewrite (irq_handler_cases _ _ _ _ Hno Hn). fold sp.
  set (c := checks (trace (view s)) n).
  assert (∀ cmd, eois cmd c = 0%nat) as Hc by (intros; apply eois_checks).
  destruct sp eqn:Esp.
  - assert (n = 7 ∨ n = 15) as [-> | ->] by (unfold sp, spurious in Esp; lia); cbn [Z.eqb Pos.eqb].
    + exists (grow c s), c. by rewrite trace_grow, !Hc.
    + destruct (eoi_events (S := S) 2) as (l & E & H1 & H2); [lia|].
      rewrite E, grow_grow. eexists _, (c ++ l). rewrite trace_grow, !eois_app, !Hc.
      by rewrite H1, H2.
  - rewrite irq_dispatch_eq by done.
    destruct (eoi_events (S := S) n Hn) as (l & E & H1 & H2).
    assert (∃ s1 l1, match irq_handlers (view (C := idt_state H) (grow c s)) !!! Z.to_nat n with
      | Some h => call h f | None => mret tt end (grow c s) = Ret tt s1 ∧
      trace (view s1) = trace (view (grow c s)) ++ l1 ∧
      eois 0x20 l1 = 0%nat ∧ eois 0xA0 l1 = 0%nat) as (s1 & l1 & E1 & T1 & A1 & B1).
    { destruct (_ !!! Z.to_nat n) as [h|]; [apply callback_returns|].
      exists (grow c s), []. by rewrite app_nil_r. }
    rewrite (bind_ret _ _ _ _ _ E1), E. eexists _, (c ++ l1 ++ l).
    rewrite trace_grow, T1, trace_grow, <- !app_assoc, !eois_app, !Hc.
    rewrite A1, B1, H1, H2. split_and!; try done. by destruct (8 <=? n).
Qed.

(** C31: A driver that registers a callback for a line gets exactly that line's
    genuine interrupts: after [irq_register_handler n], a non-spurious IRQ [n]
    runs the callback and then acknowledges, and every other line keeps the
    callback it had. An out-of-range line changes nothing. *)
Theorem irq_register_dispatch (d : idt_state H) (n : Z) (h : H) (f : frame) (s : S) :
  idt_ok d → 0 ≤ n →
  let d' := irq_register_handler n (Some h) d in
  idt_ok d' ∧ idt d' = idt d ∧ (16 ≤ n → d' = d) ∧
  (∀ m, 0 ≤ m < 16 → m ≠ n →
     irq_handlers d' !!! Z.to_nat m = irq_handlers d !!! Z.to_nat m) ∧
  (n < 16 → fr_int_no f = 32 + n → view s = d' → spurious (trace (view s)) n = false →
     irq_handler call f s
     = (call h f;; pic_send_eoi n) (grow (checks (trace (view s)) n) s)).
Proof.
  intros Hok Hn d'. split; [by apply idt_ok_register|].
  unfold d', irq_register_handler, NUM_IRQS. destruct (Z.ltb_spec n 16).
  - cbn [idt irq_handlers]. split_and!; [done|lia| |].
    + intros m Hm Hne. destruct Hok. rewrite wr_in by lia. apply list_lookup_total_insert_ne. lia.
    + intros _ Hno Hv Hsp. rewrite (irq_handler_cases _ _ _ _ Hno), Hsp by lia.
      rewrite irq_dispatch_eq, view_grow_other, Hv by lia. cbn [irq_handlers].
      destruct Hok. rewrite wr_in by lia. rewrite list_lookup_total_insert_eq; [done|]. lia.
  - split_and!; try done. lia.
Qed.

End properties.

(** ** Witnesses *)

(** A machine with a screen, a processor and interrupt tables; one callback
    that does nothing. *)
Definition mach : Type := vga * cpu * idt_state unit.

Definition idle_call (_ : unit) (_ : frame) : M mach unit := mret tt.

Definition idt0 : idt_state unit :=
  mk_idt (replicate 256 (mk_gate 0 0 0 0 0)) (0, 0) (replicate 16 None).

Definition mach0 : mach := (vga0, cpu_bios, idt0).

Definition frame0 (n : Z) : frame := mk_frame 16 0 0 0 0 0 0 0 0 n 0 0x100000 8 0x202 0 0.

Definition stubs0 (s : stub) : Z :=
  match s with Isr n => 0x101000 + 16 * (n mod 32) | Irq n => 0x102000 + 16 * (n mod 16) end.

Lemma idle_callbacks : IrqCallbacks idle_call.
Proof. intros h f s. exists s, []. by rewrite app_nil_r. Qed.

Lemma idt_init_gates_witness :
  ∃ s', idt_init (H := unit) stubs0 0x110000 mach0 = Ret tt s' ∧
    idtr (view s') = (2047, 0x110000) ∧
    ∀ v, 0 ≤ v < 256 →
      let g := idt (view (C := idt_state unit) s') !!! Z.to_nat v in
      if v <? 48 then kernel_gate g (stubs0 (vector_stub v))
      else g = idt (view (C := idt_state unit) mach0) !!! Z.to_nat v.
Proof.
  apply (idt_init_gates (H := unit) stubs0 0x110000 mach0); [done|].
  intros [n|n]; cbn -[Z.modulo]; dlia.
Defined.

Lemma interrupts_init_spec_witness :
  ∃ s', interrupts_init (H := unit) (H0 := pic_hw) stubs0 0x110000 mach0 = Ret tt s' ∧
    offset (master_of (trace (view s'))) = 32 ∧ offset (slave_of (trace (view s'))) = 40 ∧
    masked (trace (view s')) 2 = false ∧
    idtr (view s') = (2047, 0x110000) ∧ if_flag (view s') = false.
Proof.
  refine (interrupts_init_spec (H := unit) (H0 := pic_hw) stubs0 0x110000 mach0 2
            pic_hw_readback _ _); [done|lia].
Defined.

Lemma irq_handler_acks_witness :
  ∃ s' l, irq_handler (H0 := pic_hw) idle_call (frame0 47) mach0 = Ret tt s' ∧
    trace (view s') = trace (view mach0) ++ l ∧ eois 0x20 l = 1%nat ∧ eois 0xA0 l = 0%nat.
Proof.
  refine (irq_handler_acks (H0 := pic_hw) idle_call (frame0 47) 15 mach0 idle_callbacks _ _);
    [done|lia].
Defined.

Lemma irq_register_dispatch_witness :
  let d' := irq_register_handler 1 (Some tt) idt0 in
  idt_ok d' ∧ idt d' = idt idt0 ∧ (16 ≤ 1 → d' = idt0) ∧
  (∀ m, 0 ≤ m < 16 → m ≠ 1 → irq_handlers d' !!! Z.to_nat m = irq_handlers idt0 !!! Z.to_nat m) ∧
  (1 < 16 → fr_int_no (frame0 33) = 32 + 1 → view (put d' mach0) = d' →
   spurious (H0 := pic_hw) (trace (view (put d' mach0))) 1 = false →
   irq_handler (H0 := pic_hw) idle_call (frame0 33) (put d' mach0)
   = (idle_call tt (frame0 33);; pic_send_eoi 1)
       (grow (checks (H0 := pic_hw) (trace (view (put d' mach0))) 1) (put d' mach0))).
Proof.
  refine (irq_register_dispatch (H0 := pic_hw) idle_call idt0 1 tt (frame0 33) (put _ mach0) _ _);
    [done|lia].
Defined.
