(* ===== verification/X86.v ===== *)
(** The processor below C: registers, the stack in memory, the instructions the
    assembly files use, the call of a compiled C function, and the delivery of
    interrupts through the descriptor table. *)

From S2P Require Import Prelude Machine Vga Preempt Screen Serial Kprintf Pic Panic Idt.

#[local] Open Scope Z_scope.
#[local] Open Scope c_scope.

(** ** Registers and memory *)

Record gprs : Type := mk_gprs {
  eax : Z; ecx : Z; edx : Z; ebx : Z; esp : Z; ebp : Z; esi : Z; edi : Z
}.

Record segs : Type := mk_segs { cs : Z; ss : Z; ds : Z; es : Z; fs : Z; gs : Z }.

(** [mem] is byte-addressed. Bit 9 of EFLAGS, the interrupt flag, is kept in
    [if_flag] of the [cpu]. *)
Record x86 : Type := mk_x86 {
  gpr : gprs;
  seg : segs;
  eip : Z;
  eflags : Z;
  mem : Z → Z
}.

Definition upd (a v : Z) (m : Z → Z) : Z → Z := fun x => if x =? a then v else m x.

Definition store32 (a v : Z) (m : Z → Z) : Z → Z :=
  upd (u32 (a + 3)) (u8 (Z.shiftr v 24)) (upd (u32 (a + 2)) (u8 (Z.shiftr v 16))
    (upd (u32 (a + 1)) (u8 (Z.shiftr v 8)) (upd (u32 a) (u8 v) m))).

Definition load32 (m : Z → Z) (a : Z) : Z :=
  m (u32 a) + m (u32 (a + 1)) * 2 ^ 8 + m (u32 (a + 2)) * 2 ^ 16 + m (u32 (a + 3)) * 2 ^ 24.

Definition set_gpr (g : gprs) (x : x86) : x86 := mk_x86 g (seg x) (eip x) (eflags x) (mem x).
Definition set_seg (g : segs) (x : x86) : x86 := mk_x86 (gpr x) g (eip x) (eflags x) (mem x).
Definition set_mem (m : Z → Z) (x : x86) : x86 :=
  mk_x86 (gpr x) (seg x) (eip x) (eflags x) m.

Definition set_esp (v : Z) (x : x86) : x86 :=
  let g := gpr x in
  set_gpr (mk_gprs (eax g) (ecx g) (edx g) (ebx g) v (ebp g) (esi g) (edi g)) x.

(** [mov v, %ax]: the low half of EAX. *)
Definition set_ax (v : Z) (x : x86) : x86 :=
  let g := gpr x in
  set_gpr (mk_gprs (eax g - u16 (eax g) + u16 v) (ecx g) (edx g) (ebx g) (esp g)
             (ebp g) (esi g) (edi g)) x.

Definition push32 (v : Z) (x : x86) : x86 :=
  let a := esp (gpr x) -u 4 in set_mem (store32 a v (mem x)) (set_esp a x).

(** The word on top of the stack, and the stack without its top [n] words. *)
Definition top32 (x : x86) : Z := load32 (mem x) (esp (gpr x)).
Definition drop32 (n : Z) (x : x86) : x86 := set_esp (esp (gpr x) +u 4 * n) x.

(** ** Instructions *)

Inductive sreg : Type := DS | ES | FS | GS.
Inductive greg : Type := EAX | EBX | ESP.

Inductive instr (F L : Type) : Type :=
| Push_imm (v : Z)
| Push_r (r : greg)
| Push_ds
| Pop_ds
| Pusha
| Popa
| Mov_imm_ax (v : Z)
| Mov_imm_esp (v : Z)
| Mov_ds_ax
| Mov_ax_s (r : sreg)
| Add_esp (v : Z)
| Call (f : F)
| Jmp (l : L)
| Cli
| Hlt
| Iret.
Arguments Push_imm {F L} v.
Arguments Push_r {F L} r.
Arguments Push_ds {F L}.
Arguments Pop_ds {F L}.
Arguments Pusha {F L}.
Arguments Popa {F L}.
Arguments Mov_imm_ax {F L} v.
Arguments Mov_imm_esp {F L} v.
Arguments Mov_ds_ax {F L}.
Arguments Mov_ax_s {F L} r.
Arguments Add_esp {F L} v.
Arguments Call {F L} f.
Arguments Jmp {F L} l.
Arguments Cli {F L}.
Arguments Hlt {F L}.
Arguments Iret {F L}.

(** Pushes store the eight registers with the value ESP had before. *)
Definition pusha (x : x86) : x86 :=
  let g := gpr x in
  push32 (edi g) (push32 (esi g) (push32 (ebp g) (push32 (esp g) (push32 (ebx g)
    (push32 (edx g) (push32 (ecx g) (push32 (eax g) x))))))).

(** Pops load all but ESP. *)
Definition popa (x : x86) : x86 :=
  let w n := load32 (mem x) (esp (gpr x) +u 4 * n) in
  set_gpr (mk_gprs (w 7) (w 6) (w 5) (w 4) (esp (gpr x) +u 32) (w 2) (w 1) (w 0)) x.

Definition greg_of (r : greg) (x : x86) : Z :=
  match r with EAX => eax (gpr x) | EBX => ebx (gpr x) | ESP => esp (gpr x) end.

Definition set_sreg (r : sreg) (v : Z) (x : x86) : x86 :=
  let g := seg x in
  set_seg
    match r with
    | DS => mk_segs (cs g) (ss g) v (es g) (fs g) (gs g)
    | ES => mk_segs (cs g) (ss g) (ds g) v (fs g) (gs g)
    | FS => mk_segs (cs g) (ss g) (ds g) (es g) v (gs g)
    | GS => mk_segs (cs g) (ss g) (ds g) (es g) (fs g) v
    end x.

(** EFLAGS as pushed: with the interrupt flag in bit 9. *)
Definition flags_word (x : x86) (c : cpu) : Z :=
  if if_flag c then Z.setbit (eflags x) 9 else Z.clearbit (eflags x) 9.

(** The selector lies in the descriptor table. *)
Definition sel_ok (sel : Z) (c : cpu) : bool := Z.lor sel 7 <=? (gdtr c).1.

(** ** C functions

    A compiled C function runs its source on the state of the C program and,
    by the i386 calling convention, may leave anything in EAX, ECX, EDX, the
    flags, its arguments and the stack below; it keeps the other registers and
    the stack above its argument, up to [stack_end]. *)

Class Abi (stack_end : Z) : Type := {
  clobber : x86 → x86;
  abi_saved x :
    ebx (gpr (clobber x)) = ebx (gpr x) ∧ esp (gpr (clobber x)) = esp (gpr x) ∧
    ebp (gpr (clobber x)) = ebp (gpr x) ∧ esi (gpr (clobber x)) = esi (gpr x) ∧
    edi (gpr (clobber x)) = edi (gpr x);
  abi_segs x : seg (clobber x) = seg x;
  abi_stack x a : esp (gpr x) + 8 ≤ a < stack_end → mem (clobber x) a = mem x a
}.

Section x86.
Context {S H F L : Type} `{!Lens S cpu} `{!Lens S (idt_state H)}.
Context {stack_end : Z} `{!Abi stack_end}.

(** What a function of the C program does, given memory and the address of its
    first argument. *)
Variable callee : F → (Z → Z) → Z → M S unit.
(** The address a [call] pushes. *)
Variable return_addr : F → Z.
(** The code behind a label. *)
Variable code : L → list (instr F L).

Definition X : Type := x86 * S.

(** A statement of the C program, on the whole machine. *)
Definition lift {A : Type} (m : M S A) : M X A :=
  fun '(x, s) =>
    match m s with
    | Ret a s' => Ret a (x, s')
    | Halted s' => Halted (x, s')
    | Hung s' => Hung (x, s')
    | Fault s' => Fault (x, s')
    end.

Definition load_seg (r : sreg) (v : Z) : M X unit :=
  c ← lift (gets (fun c : cpu => c));
  if sel_ok v c then modify (set_sreg r v) else fault.

Definition ccall (f : F) : M X unit :=
  modify (push32 (return_addr f));;
  x ← gets (fun x : x86 => x);
  lift (callee f (mem x) (esp (gpr x) +u 4));;
  modify clobber;;
  modify (drop32 1).

Definition exec (i : instr F L) : M X unit :=
  x ← gets (fun x : x86 => x);
  match i with
  | Push_imm v => modify (push32 v)
  | Push_r r => modify (push32 (greg_of r x))
  | Push_ds => modify (push32 (ds (seg x)))
  | Pop_ds => load_seg DS (u16 (top32 x));; modify (drop32 1)
  | Pusha => modify pusha
  | Popa => modify popa
  | Mov_imm_ax v => modify (set_ax v)
  | Mov_imm_esp v => modify (set_esp v)
  | Mov_ds_ax => modify (set_ax (ds (seg x)))
  | Mov_ax_s r => load_seg r (u16 (eax (gpr x)))
  | Add_esp v => modify (set_esp (esp (gpr x) +u v))
  | Call f => ccall f
  | Cli => lift cli
  | Hlt =>
      (* with interrupts off nothing wakes the processor *)
      c ← lift (gets (fun c : cpu => c));
      lift (modify (log EHlt));; (if if_flag c then mret tt else halted)
  | Jmp _ | Iret => mret tt
  end.

(** Return from an interrupt, without a change of privilege. *)
Definition iret (x : x86) : x86 :=
  let w n := load32 (mem x) (esp (gpr x) +u 4 * n) in
  let g := seg x in
  mk_x86 (gpr (drop32 3 x)) (mk_segs (u16 (w 1)) (ss g) (ds g) (es g) (fs g) (gs g))
    (w 0) (w 2) (mem x).

(** Run a block until [iret]. *)
Fixpoint run (fuel : nat) (block : list (instr F L)) : M X unit :=
  match fuel with
  | O => hung
  | Datatypes.S fuel =>
      match block with
      | [] => fault
      | Jmp l :: _ => run fuel (code l)
      | Iret :: _ =>
          x ← gets (fun x : x86 => x);
          modify iret;;
          lift (modify (set_if (Z.testbit (load32 (mem x) (esp (gpr x) +u 8)) 9)))
      | i :: block => exec i;; run fuel block
      end
  end.

(** ** Interrupt delivery

    Through a present 32-bit interrupt gate, at ring 0: EFLAGS, CS and EIP are
    pushed, then the error code where the vector has one, and IF, TF, NT, RF and
    VM are cleared. [idt_addr] is the address of the table in [idt_state];
    [entry] the code at an address. *)

Variable idt_addr : Z.
Variable entry : Z → option L.

Definition masked_flags (v : Z) : Z :=
  Z.ldiff v (Z.lor (Z.lor (Z.lor (Z.shiftl 1 8) (Z.shiftl 1 9)) (Z.shiftl 1 14))
               (Z.lor (Z.shiftl 1 16) (Z.shiftl 1 17))).

Definition deliver (err : option Z) (sel : Z) (c : cpu) (x : x86) : x86 :=
  let x1 := push32 (eip x) (push32 (cs (seg x)) (push32 (flags_word x c) x)) in
  let x2 := match err with Some e => push32 e x1 | None => x1 end in
  let g := seg x2 in
  mk_x86 (gpr x2) (mk_segs sel (ss g) (ds g) (es g) (fs g) (gs g)) (eip x2)
    (masked_flags (eflags x2)) (mem x2).

Definition interrupt (fuel : nat) (vector : Z) (err : option Z) : M X unit :=
  c ← lift (gets (fun c : cpu => c));
  if ((idtr c).2 =? idt_addr) && (8 * vector + 7 <=? (idtr c).1) then
    gates ← lift (gets (C := idt_state H) idt);
    let g := gates !!! Z.to_nat vector in
    if gate_present g && (gate_type g =? 14) && sel_ok (g_sel g) c then
      match entry (gate_offset g) with
      | Some l =>
          modify (deliver err (g_sel g) c);;
          lift (modify (take_vector vector));;
          run fuel (code l)
      | None => fault
      end
    else fault
  else fault.

End x86.

(** ** The stack *)

(** The words [ws] lie at ascending addresses from [a]. *)
Fixpoint words (m : Z → Z) (a : Z) (ws : list Z) : Prop :=
  match ws with
  | [] => True
  | w :: ws => load32 m a = w ∧ words m (a + 4) ws
  end.

(** [x] is [x0] with the words [ws] pushed, and the stack from there up to [top] is
    unchanged. *)
Record pushed (top : Z) (x0 : x86) (ws : list Z) (x : x86) : Prop := {
  pushed_esp : esp (gpr x) = esp (gpr x0) - 4 * Z.of_nat (length ws);
  pushed_low : 0 ≤ esp (gpr x);
  pushed_high : esp (gpr x0) ≤ top < 4294967296;
  pushed_words : words (mem x) (esp (gpr x)) ws;
  pushed_above a : esp (gpr x0) ≤ a < top → mem x a = mem x0 a
}.

Lemma byte_sum v :
  u8 v + u8 (Z.shiftr v 8) * 2 ^ 8 + u8 (Z.shiftr v 16) * 2 ^ 16 + u8 (Z.shiftr v 24) * 2 ^ 24
  = u32 v.
Proof.
  rewrite !Z.shiftr_div_pow2 by lia.
  change (2 ^ 8) with 256. change (2 ^ 16) with 65536. change (2 ^ 24) with 16777216.
  unfold u8, u32. dlia.
Qed.

Lemma store32_bytes a v m b :
  0 ≤ a → a + 4 ≤ 4294967296 → b < a ∨ a + 4 ≤ b → store32 a v m b = m b.
Proof.
  intros Ha Ha4 Hb. unfold store32, upd. rewrite !u32_id by lia.
  by rewrite !(proj2 (Z.eqb_neq b _)) by lia.
Qed.

Lemma load_store_same a v m :
  0 ≤ a → a + 4 ≤ 4294967296 → load32 (store32 a v m) a = u32 v.
Proof.
  intros Ha Ha4. rewrite <- byte_sum. unfold load32, store32, upd. rewrite !u32_id by lia.
  rewrite !Z.eqb_refl. by rewrite !(proj2 (Z.eqb_neq _ _)) by lia.
Qed.

Lemma load_ext m m' a :
  0 ≤ a → a + 4 ≤ 4294967296 → (∀ b, a ≤ b < a + 4 → m b = m' b) → load32 m a = load32 m' a.
Proof. intros Ha Ha4 He. unfold load32. rewrite !u32_id by lia. by rewrite !He by lia. Qed.

Lemma words_ext m m' a ws :
  0 ≤ a → a + 4 * Z.of_nat (length ws) ≤ 4294967296 →
  (∀ b, a ≤ b < a + 4 * Z.of_nat (length ws) → m b = m' b) → words m a ws → words m' a ws.
Proof.
  revert a. induction ws as [|w ws IH]; intros a Ha Hl He; [done|]. cbn [words length] in *.
  intros [Hw Hws]. split.
  - rewrite <- Hw. apply load_ext; [lia..|]. intros b Hb. symmetry. apply He. lia.
  - apply IH; [lia..| |done]. intros b Hb. apply He. lia.
Qed.

Lemma words_lookup m a ws i w :
  words m a ws → ws !! i = Some w → load32 m (a + 4 * Z.of_nat i) = w.
Proof.
  revert a i. induction ws as [|w' ws IH]; intros a i; [done|]. cbn [words].
  intros [Hw Hws]. destruct i as [|i]; cbn [lookup list_lookup].
  - intros [= ->]. by rewrite Z.add_0_r.
  - intros Hi. rewrite <- (IH _ _ Hws Hi). f_equal. lia.
Qed.

Lemma pushed_nil top x : 0 ≤ esp (gpr x) ≤ top → top < 4294967296 → pushed top x [] x.
Proof. intros. split; cbn; [lia..|done|done]. Qed.

Lemma pushed_push top x0 ws x v w :
  pushed top x0 ws x → 4 * (Z.of_nat (length ws) + 1) ≤ esp (gpr x0) → u32 v = w → pushed top x0 (w :: ws) (push32 v x).
Proof.
  intros [He Hl Hh Hw Ha] H4 <-. set (a := esp (gpr x) - 4).
  assert (esp (gpr (push32 v x)) = a) as Ea by (cbn; apply u32_id; lia).
  split.
  - rewrite Ea. cbn [length]. lia.
  - lia.
  - done.
  - rewrite Ea. cbn -[store32 load32 u32]. rewrite u32_id by lia. split.
    + apply load_store_same; lia.
    + apply (words_ext (mem x)); [lia..| |].
      * intros b Hb. symmetry. apply store32_bytes; lia.
      * by replace (a + 4) with (esp (gpr x)) by lia.
  - intros b Hb. cbn -[store32 u32]. rewrite u32_id, store32_bytes by lia. by apply Ha.
Qed.

(** Room for [n] more words. *)
Lemma pushed_room top x0 ws x n :
  pushed top x0 ws x → 4 * (Z.of_nat (length ws) + n) ≤ esp (gpr x0) →
  4 * n ≤ esp (gpr x) < 4294967296.
Proof. intros []. lia. Qed.

Lemma pushed_top0 top x0 w ws x : pushed top x0 (w :: ws) x → top32 x = w.
Proof. by intros [_ _ _ [Hw _] _]. Qed.

(** Changes that leave ESP and memory alone. *)
Lemma pushed_ext top x0 ws x x' :
  esp (gpr x') = esp (gpr x) → mem x' = mem x → pushed top x0 ws x → pushed top x0 ws x'.
Proof. intros He Hm []. split; rewrite ?He, ?Hm; done. Qed.

Lemma pushed_top top x0 ws x w i :
  pushed top x0 ws x → ws !! i = Some w → load32 (mem x) (esp (gpr x) +u 4 * Z.of_nat i) = w.
Proof.
  intros [He Hl Hh Hw _] Hi. pose proof (lookup_lt_Some _ _ _ Hi).
  rewrite u32_id by lia. by apply (words_lookup _ _ ws).
Qed.

Lemma pushed_drop top x0 ws1 ws2 x n :
  pushed top x0 (ws1 ++ ws2) x → n = Z.of_nat (length ws1) → pushed top x0 ws2 (drop32 n x).
Proof.
  intros [He Hl Hh Hw Ha] ->. rewrite length_app in He.
  assert (esp (gpr (drop32 (Z.of_nat (length ws1)) x)) = esp (gpr x) + 4 * Z.of_nat (length ws1))
    as Ee by (cbn -[Z.mul]; apply u32_id; lia).
  split; rewrite ?Ee; [lia..| |done]. cbn [mem drop32 set_esp set_gpr].
  clear -Hw. revert Hw. generalize (esp (gpr x)) as a.
  induction ws1 as [|w ws1 IH]; intros a; cbn [app words length].
  - by rewrite Z.add_0_r.
  - intros [_ Hw]. apply IH in Hw. replace (a + 4 * Z.of_nat (Datatypes.S (length ws1)))
      with (a + 4 + 4 * Z.of_nat (length ws1)) by lia. done.
Qed.

(** A compiled function keeps the stack above its argument. *)
Lemma pushed_clobber {stack_end} `{!Abi stack_end} x0 r v ws x :
  pushed stack_end x0 (r :: v :: ws) x →
  ∃ r' v', pushed stack_end x0 (r' :: v' :: ws) (clobber x).
Proof.
  intros [He Hl Hh Hw Ha]. destruct (abi_saved x) as (_ & Ee & _).
  cbn [length words] in *. destruct Hw as (_ & _ & Hw).
  do 2 eexists. split; rewrite ?Ee; [exact He|done|done| |].
  - split; [reflexivity|]. split; [reflexivity|].
    apply (words_ext (mem x)); [lia..| |done].
    intros b Hb. symmetry. apply abi_stack. lia.
  - intros a Ha'. rewrite abi_stack by lia. by apply Ha.
Qed.

(** ** What the steps keep *)

(** All general registers but EAX and ESP. *)
Definition same_gprs (g g' : gprs) : Prop :=
  ecx g' = ecx g ∧ edx g' = edx g ∧ ebx g' = ebx g ∧ ebp g' = ebp g ∧ esi g' = esi g ∧
  edi g' = edi g.

Lemma push32_eax v x : eax (gpr (push32 v x)) = eax (gpr x).
Proof. done. Qed.
Lemma push32_esp v x : esp (gpr (push32 v x)) = esp (gpr x) -u 4.
Proof. done. Qed.
Lemma push32_gpr v x :
  gpr (push32 v x) = let g := gpr x in
    mk_gprs (eax g) (ecx g) (edx g) (ebx g) (esp g -u 4) (ebp g) (esi g) (edi g).
Proof. done. Qed.
Lemma push32_eip v x : eip (push32 v x) = eip x.
Proof. done. Qed.
Lemma push32_eflags v x : eflags (push32 v x) = eflags x.
Proof. done. Qed.
Lemma push32_seg v x : seg (push32 v x) = seg x.
Proof. done. Qed.
Lemma push32_same v x : same_gprs (gpr x) (gpr (push32 v x)).
Proof. done. Qed.
Lemma pusha_eax x : eax (gpr (pusha x)) = eax (gpr x).
Proof. done. Qed.
Lemma pusha_seg x : seg (pusha x) = seg x.
Proof. done. Qed.
Lemma set_ax_eax v x : eax (gpr (set_ax v x)) = eax (gpr x) - u16 (eax (gpr x)) + u16 v.
Proof. done. Qed.
Lemma set_ax_esp v x : esp (gpr (set_ax v x)) = esp (gpr x).
Proof. done. Qed.
Lemma set_ax_mem v x : mem (set_ax v x) = mem x.
Proof. done. Qed.
Lemma set_ax_seg v x : seg (set_ax v x) = seg x.
Proof. done. Qed.
Lemma set_sreg_gpr r v x : gpr (set_sreg r v x) = gpr x.
Proof. done. Qed.
Lemma set_sreg_mem r v x : mem (set_sreg r v x) = mem x.
Proof. done. Qed.
Lemma set_sreg_seg r v x :
  seg (set_sreg r v x)
  = let g := seg x in
    match r with
    | DS => mk_segs (cs g) (ss g) v (es g) (fs g) (gs g)
    | ES => mk_segs (cs g) (ss g) (ds g) v (fs g) (gs g)
    | FS => mk_segs (cs g) (ss g) (ds g) (es g) v (gs g)
    | GS => mk_segs (cs g) (ss g) (ds g) (es g) (fs g) v
    end.
Proof. by destruct r. Qed.
Lemma drop32_eax n x : eax (gpr (drop32 n x)) = eax (gpr x).
Proof. done. Qed.
Lemma drop32_seg n x : seg (drop32 n x) = seg x.
Proof. done. Qed.
Lemma drop32_esp n x : esp (gpr (drop32 n x)) = esp (gpr x) +u 4 * n.
Proof. done. Qed.
Lemma drop32_gpr n x :
  gpr (drop32 n x) = let g := gpr x in
    mk_gprs (eax g) (ecx g) (edx g) (ebx g) (esp g +u 4 * n) (ebp g) (esi g) (edi g).
Proof. done. Qed.
Lemma drop32_mem n x : mem (drop32 n x) = mem x.
Proof. done. Qed.
Lemma popa_seg x : seg (popa x) = seg x.
Proof. done. Qed.
Lemma popa_mem x : mem (popa x) = mem x.
Proof. done. Qed.

Lemma add_esp_drop n v x : v = 4 * n → set_esp (esp (gpr x) +u v) x = drop32 n x.
Proof. by intros ->. Qed.

Create Rewrite HintDb x86.
#[export] Hint Rewrite push32_eax push32_esp push32_seg pusha_eax pusha_seg set_ax_eax set_ax_esp
  set_ax_mem set_ax_seg set_sreg_gpr set_sreg_mem set_sreg_seg drop32_eax drop32_seg drop32_esp
  drop32_mem popa_seg popa_mem : x86.

(** The low half of EAX is what was moved there. *)
Lemma set_ax_u16 v x : u16 (eax (gpr (set_ax v x))) = u16 v.
Proof. rewrite set_ax_eax. unfold u16. dlia. Qed.

(** [pusha] pushes the eight registers. *)
Lemma pushed_pusha top x0 ws x :
  pushed top x0 ws x → 4 * (Z.of_nat (length ws) + 8) ≤ esp (gpr x0) →
  let g := gpr x in
  Forall (fun v => 0 ≤ v < 4294967296)
    [eax g; ecx g; edx g; ebx g; esp g; ebp g; esi g; edi g] →
  pushed top x0 ([edi g; esi g; ebp g; esp g; ebx g; edx g; ecx g; eax g] ++ ws) (pusha x).
Proof.
  intros Hp Hl g.
  rewrite !Forall_cons. intros (? & ? & ? & ? & ? & ? & ? & ? & _). unfold pusha. fold g.
  cbn [app]. do 8 (apply pushed_push; [|cbn [length]; lia|by apply u32_id]). done.
Qed.

(** [popa] restores them. *)
Lemma pushed_popa top x0 di si bp sp bx dx cx ax ws x :
  pushed top x0 ([di; si; bp; sp; bx; dx; cx; ax] ++ ws) x →
  gpr (popa x) = mk_gprs ax cx dx bx (esp (gpr x) +u 32) bp si di ∧ pushed top x0 ws (popa x).
Proof.
  intros Hp. assert (∀ i w, [di; si; bp; sp; bx; dx; cx; ax] !! i = Some w →
    load32 (mem x) (esp (gpr x) +u 4 * Z.of_nat i) = w) as Hw.
  { intros i w Hi. eapply pushed_top; [exact Hp|]. by apply lookup_app_l_Some. }
  split.
  - unfold popa. cbn [gpr set_gpr]. f_equal.
    + exact (Hw 7%nat _ eq_refl).
    + exact (Hw 6%nat _ eq_refl).
    + exact (Hw 5%nat _ eq_refl).
    + exact (Hw 4%nat _ eq_refl).
    + exact (Hw 2%nat _ eq_refl).
    + exact (Hw 1%nat _ eq_refl).
    + exact (Hw 0%nat _ eq_refl).
  - eapply (pushed_ext _ _ _ (drop32 8 x)); [done..|]. by eapply pushed_drop.
Qed.

(** [iret] leaves nothing on the stack. *)
Lemma pushed_iret top x0 i c fl x :
  pushed top x0 [i; c; fl] x →
  gpr (iret x) = (let g := gpr x in
    mk_gprs (eax g) (ecx g) (edx g) (ebx g) (esp (gpr x0)) (ebp g) (esi g) (edi g)) ∧
  seg (iret x) = (let g := seg x in mk_segs (u16 c) (ss g) (ds g) (es g) (fs g) (gs g)) ∧
  eip (iret x) = i ∧ eflags (iret x) = fl ∧ load32 (mem x) (esp (gpr x) +u 8) = fl ∧
  ∀ a, esp (gpr x0) ≤ a < top → mem (iret x) a = mem x0 a.
Proof.
  intros Hp. pose proof (λ j w, pushed_top _ _ _ _ w j Hp) as Hw.
  assert (load32 (mem x) (esp (gpr x) +u 4 * 0) = i) as H0 by exact (Hw 0%nat _ eq_refl).
  assert (load32 (mem x) (esp (gpr x) +u 4 * 1) = c) as H1 by exact (Hw 1%nat _ eq_refl).
  assert (load32 (mem x) (esp (gpr x) +u 4 * 2) = fl) as H2 by exact (Hw 2%nat _ eq_refl).
  destruct Hp as [He Hl Hh _ Ha]. cbn [length] in He. unfold iret. cbn [gpr seg eip eflags mem].
  split_and!; [|by rewrite H1|done|done|exact H2|done].
  unfold drop32, set_esp. cbn [gpr set_gpr]. f_equal.
  rewrite u32_id by lia. lia.
Qed.

#[global] Opaque iret push32 pusha set_ax set_sreg drop32 popa load32.

(** ** Running straight-line code *)

(** Register values fit their registers. *)
Record wf_x86 (x : x86) : Prop := {
  wf_gpr : let g := gpr x in
    Forall (fun v => 0 ≤ v < 4294967296)
      [eax g; ecx g; edx g; ebx g; esp g; ebp g; esi g; edi g];
  wf_ctl : Forall (fun v => 0 ≤ v < 4294967296) [eip x; eflags x];
  wf_seg : let g := seg x in Forall (fun v => 0 ≤ v < 65536) [cs g; ss g; ds g; es g; fs g; gs g]
}.

Section runs.
Context {S H F L : Type} `{!Lens S cpu} `{!Lens S (idt_state H)}.
Context {stack_end : Z} `{!Abi stack_end}.
Variable callee : F → (Z → Z) → Z → M S unit.
Variable return_addr : F → Z.
Variable code : L → list (instr F L).

Definition plain (i : instr F L) : bool := match i with Jmp _ | Iret => false | _ => true end.

Lemma run_exec n i b (x x' : x86) (s s' : S) :
  plain i = true → exec callee return_addr i (x, s) = Ret tt (x', s') →
  run callee return_addr code (Datatypes.S n) (i :: b) (x, s)
  = run callee return_addr code n b (x', s').
Proof. intros Hp He. destruct i; try done; cbn [run]; by rewrite (bind_ret _ _ _ _ _ He). Qed.

(** The instructions that only compute. *)
Definition computes (i : instr F L) (x : x86) : option x86 :=
  match i with
  | Push_imm v => Some (push32 v x)
  | Push_r EAX => Some (push32 (eax (gpr x)) x)
  | Push_r EBX => Some (push32 (ebx (gpr x)) x)
  | Push_r ESP => Some (push32 (esp (gpr x)) x)
  | Push_ds => Some (push32 (ds (seg x)) x)
  | Pusha => Some (pusha x)
  | Popa => Some (popa x)
  | Mov_imm_ax v => Some (set_ax v x)
  | Mov_imm_esp v => Some (set_esp v x)
  | Mov_ds_ax => Some (set_ax (ds (seg x)) x)
  | Add_esp v => Some (set_esp (esp (gpr x) +u v) x)
  | _ => None
  end.

Lemma exec_computes i (x x' : x86) (s : S) :
  computes i x = Some x' → exec (L := L) callee return_addr i (x, s) = Ret tt (x', s).
Proof. destruct i; try discriminate; try destruct r; by intros [= <-]. Qed.

Lemma exec_mov_seg r (x : x86) (s : S) :
  sel_ok (u16 (eax (gpr x))) (view s) = true →
  exec (L := L) callee return_addr (Mov_ax_s r) (x, s)
  = Ret tt (set_sreg r (u16 (eax (gpr x))) x, s).
Proof. intros Hs. unfold exec, load_seg, mbind, M_bind, gets, lift. cbn. by rewrite Hs. Qed.

Lemma exec_pop_ds (x : x86) (s : S) :
  sel_ok (u16 (top32 x)) (view s) = true →
  exec (L := L) callee return_addr Pop_ds (x, s)
  = Ret tt (drop32 1 (set_sreg DS (u16 (top32 x)) x), s).
Proof.
  intros Hs. unfold exec, load_seg, mbind, M_bind, gets, lift, modify.
  cbn -[drop32 top32]. by rewrite Hs.
Qed.

(** A call, when the function returns. *)
Lemma exec_call f (x : x86) (s s' : S) :
  let x1 := push32 (return_addr f) x in
  callee f (mem x1) (esp (gpr x1) +u 4) s = Ret tt s' →
  exec (L := L) callee return_addr (Call f) (x, s) = Ret tt (drop32 1 (clobber x1), s').
Proof.
  cbn zeta. intros Hc. unfold exec, ccall, mbind, M_bind, gets, lift, modify.
  cbn -[drop32 push32 u32]. by rewrite Hc.
Qed.

(** A call, when the function stops the processor. *)
Lemma exec_call_halts f b n (x : x86) (s s' : S) :
  let x1 := push32 (return_addr f) x in
  callee f (mem x1) (esp (gpr x1) +u 4) s = Halted s' →
  run callee return_addr code (Datatypes.S n) (Call f :: b) (x, s) = Halted (x1, s').
Proof.
  cbn zeta. intros Hc. cbn [run]. unfold exec, ccall, mbind, M_bind, gets, lift, modify.
  cbn -[drop32 push32 u32]. by rewrite Hc.
Qed.

(** A call, when the function never returns. *)
Lemma exec_call_hangs f b n (x : x86) (s s' : S) :
  let x1 := push32 (return_addr f) x in
  callee f (mem x1) (esp (gpr x1) +u 4) s = Hung s' →
  run callee return_addr code (Datatypes.S n) (Call f :: b) (x, s) = Hung (x1, s').
Proof.
  cbn zeta. intros Hc. cbn [run]. unfold exec, ccall, mbind, M_bind, gets, lift, modify.
  cbn -[drop32 push32 u32]. by rewrite Hc.
Qed.

Lemma run_iret n b (x : x86) (s : S) :
  run callee return_addr code (Datatypes.S n) (Iret :: b) (x, s)
  = Ret tt (iret x,
      put (set_if (Z.testbit (load32 (mem x) (esp (gpr x) +u 8)) 9) (view s)) s).
Proof. done. Qed.

Lemma interrupt_eq idt_addr entry n v err l (x : x86) (s : S) :
  let c := view (C := cpu) s in
  let g := idt (view (C := idt_state H) s) !!! Z.to_nat v in
  (idtr c).2 = idt_addr → 8 * v + 7 ≤ (idtr c).1 → gate_present g = true → gate_type g = 14 →
  sel_ok (g_sel g) c = true → entry (gate_offset g) = Some l →
  interrupt (H := H) callee return_addr code idt_addr entry n v err (x, s)
  = run callee return_addr code n (code l)
      (deliver err (g_sel g) c x, put (take_vector v c) s).
Proof.
  cbn zeta. intros Ha Hl Hp Ht Hs He. unfold interrupt, mbind, M_bind, lift, gets, modify.
  cbn -[deliver Z.mul gate_present gate_type gate_offset sel_ok]. rewrite Ha, Z.eqb_refl, (proj2 (Z.leb_le _ _) Hl). cbn [andb]. rewrite Hp, Ht, Hs.
  cbn [andb Z.eqb Pos.eqb].
  by rewrite He.
Qed.

End runs.

(** Take the next instruction that only computes. *)
Ltac step_instr := erewrite run_exec; [|reflexivity|apply exec_computes; reflexivity].

(** The interrupt flag of [cpu] is bit 9 of EFLAGS. *)
Definition coherent (x : x86) (c : cpu) : Prop := Z.testbit (eflags x) 9 = if_flag c.

Lemma flags_word_coherent x c : coherent x c → flags_word x c = eflags x.
Proof.
  unfold coherent, flags_word. intros Hc. apply Z.bits_inj'. intros n Hn.
  destruct (if_flag c).
  - rewrite Z.setbit_eqb by lia. destruct (Z.eqb_spec 9 n) as [<-|]; [by rewrite Hc|done].
  - rewrite Z.clearbit_eqb. destruct (Z.eqb_spec 9 n) as [<-|]; [by rewrite Hc|].
    by rewrite andb_true_r.
Qed.

Lemma masked_flags_range v : 0 ≤ v < 4294967296 → 0 ≤ masked_flags v < 4294967296.
Proof.
  intros Hv. assert (0 ≤ masked_flags v) as H0 by (apply Z.ldiff_nonneg; left; lia).
  split; [done|]. apply (bits_range _ 32); [lia|done|]. intros k Hk.
  unfold masked_flags. rewrite Z.ldiff_spec. by rewrite (testbit_small v 32 k) by (change (2 ^ 32) with 4294967296; lia).
Qed.

(** [x1] has the general registers of [x] but for ESP. *)
Definition same_but_esp (x x1 : x86) : Prop :=
  let g := gpr x in
  gpr x1 = mk_gprs (eax g) (ecx g) (edx g) (ebx g) (esp (gpr x1)) (ebp g) (esi g) (edi g).

Lemma same_push x y v : same_but_esp x y → same_but_esp x (push32 v y).
Proof. unfold same_but_esp. intros E. cbn zeta in *. rewrite push32_gpr, E. done. Qed.

(** Pushes leave a well-formed state. *)
Lemma wf_push x v : wf_x86 x → wf_x86 (push32 v x).
Proof.
  intros [Hg Hc Hs]. split; rewrite ?push32_eip, ?push32_eflags, ?push32_seg; [|done..].
  rewrite push32_gpr. cbn zeta in *. rewrite !Forall_cons in *.
  cbn [eax ecx edx ebx esp ebp esi edi] in *. pose proof (u32_range (esp (gpr x) - 4)). tauto.
Qed.

(** What the processor pushes when it takes an interrupt. *)
Lemma deliver_pushed top err sel c x :
  wf_x86 x → coherent x c → 0 ≤ sel < 65536 → 20 ≤ esp (gpr x) ≤ top → top < 4294967296 →
  match err with Some e => 0 ≤ e < 4294967296 | None => True end →
  let x1 := deliver err sel c x in let sg := seg x in
  pushed top x ((match err with Some e => [e] | None => [] end) ++ [eip x; cs sg; eflags x]) x1 ∧
  wf_x86 x1 ∧ seg x1 = mk_segs sel (ss sg) (ds sg) (es sg) (fs sg) (gs sg) ∧
  same_but_esp x x1.
Proof.
  intros Hwf Hco Hsel Hesp Htop Herr. cbn zeta.
  pose proof Hwf as [Hg Hc Hs]. rewrite !Forall_cons in Hc, Hs.
  set (y1 := push32 (flags_word x c) x). set (y2 := push32 (cs (seg x)) y1).
  set (y3 := push32 (eip x) y2).
  set (y4 := match err with Some e => push32 e y3 | None => y3 end).
  assert (pushed top x [eflags x] y1 ∧ wf_x86 y1) as [P1 W1].
  { assert (pushed top x [eflags x] y1) as P1.
    { apply pushed_push; [apply pushed_nil; lia|cbn; lia|].
      rewrite flags_word_coherent by done. apply u32_id. lia. }
    split; [done|]. by apply wf_push. }
  assert (pushed top x [cs (seg x); eflags x] y2) as P2
    by (apply pushed_push; [done|cbn; lia|apply u32_id; lia]).
  pose proof (wf_push _ (cs (seg x)) W1) as W2.
  assert (pushed top x [eip x; cs (seg x); eflags x] y3) as P3
    by (apply pushed_push; [done|cbn; lia|apply u32_id; lia]).
  pose proof (wf_push _ (eip x) W2) as W3.
  assert (same_but_esp x y3) as E3 by (do 3 apply same_push; unfold same_but_esp; by destruct (gpr x)).
  assert (pushed top x ((match err with Some e => [e] | None => [] end)
    ++ [eip x; cs (seg x); eflags x]) y4 ∧ wf_x86 y4 ∧ same_but_esp x y4 ∧ seg y4 = seg x
    ∧ eflags y4 = eflags x) as (P4 & W4 & E4 & Sg & Ef).
  { unfold y4. destruct err as [e|]; [|done].
    assert (pushed top x [e; eip x; cs (seg x); eflags x] (push32 e y3)) as P4
      by (apply pushed_push; [done|cbn; lia|by apply u32_id]).
    split; [done|]. split; [by apply wf_push|]. by split; [apply same_push|]. }
  unfold deliver. cbn zeta. fold y1 y2 y3. fold y4.
  split; [by apply (pushed_ext _ _ _ y4)|]. split.
  - destruct W4 as [Wg Wc Ws]. rewrite !Forall_cons in *. split; cbn [gpr seg eip eflags];
      rewrite !Forall_cons; [done| |tauto].
    split; [tauto|]. split; [apply masked_flags_range; tauto|done].
  - by rewrite Sg.
Qed.
