(* ===== verification/Entry.v ===== *)
(** The interrupt entry stubs (interrupts/isr.s): from the vector the processor
    takes, through the saved frame, to the C handler and back to the interrupted
    code. *)

From S2P Require Import Prelude Machine Vga Preempt Screen Serial Digits Kprintf Pic Panic Idt X86.

#[local] Open Scope Z_scope.
#[local] Open Scope c_scope.

(** ** The code *)

#[global] Instance stub_eq_dec : EqDecision stub.
Proof. solve_decision. Defined.

Inductive cfun : Type := C_isr_handler | C_irq_handler.
Inductive label : Type := Stub (st : stub) | isr_common_stub | irq_common_stub.

Definition code_block : Type := list (instr cfun label).

(** The three macros: a label and the code behind it. *)
Definition ISR_NOERR (num : Z) : stub * code_block :=
  (Isr num, [Push_imm 0; Push_imm num; Jmp isr_common_stub]).
Definition ISR_ERR (num : Z) : stub * code_block :=
  (Isr num, [Push_imm num; Jmp isr_common_stub]).
Definition IRQ (num vector : Z) : stub * code_block :=
  (Irq num, [Push_imm 0; Push_imm vector; Jmp irq_common_stub]).

Definition stubs : list (stub * code_block) :=
  [ISR_NOERR 0; ISR_NOERR 1; ISR_NOERR 2; ISR_NOERR 3; ISR_NOERR 4; ISR_NOERR 5;
   ISR_NOERR 6; ISR_NOERR 7; ISR_ERR 8; ISR_NOERR 9; ISR_ERR 10; ISR_ERR 11; ISR_ERR 12;
   ISR_ERR 13; ISR_ERR 14; ISR_NOERR 15; ISR_NOERR 16; ISR_ERR 17; ISR_NOERR 18;
   ISR_NOERR 19; ISR_NOERR 20; ISR_ERR 21; ISR_NOERR 22; ISR_NOERR 23; ISR_NOERR 24;
   ISR_NOERR 25; ISR_NOERR 26; ISR_NOERR 27; ISR_NOERR 28; ISR_NOERR 29; ISR_NOERR 30;
   ISR_NOERR 31; IRQ 0 32; IRQ 1 33; IRQ 2 34; IRQ 3 35; IRQ 4 36; IRQ 5 37; IRQ 6 38;
   IRQ 7 39; IRQ 8 40; IRQ 9 41; IRQ 10 42; IRQ 11 43; IRQ 12 44; IRQ 13 45; IRQ 14 46;
   IRQ 15 47].

(** The common stubs; they differ in the function they call. *)
Definition common_stub (f : cfun) : code_block :=
  [Pusha; Push_ds; Mov_imm_ax 0x10; Mov_ax_s DS; Mov_ax_s ES; Mov_ax_s FS; Mov_ax_s GS;
   Push_r ESP; Call f; Add_esp 4; Pop_ds; Mov_ds_ax; Mov_ax_s ES; Mov_ax_s FS; Mov_ax_s GS;
   Popa; Add_esp 8; Iret].

Definition isr_s (l : label) : code_block :=
  match l with
  | Stub st => default [] ((fun p => p.2.2) <$> list_find (fun p => p.1 = st) stubs)
  | isr_common_stub => common_stub C_isr_handler
  | irq_common_stub => common_stub C_irq_handler
  end.

(** [interrupt_frame_t] as it lies in memory at [p]. *)
Definition frame_at (m : Z → Z) (p : Z) : frame :=
  let w n := load32 m (p +u 4 * n) in
  mk_frame (w 0) (w 1) (w 2) (w 3) (w 4) (w 5) (w 6) (w 7) (w 8) (w 9) (w 10) (w 11) (w 12)
    (w 13) (w 14) (w 15).

Section entry.
Context {S H : Type} `{!Lens S vga} `{!Lens S cpu} `{!Lens S (idt_state H)}
  `{!Preempt S} `{!Hardware}.
Context {stack_end : Z} `{!Abi stack_end}.
Variable fuel : nat.
Variable callback : H → frame → M S unit.
Variable return_addr : cfun → Z.
Variable stub_addr : stub → Z.
Variable idt_addr : Z.

(** The C handlers take a pointer to the frame. *)
Definition handler_call (f : cfun) (m : Z → Z) (arg : Z) : M S unit :=
  let fr := frame_at m (load32 m arg) in
  match f with
  | C_isr_handler => isr_handler fuel fr
  | C_irq_handler => irq_handler callback fr
  end.

(** The stub the linker put at an address. *)
Definition stub_at (a : Z) : option label :=
  (fun p => Stub p.2) <$> list_find (fun st => stub_addr st = a) (map snd gate_calls).

(** The processor takes [vector], with the error code it pushes itself. *)
Definition take (n : nat) (vector : Z) (err : option Z) : M (x86 * S) unit :=
  interrupt (H := H) handler_call return_addr isr_s idt_addr stub_at n vector err.

End entry.

(** ** Lemmas *)

(** The vectors for which the processor pushes an error code. *)
Definition pushes_error (v : Z) : bool :=
  existsb (Z.eqb v) [8; 10; 11; 12; 13; 14; 17; 21].

Lemma isr_s_vector v :
  0 ≤ v < 48 →
  isr_s (Stub (vector_stub v))
  = (if pushes_error v then [] else [Push_imm 0]) ++
    [Push_imm v; Jmp (if v <? 32 then isr_common_stub else irq_common_stub)].
Proof.
  intros Hv. assert (Forall (fun v => isr_s (Stub (vector_stub v))
    = (if pushes_error v then [] else [Push_imm 0]) ++
      [Push_imm v; Jmp (if v <? 32 then isr_common_stub else irq_common_stub)]) (seqZ 0 48)) as Hall
    by (repeat (constructor; [reflexivity|]); constructor).
  rewrite Forall_forall in Hall. apply Hall, elem_of_seqZ. lia.
Qed.

(** What the common stub saves. *)
Definition saved (x : x86) : list Z :=
  let g := gpr x in
  [ds (seg x); edi g; esi g; ebp g; esp g; ebx g; edx g; ecx g; eax g].

Definition way_out : code_block :=
  [Add_esp 4; Pop_ds; Mov_ds_ax; Mov_ax_s ES; Mov_ax_s FS; Mov_ax_s GS; Popa; Add_esp 8; Iret].

Section entry_lemmas.
Context {S H : Type} `{!Lens S vga} `{!Lens S cpu} `{!Lens S (idt_state H)}
  `{!Indep S cpu vga} `{!Indep S cpu (idt_state H)} `{!Preempt S} `{!PreemptOk S} `{!Hardware}.
Context {stack_end : Z} `{!Abi stack_end}.
Variable fuel : nat.
Variable callback : H → frame → M S unit.
Variable return_addr : cfun → Z.

#[local] Abbreviation go := (run (handler_call fuel callback) return_addr isr_s).

(** To the call of the C handler. *)
Lemma common_entry top x0 ws x (s : S) f k :
  pushed top x0 ws x → wf_x86 x → sel_ok 16 (view s) = true →
  4 * (Z.of_nat (length ws) + 10) ≤ esp (gpr x0) →
  ∃ x1, go (8 + k) (common_stub f) (x, s) = go k (Call f :: way_out) (x1, s) ∧
    pushed top x0 ((esp (gpr x1) + 4) :: saved x ++ ws) x1 ∧
    seg x1 = mk_segs (cs (seg x)) (ss (seg x)) 16 16 16 16.
Proof.
  intros Hp [Hg _ Hs] Hsel Hlow. unfold common_stub. cbn [Nat.add].
  step_instr. step_instr. step_instr.
  do 4 (erewrite run_exec; [|reflexivity|apply exec_mov_seg;
    rewrite ?set_sreg_gpr, set_ax_u16; exact Hsel]).
  rewrite !set_sreg_gpr, !set_ax_u16.
  step_instr. eexists. split; [reflexivity|].
  set (x1 := set_sreg GS _ _).
  assert (pushed top x0 (saved x ++ ws) x1) as Hp1.
  { apply (pushed_ext _ _ _ (push32 (ds (seg (pusha x))) (pusha x)));
      [unfold x1; by autorewrite with x86..|].
    apply pushed_push.
    - apply pushed_pusha; [done|lia|exact Hg].
    - cbn. lia.
    - rewrite pusha_seg. apply u32_id. rewrite !Forall_cons in Hs. lia. }
  pose proof (pushed_room _ _ _ _ 1 Hp1 ltac:(cbn; lia)) as Hr.
  assert (esp (gpr (push32 (esp (gpr x1)) x1)) + 4 = esp (gpr x1)) as ->.
  { rewrite push32_esp, u32_id; lia. }
  split.
  - apply pushed_push; [done|cbn; lia|apply u32_id; lia].
  - rewrite push32_seg. unfold x1. by autorewrite with x86.
Qed.

(** From the return of the C handler to the interrupted code. *)
Lemma common_exit top x0 a x no err i c fl x2 (s : S) k :
  pushed top x0 (a :: saved x ++ [no; err; i; c; fl]) x2 → wf_x86 x →
  sel_ok (ds (seg x)) (view s) = true →
  ∃ x3, go (9 + k) way_out (x2, s)
        = Ret tt (x3, put (set_if (Z.testbit fl 9) (view s)) s) ∧
    gpr x3 = (let g := gpr x in mk_gprs (eax g) (ecx g) (edx g) (ebx g) (esp (gpr x0))
                (ebp g) (esi g) (edi g)) ∧
    seg x3 = (let d := ds (seg x) in mk_segs (u16 c) (ss (seg x2)) d d d d) ∧
    eip x3 = i ∧ eflags x3 = fl ∧ ∀ a, esp (gpr x0) ≤ a < top → mem x3 a = mem x0 a.
Proof.
  intros Hp [_ _ Hs] Hsel. unfold way_out. cbn [Nat.add].
  assert (u16 (ds (seg x)) = ds (seg x)) as Eds.
  { apply u16_id. rewrite !Forall_cons in Hs. lia. }
  step_instr. rewrite (add_esp_drop 1) by done. apply (pushed_drop _ _ [a] _ _ 1) in Hp; [|done].
  set (y1 := drop32 1 x2) in *. pose proof (pushed_top0 _ _ _ _ _ Hp) as Et.
  erewrite run_exec; [|reflexivity|apply exec_pop_ds; by rewrite Et, Eds].
  rewrite Et, Eds. set (y2 := drop32 1 (set_sreg DS (ds (seg x)) y1)).
  assert (pushed top x0 (tl (saved x) ++ [no; err; i; c; fl]) y2) as Hp2.
  { apply (pushed_drop _ _ [ds (seg x)] _ _ 1); [|done].
    by apply (pushed_ext _ _ _ y1); autorewrite with x86. }
  step_instr.
  assert (u16 (eax (gpr (set_ax (ds (seg y2)) y2))) = ds (seg x)) as Eax.
  { rewrite set_ax_u16. unfold y2. autorewrite with x86. exact Eds. }
  do 3 (erewrite run_exec; [|reflexivity|apply exec_mov_seg;
    rewrite ?set_sreg_gpr, Eax; exact Hsel]).
  rewrite !set_sreg_gpr, !Eax. set (y3 := set_sreg GS _ _).
  assert (pushed top x0 (tl (saved x) ++ [no; err; i; c; fl]) y3) as Hp3.
  { apply (pushed_ext _ _ _ y2); [unfold y3; by autorewrite with x86..|done]. }
  step_instr. destruct (pushed_popa _ _ _ _ _ _ _ _ _ _ _ _ Hp3) as [Eg Hp4].
  step_instr. rewrite (add_esp_drop 2) by done.
  apply (pushed_drop _ _ [no; err] _ _ 2) in Hp4; [|done].
  rewrite run_iret.
  destruct (pushed_iret _ _ _ _ _ _ Hp4) as (E1 & E2 & E3 & E4 & E5 & E6).
  eexists. rewrite E5. split; [reflexivity|]. rewrite E1, E2, E3, E4. split_and!; [| |done..|exact E6]; cbn zeta.
  - by rewrite drop32_gpr, Eg.
  - rewrite drop32_seg, popa_seg. unfold y3, y2, y1. by autorewrite with x86.
Qed.

(** The C handler finds the frame: what was saved, and above it the interrupted
    stack. *)
Lemma frame_pushed x r a d di si bp sp bx dx cx ax no err i c fl y :
  pushed stack_end x (r :: a :: [d; di; si; bp; sp; bx; dx; cx; ax; no; err; i; c; fl]) y →
  a = esp (gpr y) + 8 → esp (gpr x) + 8 ≤ stack_end →
  frame_at (mem y) (load32 (mem y) (esp (gpr y) +u 4))
  = mk_frame d di si bp sp bx dx cx ax no err i c fl
      (load32 (mem x) (esp (gpr x))) (load32 (mem x) (esp (gpr x) +u 4)).
Proof.
  intros Hp Ha He.
  assert (load32 (mem y) (esp (gpr y) +u 4) = a) as -> by exact (pushed_top _ _ _ _ _ 1 Hp eq_refl).
  assert (∀ n, a +u 4 * n = esp (gpr y) +u 4 * (n + 2)) as Hn by (intros n; f_equal; lia).
  pose proof (λ j w, pushed_top _ _ _ _ w j Hp) as Hw.
  assert (∀ n, 0 ≤ n < 2 →
    load32 (mem y) (esp (gpr y) +u 4 * (n + 16)) = load32 (mem x) (esp (gpr x) +u 4 * n)) as Hu.
  { intros n Hn2. destruct Hp as [Ee Hl Hh _ Hab]. cbn [length] in Ee.
    rewrite !u32_id by lia. replace (esp (gpr y) + 4 * (n + 16)) with (esp (gpr x) + 4 * n) by lia.
    apply load_ext; [lia..|]. intros b Hb. apply Hab. lia. }
  unfold frame_at. rewrite !Hn. f_equal.
  all: try (cbn [Z.add Pos.add Pos.succ Pos.add_carry];
    first [exact (Hw 2%nat _ eq_refl) | exact (Hw 3%nat _ eq_refl) | exact (Hw 4%nat _ eq_refl)
    | exact (Hw 5%nat _ eq_refl) | exact (Hw 6%nat _ eq_refl) | exact (Hw 7%nat _ eq_refl)
    | exact (Hw 8%nat _ eq_refl) | exact (Hw 9%nat _ eq_refl) | exact (Hw 10%nat _ eq_refl)
    | exact (Hw 11%nat _ eq_refl) | exact (Hw 12%nat _ eq_refl) | exact (Hw 13%nat _ eq_refl)
    | exact (Hw 14%nat _ eq_refl) | exact (Hw 15%nat _ eq_refl)]).
  - etransitivity; [exact (Hu 0 ltac:(lia))|]. f_equal. destruct Hp as [Ee Hl Hh _ _].
    rewrite u32_id; lia.
  - exact (Hu 1 ltac:(lia)).
Qed.

(** ** From the vector to the common stub *)

Variable stub_addr : stub → Z.
Variable idt_addr : Z.

#[local] Abbreviation take := (take fuel callback return_addr stub_addr idt_addr).

(** The tables [gdt_init] and [idt_init] load, with the stubs at distinct places. *)
Record installed (s : S) : Prop := {
  installed_idtr : idtr (view s) = (2047, idt_addr);
  installed_gdtr : 23 ≤ (gdtr (view s)).1;
  installed_gates v : 0 ≤ v < 48 →
    kernel_gate (idt (view (C := idt_state H) s) !!! Z.to_nat v) (stub_addr (vector_stub v));
  installed_stubs v v' : 0 ≤ v < 48 → 0 ≤ v' < 48 →
    stub_addr (vector_stub v) = stub_addr (vector_stub v') → v = v'
}.

Lemma stub_at_vector s v :
  installed s → 0 ≤ v < 48 →
  stub_at stub_addr (stub_addr (vector_stub v)) = Some (Stub (vector_stub v)).
Proof.
  intros Hi Hv. unfold stub_at. set (l := map snd gate_calls).
  assert (∀ i, (i < 48)%nat → l !! i = Some (vector_stub (Z.of_nat i))) as Hl.
  { intros i Hlt. unfold l. rewrite gate_calls_seq, map_map. cbn [snd].
    change (map (λ x, vector_stub x) (seqZ 0 48)) with (vector_stub <$> seqZ 0 48).
    rewrite list_lookup_fmap, lookup_seqZ_lt by lia. done. }
  destruct (list_find_elem_of (fun st => stub_addr st = stub_addr (vector_stub v)) l
    (vector_stub v)) as [[i st] Hf].
  { apply (list_elem_of_lookup_2 _ (Z.to_nat v)). rewrite Hl by lia. by rewrite Z2Nat.id by lia. }
  { done. }
  rewrite Hf. cbn. apply list_find_Some in Hf as (Hi' & Ha & _).
  assert (i < 48)%nat as Hlt by (apply lookup_lt_Some in Hi'; done).
  rewrite Hl in Hi' by done. injection Hi' as <-.
  apply (installed_stubs s Hi) in Ha; [|lia..]. by rewrite Ha.
Qed.

Lemma sel_ok_limit sel lim (c : cpu) : Z.lor sel 7 = lim → lim ≤ (gdtr c).1 → sel_ok sel c = true.
Proof. unfold sel_ok. intros. lia. Qed.

(** The error word of the frame: the processor's, or the dummy the stub pushes. *)
Definition error_word (v e : Z) : Z := if pushes_error v then e else 0.

(** From the interrupted code to the common stub: the frame's upper half. *)
Lemma vector_entry v e x (s : S) n :
  installed s → wf_x86 x → coherent x (view s) → 0 ≤ v < 48 → 0 ≤ e < 4294967296 →
  64 ≤ esp (gpr x) ≤ stack_end → stack_end < 4294967296 →
  ∃ x1 m, (n ≤ m)%nat ∧
    take (3 + n) v (if pushes_error v then Some e else None) (x, s)
    = go m (common_stub (if v <? 32 then C_isr_handler else C_irq_handler))
        (x1, put (take_vector v (view s)) s) ∧
    pushed stack_end x [v; error_word v e; eip x; cs (seg x); eflags x] x1 ∧ wf_x86 x1 ∧
    same_but_esp x x1 ∧
    seg x1 = (let g := seg x in mk_segs 8 (ss g) (ds g) (es g) (fs g) (gs g)).
Proof.
  intros Hi Hwf Hco Hv He Hesp Htop.
  destruct (installed_gates s Hi v Hv) as (Ho & Esel & Epr & _ & Ety).
  assert (sel_ok 8 (view s) = true) as Hs8
    by (apply (sel_ok_limit 8 15); [done|]; destruct Hi; lia).
  unfold Entry.take. erewrite interrupt_eq;
    [|by rewrite installed_idtr|rewrite installed_idtr by done; cbn; lia|done|done
     |by rewrite Esel|rewrite Ho; by apply (stub_at_vector s)].
  rewrite Esel, isr_s_vector by done.
  destruct (deliver_pushed stack_end (if pushes_error v then Some e else None) 8 (view s) x)
    as (P1 & W1 & G1 & E1); [done..|lia|lia|lia|by destruct (pushes_error v)|].
  set (x0 := deliver _ _ _ _) in *. unfold error_word.
  set (common := if v <? 32 then isr_common_stub else irq_common_stub).
  assert (isr_s common = common_stub (if v <? 32 then C_isr_handler else C_irq_handler)) as Ec
    by (unfold common; by destruct (v <? 32)).
  destruct (pushes_error v); cbn [app] in *.
  - exists (push32 v x0), (Datatypes.S n). split; [lia|]. cbn [Nat.add]. step_instr. cbn [run]. rewrite Ec.
    split; [done|]. rewrite push32_seg. split; [by apply pushed_push; [|cbn; lia|apply u32_id; lia]|].
    split; [by apply wf_push|]. by split; [apply same_push|].
  - exists (push32 v (push32 0 x0)), n. split; [lia|]. cbn [Nat.add]. step_instr. step_instr.
    cbn [run]. rewrite Ec. split; [done|]. rewrite !push32_seg.
    split; [do 2 (apply pushed_push; [|cbn; lia|apply u32_id; lia]); done|].
    split; [by do 2 apply wf_push|]. by split; [do 2 apply same_push|].
Qed.

(** The frame of an interrupt of the state [x]. The last two fields are the top
    of the interrupted stack: at ring 0 the processor pushes no ESP and SS. *)
Definition frame_of (v e : Z) (x : x86) : frame :=
  let g := gpr x in
  mk_frame (ds (seg x)) (edi g) (esi g) (ebp g) (esp g - 20) (ebx g) (edx g) (ecx g) (eax g)
    v (error_word v e) (eip x) (cs (seg x)) (eflags x)
    (load32 (mem x) (esp g)) (load32 (mem x) (esp g +u 4)).

(** What is assumed of the interrupted code. *)
Record interruptible (x : x86) (s : S) : Prop := {
  in_tables : installed s;
  in_wf : wf_x86 x;
  in_flag : coherent x (view s);
  in_stack : 64 ≤ esp (gpr x) ∧ esp (gpr x) + 8 ≤ stack_end < 4294967296
}.

(** Any vector: the C handler is called on the frame of the interrupted code,
    with interrupts off. *)
Lemma entry_call v e x (s : S) n :
  interruptible x s → 0 ≤ v < 48 → 0 ≤ e < 4294967296 →
  let f := if v <? 32 then C_isr_handler else C_irq_handler in
  ∃ x1 x2 k r a,
    take (21 + n) v (if pushes_error v then Some e else None) (x, s)
    = go (10 + k) (Call f :: way_out) (x2, put (take_vector v (view s)) s) ∧
    wf_x86 x1 ∧ same_but_esp x x1 ∧ ds (seg x1) = ds (seg x) ∧ ss (seg x2) = ss (seg x) ∧
    pushed stack_end x (r :: a :: saved x1 ++ [v; error_word v e; eip x; cs (seg x); eflags x])
      (push32 (return_addr f) x2) ∧
    let y := push32 (return_addr f) x2 in
    handler_call fuel callback f (mem y) (esp (gpr y) +u 4)
    = match f with C_isr_handler => isr_handler fuel | C_irq_handler => irq_handler callback end
        (frame_of v e x).
Proof.
  intros [Hi Hwf Hco [Hlo Hhi]] Hv He f.
  destruct (vector_entry v e x s (18 + n) Hi Hwf Hco Hv He) as
    (x1 & m & Hm & E1 & P1 & W1 & G1 & Sg1); [lia..|].
  replace m with (8 + (10 + (m - 18)))%nat in E1 by lia.
  destruct (common_entry stack_end x _ x1 (put (take_vector v (view s)) s) f (10 + (m - 18)) P1 W1)
    as (x2 & E2 & P2 & Sg2).
  { rewrite view_put. apply (sel_ok_limit 16 23); [done|]. apply Hi. }
  { cbn. lia. }
  assert (pushed stack_end x (u32 (return_addr f) :: (esp (gpr x2) + 4) :: saved x1
    ++ [v; error_word v e; eip x; cs (seg x); eflags x]) (push32 (return_addr f) x2)) as P3
    by (apply pushed_push; [done|cbn; lia|done]).
  exists x1, x2, (m - 18)%nat, (u32 (return_addr f)), (esp (gpr x2) + 4).
  split; [etransitivity; [exact E1|exact E2]|]. split; [done|]. split; [done|].
  split; [by rewrite Sg1|]. split; [by rewrite Sg2, Sg1|]. split; [done|]. cbn zeta.
  assert (frame_at (mem (push32 (return_addr f) x2))
    (load32 (mem (push32 (return_addr f) x2)) (esp (gpr (push32 (return_addr f) x2)) +u 4))
    = frame_of v e x) as Hf.
  { unfold saved in P3. cbn [app] in P3. rewrite (frame_pushed _ _ _ _ _ _ _ _ _ _ _ _ _ _ _ _ _ _ P3).
    - pose proof (pushed_esp _ _ _ _ P1) as Ee. cbn [length] in Ee. unfold frame_of.
      rewrite G1, Sg1. cbn [edi esi ebp esp ebx edx ecx eax ds cs]. f_equal. lia.
    - pose proof (pushed_room _ _ _ _ 1 P2 ltac:(cbn; lia)). rewrite push32_esp, u32_id; lia.
    - lia. }
  unfold handler_call. rewrite Hf. by destruct f.
Qed.

(** Any exception is reported and stops the processor. *)
Lemma exception_halts v e x (s : S) n :
  uart_live fuel LSR_TX_EMPTY → data_mode s → interruptible x s →
  0 ≤ v < 32 → 0 ≤ e < 4294967296 →
  ∃ x' s', take (21 + n) v (if pushes_error v then Some e else None) (x, s) = Halted (x', s') ∧
    if_flag (view s') = false ∧
    let msg := panic_text (bytes "Unhandled CPU exception") in
    let report := exception_text (frame_of v e x) in
    view (C := vga) s'
    = vga_puts msg (vga_set_color VGA_COLOR_WHITE VGA_COLOR_RED (vga_puts report (view s))) ∧
    uart_of (trace (view s')) = uart_out (crlf msg) (uart_out report (uart_of (trace (view s)))).
Proof.
  intros live Hd Hx Hv He.
  destruct (entry_call v e x s n Hx ltac:(lia) He) as (x1 & x2 & k & r & a & E & _ & _ & _ & _ & _ & Ec).
  rewrite (proj2 (Z.ltb_lt v 32)) in E, Ec by lia. cbn zeta in Ec.
  set (s1 := put (take_vector v (view s)) s) in *.
  assert (uart_of (trace (view s1)) = uart_of (trace (view s))) as Et.
  { unfold s1. rewrite view_put. apply uart_other. by repeat constructor. }
  assert (data_mode s1) as Hd1 by (unfold data_mode; by rewrite Et).
  destruct (isr_halted fuel (frame_of v e x) s1 (proj1 Hv) live Hd1) as (s2 & E2 & F2 & V2 & U2).
  rewrite <- Ec in E2. eexists _, s2. split.
  { rewrite E. cbn [Nat.add]. apply (exec_call_halts _ _ _ _ _ _ _ _ _ E2). }
  split; [done|]. cbn zeta in V2, U2. cbn zeta.
  assert (view (C := vga) s1 = view s) as Ev by apply view_put_r.
  rewrite Ev in V2. rewrite Et in U2. exact (conj V2 U2).
Qed.

(** C11: whatever exception the processor takes (vectors 0 to 31, with the error
    code it pushes itself where the vector has one), the entry stub hands
    [isr_handler] the frame of the interrupted code: its registers, the vector, its
    error code (0 where there is none), its address and flags. The report of that
    frame goes to both consoles, and the processor stops with interrupts off. *)
Theorem exception_entry v e x (s : S) n :
  uart_live fuel LSR_TX_EMPTY → data_mode s → interruptible x s →
  0 ≤ v < 32 → 0 ≤ e < 4294967296 →
  ∃ x' s', take (21 + n) v (if pushes_error v then Some e else None) (x, s) = Halted (x', s') ∧
    if_flag (view s') = false ∧
    let msg := panic_text (bytes "Unhandled CPU exception") in
    let report := exception_text (frame_of v e x) in
    view (C := vga) s'
    = vga_puts msg (vga_set_color VGA_COLOR_WHITE VGA_COLOR_RED (vga_puts report (view s))) ∧
    uart_of (trace (view s')) = uart_out (crlf msg) (uart_out report (uart_of (trace (view s)))).
Proof. apply exception_halts. Qed.

(** A hardware interrupt whose handler returns: the stub hands it the frame of the
    interrupted code and puts everything back but ES, FS and GS, which it loads
    from DS. *)
Lemma irq_transparent n f x (s s' : S) :
  interruptible x s → 0 ≤ n < 16 →
  irq_handler callback (frame_of (32 + n) 0 x) (put (take_vector (32 + n) (view s)) s) = Ret tt s' →
  sel_ok (ds (seg x)) (view s') = true →
  ∃ x', take (21 + f) (32 + n) None (x, s)
        = Ret tt (x', put (set_if (if_flag (view s)) (view s')) s') ∧
    gpr x' = gpr x ∧ eip x' = eip x ∧ eflags x' = eflags x ∧
    (let g := seg x in seg x' = mk_segs (cs g) (ss g) (ds g) (ds g) (ds g) (ds g)) ∧
    ∀ a, esp (gpr x) ≤ a < stack_end → mem x' a = mem x a.
Proof.
  intros Hx Hn Hh Hsel.
  destruct (entry_call (32 + n) 0 x s f Hx ltac:(lia) ltac:(lia))
    as (x1 & x2 & k & r & a & E & W1 & G1 & D1 & S2 & P & Ec).
  rewrite (proj2 (Z.ltb_ge (32 + n) 32)) in E, P, Ec by lia.
  assert (pushes_error (32 + n) = false) as En.
  { unfold pushes_error. cbn [existsb]. rewrite !(proj2 (Z.eqb_neq (32 + n) _)) by lia. done. }
  rewrite En in E.
  cbn zeta in Ec. rewrite <- Ec in Hh.
  change (10 + k)%nat with (Datatypes.S (9 + k)) in E.
  erewrite run_exec in E; [|reflexivity|exact (exec_call _ _ _ _ _ _ Hh)].
  destruct (pushed_clobber _ _ _ _ _ P) as (r' & a' & P').
  apply (pushed_drop _ _ [r'] _ _ 1) in P'; [|done].
  destruct (common_exit _ _ _ _ _ _ _ _ _ _ s' k P' W1) as (x3 & E3 & G3 & Sg3 & I3 & F3 & M3).
  { by rewrite D1. }
  exists x3. split.
  { etransitivity; [exact E|]. rewrite E3. by rewrite (in_flag _ _ Hx). }
  split; [rewrite G3, G1; by destruct (gpr x)|]. split; [done|]. split; [done|]. split; [|done].
  rewrite Sg3, D1, drop32_seg, abi_segs, push32_seg, S2. cbn zeta. f_equal.
  apply u16_id. destruct (in_wf _ _ Hx) as [_ _ Hs]. rewrite !Forall_cons in Hs. lia.
Qed.

End entry_lemmas.

(** ** Witnesses *)

(** A C compiler that uses its freedom: EAX, ECX, EDX, the flags, the argument and
    the stack below are overwritten. *)
#[program] Definition wild_abi (stack_end : Z) : Abi stack_end := {|
  clobber x :=
    let g := gpr x in
    mk_x86 (mk_gprs 0xDEADBEEF 0xDEADBEEF 0xDEADBEEF (ebx g) (esp g) (ebp g) (esi g) (edi g))
      (seg x) (eip x) 0x46 (fun a => if a <? esp g + 8 then 0xCC else mem x a)
|}.
Next Obligation. done. Qed.
Next Obligation. done. Qed.
Next Obligation. intros stack_end x a Ha. cbn. by rewrite (proj2 (Z.ltb_ge _ _)) by lia. Qed.

(** Code interrupted inside the kernel, with interrupts on. *)
Definition x86_0 : x86 :=
  mk_x86 (mk_gprs 1 2 3 4 0x17FF00 6 7 8) (mk_segs 8 16 16 16 16 16) 0x101234 0x202 (fun _ => 0).

Definition idt_loaded : idt_state unit := set_gates stubs0 gate_calls idt0.

(** The machine after [gdt_init] and [interrupts_init], interrupts on. *)
Definition mach_up : mach :=
  (vga0, mk_cpu [] true (23, 0x111000) (2047, 0x110000) 8 16, idt_loaded).

Lemma stubs0_range st : 0 ≤ stubs0 st < 4294967296.
Proof. destruct st; cbn -[Z.modulo]; dlia. Qed.

Lemma stubs0_inj v v' :
  0 ≤ v < 48 → 0 ≤ v' < 48 → stubs0 (vector_stub v) = stubs0 (vector_stub v') → v = v'.
Proof.
  intros Hv Hv'. unfold vector_stub.
  destruct (Z.ltb_spec v 32), (Z.ltb_spec v' 32); cbn -[Z.modulo Z.add Z.mul]; dlia.
Qed.

Lemma mach_up_installed : installed stubs0 0x110000 mach_up.
Proof.
  split; [done|done| |apply stubs0_inj]. intros v Hv.
  apply (set_gates_lookup stubs0 48 v idt0); [done|lia|lia|exact stubs0_range|lia].
Qed.

Lemma x86_0_wf : wf_x86 x86_0.
Proof. split; cbn; repeat constructor; lia. Qed.

Lemma x86_0_interruptible :
  interruptible (stack_end := 0x180000) stubs0 0x110000 x86_0 mach_up.
Proof.
  split; [apply mach_up_installed|apply x86_0_wf|done|cbn; lia].
Qed.

Section on_uart16550.
#[local] Existing Instances uart16550 busy busy_ok.

Lemma exception_entry_witness :
  let msg := panic_text (bytes "Unhandled CPU exception") in
  let report := exception_text (frame_of 14 2 x86_0) in
  ∃ x' s', take (Abi0 := wild_abi 0x180000) 2 idle_call (fun _ => 0x103000) stubs0 0x110000 22 14
      (Some 2) (x86_0, mach_up) = Halted (x', s') ∧
    if_flag (view s') = false ∧
    view (C := vga) s'
    = vga_puts msg (vga_set_color VGA_COLOR_WHITE VGA_COLOR_RED (vga_puts report vga0)) ∧
    uart_of (trace (view s')) = uart_out (crlf msg) (uart_out report uart_reset).
Proof.
  refine (exception_entry (Abi0 := wild_abi 0x180000) 2 idle_call (fun _ => 0x103000) stubs0
    0x110000 14 2 x86_0 mach_up 1 _ _ _ _ _); [|done|apply x86_0_interruptible|lia|lia].
  by apply (live_16550 uart16550).
Defined.

End on_uart16550.
