(* ===== verification/Pmm.v ===== *)
(** The physical memory manager (memory/pmm.c, memory/pmm.h): a bitmap of 4 KiB
    frames built from the Multiboot memory map, the allocator on it, and the
    abstract allocator (a set of free frames) it implements. *)

From S2P Require Import Prelude Machine Vga Preempt Screen Serial Kprintf.

#[local] Open Scope Z_scope.
#[local] Open Scope c_scope.

Definition PMM_FRAME_SIZE : Z := 4096.
Definition PMM_MAX_FRAMES : Z := 1048576.
Definition BITMAP_WORDS : Z := 32768.

(** The statics of pmm.c. *)
Record pmm : Type := mk_pmm {
  bitmap : list Z;
  total_frames : Z;
  free_frames : Z
}.

Definition bitmap_set (frame : Z) (b : list Z) : list Z :=
  b.[frame / 32 <- Z.lor b.[frame / 32] (1 <<u (frame mod 32))].

Definition bitmap_clear (frame : Z) (b : list Z) : list Z :=
  b.[frame / 32 <- Z.land b.[frame / 32] (~u (1 <<u (frame mod 32)))].

Definition bitmap_test (frame : Z) (b : list Z) : Z :=
  Z.land (Z.shiftr b.[frame / 32] (frame mod 32)) 1.

(** The access of [bitmap_test]. [reserve_frame] and [alloc_bits] do not name it:
    outside the bitmap [bitmap_test] gives 0, and they go on to [bitmap_set] the same
    word; so does [alloc_words] outside, through [alloc_bits]. *)
Definition bitmap_read (frame : Z) (p : pmm) : pmm :=
  mk_pmm (access (bitmap p) (frame / 32)) (total_frames p) (free_frames p).

(** ** The boot information, in physical memory *)

(** The bytes the boot loader left in memory. *)
Class PhysMem : Type := mem8 : Z → Z.

Definition mem32 `{!PhysMem} (a : Z) : Z :=
  u8 (mem8 (u32 a)) + u8 (mem8 (u32 (a + 1))) * 2 ^ 8 +
  u8 (mem8 (u32 (a + 2))) * 2 ^ 16 + u8 (mem8 (u32 (a + 3))) * 2 ^ 24.

Definition mem64 `{!PhysMem} (a : Z) : Z := mem32 a + mem32 (a + 4) * 2 ^ 32.

(** [mmap_entry_t], packed *)
Record mmap_entry : Type := mk_entry { e_size : Z; e_addr : Z; e_len : Z; e_type : Z }.

Definition read_entry `{!PhysMem} (a : Z) : mmap_entry :=
  mk_entry (mem32 a) (mem64 (a + 4)) (mem64 (a + 12)) (mem32 (a + 20)).

(** The fields of [multiboot_info_t] that the kernel uses. *)
Record multiboot_info : Type := mk_mbi {
  flags : Z;
  mem_upper : Z;
  mmap_length : Z;
  mmap_addr : Z
}.

Definition read_mbi `{!PhysMem} (a : Z) : multiboot_info :=
  mk_mbi (mem32 a) (mem32 (a + 8)) (mem32 (a + 44)) (mem32 (a + 48)).

(** ** pmm_init *)

(** [bitmap_clear(f); free_frames++; total_frames++;] *)
Definition add_frame (f : Z) (p : pmm) : pmm :=
  mk_pmm (bitmap_clear f (bitmap p)) (total_frames p +u 1) (free_frames p +u 1).

(** [for (f = lo; f < hi && f < PMM_MAX_FRAMES; f++)] *)
Definition add_frames (lo hi : Z) (p : pmm) : pmm :=
  for_range lo (Z.min hi PMM_MAX_FRAMES) add_frame p.

(** [if (!bitmap_test(f)) { bitmap_set(f); free_frames--; }] *)
Definition reserve_frame (f : Z) (p : pmm) : pmm :=
  if bitmap_test f (bitmap p) =? 0
  then mk_pmm (bitmap_set f (bitmap p)) (total_frames p) (free_frames p -u 1)
  else p.

Definition reserve_frames (lo hi : Z) (p : pmm) : pmm :=
  for_range lo (Z.min hi PMM_MAX_FRAMES) reserve_frame p.

(** The body of the memory-map loop for one entry. *)
Definition add_region (e : mmap_entry) (p : pmm) : pmm :=
  if e_type e =? 1 then
    let region_start := e_addr e in
    let region_len := e_len e in
    if 0x100000000 <=? region_start then p
    else
      let region_len :=
        if 0x100000000 <? u64 (region_start + region_len)
        then u64 (0x100000000 - region_start) else region_len in
      let first_frame := u32 (region_start / PMM_FRAME_SIZE) in
      let num_frames := u32 (region_len / PMM_FRAME_SIZE) in
      add_frames first_frame (first_frame +u num_frames) p
  else p.

(** What a loop with a budget of rounds ends with: it is over, or it is not and the
    state is what the rounds so far have made it. *)
Inductive progress (A : Type) : Type := Done (a : A) | Busy (a : A).
Arguments Done {A} a.
Arguments Busy {A} a.

(** [while (addr < end) { ...; addr += entry->size + 4; }] *)
Fixpoint mmap_walk `{!PhysMem} (fuel : nat) (addr end_ : Z) (p : pmm) : progress pmm :=
  match fuel with
  | O => Busy p
  | S fuel =>
      if addr <? end_ then
        let e := read_entry addr in
        mmap_walk fuel (addr +u (e_size e +u 4)) end_ (add_region e p)
      else Done p
  end.

Definition mark_all_used (b : list Z) : list Z :=
  for_range 0 BITMAP_WORDS (fun i b => b.[i <- 0xFFFFFFFF]) b.

(** Everything of [pmm_init] but the final report. *)
Definition pmm_setup `{!PhysMem} (fuel : nat) (mbi kernel_end_phys : Z) (p : pmm) : progress pmm :=
  let m := read_mbi mbi in
  let p := mk_pmm (mark_all_used (bitmap p)) (total_frames p) (free_frames p) in
  let available :=
    if Z.land (flags m) (1 <<u 6) =? 0 then
      let upper_bytes := mem_upper m *u 1024 in
      let start_frame := (1 <<u 20) / PMM_FRAME_SIZE in
      let end_frame := (0x100000 +u upper_bytes) / PMM_FRAME_SIZE in
      Done (add_frames start_frame end_frame p)
    else
      mmap_walk fuel (mmap_addr m) (mmap_addr m +u mmap_length m) p in
  match available with
  | Busy p => Busy p
  | Done p =>
      let low_frames := (1 <<u 20) / PMM_FRAME_SIZE in
      let p := reserve_frames 0 low_frames p in
      let k_start := (1 <<u 20) / PMM_FRAME_SIZE in
      let k_end := (kernel_end_phys +u PMM_FRAME_SIZE -u 1) / PMM_FRAME_SIZE in
      Done (reserve_frames k_start k_end p)
  end.

Section pmm_init.
Context {S : Type} `{!Lens S vga} `{!Lens S cpu} `{!Lens S pmm}
  `{!Preempt S} `{!Hardware} `{!PhysMem}.
Variable fuel : nat.

Definition pmm_report (p : pmm) : list va :=
  [VInt (Z.shiftr (total_frames p *u PMM_FRAME_SIZE) 20);
   VInt (Z.shiftr (free_frames p *u PMM_FRAME_SIZE) 20);
   VInt (free_frames p)].

Definition pmm_init (mbi kernel_end_phys : Z) : M S unit :=
  p ← gets (fun p => p);
  match pmm_setup fuel mbi kernel_end_phys p with
  | Busy p => modify (fun _ => p);; hung
  | Done p =>
      modify (fun _ => p);;
      kprintf fuel (bytes "  PMM: %u MB total, %u MB free (%u frames)" ++ [10]) (pmm_report p)
  end.

End pmm_init.

(** ** Allocation *)

(** [for (bit = 0; bit < 32; bit++)], from [bit] on for [n] rounds. *)
Fixpoint alloc_bits (n : nat) (i bit : Z) (p : pmm) : option (Z * pmm) :=
  match n with
  | O => None
  | S n =>
      let frame := (i *u 32) +u bit in
      if bitmap_test frame (bitmap p) =? 0
      then Some (frame *u PMM_FRAME_SIZE,
                 mk_pmm (bitmap_set frame (bitmap p)) (total_frames p) (free_frames p -u 1))
      else alloc_bits n i (bit + 1) p
  end.

(** [for (i = 0; i < BITMAP_WORDS; i++)], from [i] on for [n] rounds. *)
Fixpoint alloc_words (n : nat) (i : Z) (p : pmm) : Z * pmm :=
  match n with
  | O => (0, p)
  | S n =>
      if (bitmap p).[i] =? 0xFFFFFFFF then alloc_words n (i + 1) p
      else
        match alloc_bits 32 i 0 p with
        | Some r => r
        | None => alloc_words n (i + 1) p
        end
  end.

Definition pmm_alloc_frame (p : pmm) : Z * pmm :=
  alloc_words (Z.to_nat BITMAP_WORDS) 0 p.

Definition pmm_free_frame (phys_addr : Z) (p : pmm) : pmm :=
  let frame := phys_addr / PMM_FRAME_SIZE in
  if frame <? PMM_MAX_FRAMES then
    let p := bitmap_read frame p in
    if negb (bitmap_test frame (bitmap p) =? 0)
    then mk_pmm (bitmap_clear frame (bitmap p)) (total_frames p) (free_frames p +u 1)
    else p
  else p.

Definition pmm_free_frames (p : pmm) : Z := free_frames p.
Definition pmm_total_frames (p : pmm) : Z := total_frames p.

(** ** Invariant and abstract state *)

(** Is frame [f] marked used? *)
Definition used (b : list Z) (f : Z) : bool := Z.testbit (rd b (f / 32)) (f mod 32).

Definition frame_ok (f : Z) : Prop := 0 ≤ f < PMM_MAX_FRAMES.

Record bitmap_ok (b : list Z) : Prop := {
  bitmap_ok_length : Z.of_nat (length b) = BITMAP_WORDS;
  bitmap_ok_words : Forall (fun w => 0 ≤ w < 4294967296) b
}.

(** The set of free frames. *)
Definition free_set (b : list Z) : gset Z :=
  list_to_set (filter (fun f => used b f = false) (seqZ 0 PMM_MAX_FRAMES)).

(** The bitmap is well-formed and the counter counts its free frames. *)
Record pmm_ok (p : pmm) : Prop := {
  pmm_ok_bitmap : bitmap_ok (bitmap p);
  pmm_ok_count : free_frames p = Z.of_nat (size (free_set (bitmap p)))
}.

(** ** The bitmap *)

Lemma free_set_spec b f : f ∈ free_set b ↔ frame_ok f ∧ used b f = false.
Proof.
  unfold free_set, frame_ok. rewrite elem_of_list_to_set, list_elem_of_filter, elem_of_seqZ.
  split; [intros [Hu Hf]|intros [Hf Hu]]; split; done || lia.
Qed.

#[global] Opaque free_set.

Lemma free_set_size b : Z.of_nat (size (free_set b)) ≤ PMM_MAX_FRAMES.
Proof.
  assert (free_set b ⊆ list_to_set (seqZ 0 PMM_MAX_FRAMES)) as Hsub.
  { intros f [Hf _]%free_set_spec. apply elem_of_list_to_set, elem_of_seqZ.
    unfold frame_ok in Hf. lia. }
  apply subseteq_size in Hsub. rewrite size_list_to_set, length_seqZ in Hsub.
  - unfold PMM_MAX_FRAMES in *. lia.
  - apply NoDup_seqZ.
Qed.

Lemma free_set_ext b b' :
  (∀ f, frame_ok f → used b f = used b' f) → free_set b = free_set b'.
Proof.
  intros H. apply set_eq. intros f. rewrite !free_set_spec.
  split; intros [Hf Hu]; (split; [done|]); [rewrite <- H|rewrite H]; done.
Qed.

Lemma word_index f : frame_ok f → 0 ≤ f / 32 < BITMAP_WORDS ∧ 0 ≤ f mod 32 < 32.
Proof. unfold frame_ok, PMM_MAX_FRAMES, BITMAP_WORDS. intros. dlia. Qed.

Lemma word_range b f : bitmap_ok b → frame_ok f → 0 ≤ rd b (f / 32) < 4294967296.
Proof.
  intros [Hl Hw] Hf. apply (Forall_rd _ b _ Hw). pose proof (word_index f Hf). lia.
Qed.

Lemma bitmap_test_used b f : bitmap_test f b = Z.b2z (used b f).
Proof. unfold bitmap_test, used. apply land1_shiftr, Z.mod_pos_bound. lia. Qed.

Lemma bitmap_test_free b f : (bitmap_test f b =? 0) = negb (used b f).
Proof. rewrite bitmap_test_used. by destruct (used b f). Qed.

Lemma bitmap_ok_wr b f w :
  bitmap_ok b → frame_ok f → 0 ≤ w < 4294967296 → bitmap_ok (wr b (f / 32) w).
Proof.
  intros [Hl Hw] Hf Hr. pose proof (word_index f Hf).
  split; [by rewrite length_wr by lia|by apply Forall_wr].
Qed.

(** Writing one word of the bitmap affects the frames of that word only. *)
Lemma used_wr b f g w :
  bitmap_ok b → frame_ok f → frame_ok g →
  used (wr b (f / 32) w) g
  = if g / 32 =? f / 32 then Z.testbit w (g mod 32) else used b g.
Proof.
  intros [Hl _] Hf Hg. unfold used.
  pose proof (word_index f Hf). pose proof (word_index g Hg).
  destruct (Z.eqb_spec (g / 32) (f / 32)) as [->|Hne].
  - by rewrite rd_wr_eq by lia.
  - by rewrite rd_wr_ne by lia.
Qed.

Lemma lor_u32 a b : 0 ≤ a < 4294967296 → 0 ≤ b < 4294967296 → 0 ≤ Z.lor a b < 4294967296.
Proof.
  intros Ha Hb. split; [apply Z.lor_nonneg; lia|].
  apply (bits_range _ 32); [lia|apply Z.lor_nonneg; lia|]. intros k Hk.
  by rewrite Z.lor_spec, (testbit_small a 32), (testbit_small b 32) by (cbn; lia).
Qed.

Lemma land_u32 a b : 0 ≤ a < 4294967296 → 0 ≤ Z.land a b < 4294967296.
Proof.
  intros Ha. split; [apply Z.land_nonneg; lia|].
  apply (bits_range _ 32); [lia|apply Z.land_nonneg; lia|]. intros k Hk.
  by rewrite Z.land_spec, (testbit_small a 32) by (cbn; lia).
Qed.

Lemma bitmap_set_ok b f : bitmap_ok b → frame_ok f → bitmap_ok (bitmap_set f b).
Proof.
  intros Hb Hf. apply bitmap_ok_wr; [done..|].
  apply lor_u32; [by apply word_range|apply u32_range].
Qed.

Lemma bitmap_clear_ok b f : bitmap_ok b → frame_ok f → bitmap_ok (bitmap_clear f b).
Proof. intros Hb Hf. apply bitmap_ok_wr; [done..|]. by apply land_u32, word_range. Qed.

Lemma bitmap_read_ok p f : bitmap_ok (bitmap p) → frame_ok f → bitmap_read f p = p.
Proof.
  intros [Hl _] Hf. pose proof (word_index f Hf). unfold bitmap_read.
  rewrite access_in by lia. by destruct p.
Qed.

Lemma same_frame f g : (g / 32 =? f / 32) && (g mod 32 =? f mod 32) = (g =? f).
Proof.
  destruct (Z.eqb_spec (g / 32) (f / 32)), (Z.eqb_spec (g mod 32) (f mod 32)),
    (Z.eqb_spec g f); try done; dlia.
Qed.

Lemma used_set b f g :
  bitmap_ok b → frame_ok f → frame_ok g → used (bitmap_set f b) g = (g =? f) || used b g.
Proof.
  intros Hb Hf Hg. unfold bitmap_set. rewrite used_wr, <- (same_frame f g) by done.
  pose proof (word_index f Hf). pose proof (word_index g Hg).
  destruct (Z.eqb_spec (g / 32) (f / 32)) as [E|]; cbn [andb]; [|done].
  rewrite Z.lor_spec, testbit_u32, testbit_shiftl1 by lia.
  rewrite (proj2 (Z.ltb_lt _ _)) by lia. unfold used. rewrite E. apply orb_comm.
Qed.

Lemma used_clear b f g :
  bitmap_ok b → frame_ok f → frame_ok g →
  used (bitmap_clear f b) g = negb (g =? f) && used b g.
Proof.
  intros Hb Hf Hg. unfold bitmap_clear. rewrite used_wr, <- (same_frame f g) by done.
  pose proof (word_index f Hf). pose proof (word_index g Hg).
  destruct (Z.eqb_spec (g / 32) (f / 32)) as [E|]; cbn [andb]; [|done].
  rewrite Z.land_spec, testbit_u32, Z.lnot_spec, testbit_u32, testbit_shiftl1 by lia.
  rewrite (proj2 (Z.ltb_lt _ _)) by lia. unfold used. rewrite E. apply andb_comm.
Qed.

Lemma free_set_set b f :
  bitmap_ok b → frame_ok f → free_set (bitmap_set f b) = free_set b ∖ {[f]}.
Proof.
  intros Hb Hf. apply set_eq. intros g.
  rewrite elem_of_difference, elem_of_singleton, !free_set_spec.
  split.
  - intros [Hg Hu]. rewrite used_set in Hu by done. apply orb_false_iff in Hu as [Hne Hu].
    apply Z.eqb_neq in Hne. done.
  - intros [[Hg Hu] Hne]. split; [done|]. rewrite used_set by done.
    apply Z.eqb_neq in Hne. by rewrite Hne, Hu.
Qed.

Lemma free_set_clear b f :
  bitmap_ok b → frame_ok f → free_set (bitmap_clear f b) = {[f]} ∪ free_set b.
Proof.
  intros Hb Hf. apply set_eq. intros g.
  rewrite elem_of_union, elem_of_singleton, !free_set_spec. split.
  - intros [Hg Hu]. rewrite used_clear in Hu by done.
    destruct (decide (g = f)) as [->|Hne]; [by left|right].
    by rewrite (proj2 (Z.eqb_neq g f) Hne) in Hu.
  - intros [->|[Hg Hu]].
    + split; [done|]. rewrite used_clear by done. by rewrite Z.eqb_refl.
    + split; [done|]. rewrite used_clear, Hu by done. apply andb_false_r.
Qed.

(** Setting and clearing the same free bit gives the same bitmap back. *)
Lemma bitmap_clear_set b f :
  bitmap_ok b → frame_ok f → used b f = false → bitmap_clear f (bitmap_set f b) = b.
Proof.
  intros Hb Hf Hu. pose proof (bitmap_set_ok b f Hb Hf) as Hs.
  pose proof (word_index f Hf). pose proof (word_range b f Hb Hf). destruct Hb as [Hl _].
  unfold bitmap_clear, bitmap_set. set (w := Z.lor _ _).
  assert (length (wr b (f / 32) w) = length b) as Hl' by (apply length_wr; lia).
  apply rd_ext; rewrite length_wr, Hl' by lia; [done|]. intros i Hi.
  destruct (decide (i = f / 32)) as [->|Hne].
  - rewrite rd_wr_eq by lia. rewrite rd_wr_eq by lia. unfold w. apply Z.bits_inj'. intros k Hk.
    rewrite Z.land_spec, Z.lor_spec, !testbit_u32, Z.lnot_spec, !testbit_u32, !testbit_shiftl1 by lia.
    destruct (Z.ltb_spec k 32); cbn [andb]; [|rewrite andb_false_r].
    + destruct (Z.eqb_spec k (f mod 32)) as [->|]; cbn [negb]; rewrite ?orb_false_r, ?andb_true_r.
      * rewrite andb_false_r. symmetry. apply Hu.
      * done.
    + symmetry. by apply (testbit_small _ 32); cbn; lia.
  - rewrite rd_wr_ne, rd_wr_ne by lia. done.
Qed.

(** ** Building the bitmap *)

Lemma u32_add_l a b : u32 (u32 a + b) = u32 (a + b).
Proof. unfold u32. by rewrite Zplus_mod_idemp_l. Qed.
Lemma u32_sub_l a b : u32 (u32 a - b) = u32 (a - b).
Proof. unfold u32. by rewrite Zminus_mod_idemp_l. Qed.

Lemma mark_all_used_spec b :
  Z.of_nat (length b) = BITMAP_WORDS →
  bitmap_ok (mark_all_used b) ∧ ∀ f, frame_ok f → used (mark_all_used b) f = true.
Proof.
  intros Hl.
  assert (Z.of_nat (length (mark_all_used b)) = BITMAP_WORDS ∧
    ∀ i, 0 ≤ i < BITMAP_WORDS → rd (mark_all_used b) i = 0xFFFFFFFF) as [Hl' Hrd].
  { unfold mark_all_used. apply (for_range_ind (fun k b => Z.of_nat (length b) = BITMAP_WORDS ∧
      ∀ i, 0 ≤ i < k → rd b i = 0xFFFFFFFF)); [done|split; [done|lia]|].
    intros k b' Hk [Hb IH]. split; [by rewrite length_wr by lia|]. intros i Hi.
    destruct (decide (i = k)) as [->|]; [by rewrite rd_wr_eq by lia|].
    rewrite rd_wr_ne by lia. apply IH. lia. }
  split.
  - split; [done|]. apply Forall_lookup. intros i w Hi.
    pose proof (lookup_lt_Some _ _ _ Hi). specialize (Hrd (Z.of_nat i) ltac:(lia)).
    unfold rd in Hrd. rewrite Nat2Z.id in Hrd.
    rewrite (list_lookup_total_correct _ _ _ Hi) in Hrd. lia.
  - intros f Hf. unfold used. destruct (word_index f Hf) as [Hw Hm].
    rewrite Hrd by done. change 0xFFFFFFFF with (Z.ones 32). apply Z.ones_spec_low. lia.
Qed.

Lemma add_frames_spec lo hi p :
  0 ≤ lo → bitmap_ok (bitmap p) →
  let p' := add_frames lo hi p in
  bitmap_ok (bitmap p') ∧
  (∀ g, frame_ok g → used (bitmap p') g = used (bitmap p) g && negb ((lo <=? g) && (g <? hi))).
Proof.
  intros Hlo Hp. unfold add_frames.
  destruct (Z.le_gt_cases (Z.min hi PMM_MAX_FRAMES) lo) as [Hle|Hgt].
  { rewrite for_range_empty by done. split; [done|]. intros g Hg. unfold frame_ok in Hg.
    destruct (Z.leb_spec lo g), (Z.ltb_spec g hi); cbn; rewrite ?andb_true_r; done || lia. }
  enough (bitmap_ok (bitmap (for_range lo (Z.min hi PMM_MAX_FRAMES) add_frame p)) ∧
    ∀ g, frame_ok g → used (bitmap (for_range lo (Z.min hi PMM_MAX_FRAMES) add_frame p)) g
      = used (bitmap p) g && negb ((lo <=? g) && (g <? Z.min hi PMM_MAX_FRAMES))) as [H1 H2].
  { split; [done|]. intros g Hg. rewrite H2 by done. unfold frame_ok in Hg. do 3 f_equal.
    destruct (Z.ltb_spec g hi), (Z.ltb_spec g (Z.min hi PMM_MAX_FRAMES)); done || lia. }
  apply (for_range_ind (fun k p' => bitmap_ok (bitmap p') ∧ ∀ g, frame_ok g →
    used (bitmap p') g = used (bitmap p) g && negb ((lo <=? g) && (g <? k)))); [lia| |].
  - split; [done|]. intros g Hg. destruct (Z.leb_spec lo g), (Z.ltb_spec g lo); cbn;
      rewrite ?andb_true_r; done || lia.
  - intros k p' Hk [Hok IH]. assert (frame_ok k) as Hfk by (unfold frame_ok; lia).
    cbn [add_frame bitmap]. split; [by apply bitmap_clear_ok|]. intros g Hg.
    rewrite used_clear, IH by done. destruct (used (bitmap p) g); cbn [andb]; [|apply andb_false_r].
    destruct (Z.eqb_spec g k), (Z.leb_spec lo g), (Z.ltb_spec g k), (Z.ltb_spec g (k + 1));
      done || lia.
Qed.

(** Freeing used frames keeps the counter exact. *)
Lemma add_frame_ok f p :
  pmm_ok p → frame_ok f → used (bitmap p) f = true → pmm_ok (add_frame f p).
Proof.
  intros [Hb Hc] Hf Hu. split; [by apply bitmap_clear_ok|]. cbn [add_frame free_frames bitmap].
  pose proof (free_set_size (bitmap_clear f (bitmap p))) as Hsz. revert Hsz.
  rewrite free_set_clear by done. rewrite size_union.
  - rewrite size_singleton, Hc. unfold PMM_MAX_FRAMES. intros. rewrite u32_id by lia. lia.
  - intros g ->%elem_of_singleton [_ Hg]%free_set_spec. congruence.
Qed.

Lemma add_frames_ok lo hi p :
  0 ≤ lo → pmm_ok p → (∀ f, frame_ok f → lo ≤ f < hi → used (bitmap p) f = true) →
  pmm_ok (add_frames lo hi p).
Proof.
  intros Hlo Hp Hu. unfold add_frames.
  destruct (Z.le_gt_cases (Z.min hi PMM_MAX_FRAMES) lo) as [Hle|Hgt];
    [by rewrite for_range_empty|].
  apply (for_range_ind (fun k p' => pmm_ok p' ∧
    ∀ f, frame_ok f → k ≤ f < hi → used (bitmap p') f = true)); [lia|done|].
  intros k p' Hk [Hp' IH]. assert (frame_ok k) as Hfk by (unfold frame_ok; lia).
  split; [apply add_frame_ok; [done..|apply IH; [done|lia]]|]. intros f Hf Hr.
  cbn [add_frame bitmap]. rewrite used_clear, IH by (done || apply Hp' || lia).
  by rewrite (proj2 (Z.eqb_neq _ _)) by lia.
Qed.

Lemma reserve_frame_used f p g :
  bitmap_ok (bitmap p) → frame_ok f → frame_ok g →
  used (bitmap (reserve_frame f p)) g = (g =? f) || used (bitmap p) g.
Proof.
  intros Hp Hf Hg. unfold reserve_frame. rewrite bitmap_test_free.
  destruct (used (bitmap p) f) eqn:E; cbn [negb bitmap]; [|by apply used_set].
  destruct (Z.eqb_spec g f) as [->|]; done.
Qed.

Lemma reserve_frame_bitmap_ok f p :
  bitmap_ok (bitmap p) → frame_ok f → bitmap_ok (bitmap (reserve_frame f p)).
Proof.
  intros Hp Hf. unfold reserve_frame. destruct (_ =? 0); [by apply bitmap_set_ok|done].
Qed.

(** Taking a free frame keeps the counter exact. *)
Lemma take_frame_ok f p :
  pmm_ok p → frame_ok f → used (bitmap p) f = false →
  pmm_ok (mk_pmm (bitmap_set f (bitmap p)) (total_frames p) (free_frames p -u 1)).
Proof.
  intros [Hb Hc] Hf Hu. split; [by apply bitmap_set_ok|]. cbn [free_frames bitmap].
  assert (f ∈ free_set (bitmap p)) as Hin by by apply free_set_spec.
  pose proof (free_set_size (bitmap p)). unfold PMM_MAX_FRAMES in *.
  rewrite free_set_set by done. rewrite size_difference, size_singleton by set_solver.
  assert (size (free_set (bitmap p)) ≠ 0%nat) by (apply size_non_empty_iff; set_solver).
  rewrite Hc, u32_id by lia. lia.
Qed.

Lemma reserve_frame_ok f p : pmm_ok p → frame_ok f → pmm_ok (reserve_frame f p).
Proof.
  intros Hp Hf. unfold reserve_frame. rewrite bitmap_test_free.
  destruct (used (bitmap p) f) eqn:E; cbn [negb]; [done|]. by apply take_frame_ok.
Qed.

Lemma reserve_frames_spec lo hi p :
  0 ≤ lo → bitmap_ok (bitmap p) →
  let p' := reserve_frames lo hi p in
  bitmap_ok (bitmap p') ∧ (pmm_ok p → pmm_ok p') ∧ total_frames p' = total_frames p ∧
  (∀ g, frame_ok g → used (bitmap p') g = used (bitmap p) g || ((lo <=? g) && (g <? hi))).
Proof.
  intros Hlo Hp. unfold reserve_frames.
  destruct (Z.le_gt_cases (Z.min hi PMM_MAX_FRAMES) lo) as [Hle|Hgt].
  { rewrite for_range_empty by done. split_and!; try done. intros g Hg. unfold frame_ok in Hg.
    destruct (Z.leb_spec lo g), (Z.ltb_spec g hi); cbn; rewrite ?orb_false_r; done || lia. }
  set (k_end := Z.min hi PMM_MAX_FRAMES) in *.
  enough (∀ p', p' = for_range lo k_end reserve_frame p →
    bitmap_ok (bitmap p') ∧ (pmm_ok p → pmm_ok p') ∧ total_frames p' = total_frames p ∧
    ∀ g, frame_ok g → used (bitmap p') g = used (bitmap p) g || ((lo <=? g) && (g <? k_end)))
    as Hen.
  { destruct (Hen _ eq_refl) as (H1 & H2 & H3 & H4). split_and!; try done.
    intros g Hg. rewrite H4 by done. unfold frame_ok in Hg. do 2 f_equal.
    destruct (Z.ltb_spec g hi), (Z.ltb_spec g k_end); done || lia. }
  intros p' ->. apply (for_range_ind (fun k p' => bitmap_ok (bitmap p') ∧
    (pmm_ok p → pmm_ok p') ∧ total_frames p' = total_frames p ∧ ∀ g, frame_ok g →
    used (bitmap p') g = used (bitmap p) g || ((lo <=? g) && (g <? k)))); [lia| |].
  - split_and!; try done. intros g Hg. destruct (Z.leb_spec lo g), (Z.ltb_spec g lo); cbn;
      rewrite ?orb_false_r; done || lia.
  - intros k p' Hk (Hok & Hpok & Ht & IH).
    assert (frame_ok k) as Hfk by (unfold frame_ok; lia).
    split_and!; [by apply reserve_frame_bitmap_ok|intros; apply reserve_frame_ok; auto| |].
    + unfold reserve_frame. by destruct (_ =? 0).
    + intros g Hg. rewrite reserve_frame_used, IH by done.
      destruct (used (bitmap p) g); [by rewrite orb_true_r|]. cbn [orb].
      destruct (Z.eqb_spec g k), (Z.leb_spec lo g), (Z.ltb_spec g k), (Z.ltb_spec g (k + 1));
        done || lia.
Qed.

(** ** The memory map *)

(** The frames [pmm_init] takes from an entry: those of an available region,
    cut at 4 GiB, counted from the frame its start lies in. *)
Definition in_region (f : Z) (e : mmap_entry) : bool :=
  (e_type e =? 1) && (e_addr e <? 0x100000000) &&
  (e_addr e / 4096 <=? f) &&
  (f <? e_addr e / 4096 + Z.min (e_len e) (0x100000000 - e_addr e) / 4096).

(** A map entry as firmware reports it: its end is below 2^64. *)
Definition entry_ok (e : mmap_entry) : Prop :=
  0 ≤ e_addr e ∧ 0 ≤ e_len e ∧ e_addr e + e_len e < 18446744073709551616.

(** Memory from [addr] to [end_] holds the entries [l], back to back, each
    followed by the next [e_size + 4] bytes further on. *)
Fixpoint mmap_at `{!PhysMem} (addr end_ : Z) (l : list mmap_entry) : Prop :=
  match l with
  | [] => end_ ≤ addr
  | e :: l =>
      addr < end_ ∧ read_entry addr = e ∧ 0 ≤ e_size e ∧
      addr + e_size e + 4 < 4294967296 ∧ mmap_at (addr + e_size e + 4) end_ l
  end.

Lemma add_region_frames e p :
  entry_ok e →
  add_region e p
  = if (e_type e =? 1) && (e_addr e <? 0x100000000)
    then add_frames (e_addr e / 4096)
           (e_addr e / 4096 + Z.min (e_len e) (0x100000000 - e_addr e) / 4096) p
    else p.
Proof.
  intros (Ha & Hl & Hs). unfold add_region, PMM_FRAME_SIZE.
  destruct (e_type e =? 1); cbn [andb]; [|done].
  destruct (Z.leb_spec 0x100000000 (e_addr e)), (Z.ltb_spec (e_addr e) 0x100000000); try lia; [done|].
  assert (∀ x, 0 ≤ x ≤ 4294967296 → 0 ≤ x / 4096 ≤ 1048576) as Hq by (intros; dlia).
  pose proof (Hq (e_addr e) ltac:(lia)).
  rewrite (u32_id (e_addr e / 4096)) by lia. unfold u64 at 1.
  rewrite (Z.mod_small (e_addr e + e_len e)) by lia.
  destruct (Z.ltb_spec 0x100000000 (e_addr e + e_len e)).
  - unfold u64. rewrite (Z.mod_small (4294967296 - e_addr e)) by lia.
    rewrite Z.min_r by lia.
    pose proof (Hq (0x100000000 - e_addr e) ltac:(lia)).
    rewrite (u32_id ((0x100000000 - e_addr e) / 4096)) by lia. by rewrite u32_id by lia.
  - rewrite Z.min_l by lia. pose proof (Hq (e_len e) ltac:(lia)).
    rewrite (u32_id (e_len e / 4096)) by lia. by rewrite u32_id by lia.
Qed.

Lemma in_region_0 f e :
  in_region f e = true → entry_ok e → e_type e = 1 ∧ 0 ≤ e_addr e < 0x100000000.
Proof. unfold in_region, entry_ok. lia. Qed.

Lemma add_region_spec e p :
  entry_ok e → bitmap_ok (bitmap p) →
  bitmap_ok (bitmap (add_region e p)) ∧
  ∀ g, frame_ok g → used (bitmap (add_region e p)) g = used (bitmap p) g && negb (in_region g e).
Proof.
  intros He Hp. rewrite add_region_frames by done. unfold in_region.
  destruct ((e_type e =? 1) && (e_addr e <? 0x100000000)); cbn [andb].
  - apply add_frames_spec; [|done]. destruct He. apply Z.div_pos; lia.
  - split; [done|]. intros g _. by rewrite andb_true_r.
Qed.

Lemma add_region_ok e p :
  entry_ok e → pmm_ok p →
  (∀ f, frame_ok f → in_region f e = true → used (bitmap p) f = true) →
  pmm_ok (add_region e p).
Proof.
  intros He Hp Hu. rewrite add_region_frames by done. unfold in_region in Hu.
  destruct ((e_type e =? 1) && (e_addr e <? 0x100000000)); [|done]. cbn [andb] in Hu.
  apply add_frames_ok; [|done|].
  - destruct He. apply Z.div_pos; lia.
  - intros f Hf Hr. apply Hu; [done|]. lia.
Qed.

Definition add_regions (l : list mmap_entry) (p : pmm) : pmm :=
  fold_left (fun p e => add_region e p) l p.

Lemma add_regions_spec l p :
  Forall entry_ok l → bitmap_ok (bitmap p) →
  bitmap_ok (bitmap (add_regions l p)) ∧
  ∀ g, frame_ok g →
    used (bitmap (add_regions l p)) g = used (bitmap p) g && negb (existsb (in_region g) l).
Proof.
  intros Hl. revert p. induction Hl as [|e l He Hl IH]; intros p Hp.
  - split; [done|]. intros g _. cbn. by rewrite andb_true_r.
  - destruct (add_region_spec e p He Hp) as [H1 H2]. destruct (IH _ H1) as [H3 H4].
    split; [done|]. intros g Hg. cbn [existsb]. rewrite negb_orb, andb_assoc, <- H2 by done.
    by apply H4.
Qed.

(** No frame belongs to two regions of the map. *)
Definition disjoint_regions (l : list mmap_entry) : Prop :=
  ForallOrdPairs (fun e e' => ∀ f, frame_ok f → in_region f e = true → in_region f e' = false) l.

Lemma add_regions_ok l p :
  Forall entry_ok l → disjoint_regions l → pmm_ok p →
  (∀ f, frame_ok f → existsb (in_region f) l = true → used (bitmap p) f = true) →
  pmm_ok (add_regions l p).
Proof.
  intros Hl Hd. revert p Hl. induction Hd as [|e l He Hd IH]; intros p Hl Hp Hu; [done|].
  inversion_clear Hl as [|?? Hoe Hol]. apply IH; [done| |].
  - apply add_region_ok; [done..|]. intros f Hf Hr. apply Hu; [done|]. cbn. by rewrite Hr.
  - intros f Hf Hr. destruct (add_region_spec e p Hoe (pmm_ok_bitmap p Hp)) as [_ ->]; [|done].
    rewrite Hu by (done || cbn; by rewrite Hr, orb_true_r).
    apply existsb_exists in Hr as (e' & Hin & Hr).
    rewrite List.Forall_forall in He. destruct (in_region f e) eqn:E; [|done].
    by rewrite (He e' Hin f Hf E) in Hr.
Qed.

(** The loop over a well-formed map visits exactly its entries. *)
Lemma mmap_walk_at `{!PhysMem} l fuel addr end_ p :
  mmap_at addr end_ l → 0 ≤ addr → (length l < fuel)%nat →
  mmap_walk fuel addr end_ p = Done (add_regions l p).
Proof.
  revert fuel addr p. induction l as [|e l IH]; intros fuel addr p Hm Ha Hf;
    (destruct fuel as [|fuel]; [cbn in Hf; lia|]); cbn [mmap_walk mmap_at length] in *.
  - by rewrite (proj2 (Z.ltb_ge _ _)) by lia.
  - destruct Hm as (Hlt & He & Hs & Hw & Hm). rewrite (proj2 (Z.ltb_lt _ _)), He by lia.
    rewrite (u32_id (e_size e + 4)), u32_id by lia.
    rewrite Z.add_assoc. apply IH; [done|lia..].
Qed.
