(* ===== verification/PmmSpec.v ===== *)
(** What the physical memory manager promises: the set of frames [pmm_init]
    makes available, the abstract allocator the bitmap allocator implements, and
    the safety of every sequence of allocations and releases. *)

From S2P Require Import Prelude Machine Vga Preempt Screen Serial Kprintf Pmm.
From stdpp Require Import relations.

#[local] Open Scope Z_scope.
#[local] Open Scope c_scope.

(** ** The abstract allocator

    Its state is the set of free frames; it hands out the lowest one, and the
    null address when there is none. *)

Definition alloc_spec (F : gset Z) (r : Z) (F' : gset Z) : Prop :=
  (F = ∅ ∧ r = 0 ∧ F' = ∅) ∨
  (∃ f, f ∈ F ∧ (∀ g, g ∈ F → f ≤ g) ∧ r = f * PMM_FRAME_SIZE ∧ F' = F ∖ {[f]}).

Definition free_spec (F : gset Z) (a : Z) (F' : gset Z) : Prop :=
  F' = {[a / PMM_FRAME_SIZE]} ∪ F.

(** The frames an allocator state can hand out. *)
Definition available (p : pmm) : gset Z := free_set (bitmap p).

(** The bytes of frame [f] lie inside region [e]. *)
Definition frame_within (f : Z) (e : mmap_entry) : Prop :=
  e_addr e ≤ f * PMM_FRAME_SIZE ∧ f * PMM_FRAME_SIZE + PMM_FRAME_SIZE ≤ e_addr e + e_len e.

(** ** Clients

    A client of the allocator owns the frames it was given and only releases
    frames it owns. *)

Inductive client : pmm * gset Z → pmm * gset Z → Prop :=
| client_alloc p o r p' :
    pmm_alloc_frame p = (r, p') → r ≠ 0 →
    client (p, o) (p', {[r / PMM_FRAME_SIZE]} ∪ o)
| client_fail p o p' :
    pmm_alloc_frame p = (0, p') →
    client (p, o) (p', o)
| client_free p o a :
    0 ≤ a < 4294967296 → a / PMM_FRAME_SIZE ∈ o →
    client (p, o) (pmm_free_frame a p, o ∖ {[a / PMM_FRAME_SIZE]}).

(** ** The search loops of [pmm_alloc_frame] *)

Definition took (f : Z) (p : pmm) : pmm :=
  mk_pmm (bitmap_set f (bitmap p)) (total_frames p) (free_frames p -u 1).

(** Either every frame of [lo, hi) is used, or the search stops at the first free one. *)
Definition searched (lo hi : Z) (p : pmm) (r : option (Z * pmm)) : Prop :=
  match r with
  | None => ∀ g, lo ≤ g < hi → used (bitmap p) g = true
  | Some r => ∃ f, lo ≤ f < hi ∧ used (bitmap p) f = false ∧
      (∀ g, lo ≤ g < f → used (bitmap p) g = true) ∧ r = (f * 4096, took f p)
  end.

Lemma alloc_bits_searched n i bit p :
  0 ≤ i < BITMAP_WORDS → 0 ≤ bit → bit + Z.of_nat n = 32 →
  searched (i * 32 + bit) (i * 32 + 32) p (alloc_bits n i bit p).
Proof.
  intros Hi. revert bit. induction n as [|n IH]; intros bit Hb Hn.
  - cbn. intros. lia.
  - cbn [alloc_bits]. unfold BITMAP_WORDS in Hi.
    rewrite (u32_id (i * 32)), (u32_id (i * 32 + bit)) by lia.
    rewrite bitmap_test_free. destruct (used (bitmap p) (i * 32 + bit)) eqn:E; cbn [negb].
    + specialize (IH (bit + 1) ltac:(lia) ltac:(lia)). revert IH.
      destruct (alloc_bits n i (bit + 1) p) as [r|]; cbn [searched].
      * intros (f & Hf & Hu & Hl & ->). exists f. split_and!; [lia..|done| |done].
        intros g Hg. destruct (decide (g = i * 32 + bit)) as [->|]; [done|]. apply Hl. lia.
      * intros H g Hg. destruct (decide (g = i * 32 + bit)) as [->|]; [done|]. apply H. lia.
    + exists (i * 32 + bit). unfold PMM_FRAME_SIZE. rewrite u32_id by lia.
      split_and!; [lia..|done|lia|done].
Qed.

Lemma full_word b i g :
  rd b i = 0xFFFFFFFF → i * 32 ≤ g < i * 32 + 32 → used b g = true.
Proof.
  intros Hw Hg. unfold used. replace (g / 32) with i by dlia. rewrite Hw.
  change 0xFFFFFFFF with (Z.ones 32). apply Z.ones_spec_low. dlia.
Qed.

Lemma searched_seq lo mid hi p r1 r2 :
  lo ≤ mid ≤ hi → searched lo mid p r1 → searched mid hi p r2 →
  searched lo hi p (match r1 with Some r => Some r | None => r2 end).
Proof.
  intros Hm H1 H2. destruct r1 as [r1|].
  - destruct H1 as (f & ? & ? & ? & ?). exists f. split_and!; done || lia.
  - destruct r2 as [r2|]; cbn in *.
    + destruct H2 as (f & ? & ? & Hl & ?). exists f. split_and!; try (done || lia).
      intros g Hg. destruct (decide (g < mid)); [apply H1|apply Hl]; lia.
    + intros g Hg. destruct (decide (g < mid)); [apply H1|apply H2]; lia.
Qed.

(** The outer loop, from word [i] on. *)
Lemma alloc_words_searched n i p :
  0 ≤ i → i + Z.of_nat n = BITMAP_WORDS →
  ∃ r, searched (i * 32) PMM_MAX_FRAMES p r ∧ alloc_words n i p = default (0, p) r.
Proof.
  revert i. induction n as [|n IH]; intros i Hi Hn.
  - exists None. split; [|done]. unfold BITMAP_WORDS, PMM_MAX_FRAMES in *. cbn. lia.
  - destruct (IH (i + 1) ltac:(lia) ltac:(lia)) as (r2 & H2 & E2). cbn [alloc_words].
    assert (∀ r1, searched (i * 32) (i * 32 + 32) p r1 → searched (i * 32) PMM_MAX_FRAMES p
      (match r1 with Some r => Some r | None => r2 end)) as Hseq.
    { intros r1 H1. eapply searched_seq; [|done|].
      - split; [lia|]. unfold BITMAP_WORDS, PMM_MAX_FRAMES in *. lia.
      - by replace (i * 32 + 32) with ((i + 1) * 32) by lia. }
    destruct (Z.eqb_spec (rd (bitmap p) i) 0xFFFFFFFF) as [Hw|].
    + exists r2. split; [|done]. apply (Hseq None). intros g. by apply full_word.
    + pose proof (alloc_bits_searched 32 i 0 p ltac:(lia) ltac:(lia) ltac:(lia)) as Hb.
      rewrite Z.add_0_r in Hb. eexists. split; [by apply Hseq|].
      destruct (alloc_bits 32 i 0 p); [done|by rewrite E2].
Qed.

(** [pmm_alloc_frame] on every branch. *)
Lemma alloc_frame_cases p :
  (pmm_alloc_frame p = (0, p) ∧ available p = ∅) ∨
  (∃ f, frame_ok f ∧ used (bitmap p) f = false ∧ (∀ g, g ∈ available p → f ≤ g) ∧
    pmm_alloc_frame p = (f * PMM_FRAME_SIZE, took f p)).
Proof.
  destruct (alloc_words_searched (Z.to_nat BITMAP_WORDS) 0 p) as (r & Hs & E); [done..|].
  unfold pmm_alloc_frame. rewrite E. destruct r as [r|]; cbn in Hs |- *; [right|left].
  - destruct Hs as (f & Hf & Hu & Hl & ->). exists f. split_and!; [apply Hf..|done| |done].
    intros g [Hg Hug]%free_set_spec. destruct (decide (g < f)); [|lia].
    unfold frame_ok in Hg. rewrite Hl in Hug by lia. done.
  - split; [done|]. apply set_eq. intros g. split; [|by intros []%not_elem_of_empty].
    intros [Hg Hu]%free_set_spec. rewrite (Hs g Hg) in Hu. done.
Qed.

(** The null address is never a frame once the first MiB is reserved. *)
Definition low_reserved (p : pmm) : Prop := ∀ f, f ∈ available p → 256 ≤ f.

Lemma took_available f p :
  bitmap_ok (bitmap p) → frame_ok f → available (took f p) = available p ∖ {[f]}.
Proof. apply free_set_set. Qed.

Lemma alloc_frame_spec p r p' :
  pmm_ok p → pmm_alloc_frame p = (r, p') →
  alloc_spec (available p) r (available p') ∧ pmm_ok p' ∧ total_frames p' = total_frames p.
Proof.
  intros Hp E. destruct (alloc_frame_cases p) as [[E' He]|(f & Hf & Hu & Hl & E')];
    rewrite E' in E; injection E as <- <-.
  - split; [|done]. by left.
  - split; [right|split; [by apply take_frame_ok|done]]. exists f.
    split_and!; [by apply free_set_spec|done|done|].
    apply took_available; [apply Hp|done].
Qed.

Lemma free_frame_frame a : 0 ≤ a < 4294967296 → frame_ok (a / PMM_FRAME_SIZE).
Proof. unfold frame_ok, PMM_FRAME_SIZE, PMM_MAX_FRAMES. intros. dlia. Qed.

Lemma free_frame_cases a p :
  bitmap_ok (bitmap p) → 0 ≤ a < 4294967296 →
  pmm_free_frame a p
  = if used (bitmap p) (a / PMM_FRAME_SIZE)
    then mk_pmm (bitmap_clear (a / PMM_FRAME_SIZE) (bitmap p)) (total_frames p) (free_frames p +u 1)
    else p.
Proof.
  intros Hb Ha. pose proof (free_frame_frame a Ha) as Hf. unfold pmm_free_frame.
  rewrite (proj2 (Z.ltb_lt _ _)) by apply Hf. rewrite bitmap_read_ok, bitmap_test_free by done.
  by destruct (used _ _).
Qed.

Lemma free_frame_spec a p :
  pmm_ok p → 0 ≤ a < 4294967296 →
  free_spec (available p) a (available (pmm_free_frame a p)) ∧
  pmm_ok (pmm_free_frame a p) ∧ total_frames (pmm_free_frame a p) = total_frames p.
Proof.
  intros Hp Ha. pose proof (free_frame_frame a Ha) as Hf. rewrite free_frame_cases by (done || apply Hp).
  destruct (used (bitmap p) (a / PMM_FRAME_SIZE)) eqn:E.
  - split; [|split; [|done]].
    + apply free_set_clear; [apply Hp|done].
    + pose proof (add_frame_ok _ p Hp Hf E) as [H1 H2]. by split.
  - split; [|done]. unfold free_spec. apply set_eq. intros g.
    rewrite elem_of_union, elem_of_singleton. split; [by right|].
    intros [->|]; [by apply free_set_spec|done].
Qed.

(** ** Building the set of free frames *)

Lemma reserved_frame kend f :
  0 ≤ kend < 4294963200 → frame_ok f →
  negb ((0 <=? f) && (f <? 256)) && negb ((256 <=? f) && (f <? (kend + 4096 - 1) / 4096)) = true
  ↔ 256 ≤ f ∧ kend ≤ f * PMM_FRAME_SIZE.
Proof.
  unfold frame_ok, PMM_FRAME_SIZE, PMM_MAX_FRAMES. intros Hk Hf.
  assert ((kend + 4096 - 1) / 4096 ≤ f ↔ kend ≤ f * 4096) by dlia.
  destruct (Z.leb_spec 0 f), (Z.ltb_spec f 256), (Z.leb_spec 256 f),
    (Z.ltb_spec f ((kend + 4096 - 1) / 4096)); cbn; split; intros; try done; lia.
Qed.

(** The last step of [pmm_init]: low memory and the kernel are taken out again. *)
Lemma reserve_spec kend p p' :
  0 ≤ kend < 4294963200 → bitmap_ok (bitmap p) →
  p' = reserve_frames 256 ((kend +u 4096 -u 1) / 4096) (reserve_frames 0 256 p) →
  bitmap_ok (bitmap p') ∧ (pmm_ok p → pmm_ok p') ∧ total_frames p' = total_frames p ∧
  (∀ f, f ∈ available p' ↔ f ∈ available p ∧ 256 ≤ f ∧ kend ≤ f * PMM_FRAME_SIZE).
Proof.
  intros Hk Hp ->. rewrite (u32_id (kend + 4096)), u32_id by lia.
  destruct (reserve_frames_spec 0 256 p ltac:(lia) Hp) as (H1 & H2 & H3 & H4).
  destruct (reserve_frames_spec 256 ((kend + 4096 - 1) / 4096) _ ltac:(lia) H1)
    as (H5 & H6 & H7 & H8).
  split_and!; [done|auto|congruence|]. intros f. unfold available. rewrite !free_set_spec.
  split.
  - intros [Hf Hu]. rewrite H8, H4 in Hu by done.
    apply orb_false_iff in Hu as [[Hu1 Hu2]%orb_false_iff Hu3].
    split; [by split|]. apply reserved_frame; [exact Hk|exact Hf|]. by rewrite Hu2, Hu3.
  - intros [[Hf Hu] Hr]. split; [done|]. rewrite H8, H4, Hu by done.
    apply (reserved_frame kend f Hk Hf), andb_true_iff in Hr as [Hr1 Hr2].
    apply negb_true_iff in Hr1, Hr2. by rewrite Hr1, Hr2.
Qed.

(** With the bitmap marked used, nothing is free. *)
Definition marked (p : pmm) : pmm :=
  mk_pmm (mark_all_used (bitmap p)) (total_frames p) (free_frames p).

Lemma marked_ok p :
  Z.of_nat (length (bitmap p)) = BITMAP_WORDS → free_frames p = 0 → pmm_ok (marked p).
Proof.
  intros Hl H0. destruct (mark_all_used_spec (bitmap p) Hl) as [H1 H2]. split; [done|].
  cbn [marked free_frames bitmap]. rewrite H0.
  assert (free_set (mark_all_used (bitmap p)) = ∅) as ->; [|by rewrite size_empty].
  apply set_eq. intros f. split; [|by intros []%not_elem_of_empty].
  intros [Hf Hu]%free_set_spec. by rewrite H2 in Hu.
Qed.

Section setup.
Context `{!PhysMem}.

(** The memory map at [mbi] is present and lists the entries [l]. *)
Definition map_present (mbi : Z) (l : list mmap_entry) : Prop :=
  let m := read_mbi mbi in
  Z.testbit (flags m) 6 = true ∧ 0 ≤ mmap_addr m ∧
  mmap_at (mmap_addr m) (mmap_addr m +u mmap_length m) l ∧ Forall entry_ok l.

Lemma setup_with_map fuel mbi kend p l :
  map_present mbi l → (length l < fuel)%nat →
  pmm_setup fuel mbi kend p
  = Done (reserve_frames 256 ((kend +u 4096 -u 1) / 4096) (reserve_frames 0 256
      (add_regions l (mk_pmm (mark_all_used (bitmap p)) (total_frames p) (free_frames p))))).
Proof.
  intros (Hfl & Ha & Hm & _) Hf. unfold pmm_setup. rewrite land_bit, Hfl by lia. cbn [negb].
  by rewrite (mmap_walk_at l) by done.
Qed.

(** Without a map: everything from 1 MiB up to [mem_upper] KiB above it. *)
Lemma setup_without_map fuel mbi kend p :
  let m := read_mbi mbi in
  Z.testbit (flags m) 6 = false → 0 ≤ mem_upper m < 4193280 →
  pmm_setup fuel mbi kend p
  = Done (reserve_frames 256 ((kend +u 4096 -u 1) / 4096) (reserve_frames 0 256
      (add_frames 256 (256 + mem_upper m / 4)
        (mk_pmm (mark_all_used (bitmap p)) (total_frames p) (free_frames p))))).
Proof.
  intros m Hfl Hu. unfold pmm_setup. fold m. rewrite land_bit, Hfl by lia. cbn [negb].
  rewrite (u32_id (mem_upper m * 1024)), (u32_id (0x100000 + _)) by lia.
  unfold PMM_FRAME_SIZE. replace ((0x100000 + mem_upper m * 1024) / 4096)
    with (256 + mem_upper m / 4) by dlia. done.
Qed.

Lemma regions_available l p :
  Z.of_nat (length (bitmap p)) = BITMAP_WORDS → Forall entry_ok l →
  let p' := add_regions l (mk_pmm (mark_all_used (bitmap p)) (total_frames p) (free_frames p)) in
  bitmap_ok (bitmap p') ∧
  ∀ f, f ∈ available p' ↔ frame_ok f ∧ existsb (in_region f) l = true.
Proof.
  intros Hl He. destruct (mark_all_used_spec (bitmap p) Hl) as [H1 H2].
  destruct (add_regions_spec l (mk_pmm (mark_all_used (bitmap p)) (total_frames p)
    (free_frames p)) He H1) as [H3 H4].
  split; [done|]. intros f. unfold available. rewrite free_set_spec.
  split; intros [Hf Hu]; (split; [done|]).
  - rewrite H4 in Hu by done. cbn [bitmap] in Hu. rewrite H2 in Hu by done.
    by apply negb_false_iff in Hu.
  - rewrite H4 by done. by rewrite Hu, andb_false_r.
Qed.

(** In a page-aligned map, the frames of a region are inside it. *)
Lemma in_region_within f e :
  entry_ok e → e_addr e mod PMM_FRAME_SIZE = 0 → in_region f e = true →
  e_type e = 1 ∧ frame_within f e.
Proof.
  unfold in_region, entry_ok, frame_within, PMM_FRAME_SIZE. intros (Ha & Hl & _) Hal Hr.
  assert (e_type e = 1 ∧ e_addr e / 4096 ≤ f <
    e_addr e / 4096 + Z.min (e_len e) (0x100000000 - e_addr e) / 4096) as [Ht Hf] by lia.
  split; [done|]. pose proof (Z.le_min_l (e_len e) (0x100000000 - e_addr e)).
  generalize dependent (Z.min (e_len e) (0x100000000 - e_addr e)). intros m Hf Hm. dlia.
Qed.

End setup.

Lemma partition_take (f : Z) (F O X : gset Z) :
  f ∈ F → O ## F → O ∪ F = X → {[f]} ∪ O ## F ∖ {[f]} ∧ {[f]} ∪ O ∪ F ∖ {[f]} = X.
Proof.
  intros Hf Hd <-. split; [set_solver|]. apply set_eq. intros g.
  destruct (decide (g = f)); set_solver.
Qed.

Lemma partition_give (f : Z) (F O X : gset Z) :
  f ∈ O → O ## F → O ∪ F = X → O ∖ {[f]} ## {[f]} ∪ F ∧ O ∖ {[f]} ∪ ({[f]} ∪ F) = X.
Proof.
  intros Hf Hd <-. split; [set_solver|]. apply set_eq. intros g.
  destruct (decide (g = f)); set_solver.
Qed.

(** The frames a client owns and the free ones partition those free in [p0]. *)
Definition client_inv (p0 : pmm) (s : pmm * gset Z) : Prop :=
  pmm_ok s.1 ∧ s.2 ## available s.1 ∧ s.2 ∪ available s.1 = available p0.

Lemma client_step_inv p0 s s' :
  low_reserved p0 → client s s' → client_inv p0 s → client_inv p0 s'.
Proof.
  intros Hlow Hst (Hq & Hd & Hun).
  inversion Hst as [q oq r p E Hr|q oq p E|q oq a Ha Hin]; subst; cbn [fst snd] in *.
  - destruct (alloc_frame_spec q r p Hq E) as ([(_ & -> & _)|(f & Hf & _ & -> & Hav)] & Hp & _);
      [done|]. unfold PMM_FRAME_SIZE in *. split; [done|]. cbn [fst snd].
    rewrite Hav, Z.div_mul by lia. by apply partition_take.
  - destruct (alloc_frame_cases q) as [[E' _]|(f & Hf & Hu & _ & E')];
      rewrite E' in E; simplify_eq; [done|].
    assert (256 ≤ f) as Hf256.
    { apply Hlow. rewrite <- Hun. apply elem_of_union_r, free_set_spec. done. }
    unfold PMM_FRAME_SIZE in *. lia.
  - destruct (free_frame_spec a q Hq Ha) as (Hav & Hp & _). red in Hav.
    split; [done|]. cbn [fst snd]. rewrite Hav. by apply partition_give.
Qed.

Lemma clients_inv p0 s : pmm_ok p0 → low_reserved p0 → rtc client (p0, ∅) s → client_inv p0 s.
Proof.
  intros Hp0 Hlow Hrtc. assert (client_inv p0 (p0, ∅)) as H0 by (split_and!; cbn; [done|set_solver..]).
  induction Hrtc as [|s s' s'' Hst _ IH]; [done|]. by apply IH, (client_step_inv p0 s).
Qed.

(** Releasing the frame just allocated undoes the allocation. *)
Lemma alloc_free_restores p r p' :
  pmm_ok p → low_reserved p → pmm_alloc_frame p = (r, p') → r ≠ 0 →
  r mod PMM_FRAME_SIZE = 0 ∧ 0x100000 ≤ r ∧ pmm_free_frame r p' = p.
Proof.
  intros Hp Hlow E Hr. destruct (alloc_frame_cases p) as [[E' _]|(f & Hf & Hu & _ & E')];
    rewrite E' in E; injection E as <- <-; [done|].
  assert (256 ≤ f) as Hf256 by (apply Hlow, free_set_spec; done).
  unfold frame_ok, PMM_MAX_FRAMES in Hf. unfold PMM_FRAME_SIZE.
  split; [by rewrite Z.mod_mul|split; [lia|]].
  rewrite free_frame_cases by ((by apply bitmap_set_ok; [apply Hp|]) || (unfold PMM_FRAME_SIZE; lia)).
  unfold PMM_FRAME_SIZE.
  rewrite Z.div_mul by lia. cbn [took bitmap free_frames total_frames].
  rewrite used_set by (done || apply Hp). rewrite Z.eqb_refl. cbn [orb].
  rewrite bitmap_clear_set by (done || apply Hp). rewrite u32_add_l, Z.sub_add.
  destruct Hp as [_ Hc]. pose proof (free_set_size (bitmap p)). unfold PMM_MAX_FRAMES in *.
  rewrite u32_id by lia. by destruct p.
Qed.

(** [pmm_init] on a well-formed map. *)
Lemma setup_free `{!PhysMem} fuel mbi kend p l :
  map_present mbi l → (length l < fuel)%nat →
  Z.of_nat (length (bitmap p)) = BITMAP_WORDS → 0 ≤ kend < 4294963200 →
  ∃ p', pmm_setup fuel mbi kend p = Done p' ∧ bitmap_ok (bitmap p') ∧ low_reserved p' ∧
    (∀ f, f ∈ available p' ↔
      frame_ok f ∧ existsb (in_region f) l = true ∧ 256 ≤ f ∧ kend ≤ f * PMM_FRAME_SIZE) ∧
    (Forall (fun e => e_addr e mod PMM_FRAME_SIZE = 0) l →
     ∀ f, f ∈ available p' → ∃ e, e ∈ l ∧ e_type e = 1 ∧ frame_within f e).
Proof.
  intros Hm Hf Hl Hk. rewrite (setup_with_map _ _ _ _ l) by done. eexists. split; [done|].
  destruct Hm as (_ & _ & _ & He). destruct (regions_available l p Hl He) as [H1 H2].
  destruct (reserve_spec kend _ _ Hk H1 eq_refl) as (H3 & _ & _ & H4).
  split_and!; [done| | |].
  - intros f Hin. by apply H4 in Hin as (_ & ? & _).
  - intros f. rewrite H4, H2. tauto.
  - intros Hal f ((_ & Hex)%H2 & _)%H4. apply existsb_exists in Hex as (e & Hin & Hr).
    apply list_elem_of_In in Hin. exists e. split; [done|].
    rewrite Forall_forall in Hal, He. apply in_region_within; auto.
Qed.

(** The map loop on an entry that ends where it begins. *)
Lemma mmap_walk_stuck `{!PhysMem} n addr end_ p :
  0 ≤ addr < end_ → end_ < 4294967296 → e_size (read_entry addr) = 0xFFFFFFFC →
  mmap_walk n addr end_ p = Busy (Nat.iter n (add_region (read_entry addr)) p).
Proof.
  intros Ha He Hsz. revert p. induction n as [|n IH]; intros p; [done|]. cbn [mmap_walk].
  rewrite (proj2 (Z.ltb_lt _ _)), Hsz by lia. change (0xFFFFFFFC +u 4) with 0.
  rewrite Z.add_0_r, u32_id, IH by lia. by rewrite Nat.iter_succ_r.
Qed.

(** ** The properties *)

(** C8: on a well-formed Multiboot memory map, [pmm_init] makes available
    exactly the frames that an available region contributes, less the first MiB
    and the kernel image; on a page-aligned map each of them lies inside an
    available region, so no frame of reserved memory, of the BIOS area or of the
    kernel can ever be handed out. *)
Theorem pmm_setup_free `{!PhysMem} fuel mbi kend p l :
  map_present mbi l → (length l < fuel)%nat →
  Z.of_nat (length (bitmap p)) = BITMAP_WORDS → 0 ≤ kend < 4294963200 →
  ∃ p', pmm_setup fuel mbi kend p = Done p' ∧ bitmap_ok (bitmap p') ∧ low_reserved p' ∧
    (∀ f, f ∈ available p' ↔
      frame_ok f ∧ existsb (in_region f) l = true ∧ 256 ≤ f ∧ kend ≤ f * PMM_FRAME_SIZE) ∧
    (Forall (fun e => e_addr e mod PMM_FRAME_SIZE = 0) l →
     ∀ f, f ∈ available p' → ∃ e, e ∈ l ∧ e_type e = 1 ∧ frame_within f e).
Proof. apply setup_free. Qed.

(** C21: if no two regions of the map share a frame, the counter [pmm_init]
    leaves in [free_frames] is the number of free frames; and without a memory
    map (flag 6 clear) it is so for the frames from 1 MiB up to [mem_upper]
    KiB above it. *)
Theorem pmm_setup_count `{!PhysMem} fuel mbi kend p p' :
  pmm_setup fuel mbi kend p = Done p' →
  Z.of_nat (length (bitmap p)) = BITMAP_WORDS → free_frames p = 0 → 0 ≤ kend < 4294963200 →
  (∃ l, map_present mbi l ∧ (length l < fuel)%nat ∧ disjoint_regions l) ∨
  (Z.testbit (flags (read_mbi mbi)) 6 = false ∧ 0 ≤ mem_upper (read_mbi mbi) < 4193280) →
  pmm_ok p' ∧ low_reserved p' ∧
  (Z.testbit (flags (read_mbi mbi)) 6 = false →
   ∀ f, f ∈ available p' ↔ 256 ≤ f < 256 + mem_upper (read_mbi mbi) / 4 ∧
     kend ≤ f * PMM_FRAME_SIZE).
Proof.
  intros E Hl H0 Hk Hcase. pose proof (marked_ok p Hl H0) as Hp.
  destruct (mark_all_used_spec (bitmap p) Hl) as [Hb Hu].
  destruct Hcase as [(l & Hm & Hf & Hd)|[Hfl Hup]].
  - rewrite (setup_with_map _ _ _ _ l) in E by done. injection E as E.
    destruct Hm as (Hfl & _ & _ & He).
    assert (pmm_ok (add_regions l
      (mk_pmm (mark_all_used (bitmap p)) (total_frames p) (free_frames p)))) as Hr
      by (apply add_regions_ok; auto).
    destruct (reserve_spec kend _ _ Hk (pmm_ok_bitmap _ Hr) (eq_sym E)) as (_ & H2 & _ & H4).
    split_and!; [auto| |by rewrite Hfl]. intros f Hin. by apply H4 in Hin as (_ & ? & _).
  - rewrite setup_without_map in E by done. injection E as E.
    set (p1 := mk_pmm _ _ _) in *.
    pose proof (add_frames_ok 256 (256 + mem_upper (read_mbi mbi) / 4) p1 ltac:(lia) Hp
      (fun f Hf _ => Hu f Hf)) as Hr.
    destruct (add_frames_spec 256 (256 + mem_upper (read_mbi mbi) / 4) p1 ltac:(lia) Hb)
      as [_ Ha].
    destruct (reserve_spec kend _ _ Hk (pmm_ok_bitmap _ Hr) (eq_sym E)) as (_ & H2 & _ & H4).
    split_and!; [auto| |].
    + intros f Hin. by apply H4 in Hin as (_ & ? & _).
    + intros _ f. rewrite H4. unfold available. rewrite free_set_spec. split.
      * intros [[Hf Huf] [H5 H6]]. split; [|done]. rewrite Ha in Huf by done.
        cbn [p1 bitmap] in Huf. rewrite Hu in Huf by done. cbn [andb] in Huf. lia.
      * intros [Hf H6]. assert (frame_ok f) as Hok.
        { unfold frame_ok, PMM_MAX_FRAMES. dlia. }
        split_and!; [done| |lia|done]. rewrite Ha by done.
        rewrite (proj2 (Z.leb_le _ _)), (proj2 (Z.ltb_lt _ _)) by lia. apply andb_false_r.
Qed.

(** C9: [pmm_alloc_frame] and [pmm_free_frame] implement the abstract
    allocator: the lowest free frame is handed out and leaves the free set, 0
    reports that there is none, a release puts the frame of the address back
    (releasing a free frame changes nothing), and the counter stays exact. *)
Theorem pmm_refines_allocator p :
  pmm_ok p →
  (let '(r, p') := pmm_alloc_frame p in
   alloc_spec (available p) r (available p') ∧ pmm_ok p' ∧
   pmm_total_frames p' = pmm_total_frames p ∧
   pmm_free_frames p' = Z.of_nat (size (available p'))) ∧
  (∀ a, 0 ≤ a < 4294967296 →
   let p' := pmm_free_frame a p in
   free_spec (available p) a (available p') ∧ pmm_ok p' ∧
   pmm_total_frames p' = pmm_total_frames p ∧
   pmm_free_frames p' = Z.of_nat (size (available p')) ∧
   (a / PMM_FRAME_SIZE ∈ available p → p' = p)).
Proof.
  intros Hp. split.
  - destruct (pmm_alloc_frame p) as [r p'] eqn:E.
    destruct (alloc_frame_spec p r p' Hp E) as (H1 & H2 & H3). split_and!; try done. apply H2.
  - intros a Ha. destruct (free_frame_spec a p Hp Ha) as (H1 & H2 & H3).
    split_and!; try done; [apply H2|]. intros [_ Hu]%free_set_spec.
    rewrite free_frame_cases by (done || apply Hp). by rewrite Hu.
Qed.

(** C23: releasing the frame just allocated restores the allocator, bitmap
    and counters, exactly. *)
Theorem pmm_alloc_free_roundtrip p r p' :
  pmm_ok p → low_reserved p → pmm_alloc_frame p = (r, p') → r ≠ 0 →
  r mod PMM_FRAME_SIZE = 0 ∧ 0x100000 ≤ r ∧ pmm_free_frame r p' = p.
Proof. apply alloc_free_restores. Qed.

(** C6: whatever allocations and releases a client makes, the frames it owns
    and the free frames always partition the frames that were free at the start:
    no frame is handed out twice, none outside the initial set is ever handed
    out, none is lost, and the counter plus the frames owned is constant. *)
Theorem pmm_clients_safe p0 p o :
  pmm_ok p0 → low_reserved p0 → rtc client (p0, ∅) (p, o) →
  pmm_ok p ∧ o ## available p ∧ o ∪ available p = available p0 ∧
  pmm_free_frames p + Z.of_nat (size o) = pmm_free_frames p0.
Proof.
  intros Hp0 Hlow Hrtc. destruct (clients_inv _ _ Hp0 Hlow Hrtc) as (Hp & Hd & Hun).
  cbn [fst snd] in Hp, Hd, Hun. split_and!; try done.
  unfold pmm_free_frames. destruct Hp as [_ ->], Hp0 as [_ ->]. fold (available p) (available p0).
  rewrite <- Hun, size_union by done. lia.
Qed.

(** C40: a map entry whose size field is 0xFFFFFFFC makes [pmm_init] loop
    for ever: the address does not advance, however many rounds are allowed; each
    round takes the same region once more. *)
Theorem pmm_init_hangs {S : Type} `{!Lens S vga} `{!Lens S cpu} `{!Lens S pmm}
    `{!Preempt S} `{!Hardware} `{!PhysMem} fuel mbi kend (s : S) :
  let m := read_mbi mbi in
  Z.testbit (flags m) 6 = true → mmap_addr m < mmap_addr m +u mmap_length m →
  0 ≤ mmap_addr m → e_size (read_entry (mmap_addr m)) = 0xFFFFFFFC →
  pmm_init fuel mbi kend s
  = Hung (put (Nat.iter fuel (add_region (read_entry (mmap_addr m))) (marked (view s))) s).
Proof.
  intros m Hfl Hlt Ha Hsz. unfold pmm_init, gets, hung, modify, mbind, M_bind.
  unfold pmm_setup. fold m (marked (view s)). rewrite land_bit, Hfl by lia. cbn [negb].
  pose proof (u32_range (mmap_addr m + mmap_length m)).
  by rewrite mmap_walk_stuck by (done || lia).
Qed.

(** ** The properties at concrete inputs *)

(** Memory holding the little-endian words [ws] from address [base] on. *)
Definition mem_words (base : Z) (ws : list Z) : PhysMem :=
  fun a => Z.shiftr (rd ws ((a - base) / 4)) (8 * ((a - base) mod 4)).

(** A boot information block at 0x9000 with the [flags] given and a memory map
    of two available regions right behind it; the first entry's size field is
    [sz]. *)
Definition demo_mem (flags sz : Z) : PhysMem :=
  mem_words 0x9000
    ([flags; 640; 1024; 0; 0; 0; 0; 0; 0; 0; 0; 48; 0x9034; sz; 0; 0; 0x9F000; 0; 1;
      20; 0x100000; 0; 0x100000; 0; 1] ++ replicate 16 0).

Definition demo_map : list mmap_entry := [mk_entry 20 0 0x9F000 1; mk_entry 20 0x100000 0x100000 1].

(** A bitmap with every frame used, and one with the frames 256 .. 511 free. *)
Definition full_pmm : pmm := mk_pmm (replicate (Z.to_nat BITMAP_WORDS) 0xFFFFFFFF) 0 0.
Definition demo_pmm : pmm := add_frames 256 512 full_pmm.

Lemma full_pmm_length : Z.of_nat (length (bitmap full_pmm)) = BITMAP_WORDS.
Proof. cbn [full_pmm bitmap]. rewrite length_replicate. by apply Z2Nat.id. Qed.

Lemma full_pmm_used f : frame_ok f → used (bitmap full_pmm) f = true.
Proof.
  intros Hf. apply (full_word _ (f / 32)); [|dlia]. cbn [full_pmm bitmap].
  apply rd_replicate. rewrite Z2Nat.id by done. by apply word_index.
Qed.

Lemma full_pmm_bitmap_ok : bitmap_ok (bitmap full_pmm).
Proof. split; [apply full_pmm_length|]. by apply Forall_replicate. Qed.

Lemma full_pmm_ok : pmm_ok full_pmm.
Proof.
  split; [apply full_pmm_bitmap_ok|]. cbn [full_pmm free_frames].
  assert (free_set (bitmap full_pmm) = ∅) as ->; [|by rewrite size_empty].
  apply set_eq. intros f. split; [|by intros []%not_elem_of_empty].
  intros [Hf Hu]%free_set_spec. by rewrite full_pmm_used in Hu.
Qed.

#[local] Opaque full_pmm.

Lemma demo_pmm_ok : pmm_ok demo_pmm.
Proof.
  apply add_frames_ok; [done|apply full_pmm_ok|]. intros f Hf _. by apply full_pmm_used.
Qed.

Lemma demo_pmm_low : low_reserved demo_pmm.
Proof.
  intros f [Hf Hu]%free_set_spec.
  destruct (add_frames_spec 256 512 full_pmm) as [_ Ha]; [done|apply full_pmm_bitmap_ok|].
  unfold demo_pmm in Hu. rewrite Ha, full_pmm_used in Hu by done. cbn [andb] in Hu. lia.
Qed.

Lemma demo_map_present : map_present (H := demo_mem 64 20) 0x9000 demo_map.
Proof.
  split_and!; [done..| |].
  - cbn [mmap_at demo_map]. split_and!; done.
  - repeat constructor; cbn; lia.
Qed.

Lemma demo_map_disjoint : disjoint_regions demo_map.
Proof.
  repeat constructor. intros f _. unfold in_region, demo_map. cbn [e_type e_addr e_len].
  change (0 / 4096) with 0. change (0x100000 / 4096) with 256.
  change (Z.min 651264 (4294967296 - 0) / 4096) with 159. lia.
Qed.

Lemma pmm_setup_free_witness :
  ∃ p', pmm_setup (H := demo_mem 64 20) 3 0x9000 0x123456 full_pmm = Done p' ∧
    (0x123 ∉ available p') ∧ (0x124 ∈ available p').
Proof.
  destruct (pmm_setup_free (H := demo_mem 64 20) 3 0x9000 0x123456 full_pmm demo_map)
    as (p' & E & _ & _ & Hav & _);
    [apply demo_map_present|cbn; lia|apply full_pmm_length|lia|].
  exists p'. split; [exact E|]. clear E. rewrite !Hav. unfold PMM_FRAME_SIZE. split; [lia|].
  split; [by vm_compute|]. split; [by vm_compute|]. lia.
Defined.

Lemma pmm_setup_count_witness :
  ∃ p', pmm_setup (H := demo_mem 64 20) 3 0x9000 0x123456 full_pmm = Done p' ∧ pmm_ok p'.
Proof.
  eexists. split; [apply (setup_with_map _ _ _ _ demo_map); [apply demo_map_present|cbn; lia]|].
  eapply (pmm_setup_count (H := demo_mem 64 20) 3 0x9000 0x123456 full_pmm);
    [apply (setup_with_map _ _ _ _ demo_map); [apply demo_map_present|cbn; lia]
    |apply full_pmm_length|done|lia|].
  left. exists demo_map. split; [apply demo_map_present|].
  split; [cbn; lia|apply demo_map_disjoint].
Defined.

Lemma pmm_refines_allocator_witness :
  pmm_ok demo_pmm ∧ ∃ p', pmm_alloc_frame demo_pmm = (0x100000, p') ∧ pmm_ok p'.
Proof.
  split; [apply demo_pmm_ok|].
  assert ((pmm_alloc_frame demo_pmm).1 = 0x100000) as E1 by by vm_compute.
  destruct (pmm_refines_allocator demo_pmm demo_pmm_ok) as [Ha _]. revert Ha E1.
  destruct (pmm_alloc_frame demo_pmm) as [r p']. intros (_ & Hp & _) E1. cbn [fst] in E1.
  subst r. by exists p'.
Defined.

Lemma pmm_alloc_free_roundtrip_witness :
  ∃ p', pmm_alloc_frame demo_pmm = (0x100000, p') ∧ pmm_free_frame 0x100000 p' = demo_pmm.
Proof.
  assert ((pmm_alloc_frame demo_pmm).1 = 0x100000) as E1 by by vm_compute. revert E1.
  destruct (pmm_alloc_frame demo_pmm) as [r p'] eqn:E. intros E1. cbn [fst] in E1. subst r.
  exists p'. split; [reflexivity|].
  by apply (pmm_alloc_free_roundtrip demo_pmm _ p' demo_pmm_ok demo_pmm_low E).
Defined.

Lemma pmm_clients_safe_witness :
  ∃ p, rtc client (demo_pmm, ∅) (p, {[256]}) ∧ 256 ∉ available p.
Proof.
  assert ((pmm_alloc_frame demo_pmm).1 = 0x100000) as E1 by by vm_compute. revert E1.
  destruct (pmm_alloc_frame demo_pmm) as [r p'] eqn:E. intros E1. cbn [fst] in E1. subst r.
  assert (rtc client (demo_pmm, ∅) (p', {[256]})) as Hrtc.
  { apply rtc_once. replace {[256]} with ({[0x100000 / PMM_FRAME_SIZE]} ∪ ∅ : gset Z)
      by by rewrite (right_id_L ∅ (∪)). by eapply client_alloc. }
  exists p'. split; [exact Hrtc|].
  destruct (pmm_clients_safe demo_pmm p' {[256]} demo_pmm_ok demo_pmm_low Hrtc)
    as (_ & Hd & _ & _).
  intros Hin. apply (Hd 256); [by apply elem_of_singleton|done].
Defined.

Section on_no_uart.
#[local] Existing Instances no_uart busy.

Lemma pmm_init_hangs_witness :
  pmm_init (H0 := demo_mem 64 0xFFFFFFFC) 1000 0x9000 0x123456
    (vga0, cpu0, full_pmm)
  = Hung (vga0, cpu0,
      Nat.iter 1000 (add_region (mk_entry 0xFFFFFFFC 0 0x9F000 1)) (marked full_pmm)).
Proof.
  assert (read_entry (H := demo_mem 64 0xFFFFFFFC)
    (mmap_addr (read_mbi (H := demo_mem 64 0xFFFFFFFC) 0x9000)) = mk_entry 0xFFFFFFFC 0 0x9F000 1)
    as <- by by vm_compute.
  etransitivity; [by apply (pmm_init_hangs (H0 := demo_mem 64 0xFFFFFFFC) 1000 0x9000 0x123456
    (vga0, cpu0, full_pmm))|].
  cbn [put view lens_snd lens_in_fst lens_fst fst snd]. reflexivity.
Defined.

End on_no_uart.
