(* ===== verification/PmmFit.v ===== *)
(** The frame allocator against a naive reference, and the counter [free_frames] on
    memory maps whose regions overlap or are not page-aligned. *)

From S2P Require Import Prelude Machine Vga Preempt Screen Serial Kprintf Pmm PmmSpec.

#[local] Open Scope Z_scope.
#[local] Open Scope c_scope.

(** ** First fit *)

(** The search without its short cut: frame after frame. *)
Definition first_free (b : list Z) : option Z :=
  List.find (fun f => bitmap_test f b =? 0) (seqZ 0 PMM_MAX_FRAMES).

Definition first_fit (p : pmm) : Z * pmm :=
  match first_free (bitmap p) with
  | Some f => (f * PMM_FRAME_SIZE,
               mk_pmm (bitmap_set f (bitmap p)) (total_frames p) (free_frames p -u 1))
  | None => (0, p)
  end.

Lemma find_seqZ (P : Z → bool) lo n f :
  lo ≤ f < lo + n → P f = true → (∀ g, lo ≤ g < f → P g = false) →
  List.find P (seqZ lo n) = Some f.
Proof.
  intros Hf HP Hlo.
  replace n with ((f - lo) + (1 + (lo + n - f - 1))) by lia.
  rewrite seqZ_app, seqZ_app by lia. replace (lo + (f - lo)) with f by lia.
  assert (∀ l, Forall (fun g => P g = false) l → ∀ l', List.find P (l ++ l') = List.find P l') as Hskip.
  { intros l Hl l'. induction Hl as [|g l Hg Hl IH]; [done|]. cbn. by rewrite Hg. }
  rewrite Hskip; [rewrite seqZ_cons by lia; cbn; by rewrite HP|]. apply Forall_forall. intros g Hg%elem_of_seqZ. apply Hlo. lia.
Qed.

Lemma find_none (P : Z → bool) l : Forall (fun g => P g = false) l → List.find P l = None.
Proof. intros Hl. induction Hl as [|g l Hg Hl IH]; [done|]. cbn. by rewrite Hg. Qed.

(** C10: skipping the words that are all ones loses nothing: the two nested loops of
    [pmm_alloc_frame] return the frame, and leave the state, of a search through
    all frames one by one, on every bitmap. *)
Theorem pmm_alloc_first_fit p : pmm_alloc_frame p = first_fit p.
Proof.
  unfold first_fit, first_free. destruct (alloc_frame_cases p) as [[-> He]|(f & Hf & Hu & Hl & ->)].
  - rewrite find_none; [done|]. apply Forall_forall. intros f Hf%elem_of_seqZ.
    rewrite bitmap_test_free. destruct (used (bitmap p) f) eqn:E; [done|]. exfalso.
    assert (f ∈ available p) as Hin by (apply free_set_spec; split; [split; lia|done]).
    rewrite He in Hin. by apply not_elem_of_empty in Hin.
  - rewrite (find_seqZ _ _ _ f); [done|exact Hf|by rewrite bitmap_test_free, Hu|].
    intros g Hg. rewrite bitmap_test_free. destruct (used (bitmap p) g) eqn:E; [done|].
    assert (f ≤ g); [|lia]. apply Hl, free_set_spec. unfold frame_ok in *. split; [lia|done].
Qed.

(** ** The counter *)

(** By how much the counter exceeds the number of free frames. *)
Definition excess (p : pmm) : Z := free_frames p - Z.of_nat (size (free_set (bitmap p))).

(** The frames a map lists, and how many an entry contributes. *)
Definition listed (l : list mmap_entry) : gset Z :=
  list_to_set (filter (fun f => existsb (in_region f) l = true) (seqZ 0 PMM_MAX_FRAMES)).

Definition contributed (l : list mmap_entry) : Z :=
  foldr (fun e n => Z.of_nat (size (listed [e])) + n) 0 l.

Lemma listed_spec l f : f ∈ listed l ↔ frame_ok f ∧ existsb (in_region f) l = true.
Proof.
  unfold listed, frame_ok. rewrite elem_of_list_to_set, list_elem_of_filter, elem_of_seqZ.
  split; [intros [Hu Hf]|intros [Hf Hu]]; split; done || lia.
Qed.

#[global] Opaque listed.

Lemma u32_cong a b : u32 a = u32 b ↔ ∃ k, a = b + k * 4294967296.
Proof.
  unfold u32. split.
  - intros H. exists (a / 4294967296 - b / 4294967296). dlia.
  - intros [k ->]. apply Z_mod_plus_full.
Qed.

Lemma add_frames_counter lo hi p :
  0 ≤ free_frames p < 4294967296 →
  free_frames (add_frames lo hi p) = u32 (free_frames p + Z.max 0 (Z.min hi PMM_MAX_FRAMES - lo)).
Proof.
  intros Hp. unfold add_frames. destruct (Z.le_gt_cases (Z.min hi PMM_MAX_FRAMES) lo).
  { rewrite for_range_empty by done. rewrite Z.max_l by lia. by rewrite Z.add_0_r, u32_id. }
  rewrite Z.max_r by lia.
  apply (for_range_ind (fun k p' => free_frames p' = u32 (free_frames p + (k - lo)))); [lia| |].
  - by rewrite Z.sub_diag, Z.add_0_r, u32_id.
  - intros k p' _ IH. cbn [add_frame free_frames]. rewrite IH, u32_add_l. f_equal. lia.
Qed.

Lemma listed_region e :
  Z.of_nat (size (listed [e]))
  = if (e_type e =? 1) && (e_addr e <? 0x100000000)
    then Z.max 0 (Z.min (e_addr e / 4096 + Z.min (e_len e) (0x100000000 - e_addr e) / 4096)
      PMM_MAX_FRAMES - Z.max 0 (e_addr e / 4096))
    else 0.
Proof.
  assert (∀ f, existsb (in_region f) [e] = in_region f e) as Hex by (intros f; apply orb_false_r).
  destruct ((e_type e =? 1) && (e_addr e <? 0x100000000)) eqn:Et.
  - set (lo := Z.max 0 (e_addr e / 4096)). set (hi := Z.min _ PMM_MAX_FRAMES).
    assert (listed [e] = list_to_set (seqZ lo (hi - lo))) as ->.
    { apply set_eq. intros f. rewrite listed_spec, Hex, elem_of_list_to_set, elem_of_seqZ.
      unfold in_region, frame_ok. rewrite Et. cbn [andb]. lia. }
    rewrite size_list_to_set, length_seqZ by apply NoDup_seqZ. lia.
  - assert (listed [e] = ∅) as ->; [|by rewrite size_empty].
    apply set_eq. intros f. rewrite listed_spec, Hex. unfold in_region. rewrite Et.
    split; [by intros []|by intros []%not_elem_of_empty].
Qed.

Lemma add_regions_counter l p :
  Forall entry_ok l → 0 ≤ free_frames p < 4294967296 →
  free_frames (add_regions l p) = u32 (free_frames p + contributed l).
Proof.
  intros Hl. revert p. induction Hl as [|e l He Hl IH]; intros p Hp.
  { cbn. by rewrite Z.add_0_r, u32_id. }
  assert (free_frames (add_region e p) = u32 (free_frames p + Z.of_nat (size (listed [e])))) as He'.
  { rewrite add_region_frames, listed_region by done.
    destruct (_ && _); [|by rewrite Z.add_0_r, u32_id]. rewrite add_frames_counter by done.
    assert (0 ≤ e_addr e / 4096) by (destruct He; dlia). by rewrite (Z.max_r 0 (e_addr e / 4096)). }
  change (add_regions (e :: l) p) with (add_regions l (add_region e p)).
  rewrite IH, He', u32_add_l by (rewrite He'; apply u32_range).
  cbn [contributed foldr]. f_equal. unfold contributed. lia.
Qed.

(** Reserving a frame moves counter and set together. *)
Lemma reserve_frame_excess f p :
  bitmap_ok (bitmap p) → frame_ok f → u32 (excess (reserve_frame f p)) = u32 (excess p).
Proof.
  intros Hb Hf. unfold reserve_frame. rewrite bitmap_test_free.
  destruct (used (bitmap p) f) eqn:E; cbn [negb]; [done|].
  unfold excess. cbn [free_frames bitmap]. rewrite free_set_set by done.
  assert (f ∈ free_set (bitmap p)) as Hin by by apply free_set_spec.
  assert (size (free_set (bitmap p)) ≠ 0%nat) by (apply size_non_empty_iff; set_solver).
  rewrite size_difference, size_singleton by set_solver. apply u32_cong.
  exists (- ((free_frames p - 1) / 4294967296)). unfold u32. dlia.
Qed.

Lemma reserve_frames_excess lo hi p :
  0 ≤ lo → bitmap_ok (bitmap p) → u32 (excess (reserve_frames lo hi p)) = u32 (excess p).
Proof.
  intros Hlo Hb. unfold reserve_frames. destruct (Z.le_gt_cases (Z.min hi PMM_MAX_FRAMES) lo);
    [by rewrite for_range_empty|].
  apply (for_range_ind (fun k p' => bitmap_ok (bitmap p') ∧ u32 (excess p') = u32 (excess p)));
    [lia|done|].
  intros k p' Hk [Hb' IH]. assert (frame_ok k) as Hf by (unfold frame_ok; lia).
  split; [by apply reserve_frame_bitmap_ok|]. by rewrite reserve_frame_excess.
Qed.

(** C22: on any well-formed memory map, overlapping regions included, the counter
    [pmm_init] leaves is the number of free frames plus the number of repeated
    listings: the frames the regions contribute one by one, less the frames they
    contribute together. *)
Theorem pmm_setup_excess `{!PhysMem} fuel mbi kend p p' l :
  pmm_setup fuel mbi kend p = Done p' → map_present mbi l → (length l < fuel)%nat →
  Z.of_nat (length (bitmap p)) = BITMAP_WORDS → free_frames p = 0 → 0 ≤ kend < 4294963200 →
  u32 (pmm_free_frames p')
  = u32 (Z.of_nat (size (available p')) + (contributed l - Z.of_nat (size (listed l)))).
Proof.
  intros E Hm Hf Hl H0 Hk. rewrite (setup_with_map _ _ _ _ l) in E by done. injection E as E.
  destruct Hm as (_ & _ & _ & He). destruct (regions_available l p Hl He) as [Hb Hav].
  set (p1 := add_regions l _) in *. rewrite (u32_id (kend + 4096)), u32_id in E by lia.
  pose proof (reserve_frames_excess 0 256 p1 ltac:(lia) Hb) as X1.
  destruct (reserve_frames_spec 0 256 p1 ltac:(lia) Hb) as (Hb2 & _).
  pose proof (reserve_frames_excess 256 ((kend + 4096 - 1) / 4096) _ ltac:(lia) Hb2) as X2.
  rewrite E, X1 in X2. unfold excess in X2. fold (available p') (available p1) in X2.
  assert (available p1 = listed l) as Ea.
  { apply set_eq. intros f. by rewrite Hav, listed_spec. }
  assert (free_frames p1 = u32 (contributed l)) as Ef.
  { unfold p1. rewrite add_regions_counter by (done || cbn [free_frames]; lia).
    cbn [free_frames]. by rewrite H0. }
  rewrite Ea, Ef, u32_sub_l in X2. unfold pmm_free_frames.
  apply u32_cong in X2 as [k X2]. apply u32_cong. exists k. lia.
Qed.

(** ** What start-up gets wrong *)

(** A region that does not begin on a page boundary contributes the frame its first
    byte lies in, and with it memory the map does not call available. *)
Lemma unaligned_region e :
  entry_ok e → e_type e = 1 → e_addr e < 0x100000000 → PMM_FRAME_SIZE ≤ e_len e →
  e_addr e + PMM_FRAME_SIZE ≤ 0x100000000 → e_addr e mod PMM_FRAME_SIZE ≠ 0 →
  let f := e_addr e / PMM_FRAME_SIZE in
  in_region f e = true ∧ f * PMM_FRAME_SIZE < e_addr e.
Proof.
  unfold entry_ok, in_region, PMM_FRAME_SIZE. intros (Ha & Hl & _) -> Hlt Hlen Hend Hmod.
  cbn zeta. split; [|dlia]. rewrite (proj2 (Z.ltb_lt _ _) Hlt), Z.leb_refl. cbn [andb Z.eqb Pos.eqb].
  apply Z.ltb_lt. assert (1 ≤ Z.min (e_len e) (0x100000000 - e_addr e) / 4096); [|lia].
  apply Z.div_le_lower_bound; lia.
Qed.

(** With all of 4 GiB listed, the report says 0 MB. *)
Lemma report_wraps p :
  total_frames p = PMM_MAX_FRAMES → List.hd_error (pmm_report p) = Some (VInt 0).
Proof. intros E. unfold pmm_report. by rewrite E. Qed.

(** ** The properties at concrete inputs *)

(** Two regions that share 128 frames. *)
Definition overlap_mem : PhysMem :=
  mem_words 0x9000
    ([64; 640; 1024; 0; 0; 0; 0; 0; 0; 0; 0; 48; 0x9034; 20; 0x100000; 0; 0x100000; 0; 1;
      20; 0x180000; 0; 0x100000; 0; 1] ++ replicate 16 0).

Definition overlap_map : list mmap_entry :=
  [mk_entry 20 0x100000 0x100000 1; mk_entry 20 0x180000 0x100000 1].

Lemma overlap_map_present : map_present (H := overlap_mem) 0x9000 overlap_map.
Proof.
  split_and!; [done..| |].
  - cbn [mmap_at overlap_map]. split_and!; done.
  - repeat constructor; cbn; lia.
Qed.

Lemma overlap_excess : contributed overlap_map - Z.of_nat (size (listed overlap_map)) = 128.
Proof.
  assert (listed overlap_map = list_to_set (seqZ 256 384)) as ->.
  { apply set_eq. intros f. rewrite listed_spec, elem_of_list_to_set, elem_of_seqZ.
    unfold frame_ok, PMM_MAX_FRAMES. cbn [existsb overlap_map]. rewrite orb_false_r.
    unfold in_region. cbn [e_type e_addr e_len].
    change (0x100000 / 4096) with 256. change (0x180000 / 4096) with 384.
    change (Z.min 0x100000 (0x100000000 - 0x100000) / 4096) with 256.
    change (Z.min 0x100000 (0x100000000 - 0x180000) / 4096) with 256. lia. }
  rewrite size_list_to_set, length_seqZ by apply NoDup_seqZ.
  unfold contributed, overlap_map. cbn [foldr]. rewrite !listed_region. by vm_compute.
Qed.

#[local] Opaque full_pmm.

Lemma pmm_setup_excess_witness :
  ∃ p', pmm_setup (H := overlap_mem) 3 0x9000 0x123456 full_pmm = Done p' ∧
    u32 (pmm_free_frames p') = u32 (Z.of_nat (size (available p')) + 128).
Proof.
  eexists. split; [apply (setup_with_map _ _ _ _ overlap_map); [apply overlap_map_present|cbn; lia]|].
  rewrite <- overlap_excess.
  apply (pmm_setup_excess (H := overlap_mem) 3 0x9000 0x123456 full_pmm);
    [apply (setup_with_map _ _ _ _ overlap_map); [apply overlap_map_present|cbn; lia]
    |apply overlap_map_present|cbn; lia|apply full_pmm_length|done|lia].
Defined.
