(* ===== verification/Gdt.v ===== *)
(** The global descriptor table (kernel/gdt.c): packing of descriptors, the flat
    table [gdt_init] installs and the reload of the segment registers. *)

From S2P Require Import Prelude Machine.

#[local] Open Scope Z_scope.
#[local] Open Scope c_scope.

(** [gdt_entry_t] *)
Record gdt_entry : Type := mk_gdt_entry {
  limit_low : Z;
  base_low : Z;
  base_mid : Z;
  access : Z;
  granularity : Z;
  base_high : Z
}.

#[global] Instance gdt_entry_inhabited : Inhabited gdt_entry :=
  populate (mk_gdt_entry 0 0 0 0 0 0).

(** The operand of [lgdt]: limit, base. *)
Definition gdt_ptr_t : Type := Z * Z.

(** The statics of gdt.c. *)
Record gdt_state : Type := mk_gdt { gdt : list gdt_entry; gdt_ptr : gdt_ptr_t }.

Definition GDT_ENTRIES : Z := 3.
Definition ACCESS_CODE : Z :=
  Z.lor (Z.lor (Z.lor (Z.lor 0x80 0x00) 0x10) 0x08) 0x02.
Definition ACCESS_DATA : Z := Z.lor (Z.lor (Z.lor 0x80 0x00) 0x10) 0x02.
Definition GRAN_4K_32BIT : Z := 0xCF.

Definition gdt_set_entry (idx base limit acc gran : Z) (g : gdt_state) : gdt_state :=
  mk_gdt
    ((gdt g).[idx <-
        mk_gdt_entry
          (u16 (Z.land limit 0xFFFF))
          (u16 (Z.land base 0xFFFF))
          (u8 (Z.land (Z.shiftr base 16) 0xFF))
          acc
          (u8 (Z.lor (Z.land gran 0xF0) (Z.land (Z.shiftr limit 16) 0x0F)))
          (u8 (Z.land (Z.shiftr base 24) 0xFF))])
    (gdt_ptr g).

Definition set_gdt_ptr (p : gdt_ptr_t) (g : gdt_state) : gdt_state := mk_gdt (gdt g) p.

Section gdt_init.
Context {S : Type} `{!Lens S cpu} `{!Lens S gdt_state}.
(** Where the linker put the table. *)
Variable gdt_addr : Z.

Definition gdt_init : M S unit :=
  modify (gdt_set_entry 0 0 0 0 0);;
  modify (gdt_set_entry 1 0x00000000 0xFFFFFFFF ACCESS_CODE GRAN_4K_32BIT);;
  modify (gdt_set_entry 2 0x00000000 0xFFFFFFFF ACCESS_DATA GRAN_4K_32BIT);;
  modify (set_gdt_ptr (u16 (GDT_ENTRIES * 8 - 1), gdt_addr));;
  p ← gets gdt_ptr;
  lgdt p.1 p.2;;
  ljmp 0x08;;
  load_segs 0x10.

End gdt_init.

(** ** What the processor reads in a descriptor *)

Definition seg_base (e : gdt_entry) : Z :=
  base_low e + base_mid e * 2 ^ 16 + base_high e * 2 ^ 24.
(** The 20-bit limit field, and the last valid offset it stands for. *)
Definition seg_limit_field (e : gdt_entry) : Z :=
  limit_low e + Z.land (granularity e) 0x0F * 2 ^ 16.
Definition seg_flags (e : gdt_entry) : Z := Z.shiftr (granularity e) 4.
Definition seg_limit (e : gdt_entry) : Z :=
  if Z.testbit (granularity e) 7 then seg_limit_field e * 4096 + 4095 else seg_limit_field e.
Definition seg_present (e : gdt_entry) : bool := Z.testbit (access e) 7.
Definition seg_dpl (e : gdt_entry) : Z := Z.land (Z.shiftr (access e) 5) 3.
Definition seg_code_data (e : gdt_entry) : bool := Z.testbit (access e) 4.
Definition seg_executable (e : gdt_entry) : bool := Z.testbit (access e) 3.
Definition seg_rw (e : gdt_entry) : bool := Z.testbit (access e) 1.
Definition seg_32bit (e : gdt_entry) : bool := Z.testbit (granularity e) 6.

(** A ring-0, 32-bit segment over the whole address space. *)
Definition flat_ring0 (e : gdt_entry) : Prop :=
  seg_present e = true ∧ seg_code_data e = true ∧ seg_dpl e = 0 ∧ seg_rw e = true ∧
  seg_32bit e = true ∧ seg_base e = 0 ∧ seg_limit e = 0xFFFFFFFF.

(** The descriptor selector [sel] picks, in a table of limit [lim]. *)
Definition selects (g : list gdt_entry) (lim sel : Z) (e : gdt_entry) : Prop :=
  sel mod 8 = 0 ∧ sel + 7 ≤ lim ∧ g !! Z.to_nat (sel / 8) = Some e.

(** ** Lemmas *)

Lemma land_ones_mod z n : 0 ≤ n → Z.land z (Z.ones n) = z mod 2 ^ n.
Proof. intros. by apply Z.land_ones. Qed.

Lemma base_fields base :
  0 ≤ base < 4294967296 →
  u16 (Z.land base 0xFFFF) + u8 (Z.land (Z.shiftr base 16) 0xFF) * 2 ^ 16 +
  u8 (Z.land (Z.shiftr base 24) 0xFF) * 2 ^ 24 = base.
Proof.
  intros Hb. change 0xFFFF with (Z.ones 16). change 0xFF with (Z.ones 8).
  rewrite !land_ones_mod, !Z.shiftr_div_pow2 by lia.
  change (2 ^ 16) with 65536. change (2 ^ 24) with 16777216. change (2 ^ 8) with 256.
  unfold u16, u8. dlia.
Qed.

(** The granularity byte: flags above, limit bits 16 to 19 below. *)
Lemma granularity_split gran limit :
  let g := u8 (Z.lor (Z.land gran 0xF0) (Z.land (Z.shiftr limit 16) 0x0F)) in
  Z.land g 0x0F = Z.shiftr limit 16 mod 16 ∧ Z.shiftr g 4 = Z.shiftr gran 4 mod 16.
Proof.
  cbn zeta. change (Z.shiftr limit 16 mod 16) with (Z.shiftr limit 16 mod 2 ^ 4).
  change (Z.shiftr gran 4 mod 16) with (Z.shiftr gran 4 mod 2 ^ 4).
  rewrite <- !land_ones_mod by lia. split; apply Z.bits_inj'; intros k Hk.
  - rewrite Z.land_spec, testbit_u8, Z.lor_spec, !Z.land_spec by lia.
    destruct (Z.lt_ge_cases k 4).
    + assert (k = 0 ∨ k = 1 ∨ k = 2 ∨ k = 3) as [->|[->|[->| ->]]] by lia; cbn;
        by rewrite ?andb_false_r, ?andb_true_r.
    + rewrite Z.ones_spec_high by lia. change 0x0F with (Z.ones 4).
      rewrite Z.ones_spec_high by lia. by rewrite !andb_false_r.
  - rewrite Z.shiftr_spec, testbit_u8, Z.lor_spec, !Z.land_spec, !Z.shiftr_spec by lia.
    destruct (Z.lt_ge_cases k 4).
    + assert (k = 0 ∨ k = 1 ∨ k = 2 ∨ k = 3) as [->|[->|[->| ->]]] by lia; cbn;
        by rewrite ?andb_false_r, ?andb_true_r, ?orb_false_r.
    + rewrite (proj2 (Z.ltb_ge _ _)), Z.ones_spec_high by lia. by rewrite andb_false_r.
Qed.

(** The table [gdt_init] leaves. *)
Definition flat_gdt : list gdt_entry :=
  [mk_gdt_entry 0 0 0 0 0 0; mk_gdt_entry 65535 0 0 154 207 0; mk_gdt_entry 65535 0 0 146 207 0].

Lemma gdt_init_run {S : Type} `{!Lens S cpu} `{!Lens S gdt_state} `{!Indep S cpu gdt_state}
    gdt_addr (s : S) :
  length (gdt (view s)) = 3%nat →
  gdt_init gdt_addr s
  = Ret tt (put (mk_cpu (trace (view s) ++ [ELgdt 23 gdt_addr; ELjmp 8; ESeg 16])
                   (if_flag (view s)) (23, gdt_addr) (idtr (view s)) 8 16)
              (put (mk_gdt flat_gdt (23, gdt_addr)) s)).
Proof.
  intros Hl. destruct (view (C := gdt_state) s) as [g ptr] eqn:E. cbn [gdt] in Hl.
  destruct g as [|a [|b [|c [|]]]]; try done.
  unfold gdt_init, lgdt, ljmp, load_segs, gets, modify, mbind, M_bind.
  rewrite !view_put. cbn beta iota. rewrite ?view_put_l, ?view_put, ?put_put, E.
  rewrite ?view_put_l, ?put_put. cbn [trace if_flag gdtr idtr seg_cs seg_data].
  rewrite <- !app_assoc. reflexivity.
Qed.

(** ** Properties *)

(** C34: [gdt_set_entry] packs base, limit, access and flags so that the
    processor reads back the 32-bit base, the low 20 bits of the limit, the
    access byte and the flag nibble; the other descriptors and the pointer are
    untouched. *)
Theorem gdt_set_entry_decode idx base limit acc gran g :
  0 ≤ idx < Z.of_nat (length (gdt g)) → 0 ≤ base < 4294967296 →
  let g' := gdt_set_entry idx base limit acc gran g in
  let e := gdt g' !!! Z.to_nat idx in
  seg_base e = base ∧ seg_limit_field e = limit mod 2 ^ 20 ∧ access e = acc ∧
  seg_flags e = Z.shiftr gran 4 mod 16 ∧
  gdt_ptr g' = gdt_ptr g ∧ length (gdt g') = length (gdt g) ∧
  ∀ j, j ≠ Z.to_nat idx → gdt g' !! j = gdt g !! j.
Proof.
  intros Hi Hb. cbn zeta. unfold gdt_set_entry. cbn [gdt gdt_ptr].
  rewrite wr_in by done. rewrite list_lookup_total_insert_eq by lia. destruct (granularity_split gran limit) as [H1 H2].
  split_and!; [by apply base_fields| |done|done|done|apply length_insert|].
  - unfold seg_limit_field. cbn [limit_low granularity]. rewrite H1.
    change 0xFFFF with (Z.ones 16). rewrite land_ones_mod, Z.shiftr_div_pow2 by lia.
    change (2 ^ 16) with 65536. change (2 ^ 20) with 1048576. unfold u16. dlia.
  - intros j Hj. by rewrite list_lookup_insert_ne by done.
Qed.

Section gdt_init_spec.
Context {S : Type} `{!Lens S cpu} `{!Lens S gdt_state} `{!Indep S cpu gdt_state}.

(** C32: [gdt_init] leaves a null descriptor and two flat ring-0 segments, one
    executable and one writable, in the table; GDTR describes exactly this
    table; CS selects the code descriptor and every data segment register the
    data descriptor; and the registers are reloaded after the table, in order. *)
Theorem gdt_init_flat gdt_addr (s : S) :
  length (gdt (view s)) = 3%nat →
  ∃ s' null code data, gdt_init gdt_addr s = Ret tt s' ∧
    gdt (view s') = [null; code; data] ∧ seg_present null = false ∧
    flat_ring0 code ∧ seg_executable code = true ∧
    flat_ring0 data ∧ seg_executable data = false ∧
    gdtr (view s') = (Z.of_nat (length (gdt (view s'))) * 8 - 1, gdt_addr) ∧
    selects (gdt (view s')) (gdtr (view s')).1 (seg_cs (view s')) code ∧
    selects (gdt (view s')) (gdtr (view s')).1 (seg_data (view s')) data ∧
    trace (view s') = trace (view s) ++ [ELgdt 23 gdt_addr; ELjmp 8; ESeg 16] ∧
    if_flag (view s') = if_flag (view s) ∧ idtr (view s') = idtr (view s).
Proof.
  intros Hl. eexists _, _, _, _. split; [by apply gdt_init_run|].
  rewrite !view_put_r, !view_put. cbn [gdt]. split; [reflexivity|].
  unfold flat_ring0, selects. by split_and!.
Qed.

End gdt_init_spec.

(** ** The properties at concrete inputs *)

Definition gdt0 : gdt_state := mk_gdt (replicate 3 (mk_gdt_entry 0 0 0 0 0 0)) (0, 0).

Lemma gdt_set_entry_decode_witness :
  seg_base (gdt (gdt_set_entry 1 0x12345678 0xABCDE 0x9A 0xCF gdt0) !!! 1%nat) = 0x12345678 ∧
  seg_limit_field (gdt (gdt_set_entry 1 0x12345678 0xABCDE 0x9A 0xCF gdt0) !!! 1%nat) = 0xABCDE.
Proof.
  destruct (gdt_set_entry_decode 1 0x12345678 0xABCDE 0x9A 0xCF gdt0) as (H1 & H2 & _);
    [cbn; lia|lia|]. by split.
Defined.

Lemma gdt_init_flat_witness :
  ∃ s', gdt_init 0x5000 (mk_cpu [] false (0, 0) (0, 0) 8 16, gdt0) = Ret tt s' ∧
    seg_cs (view s') = 8 ∧ gdtr (view s') = (23, 0x5000).
Proof.
  destruct (gdt_init_flat 0x5000 (mk_cpu [] false (0, 0) (0, 0) 8 16, gdt0))
    as (s' & n & c & d & E & _); [done|].
  exists s'. split; [done|]. injection E as <-. by split.
Defined.
