(* ===== verification/Pit.v ===== *)
(** The programmable interval timer (drivers/pit.c, drivers/pit.h): programming
    of channel 0, the tick counter behind IRQ0, and sleeping by ticks. *)

From S2P Require Import Prelude Machine Vga Preempt Screen Serial Kprintf Pic Idt.

#[local] Open Scope Z_scope.
#[local] Open Scope c_scope.

Definition PIT_FREQUENCY_HZ : Z := 100.
Definition PIT_CHANNEL0 : Z := 0x40.
Definition PIT_CMD : Z := 0x43.
Definition PIT_BASE_HZ : Z := 1193180.
Definition PIT_DIVISOR : Z := u16 (PIT_BASE_HZ / PIT_FREQUENCY_HZ).
Definition PIT_CMD_BYTE : Z := 0x36.

(** The static of pit.c. *)
Record pit : Type := mk_pit { ticks : Z }.

Section pit.
Context {S H : Type} `{!Lens S cpu} `{!Lens S (idt_state H)} `{!Lens S pit} `{!Hardware}.

Definition pit_irq0_handler (f : frame) : M S unit :=
  modify (fun p => mk_pit (ticks p +u 1)).

(** [irq0] is the pointer to [pit_irq0_handler]. *)
Definition pit_init (irq0 : H) : M S unit :=
  outb PIT_CMD PIT_CMD_BYTE;;
  outb PIT_CHANNEL0 (u8 (Z.land PIT_DIVISOR 0xFF));;
  outb PIT_CHANNEL0 (u8 (Z.land (Z.shiftr PIT_DIVISOR 8) 0xFF));;
  modify (irq_register_handler 0 (Some irq0));;
  pic_clear_mask 0.

Definition pit_get_ticks : M S Z := gets ticks.

End pit.

Section sleep.
Context {S : Type} `{!Lens S pit} `{!Preempt S}.

(** The [hlt] instruction, and the interrupts that end it. *)
Variable hlt : M S unit.

(** [while ((int32_t)(end - ticks) > 0) hlt;] with a budget of [fuel] tests. An
    interrupt may be served between the test and the [hlt]. *)
Fixpoint sleep_until (fuel : nat) (end_ : Z) : M S unit :=
  match fuel with
  | O => hung
  | Datatypes.S fuel =>
      t ← gets ticks;
      preempt;;
      if 0 <? s32 (end_ -u t) then hlt;; sleep_until fuel end_ else mret tt
  end.

Definition pit_sleep_ms (fuel : nat) (ms : Z) : M S unit :=
  let ticks_needed := ((ms *u PIT_FREQUENCY_HZ) +u 999) / 1000 in
  t ← gets ticks;
  let end_ := t +u ticks_needed in
  preempt;;
  sleep_until fuel end_.

End sleep.

(** ** The timer chip

    Channel 0 of an 8253 as a function of the writes so far: a command byte
    selects the mode and the lo/hi access, then two writes give the reload
    value, low byte first. *)

Inductive pit_phase : Type := PitIdle | PitLow | PitHigh (low : Z).

Record pit_chip : Type := mk_chip {
  chip_phase : pit_phase;
  chip_mode : Z;
  chip_bcd : bool;
  chip_reload : option Z
}.

Definition chip_reset : pit_chip := mk_chip PitIdle 0 false None.

Definition chip_step (c : pit_chip) (e : event) : pit_chip :=
  match e with
  | EOut 0x43 v =>
      (* channel 0, access lo/hi *)
      if (Z.shiftr v 6 =? 0) && (Z.land (Z.shiftr v 4) 3 =? 3)
      then mk_chip PitLow (Z.land (Z.shiftr v 1) 7) (Z.testbit v 0) None
      else c
  | EOut 0x40 v =>
      match chip_phase c with
      | PitIdle => c
      | PitLow => mk_chip (PitHigh v) (chip_mode c) (chip_bcd c) (chip_reload c)
      | PitHigh low =>
          mk_chip PitLow (chip_mode c) (chip_bcd c) (Some (low + v * 256))
      end
  | _ => c
  end.

Definition chip_of (tr : list event) : pit_chip := fold_left chip_step tr chip_reset.

(** ** Time *)

(** Ticks of 10 ms, rounded up. *)
Definition ticks_of_ms (ms : Z) : Z := (ms + 9) / 10.

(** What the code computes, in 32 bits. *)
Definition sleep_ticks (ms : Z) : Z := ((ms *u 100) +u 999) / 1000.

(** The ports of the chip. *)
Definition pit_port (p : Z) : bool := (0x40 <=? p) && (p <=? 0x43).

Lemma sleep_ticks_exact ms : 0 ≤ ms ≤ 42949662 → sleep_ticks ms = ticks_of_ms ms.
Proof.
  intros. unfold sleep_ticks, ticks_of_ms. rewrite (u32_id (ms * 100)), u32_id by lia. dlia.
Qed.

Lemma sleep_ticks_range ms : 0 ≤ sleep_ticks ms ≤ 4294967.
Proof. unfold sleep_ticks. pose proof (u32_range ((ms *u 100) + 999)). dlia. Qed.

(** From 42949663 ms on the 32-bit product overflows and the sleep can be
    cut short: a delay of 42949673 ms (almost twelve hours) is a single tick. *)
Lemma pit_sleep_overflow : ticks_of_ms 42949673 = 4294968 ∧ sleep_ticks 42949673 = 1.
Proof. done. Qed.

(** What the test of the loop finds when [d] of [k] ticks have passed. *)
Lemma sleep_test t k d :
  -2147483648 ≤ k - d < 2147483648 → s32 (u32 (t + k) -u u32 (t + d)) = k - d.
Proof.
  intros Hk. rewrite <- (s32_id (k - d)) by done. unfold s32, u32.
  rewrite <- Zminus_mod, Z.mod_mod by lia. by replace (t + k - (t + d)) with (k - d) by lia.
Qed.

(** ** Properties *)

Section properties.
Context {S H : Type} `{!Lens S cpu} `{!Lens S (idt_state H)} `{!Lens S pit} `{!Hardware}
  `{!Indep S cpu (idt_state H)} `{!Indep S cpu pit}.

Lemma pit_init_run (irq0 : H) (s : S) :
  imr_readback → pics_ready (trace (view s)) →
  ∃ l, pit_init irq0 s = Ret tt (grow l (put (irq_register_handler 0 (Some irq0) (view s)) s)) ∧
    on_ports (fun p => pit_port p || pic_port p) l ∧ pics_ready (trace (view s) ++ l) ∧
    offset (master_of (trace (view s) ++ l)) = offset (master_of (trace (view s))) ∧
    offset (slave_of (trace (view s) ++ l)) = offset (slave_of (trace (view s))) ∧
    chip_of (trace (view s) ++ l) = mk_chip PitLow 3 false (Some 11931) ∧
    ∀ k, 0 ≤ k < 16 →
      masked (trace (view s) ++ l) k = negb (k =? 0) && masked (trace (view s)) k.
Proof.
  intros Hrb Hr. set (l0 := [EOut 0x43 0x36; EOut 0x40 0x9B; EOut 0x40 0x2E]).
  set (s1 := put (irq_register_handler 0 (Some irq0) (view s)) s).
  assert (trace (view (grow l0 s1)) = trace (view s) ++ l0) as Ht.
  { unfold s1. by rewrite trace_grow, view_put_l. }
  assert (pics_ready (trace (view (grow l0 s1)))) as Hr0.
  { unfold pics_ready. by rewrite Ht, master_app, slave_app. }
  destruct (pic_clear_events (grow l0 s1) 0 Hrb Hr0) as (E & Hp & Hr' & Ho1 & Ho2 & Hm); [lia|].
  rewrite Ht in *. revert E Hp Hr' Ho1 Ho2 Hm. generalize (u8 (port_in (trace (view s) ++ l0) 0x21)) as m.
  cbn [Z.ltb Z.compare]. intros m. set (l1 := [EIn _ _; _]). intros E Hp Hr' Ho1 Ho2 Hm.
  exists (l0 ++ l1). rewrite app_assoc. split_and!; [| |done| | | |].
  - unfold pit_init. do 3 step_outb.
    rewrite (bind_ret (modify _) _ _ tt _ eq_refl), view_grow_other, put_grow.
    fold s1. by rewrite <- grow_grow.
  - apply on_ports_app; [by repeat constructor|]. eapply on_ports_impl; [|exact Hp].
    intros p ->. apply orb_true_r.
  - rewrite Ho1. by rewrite master_app.
  - rewrite Ho2. by rewrite slave_app.
  - unfold chip_of. rewrite !fold_left_app. by destruct (fold_left _ (trace _) _).
  - intros k Hk. rewrite Hm by done. unfold masked. by rewrite master_app, slave_app.
Qed.

(** C28: [pit_init] programs channel 0 as a binary square-wave generator whose
    reload value is the largest that gives at least 100 Hz, registers the tick
    handler for IRQ 0 and no other, and unmasks line 0 only. *)
Theorem pit_init_spec (irq0 : H) (s : S) :
  imr_readback → pics_ready (trace (view s)) → idt_ok (view (C := idt_state H) s) →
  ∃ s' d, pit_init irq0 s = Ret tt s' ∧
    chip_of (trace (view s')) = mk_chip PitLow 3 false (Some d) ∧
    d * PIT_FREQUENCY_HZ ≤ PIT_BASE_HZ < (d + 1) * PIT_FREQUENCY_HZ ∧
    ∀ k, 0 ≤ k < 16 →
      masked (trace (view s')) k = negb (k =? 0) && masked (trace (view s)) k ∧
      irq_handlers (view (C := idt_state H) s') !!! Z.to_nat k
      = if k =? 0 then Some irq0 else irq_handlers (view (C := idt_state H) s) !!! Z.to_nat k.
Proof.
  intros Hrb Hr [_ Hl]. destruct (pit_init_run irq0 s Hrb Hr) as (l & E & _ & _ & _ & _ & Hc & Hm).
  eexists _, 11931. split; [exact E|]. rewrite trace_grow, view_grow_other, view_put_l, view_put.
  split; [done|]. split; [done|]. intros k Hk. split; [by apply Hm|].
  unfold irq_register_handler. cbn [Z.ltb Z.compare NUM_IRQS irq_handlers].
  destruct (Z.eqb_spec k 0) as [->|].
  - rewrite wr_in by (rewrite Hl; lia). apply list_lookup_total_insert_eq. lia.
  - rewrite wr_in by (rewrite Hl; lia). apply list_lookup_total_insert_ne. lia.
Qed.

End properties.

(** ** The properties at concrete inputs *)

Definition pit_mach : Type := cpu * idt_state unit * pit.
Definition pit_mach0 : pit_mach := (cpu_bios, idt0, mk_pit 0xFFFFFFFF).

Lemma pit_init_spec_witness :
  ∃ s' d, pit_init (H0 := pic_hw) tt pit_mach0 = Ret tt s' ∧
    chip_of (trace (view s')) = mk_chip PitLow 3 false (Some d) ∧ d * 100 ≤ 1193180.
Proof.
  destruct (pit_init_spec (H0 := pic_hw) tt pit_mach0 pic_hw_readback)
    as (s' & d & E & Hc & Hd & _); [done|done|].
  exists s', d. split; [exact E|]. split; [exact Hc|]. apply Hd.
Defined.
