(* ===== verification/Keyboard.v ===== *)
(** The keyboard driver (drivers/keyboard.c): scan code translation, the ring
    buffer between the IRQ1 handler and its reader, and the bounded queue it
    implements, also when the handler interrupts the reader half-way. *)

From S2P Require Import Prelude Machine Vga Preempt Screen Serial Kprintf Pic Idt.
From stdpp Require Import relations.

#[local] Open Scope Z_scope.
#[local] Open Scope c_scope.

Definition KB_DATA_PORT : Z := 0x60.
Definition KB_BUF_SIZE : Z := 64.
Definition KB_BUF_MASK : Z := KB_BUF_SIZE - 1.

(** The statics of keyboard.c. *)
Record kb : Type := mk_kb { kb_buf : list Z; kb_head : Z; kb_tail : Z }.

(** The character constants of the table ([bytes] of a printable string; the
    control characters by their codes). *)
Definition scancode_map : list Z :=
  [0] ++ [0] ++ bytes "1234567890" ++ bytes "-=" ++ [8] ++ [9] ++
  bytes "qwertyuiop" ++ bytes "[]" ++ [10] ++ [0] ++ bytes "asdfghjkl" ++
  bytes ";'" ++ bytes "`" ++ [0] ++ [92] ++ bytes "zxcvbnm" ++ bytes ",./" ++
  [0] ++ bytes "*" ++ [0] ++ bytes " " ++ replicate 31 0.

Definition SCANCODE_MAP_LEN : Z := 89.

(** The handler from [char c = scancode_map[sc]] with [c] not NUL on. *)
Definition kb_enqueue (c : Z) (k : kb) : kb :=
  let next := Z.land (kb_head k +u 1) KB_BUF_MASK in
  if negb (next =? kb_tail k)
  then mk_kb (kb_buf k).[kb_head k <- c] next (kb_tail k)
  else k.

Section keyboard.
Context {S H : Type} `{!Lens S cpu} `{!Lens S (idt_state H)} `{!Lens S kb} `{!Preempt S}
  `{!Hardware}.

Definition keyboard_irq1_handler (f : frame) : M S unit :=
  sc ← inb KB_DATA_PORT;
  if negb (Z.land sc 0x80 =? 0) then mret tt
  else if sc =? 0xE0 then mret tt
  else if sc <? SCANCODE_MAP_LEN then
    c ← fetch scancode_map sc;
    if negb (c =? 0) then modify (kb_enqueue c) else mret tt
  else mret tt.

(** [irq1] is the pointer to [keyboard_irq1_handler]. *)
Definition keyboard_init (irq1 : H) : M S unit :=
  modify (irq_register_handler 1 (Some irq1));;
  pic_clear_mask 1.

Definition kb_pop (k : kb) : kb :=
  mk_kb (kb_buf k) (kb_head k) (Z.land (kb_tail k +u 1) KB_BUF_MASK).

(** An interrupt may be served between any two accesses to the shared variables. *)
Definition keyboard_getchar : M S Z :=
  tail ← gets kb_tail;
  preempt;;
  head ← gets kb_head;
  if tail =? head then mret 0
  else
    preempt;;
    k ← gets (fun k => k);
    c ← fetch (kb_buf k) (kb_tail k);
    preempt;;
    modify kb_pop;; mret c.

Definition keyboard_poll : M S bool :=
  tail ← gets kb_tail;
  preempt;;
  head ← gets kb_head;
  mret (negb (tail =? head)).

End keyboard.

(** ** What a key press means *)

(** The character of a scan code, if it is a make code the table knows. *)
Definition key_char (sc : Z) : option Z :=
  if sc <? 89 then
    let c := scancode_map !!! Z.to_nat sc in if c =? 0 then None else Some c
  else None.

(** The abstract queue: at most 63 characters, further ones are dropped. *)
Definition push (c : Z) (q : list Z) : list Z :=
  if Z.of_nat (length q) <? 63 then q ++ [c] else q.

Definition press (sc : Z) (q : list Z) : list Z :=
  match key_char sc with Some c => push c q | None => q end.

(** ** Invariant and contents *)

(** A character the keyboard can type. *)
Definition typed (c : Z) : Prop := c = 8 ∨ c = 9 ∨ c = 10 ∨ 32 ≤ c < 127.

Definition kb_count (k : kb) : Z := (kb_head k - kb_tail k) mod 64.

(** The characters in the buffer, oldest first. *)
Definition contents (k : kb) : list Z :=
  map (fun i => rd (kb_buf k) ((kb_tail k + i) mod 64)) (seqZ 0 (kb_count k)).

Record kb_ok (k : kb) : Prop := {
  kb_ok_length : length (kb_buf k) = 64%nat;
  kb_ok_head : 0 ≤ kb_head k < 64;
  kb_ok_tail : 0 ≤ kb_tail k < 64;
  kb_ok_typed : Forall typed (contents k)
}.

(** ** Lemmas *)

Lemma kb_next i : 0 ≤ i < 64 → Z.land (i +u 1) KB_BUF_MASK = (i + 1) mod 64.
Proof.
  intros. rewrite u32_id by lia. change KB_BUF_MASK with (Z.ones 6). by rewrite Z.land_ones.
Qed.

Lemma kb_count_range k : 0 ≤ kb_count k < 64.
Proof. apply Z.mod_pos_bound. lia. Qed.

Lemma length_contents k : Z.of_nat (length (contents k)) = kb_count k.
Proof.
  unfold contents. rewrite length_map, length_seqZ. pose proof (kb_count_range k). lia.
Qed.

Lemma contents_empty k : kb_ok k → (kb_tail k =? kb_head k) = bool_decide (contents k = []).
Proof.
  intros [_ Hh Ht _]. pose proof (length_contents k) as Hl. unfold kb_count in Hl.
  case_bool_decide as Hc.
  - rewrite Hc in Hl. cbn in Hl. apply Z.eqb_eq. dlia.
  - apply Z.eqb_neq. intros E. apply Hc, nil_length_inv. rewrite E, Z.sub_diag in Hl.
    change (0 mod 64) with 0 in Hl. lia.
Qed.

(** The slots of the contents avoid the head. *)
Lemma slot_ne_head k i :
  0 ≤ kb_head k < 64 → 0 ≤ kb_tail k < 64 → 0 ≤ i < kb_count k →
  (kb_tail k + i) mod 64 ≠ kb_head k.
Proof. unfold kb_count. intros. dlia. Qed.

Lemma kb_enqueue_contents c k :
  kb_ok k → contents (kb_enqueue c k) = push c (contents k).
Proof.
  intros [Hl Hh Ht Hty]. unfold kb_enqueue, push. rewrite kb_next by done.
  rewrite length_contents. destruct (Z.eqb_spec ((kb_head k + 1) mod 64) (kb_tail k)) as [E|E];
    cbn [negb].
  - assert (kb_count k = 63) as -> by (unfold kb_count; dlia). done.
  - assert (kb_count k < 63) as Hc by (unfold kb_count; dlia).
    rewrite (proj2 (Z.ltb_lt _ _) Hc). set (k' := mk_kb _ _ _).
    assert (kb_count k' = Z.succ (kb_count k)) as Hc'.
    { unfold k', kb_count. cbn [kb_head kb_tail]. unfold kb_count in Hc. dlia. }
    pose proof (kb_count_range k) as Hr. unfold contents at 1. rewrite Hc'.
    replace (Z.succ (kb_count k)) with (Z.succ (Z.of_nat (Z.to_nat (kb_count k)))) by lia.
    rewrite <- Nat2Z.inj_succ, seqZ_S, map_app, Z2Nat.id by lia. f_equal.
    + apply map_ext_in. intros i Hi%list_elem_of_In%elem_of_seqZ. unfold k'. cbn [kb_buf kb_tail].
      rewrite rd_wr_ne; [done|rewrite Hl; lia|apply Z.mod_pos_bound; lia|].
      apply not_eq_sym, slot_ne_head; lia.
    + cbn. f_equal. unfold k'. cbn [kb_buf kb_tail].
      replace ((kb_tail k + (0 + kb_count k)) mod 64) with (kb_head k) by (unfold kb_count; dlia).
      apply rd_wr_eq. lia.
Qed.

Lemma kb_enqueue_ok c k : kb_ok k → typed c → kb_ok (kb_enqueue c k).
Proof.
  intros Hk Hc. pose proof (kb_enqueue_contents c k Hk) as E. destruct Hk as [Hl Hh Ht Hty].
  split; [| | |rewrite E].
  - unfold kb_enqueue. destruct (negb _); cbn; [|done]. rewrite length_wr; [done|rewrite Hl; lia].
  - unfold kb_enqueue. rewrite kb_next by done. destruct (negb _); cbn; [|done].
    apply Z.mod_pos_bound. lia.
  - unfold kb_enqueue. by destruct (negb _).
  - unfold push. destruct (_ <? 63); [|done]. apply Forall_app. by split; [|constructor].
Qed.

Lemma contents_cons k :
  kb_ok k → kb_tail k ≠ kb_head k →
  contents k = rd (kb_buf k) (kb_tail k) :: contents (kb_pop k).
Proof.
  intros [Hl Hh Ht Hty] Hne. unfold contents.
  assert (kb_count (kb_pop k) = kb_count k - 1) as Hc.
  { unfold kb_count, kb_pop. cbn [kb_head kb_tail]. rewrite kb_next by done. dlia. }
  assert (0 < kb_count k) as Hp by (unfold kb_count; dlia).
  rewrite seqZ_cons by done. cbn [map]. f_equal.
  - f_equal. dlia.
  - rewrite Hc. unfold kb_pop. cbn [kb_buf kb_tail]. rewrite kb_next by done.
    rewrite <- Z.sub_1_r. change (Z.succ 0) with (1 + 0). rewrite <- (fmap_add_seqZ 1 0 (kb_count k - 1)).
    unfold fmap. rewrite map_map. apply map_ext_in. intros i Hi%list_elem_of_In%elem_of_seqZ.
    f_equal. dlia.
Qed.

Lemma kb_pop_ok k : kb_ok k → kb_tail k ≠ kb_head k → kb_ok (kb_pop k).
Proof.
  intros Hk Hne. pose proof (contents_cons k Hk Hne) as E. destruct Hk as [Hl Hh Ht Hty].
  rewrite E in Hty. split; cbn; [done|done| |by apply Forall_cons_1 in Hty as [_ ?]].
  rewrite kb_next by done. apply Z.mod_pos_bound. lia.
Qed.

(** Every non-NUL entry of the table is a character one can type. *)
Lemma key_char_typed sc c : 0 ≤ sc → key_char sc = Some c → typed c.
Proof.
  intros Hsc. unfold key_char. destruct (Z.ltb_spec sc 89); [|done].
  destruct (Z.eqb_spec (scancode_map !!! Z.to_nat sc) 0) as [|Hne]; [done|].
  intros [= <-]. revert Hne.
  assert (Forall (fun c => c ≠ 0 → typed c) scancode_map) as Hall.
  { unfold typed. repeat (constructor; [cbn; lia|]). constructor. }
  eapply (Forall_lookup_total_1 _ _ _ Hall). change (length scancode_map) with 89%nat. lia.
Qed.

(** The effect of one scan code on the buffer. *)
Definition press_kb (sc : Z) (k : kb) : kb :=
  match key_char sc with Some c => kb_enqueue c k | None => k end.

Lemma press_kb_spec sc k :
  kb_ok k → 0 ≤ sc → kb_ok (press_kb sc k) ∧ contents (press_kb sc k) = press sc (contents k).
Proof.
  intros Hk Hsc. unfold press_kb, press. destruct (key_char sc) as [c|] eqn:E; [|done].
  split; [|by apply kb_enqueue_contents].
  apply kb_enqueue_ok; [done|]. by apply (key_char_typed sc).
Qed.

Lemma press_tail sc k : kb_tail (press_kb sc k) = kb_tail k.
Proof.
  unfold press_kb. destruct (key_char sc); [|done]. by unfold kb_enqueue; destruct (negb _).
Qed.

Section handler_lemmas.
Context {S H : Type} `{!Lens S cpu} `{!Lens S (idt_state H)} `{!Lens S kb} `{!Hardware}
  `{!Indep S cpu kb} `{!Indep S cpu (idt_state H)}.

(** The byte the controller has for the handler. *)
Definition scan_code (s : S) : Z := u8 (port_in (trace (view s)) 0x60).

Lemma irq1_eq f (s : S) :
  keyboard_irq1_handler f s
  = Ret tt (put (press_kb (scan_code s) (view s)) (grow [EIn 0x60 (scan_code s)] s)).
Proof.
  unfold keyboard_irq1_handler. rewrite (bind_ret _ _ _ _ _ (inb_eq KB_DATA_PORT s)).
  change (u16 KB_DATA_PORT) with 0x60. fold (scan_code s).
  assert (0 ≤ scan_code s < 256) as Hsc by apply u8_range. revert Hsc.
  generalize (scan_code s) as sc. intros sc Hsc. set (s1 := grow _ s).
  assert (view s = view (C := kb) s1) as -> by (symmetry; apply view_grow_other).
  unfold press_kb, key_char. change 0x80 with (u32 (Z.shiftl 1 7)).
  rewrite land_bit, negb_involutive by lia. destruct (Z.testbit sc 7) eqn:E7.
  { assert (128 ≤ sc).
    { destruct (Z.le_gt_cases 128 sc); [done|]. by rewrite (testbit_small sc 7) in E7 by lia. }
    rewrite (proj2 (Z.ltb_ge _ _)) by lia. cbn iota. by rewrite put_view. }
  destruct (Z.eqb_spec sc 0xE0) as [->|]; [change (0xE0 <? 89) with false; cbn iota;
    by rewrite put_view|].
  unfold SCANCODE_MAP_LEN. destruct (Z.ltb_spec sc 89); [|by rewrite put_view].
  rewrite (bind_ret _ _ _ _ _ (fetch_in scancode_map sc s1 ltac:(change (length scancode_map) with 89%nat; lia))).
  destruct (scancode_map !!! Z.to_nat sc =? 0); cbn [negb]; [|done]. by rewrite put_view.
Qed.

Lemma keyboard_init_run (irq1 : H) (s : S) :
  imr_readback → pics_ready (trace (view s)) →
  ∃ l, keyboard_init irq1 s
       = Ret tt (grow l (put (irq_register_handler 1 (Some irq1) (view s)) s)) ∧
    on_ports pic_port l ∧ pics_ready (trace (view s) ++ l) ∧
    offset (master_of (trace (view s) ++ l)) = offset (master_of (trace (view s))) ∧
    offset (slave_of (trace (view s) ++ l)) = offset (slave_of (trace (view s))) ∧
    ∀ k, 0 ≤ k < 16 →
      masked (trace (view s) ++ l) k = negb (k =? 1) && masked (trace (view s)) k.
Proof.
  intros Hrb Hr. unfold keyboard_init. rewrite (bind_ret (modify _) _ _ tt _ eq_refl).
  set (s1 := put _ s). assert (trace (view s1) = trace (view s)) as Ht.
  { unfold s1. by rewrite view_put_l. }
  rewrite <- Ht in Hr |- *. destruct (pic_clear_events s1 1 Hrb Hr) as (E & Hp & Hr' & Ho1 & Ho2 & Hm); [lia|].
  eexists. by split_and!.
Qed.

End handler_lemmas.

(** ** The reader, interrupted

    [keyboard_getchar] reads the indices, loads the character and advances the
    tail; an IRQ1 may arrive between any two of these. [accepted] are the
    characters put into the buffer so far, [delivered] those returned. *)

Inductive reader : Type := Idle | Checked | Loaded (c : Z).

Record run : Type := mk_run {
  r_kb : kb;
  r_reader : reader;
  accepted : list Z;
  delivered : list Z
}.

(** The characters a scan code adds. *)
Definition accepts (sc : Z) (k : kb) : list Z :=
  match key_char sc with
  | Some c => if Z.of_nat (length (contents k)) <? 63 then [c] else []
  | None => []
  end.

Inductive kb_step : run → run → Prop :=
| step_irq sc k r acc del :
    0 ≤ sc < 256 →
    kb_step (mk_run k r acc del) (mk_run (press_kb sc k) r (acc ++ accepts sc k) del)
| step_empty k acc del :
    kb_tail k = kb_head k →
    kb_step (mk_run k Idle acc del) (mk_run k Idle acc del)
| step_check k acc del :
    kb_tail k ≠ kb_head k →
    kb_step (mk_run k Idle acc del) (mk_run k Checked acc del)
| step_load k acc del :
    kb_step (mk_run k Checked acc del) (mk_run k (Loaded (rd (kb_buf k) (kb_tail k))) acc del)
| step_commit k c acc del :
    kb_step (mk_run k (Loaded c) acc del) (mk_run (kb_pop k) Idle acc (del ++ [c])).

Definition run_ok (r : run) : Prop :=
  kb_ok (r_kb r) ∧ accepted r = delivered r ++ contents (r_kb r) ∧ Forall typed (accepted r) ∧
  match r_reader r with
  | Idle => True
  | Checked => kb_tail (r_kb r) ≠ kb_head (r_kb r)
  | Loaded c => kb_tail (r_kb r) ≠ kb_head (r_kb r) ∧ rd (kb_buf (r_kb r)) (kb_tail (r_kb r)) = c
  end.

Lemma press_accepts sc k : press sc (contents k) = contents k ++ accepts sc k.
Proof.
  unfold press, accepts, push. destruct (key_char sc); [|by rewrite app_nil_r].
  destruct (_ <? 63); [done|by rewrite app_nil_r].
Qed.

(** The characters of the scan codes that were read, in order. *)
Definition key_events (tr : list event) : list Z :=
  flat_map (fun e => match e with
    | EIn p sc => if p =? 0x60 then match key_char sc with Some c => [c] | None => [] end else []
    | _ => []
    end) tr.

Lemma key_events_app a b : key_events (a ++ b) = key_events a ++ key_events b.
Proof. apply flat_map_app. Qed.

(** From [q] to [q'] the queue was offered the characters [ks]: it took some of
    them, in order, and all of them when they fit. *)
Definition offered (ks q q' : list Z) : Prop :=
  ∃ acc, q' = q ++ acc ∧ acc `sublist_of` ks ∧
    (Z.of_nat (length q + length ks) ≤ 63 → acc = ks).

Lemma offered_none q : offered [] q q.
Proof. exists []. by rewrite app_nil_r. Qed.

(** The keys [k1] and [k2] were taken out meanwhile. *)
Lemma offered_took ks1 ks2 k1 k2 q1 q2 q3 :
  offered ks1 q1 (k1 ++ q2) → offered ks2 q2 (k2 ++ q3) → offered (ks1 ++ ks2) q1 (k1 ++ k2 ++ q3).
Proof.
  intros (a1 & E1 & S1 & F1) (a2 & E2 & S2 & F2). exists (a1 ++ a2).
  split; [by rewrite E2, !app_assoc, E1|]. split; [by apply sublist_app|]. rewrite length_app. intros Hl.
  specialize (F1 ltac:(lia)) as ->. f_equal. apply F2.
  apply (f_equal length) in E1. rewrite !length_app in E1. lia.
Qed.

Lemma press_offered sc k : offered (key_events [EIn 0x60 sc]) (contents k) (press sc (contents k)).
Proof.
  exists (accepts sc k). split; [apply press_accepts|]. unfold key_events, accepts. cbn.
  destruct (key_char sc) as [c|]; [|done]. destruct (Z.ltb_spec (Z.of_nat (length (contents k))) 63); [done|].
  split; [apply sublist_nil_l|]. cbn. lia.
Qed.

(** A key press keeps the front of a non-empty queue in place. *)
Lemma press_front sc k :
  kb_ok k → 0 ≤ sc → kb_tail k ≠ kb_head k →
  kb_tail (press_kb sc k) ≠ kb_head (press_kb sc k) ∧
  rd (kb_buf (press_kb sc k)) (kb_tail (press_kb sc k)) = rd (kb_buf k) (kb_tail k).
Proof.
  intros Hk Hsc Hne. destruct (press_kb_spec sc k Hk Hsc) as [Hk' E].
  rewrite press_accepts, (contents_cons k) in E by done. cbn [app] in E.
  assert (kb_tail (press_kb sc k) ≠ kb_head (press_kb sc k)) as Hne'.
  { apply Z.eqb_neq. rewrite contents_empty, E by done. by apply bool_decide_eq_false. }
  split; [done|]. rewrite (contents_cons _ Hk' Hne') in E. by injection E.
Qed.

Lemma kb_step_ok r r' : kb_step r r' → run_ok r → run_ok r'.
Proof.
  intros Hst (Hk & Ha & Hty & Hr). destruct Hst as [sc k r acc del Hsc| | | |k c acc del];
    cbn [r_kb r_reader accepted delivered] in *; try done.
  - destruct (press_kb_spec sc k Hk) as [Hk' E]; [lia|]. rewrite press_accepts in E.
    split; [done|]. cbn [r_kb r_reader accepted delivered].
    rewrite E, app_assoc, <- Ha. split; [done|]. split.
    + pose proof (kb_ok_typed _ Hk') as Ht. rewrite E in Ht. apply Forall_app in Ht as [_ Ht].
      by apply Forall_app.
    + destruct r as [| |c]; [done| |].
      * by apply press_front; [|lia|].
      * destruct Hr as [Hne <-]. by apply press_front; [|lia|].
  - destruct Hr as [Hne <-]. split; [by apply kb_pop_ok|].
    cbn [r_kb r_reader accepted delivered]. rewrite <- app_assoc. cbn [app].
    by rewrite <- contents_cons.
Qed.

(** ** The reader, with interrupts between its accesses

    [R] is what the interrupt handlers may do to the machine; to the buffer they
    only append. *)

Class KbPreempt {S : Type} `{!Lens S kb} `{!Preempt S} (R : S → S → Prop) : Prop := {
  kb_preorder :: PreOrder R;
  kb_preempt s : ∃ s', preempt s = Ret tt s' ∧ R s s';
  kb_appends s s' : R s s' → kb_ok (view s) →
    kb_ok (view s') ∧ kb_tail (view s') = kb_tail (view s) ∧
    ∃ acc, contents (view s') = contents (view s) ++ acc
}.

Section reader.
Context {S : Type} `{!Lens S kb} `{!Preempt S} {R : S → S → Prop} `{!KbPreempt R}.

Lemma poll_run (s : S) :
  kb_ok (view s) →
  ∃ s', R s s' ∧ kb_ok (view s') ∧
    keyboard_poll s = Ret (negb (bool_decide (contents (view s') = []))) s'.
Proof.
  intros Hk. destruct (kb_preempt s) as (s1 & E1 & R1). destruct (kb_appends s s1 R1 Hk) as (Hk1 & Ht & _).
  exists s1. split; [done|]. split; [done|]. unfold keyboard_poll.
  rewrite (bind_ret (gets kb_tail) _ s _ s eq_refl), (bind_ret _ _ _ _ _ E1).
  rewrite (bind_ret (gets kb_head) _ s1 _ s1 eq_refl), <- Ht. by rewrite contents_empty.
Qed.

Lemma getchar_run (s : S) :
  kb_ok (view s) →
  ∃ s', R s s' ∧ kb_ok (view s') ∧
    (contents (view s) = [] ∧ keyboard_getchar s = Ret 0 s' ∧ contents (view s') = [] ∨
     ∃ c, keyboard_getchar s = Ret c (put (kb_pop (view s')) s') ∧ kb_ok (kb_pop (view s')) ∧
       contents (view s') = c :: contents (kb_pop (view s'))).
Proof.
  intros Hk. destruct (kb_preempt s) as (s1 & E1 & R1).
  destruct (kb_appends s s1 R1 Hk) as (Hk1 & Ht1 & acc1 & C1). unfold keyboard_getchar.
  rewrite (bind_ret (gets kb_tail) _ s _ s eq_refl), (bind_ret _ _ _ _ _ E1).
  rewrite (bind_ret (gets kb_head) _ s1 _ s1 eq_refl), <- Ht1, contents_empty by done.
  case_bool_decide as He.
  { exists s1. do 2 (split; [done|]). left. rewrite He in C1. symmetry in C1.
    by apply app_eq_nil in C1 as [C1 _]. }
  destruct (kb_preempt s1) as (s2 & E2 & R2). destruct (kb_appends s1 s2 R2 Hk1) as (Hk2 & Ht2 & acc2 & C2).
  destruct (kb_preempt s2) as (s3 & E3 & R3). destruct (kb_appends s2 s3 R3 Hk2) as (Hk3 & Ht3 & acc3 & C3).
  rewrite (bind_ret _ _ _ _ _ E2), (bind_ret (gets _) _ s2 _ s2 eq_refl).
  pose proof (kb_ok_tail _ Hk2). rewrite (bind_ret _ _ _ _ _ (fetch_in (kb_buf (view s2))
    (kb_tail (view s2)) s2 ltac:(rewrite (kb_ok_length _ Hk2); lia))), (bind_ret _ _ _ _ _ E3).
  rewrite (bind_ret (modify kb_pop) _ s3 tt _ eq_refl).
  assert (contents (view s2) ≠ []) as He2 by (rewrite C2; by destruct (contents (view s1))).
  assert (contents (view s3) ≠ []) as He3 by (rewrite C3; by destruct (contents (view s2))).
  assert (∀ k, kb_ok k → contents k ≠ [] → kb_tail k ≠ kb_head k) as Hne.
  { intros k Hok Hc. apply Z.eqb_neq. rewrite contents_empty by done. by apply bool_decide_eq_false. }
  exists s3. split; [by do 2 (etransitivity; [done|])|]. split; [done|]. right.
  exists (rd (kb_buf (view s2)) (kb_tail (view s2))). split; [done|].
  split; [by apply kb_pop_ok; [|apply Hne]|].
  pose proof (contents_cons _ Hk2 (Hne _ Hk2 He2)) as F2.
  pose proof (contents_cons _ Hk3 (Hne _ Hk3 He3)) as F3.
  rewrite F3. f_equal. rewrite C3, F2 in F3. by injection F3.
Qed.

End reader.

(** ** Properties *)

Section properties.
Context {S H : Type} `{!Lens S cpu} `{!Lens S (idt_state H)} `{!Lens S kb} `{!Preempt S}
  `{!Hardware}
  `{!Indep S cpu kb} `{!Indep S cpu (idt_state H)}.

(** C19: the IRQ1 handler reads one byte from port 0x60 and nothing else,
    appends the character of a known make code to the queue unless 63 are
    waiting, ignores every break code, and keeps the buffer well-formed. *)
Theorem keyboard_irq1_spec f (s : S) :
  kb_ok (view s) →
  let sc := u8 (port_in (trace (view s)) 0x60) in
  ∃ k, keyboard_irq1_handler f s = Ret tt (put k (grow [EIn 0x60 sc] s)) ∧ kb_ok k ∧
    contents k = press sc (contents (view s)) ∧
    (128 ≤ sc → k = view s) ∧ Z.of_nat (length (contents k)) ≤ 63.
Proof.
  intros Hk sc. exists (press_kb sc (view s)). assert (0 ≤ sc < 256) as Hsc by apply u8_range.
  destruct (press_kb_spec sc (view s) Hk) as [Hk' E]; [lia|].
  split; [apply irq1_eq|]. split; [done|]. split; [done|]. split.
  - intros. unfold press_kb, key_char. by rewrite (proj2 (Z.ltb_ge _ _)) by lia.
  - rewrite length_contents. pose proof (kb_count_range (press_kb sc (view s))). lia.
Qed.

(** C20: [keyboard_getchar] takes the oldest character out of the queue and
    returns it, or returns 0 having found the queue empty, whatever interrupts
    add to the queue between its accesses; [keyboard_poll] reports whether there
    was a character. *)
Theorem keyboard_getchar_spec (R : S → S → Prop) (s : S) :
  KbPreempt R → kb_ok (view s) →
  (∃ s', R s s' ∧ keyboard_poll s = Ret (negb (bool_decide (contents (view s') = []))) s') ∧
  ∃ c s' k, R s s' ∧ keyboard_getchar s = Ret c (put k s') ∧ kb_ok k ∧
    (c = 0 → contents (view s) = []) ∧
    contents (view s') = (if c =? 0 then [] else [c]) ++ contents k ∧
    ∃ acc, contents (view s') = contents (view s) ++ acc.
Proof.
  intros HR Hk. split.
  { destruct (poll_run s Hk) as (s' & Hs & _ & E). by exists s'. }
  destruct (getchar_run s Hk) as (s' & Hs & Hk' & Hg).
  destruct (kb_appends s s' Hs Hk) as (_ & _ & Ha).
  destruct Hg as [(C & E & C')|(c & E & Hp & C)].
  - exists 0, s', (view s'). rewrite put_view. by split_and!.
  - pose proof (kb_ok_typed _ Hk') as Ht. rewrite C in Ht. apply Forall_cons_1 in Ht as [Hc _].
    assert (c ≠ 0) as Hne by (unfold typed in Hc; lia).
    exists c, s', (kb_pop (view s')). rewrite (proj2 (Z.eqb_neq c 0) Hne). by split_and!.
Qed.

(** C13: however IRQ1 interrupts the reader, the characters accepted into the
    buffer are delivered in order, each once, and none is lost: those delivered
    followed by those still in the buffer are those accepted; 0 is never
    delivered as a character, and at most 63 are waiting. *)
Theorem keyboard_interleaved k r :
  kb_ok k → contents k = [] →
  rtc kb_step (mk_run k Idle [] []) r →
  kb_ok (r_kb r) ∧ accepted r = delivered r ++ contents (r_kb r) ∧
  (0 ∉ accepted r) ∧ Z.of_nat (length (contents (r_kb r))) ≤ 63.
Proof.
  intros Hk He Hrtc. assert (run_ok r) as (H1 & H2 & H3 & _).
  { assert (run_ok (mk_run k Idle [] [])) as Hi by (split_and!; cbn; by rewrite ?He).
    induction Hrtc as [|r1 r2 r3 Hst _ IH]; [done|]. by apply IH, (kb_step_ok r1). }
  split_and!; [done|done| |].
  - intros Hin. rewrite Forall_forall in H3. specialize (H3 0 Hin). unfold typed in H3. lia.
  - rewrite length_contents. pose proof (kb_count_range (r_kb r)). lia.
Qed.

End properties.

(** ** The properties at concrete inputs *)

Definition kb0 : kb := mk_kb (replicate 64 0) 0 0.
Definition kb_mach : Type := cpu * idt_state unit * kb.

(** A keyboard on which A, then B, were pressed: the byte depends on how many
    were read. *)
Definition kb_hw : Hardware := fun tr p =>
  if p =? 0x60 then if decide (tr = []) then 0x1E else 0x30 else 0.

Definition kb_mach0 : kb_mach := (cpu0, idt0, kb0).

Lemma kb0_contents : contents kb0 = [].
Proof. done. Qed.

Lemma kb0_ok : kb_ok kb0.
Proof. split; cbn; [done|lia|lia|rewrite kb0_contents; constructor]. Qed.

Lemma kb0_press : kb_ok (press_kb 0x1E kb0) ∧ contents (press_kb 0x1E kb0) = bytes "a".
Proof. by destruct (press_kb_spec 0x1E kb0 kb0_ok) as [? ?]; [|split]. Qed.

Lemma keyboard_irq1_spec_witness :
  ∃ k, keyboard_irq1_handler (H0 := kb_hw) (frame0 33) kb_mach0
       = Ret tt (put k (grow [EIn 0x60 0x1E] kb_mach0)) ∧ contents k = bytes "a".
Proof.
  destruct (keyboard_irq1_spec (H0 := kb_hw) (frame0 33) kb_mach0)
    as (k & E & _ & Hc & _); [apply kb0_ok|].
  exists k. split; [exact E|exact Hc].
Defined.

(** Every interrupt of this machine is the key press of B. *)
Definition press_b : Preempt kb_mach := modify (press_kb 0x30).

(** Only keys have been pressed. *)
Definition pressed (s : kb_mach) : kb_mach := put (press_kb 0x30 (view s)) s.
Definition keys_only (s s' : kb_mach) : Prop := ∃ n, s' = Nat.iter n pressed s.

Lemma press_b_ok : KbPreempt (Preempt0 := press_b) keys_only.
Proof.
  split.
  - split; [by exists 0%nat|]. intros s1 s2 s3 [n ->] [m ->]. exists (m + n)%nat.
    by rewrite Nat.iter_add.
  - intros s. eexists. split; [done|]. by exists 1%nat.
  - intros s s' [n ->] Hk. induction n as [|n IH].
    { cbn. split; [done|]. split; [done|]. exists []. by rewrite app_nil_r. }
    destruct IH as (Hk' & Ht & acc & C).
    change (Nat.iter (Datatypes.S n) pressed s) with (pressed (Nat.iter n pressed s)).
    set (s1 := Nat.iter n pressed s) in *. clearbody s1.
    change (view (pressed s1)) with (press_kb 0x30 (view s1)).
    destruct (press_kb_spec 0x30 (view s1) Hk') as [Hk2 E]; [lia|].
    split; [exact Hk2|]. split.
    + rewrite <- Ht. apply press_tail.
    + rewrite E, press_accepts, C, <- app_assoc. by eexists.
Qed.

Section on_press_b.
#[local] Existing Instances press_b press_b_ok.

Lemma keyboard_getchar_spec_witness :
  ∃ c s' k, keyboard_getchar (cpu0, idt0, press_kb 0x1E kb0) = Ret c (put k s') ∧
    [c] ++ contents k = contents (view s') ∧ ∃ acc, contents (view s') = bytes "a" ++ acc.
Proof.
  destruct (keyboard_getchar_spec keys_only (cpu0, idt0, press_kb 0x1E kb0))
    as (_ & c & s' & k & _ & E & _ & Hz & Hc & acc & Ha); [apply press_b_ok|apply kb0_press|].
  pose proof (proj2 kb0_press) as Hb. exists c, s', k. split; [exact E|]. split.
  - etransitivity; [|symmetry; exact Hc]. destruct (Z.eqb_spec c 0) as [Hc0|]; [|done].
    pose proof (eq_trans (eq_sym Hb) (Hz Hc0)) as Hn. discriminate Hn.
  - exists acc. etransitivity; [exact Ha|]. exact (f_equal (.++ acc) Hb).
Defined.

End on_press_b.

Lemma keyboard_interleaved_witness :
  ∃ r, rtc kb_step (mk_run kb0 Idle [] []) r ∧ delivered r = bytes "a" ∧
    accepted r = delivered r ++ contents (r_kb r).
Proof.
  assert (∃ r, rtc kb_step (mk_run kb0 Idle [] []) r ∧ delivered r = bytes "a")
    as (r & Hr & Hd).
  { eexists. split.
    - eapply rtc_l; [by apply (step_irq 0x1E)|]. eapply rtc_l; [by apply step_check|].
      eapply rtc_l; [apply step_load|]. eapply rtc_l; [by apply (step_irq 0x30)|].
      apply rtc_once, step_commit.
    - done. }
  exists r. split; [exact Hr|]. split; [exact Hd|].
  by apply (keyboard_interleaved kb0 r kb0_ok kb0_contents Hr).
Defined.

(** The prefix of an extended code is dropped, but its second byte is taken for
    an ordinary make code: keypad Enter (0xE0 0x1C) types a newline. *)
Lemma extended_code_typed :
  contents (press_kb 0x1C (press_kb 0xE0 kb0)) = [10].
Proof. done. Qed.
