(* ===== verification/Memory.v ===== *)
(** The memory manager (memory/memory.c): start-up of the frame allocator and
    the kernel's bump-pointer heap. *)

From S2P Require Import Prelude Machine Vga Preempt Screen Serial Kprintf Panic Pmm.

#[local] Open Scope Z_scope.
#[local] Open Scope c_scope.

Definition HEAP_SIZE : Z := 256 * 1024.

(** The static of memory.c; [heap_area] itself is never written by it. *)
Record heap : Type := mk_heap { heap_offset : Z }.

Section memory.
Context {S : Type} `{!Lens S vga} `{!Lens S cpu} `{!Lens S pmm} `{!Lens S heap}
  `{!Preempt S} `{!Hardware} `{!PhysMem}.
Variable fuel : nat.
(** Where the linker put the static array. *)
Variable heap_area : Z.

Definition memory_init (mbi kernel_end_phys : Z) : M S unit :=
  pmm_init fuel mbi kernel_end_phys.

Definition kmalloc (size : Z) : M S Z :=
  let size := Z.land (size +u 15) (~u 15) in
  h ← gets heap_offset;
  (if HEAP_SIZE <? h +u size
   then kernel_panic fuel (bytes "kmalloc: kernel heap exhausted")
   else mret tt);;
  let ptr := heap_area +u h in
  modify (fun p => mk_heap (heap_offset p +u size));;
  mret ptr.

Definition kfree (ptr : Z) : M S unit := mret tt.

(** Consecutive requests. *)
Fixpoint kmallocs (sizes : list Z) : M S (list Z) :=
  match sizes with
  | [] => mret []
  | size :: sizes =>
      p ← kmalloc size;
      ps ← kmallocs sizes;
      mret (p :: ps)
  end.

End memory.

(** ** Invariant and blocks *)

Definition heap_ok (h : heap) : Prop :=
  0 ≤ heap_offset h ≤ HEAP_SIZE ∧ heap_offset h mod 16 = 0.

(** Requests for which the 32-bit sum cannot wrap. *)
Definition sane_size (size : Z) : Prop := 0 ≤ size ≤ 0xFFFFFFF0 - HEAP_SIZE.

Definition round16 (size : Z) : Z := (size + 15) / 16 * 16.

(** The block [p] of [size] bytes lies in [lo, hi). *)
Definition block_in (lo hi : Z) (b : Z * Z) : Prop := lo ≤ b.1 ∧ b.1 + b.2 ≤ hi.

(** The blocks follow each other upwards from [lo], 16-byte aligned, and end by [hi]. *)
Fixpoint laid_out (lo hi : Z) (bs : list (Z * Z)) : Prop :=
  match bs with
  | [] => lo ≤ hi
  | b :: bs => lo ≤ b.1 ∧ b.1 mod 16 = 0 ∧ laid_out (b.1 + b.2) hi bs
  end.

Definition disjoint_blocks (b b' : Z * Z) : Prop := b.1 + b.2 ≤ b'.1 ∨ b'.1 + b'.2 ≤ b.1.

(** ** Lemmas *)

Lemma align16 size : 0 ≤ size → size + 15 < 4294967296 →
  Z.land (size +u 15) (~u 15) = round16 size.
Proof.
  intros H0 H1. rewrite u32_id by lia. unfold round16.
  assert (Z.land (size + 15) (~u 15) = Z.ldiff (size + 15) (Z.ones 4)) as ->.
  { apply Z.bits_inj'. intros k Hk. rewrite Z.land_spec, Z.ldiff_spec, testbit_u32, Z.lnot_spec by lia.
    change 15 with (Z.ones 4) at 2. destruct (Z.ltb_spec k 32); [done|].
    rewrite (testbit_small (size + 15) 32) by (cbn; lia). done. }
  rewrite Z.ldiff_ones_r, Z.shiftr_div_pow2, Z.shiftl_mul_pow2 by lia. done.
Qed.

Lemma round16_bounds size : 0 ≤ size → size ≤ round16 size < size + 16 ∧ round16 size mod 16 = 0.
Proof. unfold round16. intros. rewrite Z.mod_mul by lia. dlia. Qed.

Lemma laid_out_lower lo hi bs : laid_out lo hi bs →
  Forall (fun b => 0 ≤ b.2) bs → Forall (fun b => lo ≤ b.1 ∧ b.1 + b.2 ≤ hi) bs ∧ lo ≤ hi.
Proof.
  revert lo. induction bs as [|b bs IH]; intros lo Hl Hs; [by split|].
  destruct Hl as (H1 & _ & Hl). apply Forall_cons_1 in Hs as [Hb Hs].
  destruct (IH _ Hl Hs) as [H2 H3]. split; [|lia]. constructor; [lia|].
  eapply Forall_impl; [done|]. intros b' ?. cbn in *. lia.
Qed.

(** Blocks laid out one after the other do not overlap. *)
Lemma laid_out_disjoint lo hi bs : laid_out lo hi bs →
  Forall (fun b => 0 ≤ b.2) bs → ForallOrdPairs disjoint_blocks bs.
Proof.
  revert lo. induction bs as [|b bs IH]; intros lo Hl Hs; [constructor|].
  destruct Hl as (H1 & _ & Hl). apply Forall_cons_1 in Hs as [Hb Hs].
  constructor; [|by eapply IH]. destruct (laid_out_lower _ _ _ Hl Hs) as [H2 _].
  eapply List.Forall_forall. intros b' Hin. rewrite List.Forall_forall in H2.
  destruct (H2 b' Hin). by left.
Qed.

Section kmalloc_lemmas.
Context {S : Type} `{!Lens S vga} `{!Lens S cpu} `{!Lens S heap}
  `{!Indep S cpu vga} `{!Preempt S} `{!Hardware}.
Variable fuel : nat.
Variable heap_area : Z.

(** The code's comparison, and the two ways on from it. *)
Lemma kmalloc_cases size (s : S) :
  let n := Z.land (size +u 15) (~u 15) in
  let h := heap_offset (view s) in
  kmalloc fuel heap_area size s
  = if HEAP_SIZE <? h +u n
    then kernel_panic fuel (bytes "kmalloc: kernel heap exhausted") s
    else Ret (heap_area +u h) (put (mk_heap (h +u n)) s).
Proof.
  cbn zeta. unfold kmalloc. rewrite (bind_ret (gets _) _ s _ s eq_refl).
  destruct (HEAP_SIZE <? _); [|done].
  apply panic_bind.
Qed.

Lemma kmalloc_ret size (s : S) :
  heap_ok (view s) → sane_size size → heap_offset (view s) + round16 size ≤ HEAP_SIZE →
  kmalloc fuel heap_area size s
  = Ret (heap_area +u heap_offset (view s))
      (put (mk_heap (heap_offset (view s) + round16 size)) s).
Proof.
  unfold heap_ok, sane_size, HEAP_SIZE. intros [Ho _] Hs Hf.
  pose proof (round16_bounds size ltac:(lia)).
  rewrite kmalloc_cases, align16, u32_id by lia. unfold HEAP_SIZE.
  by rewrite (proj2 (Z.ltb_ge _ _)) by lia.
Qed.

Lemma kmalloc_full size (s : S) :
  heap_ok (view s) → sane_size size → HEAP_SIZE < heap_offset (view s) + round16 size →
  kmalloc fuel heap_area size s
  = kernel_panic fuel (bytes "kmalloc: kernel heap exhausted") s.
Proof.
  unfold heap_ok, sane_size, HEAP_SIZE. intros [Ho _] Hs Hf.
  pose proof (round16_bounds size ltac:(lia)).
  rewrite kmalloc_cases, align16, u32_id by lia. unfold HEAP_SIZE.
  by rewrite (proj2 (Z.ltb_lt _ _)) by lia.
Qed.

End kmalloc_lemmas.

(** The bytes a list of requests takes from the heap. *)
Definition total16 (sizes : list Z) : Z := foldr (fun size acc => round16 size + acc) 0 sizes.

Section kmallocs_lemmas.
Context {S : Type} `{!Lens S vga} `{!Lens S cpu} `{!Lens S heap}
  `{!Indep S cpu vga} `{!Indep S cpu heap} `{!Preempt S} `{!PreemptOk S} `{!Hardware}.
Variable fuel : nat.
Variable heap_area : Z.

Lemma total16_nonneg sizes : Forall sane_size sizes → 0 ≤ total16 sizes.
Proof.
  induction 1 as [|size sizes [Hz _] _ IH]; cbn [total16 foldr]; [lia|].
  pose proof (round16_bounds size Hz). fold (total16 sizes). lia.
Qed.

Lemma heap_ok_alloc (s : S) size :
  heap_ok (view s) → sane_size size → heap_offset (view s) + round16 size ≤ HEAP_SIZE →
  heap_ok (mk_heap (heap_offset (view s) + round16 size)).
Proof.
  unfold heap_ok, sane_size. intros [Ho Hm] [Hs _] Hf. cbn [heap_offset].
  pose proof (round16_bounds size Hs). split; [lia|]. rewrite Z.add_mod by lia. dlia.
Qed.

(** Requests that fit are all granted, one block after the other. *)
Lemma kmallocs_fit sizes (s : S) :
  0 ≤ heap_area → heap_area mod 16 = 0 → heap_area + HEAP_SIZE < 4294967296 →
  heap_ok (view s) → Forall sane_size sizes →
  heap_offset (view s) + total16 sizes ≤ HEAP_SIZE →
  ∃ ps, kmallocs fuel heap_area sizes s
        = Ret ps (put (mk_heap (heap_offset (view s) + total16 sizes)) s) ∧
    length ps = length sizes ∧
    laid_out (heap_area + heap_offset (view s)) (heap_area + HEAP_SIZE) (zip ps sizes).
Proof.
  intros H0 Hal Hhi. revert s. induction sizes as [|size sizes IH]; intros s Hok Hs Hf.
  - exists []. cbn [kmallocs total16 foldr zip zip_with laid_out] in *.
    rewrite Z.add_0_r. split; [|split; [done|]].
    + replace (mk_heap (heap_offset (view s))) with (view (C := heap) s) by by destruct (view s).
      by rewrite put_view.
    + destruct Hok. lia.
  - apply Forall_cons_1 in Hs as [Hsz Hs]. cbn [total16 foldr] in Hf. fold (total16 sizes) in Hf.
    pose proof (total16_nonneg sizes Hs). destruct Hsz as [Hsz Hsz'].
    pose proof (round16_bounds size Hsz) as [Hb Hbm].
    cbn [kmallocs]. rewrite (bind_ret _ _ _ _ _ (kmalloc_ret fuel heap_area size s Hok
      (conj Hsz Hsz') ltac:(lia))).
    set (s1 := put _ s). assert (heap_offset (view s1) = heap_offset (view s) + round16 size) as E1
      by (unfold s1; by rewrite view_put).
    assert (heap_ok (view s1)) as Hok1.
    { unfold s1. rewrite view_put. by apply heap_ok_alloc; [| |lia]. }
    destruct (IH s1 Hok1 Hs ltac:(lia)) as (ps & E & Hl & Hlay).
    rewrite (bind_ret _ _ _ _ _ E). eexists. split; [unfold s1; rewrite put_put; cbn; f_equal|].
    { unfold s1. rewrite view_put. cbn [heap_offset]. do 2 f_equal. fold (total16 sizes). lia. }
    split; [cbn; by rewrite Hl|]. cbn [zip zip_with laid_out fst snd].
    destruct Hok as [Ho Hm]. unfold HEAP_SIZE in *. rewrite u32_id by lia.
    split; [lia|]. split; [dlia|]. rewrite E1 in Hlay.
    destruct (zip ps sizes) as [|b bs]; cbn [laid_out] in *; [lia|].
    destruct Hlay as (? & ? & ?). split; [lia|done].
Qed.

End kmallocs_lemmas.

(** ** Properties *)

Section properties.
Context {S : Type} `{!Lens S vga} `{!Lens S cpu} `{!Lens S heap}
  `{!Indep S cpu vga} `{!Indep S cpu heap} `{!Preempt S} `{!PreemptOk S} `{!Hardware}.
Variable fuel : nat.
Variable heap_area : Z.

(** C25: [kmalloc] returns the next 16-byte aligned block, inside the heap array
    and above everything allocated before, and changes nothing but the offset;
    when the rounded request does not fit, it panics (it never returns null),
    and [kfree] does nothing. *)
Theorem kmalloc_spec size (s : S) :
  heap_ok (view s) → sane_size size →
  0 ≤ heap_area → heap_area mod 16 = 0 → heap_area + HEAP_SIZE < 4294967296 →
  let off := heap_offset (view s) in
  (∀ p, kfree p s = Ret tt s) ∧
  (off + round16 size ≤ HEAP_SIZE →
   ∃ p h, kmalloc fuel heap_area size s = Ret p (put h s) ∧ heap_ok h ∧
     p mod 16 = 0 ∧ p = heap_area + off ∧ p + size ≤ heap_area + heap_offset h ∧
     heap_offset h < off + size + 16) ∧
  (HEAP_SIZE < off + round16 size → uart_live fuel LSR_TX_EMPTY → data_mode s →
   ∃ s', kmalloc fuel heap_area size s = Halted s' ∧ if_flag (view s') = false ∧
     view (C := vga) s'
     = vga_puts (panic_text (bytes "kmalloc: kernel heap exhausted"))
         (vga_set_color VGA_COLOR_WHITE VGA_COLOR_RED (view s))).
Proof.
  intros Hok Hsz H0 Hal Hhi off. destruct Hsz as [Hs0 Hs1].
  pose proof (round16_bounds size Hs0) as [Hb _]. split; [done|]. split.
  - intros Hf. eexists _, _. split; [by apply kmalloc_ret|].
    split; [by apply heap_ok_alloc|]. fold off. destruct Hok as [Ho Hm]. fold off in Ho, Hm.
    unfold HEAP_SIZE in *. cbn [heap_offset]. rewrite u32_id by lia.
    split; [dlia|]. split; [done|]. lia.
  - intros Hf live Hd. rewrite kmalloc_full by done.
    destruct (panic_halted (A := Z) fuel (bytes "kmalloc: kernel heap exhausted") s live Hd)
      as (s' & E & Hif & Hv & _).
    by exists s'.
Qed.

(** C24: any sequence of requests that fits in the heap is granted, and the
    blocks are pairwise disjoint, aligned, and inside the heap array. *)
Theorem kmallocs_disjoint sizes (s : S) :
  0 ≤ heap_area → heap_area mod 16 = 0 → heap_area + HEAP_SIZE < 4294967296 →
  heap_ok (view s) → Forall sane_size sizes →
  heap_offset (view s) + total16 sizes ≤ HEAP_SIZE →
  ∃ ps s', kmallocs fuel heap_area sizes s = Ret ps s' ∧ length ps = length sizes ∧
    heap_ok (view s') ∧
    ForallOrdPairs disjoint_blocks (zip ps sizes) ∧
    Forall (block_in heap_area (heap_area + HEAP_SIZE)) (zip ps sizes).
Proof.
  intros H0 Hal Hhi Hok Hs Hf.
  destruct (kmallocs_fit fuel heap_area sizes s H0 Hal Hhi Hok Hs Hf) as (ps & E & Hl & Hlay).
  assert (Forall (fun b => 0 ≤ b.2) (zip ps sizes)) as Hpos.
  { clear -Hs. revert ps. induction Hs as [|size sizes [Hz _] _ IH]; intros [|p ps]; cbn;
      try constructor; [done|apply IH]. }
  pose proof (total16_nonneg sizes Hs) as Ht.
  eexists ps, _. split; [exact E|]. split; [done|]. split; [|split].
  - rewrite view_put. destruct Hok as [Ho Hm]. split; cbn [heap_offset]; [lia|].
    assert (total16 sizes mod 16 = 0) as Htm.
    { clear -Hs. induction Hs as [|size sizes [Hsz _] _ IH]; [done|].
      cbn [total16 foldr]. fold (total16 sizes). pose proof (round16_bounds size Hsz). dlia. }
    dlia.
  - by eapply laid_out_disjoint.
  - destruct (laid_out_lower _ _ _ Hlay Hpos) as [Hin _].
    eapply Forall_impl; [exact Hin|]. intros b [H1 H2]. split; [|done].
    destruct Hok. lia.
Qed.

(** A request close to 4 GiB wraps the sum: it is granted although nothing like
    it fits, the offset falls back to 0, and the next block overlaps the first. *)
Lemma kmalloc_wraps (s : S) :
  heap_offset (view s) = 16 → heap_area = 0x120000 →
  ∃ s1 s2, kmalloc fuel heap_area 0xFFFFFFF0 s = Ret 0x120010 s1 ∧
    heap_offset (view s1) = 0 ∧
    kmalloc fuel heap_area 16 s1 = Ret 0x120000 s2.
Proof.
  intros Ho ->. assert (kmalloc fuel 0x120000 0xFFFFFFF0 s = Ret 0x120010 (put (mk_heap 0) s)) as E.
  { rewrite kmalloc_cases, Ho. done. }
  eexists _, _. split; [exact E|]. split; [by rewrite view_put|].
  rewrite kmalloc_cases, view_put. done.
Qed.

End properties.

(** ** The properties at concrete inputs *)

Definition heap_mach : Type := vga * cpu * heap.
Definition heap_mach0 : heap_mach := (vga0, cpu0, mk_heap 32).

Section on_uart16550.
#[local] Existing Instances uart16550 busy busy_ok.

Lemma kmalloc_spec_witness :
  ∃ p h, kmalloc 1 0x120000 100 heap_mach0 = Ret p (put h heap_mach0) ∧
    p = 0x120020.
Proof.
  destruct (kmalloc_spec 1 0x120000 100 heap_mach0) as (_ & Hfit & _);
    [by split|by unfold sane_size, HEAP_SIZE; lia|lia|done|by unfold HEAP_SIZE; lia|].
  destruct Hfit as (p & h & E & _ & _ & Hp & _); [by vm_compute|].
  exists p, h. split; [exact E|exact Hp].
Defined.

Lemma kmallocs_disjoint_witness :
  ∃ ps s', kmallocs 1 0x120000 [1; 17; 0] heap_mach0 = Ret ps s' ∧
    ForallOrdPairs disjoint_blocks (zip ps [1; 17; 0]).
Proof.
  destruct (kmallocs_disjoint 1 0x120000 [1; 17; 0] heap_mach0)
    as (ps & s' & E & _ & _ & Hd & _);
    [lia|done|by unfold HEAP_SIZE; lia|by split| |by vm_compute|].
  { repeat constructor; cbn; unfold HEAP_SIZE; lia. }
  exists ps, s'. split; [exact E|exact Hd].
Defined.

End on_uart16550.
