(* ===== verification/Uptime.v ===== *)
(** The hand-written decimal printer of the main loop (kernel/kernel.c): digits
    into a 13-byte buffer, reversed in place, terminated and sent as a string. *)

From S2P Require Import Prelude Digits.

#[local] Open Scope Z_scope.
#[local] Open Scope c_scope.

(** The bytes of an array up to its first NUL. *)
Fixpoint c_string (buf : list Z) : list Z :=
  match buf with
  | [] => []
  | c :: buf => if c =? 0 then [] else c :: c_string buf
  end.

Definition UPTIME_BUF : Z := 13.

(** [while (v > 0) { buf[i++] = '0' + v % 10; v /= 10; }]; [None] when a write
    would be out of bounds. *)
Fixpoint put_digits (n : nat) (v i : Z) (buf : list Z) : option (Z * list Z) :=
  match n with
  | O => None
  | S n =>
      if 0 <? v then
        if i <? UPTIME_BUF
        then put_digits n (v / 10) (i + 1) buf.[i <- 48 + v mod 10]
        else None
      else Some (i, buf)
  end.

(** [for (int a = 0, b = i - 1; a < b; a++, b--)] swap. *)
Fixpoint reverse_loop (n : nat) (a b : Z) (buf : list Z) : option (list Z) :=
  match n with
  | O => None
  | S n =>
      if a <? b then
        let tmp := buf.[a] in
        let buf := buf.[a <- buf.[b]] in
        let buf := buf.[b <- tmp] in
        reverse_loop n (a + 1) (b - 1) buf
      else Some buf
  end.

(** The block that fills [buf]; the array is uninitialised in C, and only cells
    that were written are read. *)
Definition uptime_buf (sec : Z) : option (list Z) :=
  let buf := replicate 13 0 in
  let '(i, buf) := if sec =? 0 then (0 + 1, buf.[0 <- 48]) else (0, buf) in
  '(i, buf) ← put_digits 14 sec i buf;
  buf ← reverse_loop 14 0 (i - 1) buf;
  if i + 2 <? UPTIME_BUF
  then Some buf.[i <- 115].[i + 1 <- 10].[i + 2 <- 0]
  else None.

(** ** Lemmas *)

Lemma put_digits_spec n v i buf :
  0 ≤ v < 10 ^ Z.of_nat n → length buf = 13%nat →
  (i + length (lsd n 10 v) ≤ 13)%nat →
  ∃ buf', put_digits (S n) v (Z.of_nat i) buf
          = Some (Z.of_nat (i + length (lsd n 10 v)), buf') ∧ length buf' = 13%nat ∧
    ∀ k, 0 ≤ k →
      rd buf' k = if (Z.of_nat i <=? k) && (k <? Z.of_nat (i + length (lsd n 10 v)))
                  then rd (map (Z.add 48) (lsd n 10 v)) (k - Z.of_nat i) else rd buf k.
Proof.
  revert v i buf. induction n as [|n IH]; intros v i buf Hv Hbuf Hi.
  - cbn in Hv |- *. assert (v = 0) as -> by lia. cbn. exists buf. rewrite Nat.add_0_r.
    split_and!; [done..|]. intros k Hk.
    destruct (Z.leb_spec (Z.of_nat i) k), (Z.ltb_spec k (Z.of_nat i)); done || lia.
  - remember (S n) as n'. cbn [put_digits]. subst n'. cbn [lsd] in *.
    destruct (Z.ltb_spec 0 v).
    + cbn [length map] in *. unfold UPTIME_BUF at 1. rewrite (proj2 (Z.ltb_lt (Z.of_nat i) 13)) by lia.
      destruct (IH (v / 10) (S i) (wr buf (Z.of_nat i) (48 + v mod 10)))
        as (buf' & Hf & Hl & Ht); [by apply div_lt_pow|by rewrite length_wr by lia|lia|].
      exists buf'. replace (Z.of_nat i + 1) with (Z.of_nat (S i)) by lia.
      rewrite Hf, Nat.add_succ_r. split_and!; [done..|]. intros k Hk. rewrite Ht by done.
      rewrite Nat.add_succ_l. set (m := S (i + length (lsd n 10 (v / 10)))).
      destruct (decide (k = Z.of_nat i)) as [->|Hne].
      * rewrite (proj2 (Z.leb_gt _ _)) by lia. rewrite Z.leb_refl, Z.sub_diag. cbn [andb].
        rewrite (proj2 (Z.ltb_lt (Z.of_nat i) (Z.of_nat m))) by lia. rewrite rd_wr_eq by lia. done.
      * rewrite rd_wr_ne by lia.
        destruct (Z.leb_spec (Z.of_nat (S i)) k), (Z.leb_spec (Z.of_nat i) k); try lia; [|done].
        destruct (k <? Z.of_nat m); [|done]. cbn [andb]. unfold rd.
        replace (Z.to_nat (k - Z.of_nat i)) with (S (Z.to_nat (k - Z.of_nat (S i)))) by lia. done.
    + cbn. exists buf. rewrite Nat.add_0_r. split_and!; [done..|]. intros k Hk.
      destruct (Z.leb_spec (Z.of_nat i) k), (Z.ltb_spec k (Z.of_nat i)); done || lia.
Qed.

(** The two-index loop reverses the first [i] cells. *)
Lemma reverse_loop_spec n a b buf :
  0 ≤ a → b < 13 → a ≤ b + 2 → length buf = 13%nat → b - a < Z.of_nat n →
  ∃ buf', reverse_loop (S n) a b buf = Some buf' ∧ length buf' = 13%nat ∧
    ∀ k, 0 ≤ k → rd buf' k = if (a <=? k) && (k <=? b) then rd buf (a + b - k) else rd buf k.
Proof.
  revert a b buf. induction n as [|n IH]; intros a b buf Ha Hb Hab Hl Hn.
  - cbn [reverse_loop]. rewrite (proj2 (Z.ltb_ge a b)) by lia. exists buf. split_and!; [done..|].
    intros k Hk. destruct (Z.leb_spec a k), (Z.leb_spec k b); try done. lia.
  - remember (S n) as n'. cbn [reverse_loop]. subst n'. destruct (Z.ltb_spec a b).
    + destruct (IH (a + 1) (b - 1) (wr (wr buf a (rd buf b)) b (rd buf a)))
        as (buf' & E & Hl' & Hrd); [lia..|by rewrite !length_wr by (rewrite ?length_wr; lia)|lia|].
      exists buf'. split_and!; [done..|]. intros k Hk. rewrite Hrd by done.
      replace (a + 1 + (b - 1) - k) with (a + b - k) by lia.
      destruct (decide (k = a)) as [->|]; [|destruct (decide (k = b)) as [->|]].
      * rewrite (proj2 (Z.leb_gt (a + 1) a)) by lia. rewrite Z.leb_refl. cbn [andb].
        rewrite (proj2 (Z.leb_le a b)) by lia. replace (a + b - a) with b by lia.
        rewrite rd_wr_ne by (rewrite ?length_wr; lia). by rewrite rd_wr_eq by lia.
      * rewrite (proj2 (Z.leb_gt b (b - 1))) by lia. rewrite Z.leb_refl, andb_false_r.
        rewrite (proj2 (Z.leb_le a b)) by lia. replace (a + b - b) with a by lia. cbn [andb].
        by rewrite rd_wr_eq by (rewrite length_wr; lia).
      * destruct (Z.leb_spec (a + 1) k), (Z.leb_spec k (b - 1)), (Z.leb_spec a k), (Z.leb_spec k b);
          cbn [andb]; try lia; by rewrite !rd_wr_ne by (rewrite ?length_wr; lia).
    + exists buf. split_and!; [done..|]. intros k Hk.
      destruct (Z.leb_spec a k), (Z.leb_spec k b); cbn [andb]; try done. f_equal. lia.
Qed.

Lemma c_string_app t r : Forall (fun c => c ≠ 0) t → c_string (t ++ 0 :: r) = t.
Proof.
  induction 1 as [|c t Hc _ IH]; [done|]. cbn [app c_string].
  by rewrite (proj2 (Z.eqb_neq c 0) Hc), IH.
Qed.

(** A buffer whose cells spell a text and a NUL. *)
Lemma c_string_cells t buf :
  Forall (fun c => c ≠ 0) t → (length t < length buf)%nat →
  (∀ k, 0 ≤ k < Z.of_nat (length t) → rd buf k = rd t k) →
  rd buf (Z.of_nat (length t)) = 0 → c_string buf = t.
Proof.
  intros Ht Hl Hk H0. replace buf with (t ++ 0 :: drop (S (length t)) buf); [by apply c_string_app|].
  apply rd_ext; [rewrite length_app; cbn; rewrite length_drop; lia|]. intros k Hr.
  rewrite rd_app by lia. destruct (Z.ltb_spec k (Z.of_nat (length t))); [by rewrite Hk by lia|].
  destruct (decide (k = Z.of_nat (length t))) as [->|]; [by rewrite Z.sub_diag|].
  unfold rd. replace (Z.to_nat (k - Z.of_nat (length t))) with (S (Z.to_nat k - S (length t))) by lia.
  transitivity (drop (S (length t)) buf !!! (Z.to_nat k - S (length t))%nat); [done|].
  rewrite lookup_total_drop. f_equal. lia.
Qed.

Lemma rd_rev t k :
  0 ≤ k < Z.of_nat (length t) → rd (rev t) k = rd t (Z.of_nat (length t) - 1 - k).
Proof.
  intros Hk. unfold rd. rewrite rev_alt. change (rev_append t []) with (reverse t).
  rewrite !list_lookup_total_alt. f_equal. rewrite reverse_lookup by lia. f_equal. lia.
Qed.

(** The text of the line, for a number of seconds. *)
Definition uptime_text (sec : Z) : list Z := decimal sec ++ [115; 10].

Lemma decimal_nonzero sec : 0 ≤ sec < 4294967296 → Forall (fun c => c ≠ 0) (decimal sec).
Proof.
  intros Hs. destruct (decide (sec = 0)) as [->|]; [by repeat constructor|].
  rewrite (decimal_lsd 10) by (cbn; lia). apply Forall_rev, Forall_map.
  eapply Forall_impl; [by apply (lsd_range 10 10 sec)|]. intros d ?. cbn in *. lia.
Qed.

(** The digits in the order they are generated, zero included. *)
Lemma decimal_rev sec :
  0 ≤ sec < 4294967296 →
  ∃ i0 buf0 i buf,
    (if sec =? 0 then (0 + 1, wr (replicate 13 0) 0 48) else (0, replicate 13 0)) = (i0, buf0) ∧
    put_digits 14 sec i0 buf0 = Some (Z.of_nat i, buf) ∧ length buf = 13%nat ∧ (1 ≤ i ≤ 10)%nat ∧
    length (decimal sec) = i ∧
    ∀ k, 0 ≤ k < Z.of_nat i → rd buf k = rd (decimal sec) (Z.of_nat i - 1 - k).
Proof.
  intros Hs. destruct (Z.eqb_spec sec 0) as [->|].
  - exists 1, (wr (replicate 13 0) 0 48), 1%nat, (wr (replicate 13 0) 0 48).
    split_and!; [done|done|done|lia|lia|done|].
    intros k Hk. by replace k with 0 by lia.
  - assert (length (lsd 13 10 sec) ≤ 10)%nat by (apply lsd_length; cbn; lia).
    destruct (put_digits_spec 13 sec 0 (replicate 13 0)) as (buf & E & Hl & Hk);
      [cbn; lia|done|cbn [Nat.add]; lia|].
    cbn [Nat.add] in *. exists 0, (replicate 13 0), (length (lsd 13 10 sec)), buf.
    assert (decimal sec = rev (map (Z.add 48) (lsd 13 10 sec))) as Hdec
      by (apply decimal_lsd; cbn; lia).
    split_and!; [done|done|done| |lia| |].
    + cbn [lsd]. rewrite (proj2 (Z.ltb_lt 0 sec)) by lia. cbn. lia.
    + by rewrite Hdec, length_rev, length_map.
    + intros k Hr. rewrite Hk by lia. rewrite (proj2 (Z.leb_le (Z.of_nat 0) k)) by lia.
      rewrite (proj2 (Z.ltb_lt k _)) by lia. cbn [andb]. rewrite Hdec, rd_rev.
      * rewrite length_map. f_equal. lia.
      * rewrite length_map. lia.
Qed.

(** The buffer holds the text of the line. *)
Lemma uptime_buf_spec sec :
  0 ≤ sec < 4294967296 →
  ∃ buf, uptime_buf sec = Some buf ∧ length buf = 13%nat ∧ c_string buf = uptime_text sec.
Proof.
  intros Hs. destruct (decimal_rev sec Hs) as (i0 & buf0 & i & buf & E0 & E & Hl & Hi & Hlen & Hk).
  unfold uptime_buf. rewrite E0, E. cbn [mbind option_bind]. unfold UPTIME_BUF.
  destruct (reverse_loop_spec 13 0 (Z.of_nat i - 1) buf) as (buf' & E' & Hl' & Hk'); [lia..|].
  rewrite E'. cbn [mbind option_bind]. rewrite (proj2 (Z.ltb_lt _ _)) by lia.
  set (b1 := wr buf' _ 115). assert (length b1 = 13%nat) as L1 by (unfold b1; rewrite length_wr; lia).
  set (b2 := wr b1 _ 10). assert (length b2 = 13%nat) as L2 by (unfold b2; rewrite length_wr; lia).
  assert (length (uptime_text sec) = (i + 2)%nat) as Ht.
  { unfold uptime_text. rewrite length_app, Hlen. cbn. lia. }
  eexists. split; [done|]. split; [rewrite length_wr; lia|]. apply c_string_cells.
  - apply Forall_app. split; [by apply decimal_nonzero|by repeat constructor].
  - rewrite length_wr; lia.
  - rewrite Ht. intros k Hr. rewrite rd_wr_ne by lia. unfold uptime_text.
    rewrite rd_app, Hlen by lia. unfold b2. destruct (Z.ltb_spec k (Z.of_nat i)).
    + rewrite rd_wr_ne by lia. unfold b1. rewrite rd_wr_ne, Hk' by lia.
      rewrite (proj2 (Z.leb_le 0 k)), (proj2 (Z.leb_le k _)) by lia.
      cbn [andb]. rewrite Hk by lia. f_equal. lia.
    + destruct (decide (k = Z.of_nat i)) as [->|].
      * rewrite rd_wr_ne by lia. unfold b1. rewrite rd_wr_eq by lia. by rewrite Z.sub_diag.
      * replace k with (Z.of_nat i + 1) by lia. rewrite rd_wr_eq by lia.
        by replace (Z.of_nat i + 1 - Z.of_nat i) with 1 by lia.
  - rewrite Ht. replace (Z.of_nat (i + 2)) with (Z.of_nat i + 2) by lia. apply rd_wr_eq. lia.
Qed.

Lemma uptime_string sec :
  0 ≤ sec < 4294967296 → ∃ buf, uptime_buf sec = Some buf ∧ c_string buf = uptime_text sec.
Proof. intros Hs. destruct (uptime_buf_spec sec Hs) as (buf & ? & _ & ?). by exists buf. Qed.

(** C35: for every 32-bit number of seconds the buffer is filled without an
    access out of its 13 bytes, and holds the string of the decimal number
    followed by "s" and a newline. *)
Theorem uptime_buf_text sec :
  0 ≤ sec < 4294967296 →
  ∃ buf, uptime_buf sec = Some buf ∧ length buf = 13%nat ∧ c_string buf = uptime_text sec.
Proof. apply uptime_buf_spec. Qed.

Lemma uptime_buf_text_witness :
  0 ≤ 4294967295 < 4294967296 ∧
  ∃ buf, uptime_buf 4294967295 = Some buf ∧ c_string buf = bytes "4294967295s" ++ [10].
Proof.
  split; [lia|]. destruct (uptime_buf_text 4294967295) as (buf & E & _ & Hc); [lia|].
  exists buf. by split.
Defined.
