(* ===== verification/Kernel.v ===== *)
(** The kernel proper (kernel/kernel.c): the boot sequence, the self-test and
    the main loop, over the state of all components. Once interrupts are enabled
    they are delivered between statements and, inside the console drivers and the
    keyboard reader, between accesses to ports and shared variables. *)

From S2P Require Import Prelude Machine Vga Preempt Screen Serial Digits Kprintf Pic Panic Idt Pmm PmmSpec Gdt Pit Keyboard Memory Uptime.

#[local] Open Scope Z_scope.
#[local] Open Scope c_scope.

Definition MULTIBOOT_BOOTLOADER_MAGIC : Z := 0x2BADB002.

(** The IRQ handlers whose addresses the drivers register. *)
Inductive handler : Type := pit_irq0 | keyboard_irq1.

(** The statics of all source files, and the processor. *)
Definition kernel : Type :=
  vga * cpu * gdt_state * idt_state handler * pmm * heap * pit * kb.

(** Addresses the linker assigns. *)
Class Image : Type := {
  stub_addr : stub → Z;
  idt_addr : Z;
  gdt_addr : Z;
  heap_area : Z;
  kernel_end : Z
}.

(** The [cpuid] instruction: EAX, EBX, ECX, EDX for a leaf. *)
Class Cpuid : Type := cpuid : Z → Z * Z * Z * Z.

(** The interrupts the hardware delivers at a point of the trace, in order; each
    arrives through one of the sixteen IRQ stubs. *)
Class Interrupts : Type := {
  pending : list event → list frame;
  pending_irq : ∀ tr f, In f (pending tr) → 32 ≤ fr_int_no f < 48
}.

Section kernel.
Context `{!Hardware} `{!PhysMem} `{!Image} `{!Cpuid} `{!Interrupts}.
Variable fuel : nat.

(** Calling through a registered handler. *)
Definition call (h : handler) (f : frame) : M kernel unit :=
  match h with
  | pit_irq0 => pit_irq0_handler f
  | keyboard_irq1 => keyboard_irq1_handler f
  end.

(** The processor takes the vector of [f], with the interrupt flag clear, the stub calls
    [irq_handler], and [iret] sets the flag again. *)
Definition serve (f : frame) : M kernel unit :=
  modify (take_vector (fr_int_no f));; irq_handler call f;; modify (set_if true).

(** Serve what is pending, if interrupts are enabled. *)
Definition irqs : M kernel unit :=
  c ← gets (fun c : cpu => c);
  if if_flag c then mapM_ serve (pending (trace c)) else mret tt.

(** The drivers can be interrupted at every access to a port or to shared data. *)
#[global] Instance kernel_preempt : Preempt kernel := irqs.

(** [m ;! k]: an interruptible statement. *)
#[local] Notation "m ;! k" := (m;; irqs;; k) (at level 100, k at level 200, right associativity).

Definition hlt : M kernel unit := modify (log EHlt);; irqs.

Definition color (fg bg : vga_color_t) : M kernel unit := modify (vga_set_color fg bg).

Definition puts (s : list Z) : M kernel unit := kputs fuel (Some s).

Definition print_banner : M kernel unit :=
  color VGA_COLOR_LIGHT_CYAN VGA_COLOR_BLACK;;
  puts (bytes "    ___        _               ___  ____  " ++ nl);;
  puts (bytes "   / _ \  ___ | |_  _ __  __ _/ _ \/ ___| " ++ nl);;
  puts (bytes "  | |_| |/ __|| __|| '__|/ _` | | | \___ \ " ++ nl);;
  puts (bytes "  |  _  |\__ \| |_ | |  | (_| | |_| |___) |" ++ nl);;
  puts (bytes "  |_| |_||___/ \__||_|   \__,_|\___/|____/ " ++ nl ++ nl);;
  color VGA_COLOR_WHITE VGA_COLOR_BLACK;;
  puts (bytes "  AstraOS v0.2  -  Hardened Bare-Metal Kernel" ++ nl);;
  puts (bytes "  =============================================" ++ nl ++ nl).

Definition status_ok (name : list Z) : M kernel unit :=
  color VGA_COLOR_LIGHT_GREEN VGA_COLOR_BLACK;;
  puts (bytes "  [OK] ");;
  color VGA_COLOR_LIGHT_GREY VGA_COLOR_BLACK;;
  puts name;;
  puts nl.

(** The four bytes of a register, low byte first. *)
Definition reg_bytes (r : Z) : list Z :=
  [Z.land r 0xFF; Z.land (Z.shiftr r 8) 0xFF; Z.land (Z.shiftr r 16) 0xFF;
   Z.land (Z.shiftr r 24) 0xFF].

Definition print_cpu_info : M kernel unit :=
  let '(eax, ebx, ecx, edx) := cpuid 0 in
  let vendor := reg_bytes ebx ++ reg_bytes edx ++ reg_bytes ecx ++ [0] in
  color VGA_COLOR_YELLOW VGA_COLOR_BLACK;;
  kprintf fuel (bytes "  CPU: %s (max leaf 0x%x)" ++ nl) [VStr (Some (c_string vendor)); VInt eax].

(** The statements of the self-test; interrupts are enabled. The delay loop only
    lets time pass. *)
Definition delay : M kernel unit := irqs.

Definition run_selftest : M kernel unit :=
  color VGA_COLOR_YELLOW VGA_COLOR_BLACK;!
  puts (nl ++ bytes "  === AstraOS Self-Test ===" ++ nl);!
  color VGA_COLOR_LIGHT_GREY VGA_COLOR_BLACK;!
  puts (bytes "  [1] Timer ... ");!
  t0 ← pit_get_ticks;
  delay;;
  t1 ← pit_get_ticks;
  (if t0 <? t1 then
     color VGA_COLOR_LIGHT_GREEN VGA_COLOR_BLACK;!
     kprintf fuel (bytes "PASS (ticks advanced %u)" ++ nl) [VInt (t1 -u t0)]
   else
     color VGA_COLOR_LIGHT_RED VGA_COLOR_BLACK;!
     puts (bytes "WARN (no ticks observed — IRQ may be masked)" ++ nl));!
  color VGA_COLOR_LIGHT_GREY VGA_COLOR_BLACK;!
  puts (bytes "  [2] PMM alloc/free ... ");!
  p ← gets (fun p : pmm => p);
  let '(frame, p') := pmm_alloc_frame p in
  modify (fun _ => p');!
  (if negb (frame =? 0) then
     modify (pmm_free_frame frame);!
     color VGA_COLOR_LIGHT_GREEN VGA_COLOR_BLACK;!
     kprintf fuel (bytes "PASS (frame at 0x%x)" ++ nl) [VInt frame]
   else
     color VGA_COLOR_LIGHT_RED VGA_COLOR_BLACK;!
     puts (bytes "FAIL (no free frame)" ++ nl));!
  color VGA_COLOR_LIGHT_GREEN VGA_COLOR_BLACK;!
  puts (bytes "  Self-test complete." ++ nl ++ nl).

(** Steps 1 to 9 of [kernel_main]: everything before the self-test. *)
Definition kernel_boot (magic mbi : Z) : M kernel unit :=
  modify vga_init;;
  serial_init fuel;;
  (if negb (magic =? MULTIBOOT_BOOTLOADER_MAGIC) then
     kernel_panic fuel
       (bytes "Invalid Multiboot magic — not loaded by a Multiboot bootloader")
   else mret tt);;
  print_banner;;
  gdt_init gdt_addr;;
  interrupts_init (H := handler) stub_addr idt_addr;;
  status_ok (bytes "Interrupt subsystem (IDT + 8259A PIC)");;
  memory_init fuel mbi kernel_end;;
  status_ok (bytes "Physical Memory Manager");;
  print_cpu_info;;
  pit_init pit_irq0;;
  status_ok (bytes "PIT timer (100 Hz)");;
  keyboard_init keyboard_irq1;;
  status_ok (bytes "PS/2 keyboard driver");;
  sti;!
  color VGA_COLOR_LIGHT_GREEN VGA_COLOR_BLACK;!
  puts (bytes "  Interrupts ENABLED" ++ nl).

(** The uptime line, when the second has changed; the result is [last_sec]. *)
Definition print_uptime (sec last_sec : Z) : M kernel Z :=
  if negb (sec =? last_sec) then
    serial_puts fuel (bytes "[TICK] uptime=");!
    match uptime_buf sec with
    | Some buf => serial_puts fuel (c_string buf);! mret sec
    | None => fault
    end
  else mret last_sec.

Definition echo_key : M kernel unit :=
  b ← keyboard_poll;
  if (b : bool) then
    irqs;;
    c ← keyboard_getchar;
    if negb (c =? 0) then
      color VGA_COLOR_LIGHT_CYAN VGA_COLOR_BLACK;!
      vga_putchar_i c;!
      serial_putchar fuel c;!
      mret tt
    else mret tt
  else mret tt.

(** One round of the [for (;;)] of [kernel_main]. *)
Definition kernel_round (last_sec : Z) : M kernel Z :=
  ticks ← pit_get_ticks;
  irqs;;
  let sec := ticks / PIT_FREQUENCY_HZ in
  last_sec ← print_uptime sec last_sec;
  echo_key;;
  irqs;;
  hlt;;
  mret last_sec.

(** [n] rounds of the loop, which never ends. *)
Fixpoint kernel_rounds (n : nat) (last_sec : Z) : M kernel Z :=
  match n with
  | O => mret last_sec
  | S n => last_sec ← kernel_round last_sec; kernel_rounds n last_sec
  end.

(** [kernel_main], for [n] rounds of its loop. *)
Definition kernel_main (n : nat) (magic mbi : Z) : M kernel Z :=
  kernel_boot magic mbi;!
  run_selftest;!
  color VGA_COLOR_WHITE VGA_COLOR_BLACK;!
  puts (bytes "  AstraOS is running.  Type on the keyboard to interact." ++ nl);!
  puts (bytes "  Uptime: ");!
  kernel_rounds n 0.

End kernel.
