(* ===== verification/KernelSpec.v ===== *)
(** What the kernel does as a whole: transcripts of its two consoles, the effect
    of interrupts between statements, and the lemmas by which the boot sequence,
    the self-test and the main loop are composed from their components. *)

From S2P Require Import Prelude Machine Vga Preempt Screen Serial Digits Kprintf Pic Panic Idt Pmm PmmSpec Gdt Pit Keyboard Memory Uptime Kernel.

#[local] Open Scope Z_scope.
#[local] Open Scope c_scope.

(** ** Console transcripts *)

Inductive con : Type :=
| Color (fg bg : vga_color_t)
| Say (t : list Z)            (* screen and serial line *)
| Log (t : list Z).           (* serial line only, by [serial_puts] *)

Definition paint (o : con) (v : vga) : vga :=
  match o with Color fg bg => vga_set_color fg bg v | Say t => vga_puts t v | Log _ => v end.

Definition sent (o : con) : list Z :=
  match o with Color _ _ => [] | Say t => t | Log t => crlf t end.

Definition paints (ops : list con) (v : vga) : vga := fold_left (fun v o => paint o v) ops v.
Definition sents (ops : list con) : list Z := flat_map sent ops.

Lemma paints_app a b v : paints (a ++ b) v = paints b (paints a v).
Proof. apply fold_left_app. Qed.
Lemma sents_app a b : sents (a ++ b) = sents a ++ sents b.
Proof. apply flat_map_app. Qed.

(** ** Effects

    [effect0 ops s s'] : from [s] to [s'] the transcript [ops] was written;
    interrupts may have advanced the tick counter and queued key presses, and
    the frame allocator may have changed; nothing else did. *)

(** What every piece of kernel code relies on and keeps. *)
Record sane (s : kernel) : Prop := {
  sane_uart : data_mode s;
  sane_kb : kb_ok (view s);
  sane_ticks : 0 ≤ ticks (view s) < 4294967296
}.

(** Line 0, and no other, runs the tick handler. *)
Definition timer_line (d : idt_state handler) : Prop :=
  ∀ n, 0 ≤ n < 16 → irq_handlers d !!! Z.to_nat n = Some pit_irq0 ↔ n = 0.

(** The timer interrupts taken so far. *)
Definition timer_vectors (tr : list event) : Z :=
  Z.of_nat (length (filter (fun e => e = EVector 32) tr)).

Lemma timer_vectors_app a b : timer_vectors (a ++ b) = timer_vectors a + timer_vectors b.
Proof. unfold timer_vectors. rewrite filter_app, length_app. lia. Qed.

Lemma timer_vector v : timer_vectors [EVector v] = if v =? 32 then 1 else 0.
Proof.
  unfold timer_vectors. cbn. case_decide as Hv; [injection Hv as ->; done|].
  destruct (Z.eqb_spec v 32) as [Hz|]; [by rewrite Hz in Hv|done].
Qed.

(** The clock counts the timer interrupts taken. *)
Definition ticked (s s' : kernel) : Prop :=
  ticks (view s')
  = u32 (ticks (view s) + (timer_vectors (trace (view s')) - timer_vectors (trace (view s)))).

(** The key queue was offered the characters typed; [keys] were taken out of it. *)
Definition keyed (keys : list Z) (s s' : kernel) : Prop :=
  ∃ ks, key_events (trace (view s')) = key_events (trace (view s)) ++ ks ∧
    offered ks (contents (view s)) (keys ++ contents (view s')).

(** No interrupt has been taken: the clock and the keys stand still. *)
Record still (s s' : kernel) : Prop := {
  still_vectors : timer_vectors (trace (view s')) = timer_vectors (trace (view s));
  still_events : key_events (trace (view s')) = key_events (trace (view s));
  still_pit : view (C := pit) s' = view s;
  still_kb : view (C := kb) s' = view s
}.

#[export] Instance still_preorder : PreOrder still.
Proof.
  split; [by intros s|]. intros s1 s2 s3 [V1 E1 P1 B1] [V2 E2 P2 B2].
  by split; rewrite ?V2, ?E2, ?P2, ?B2.
Qed.

Lemma ticked_trans s1 s2 s3 : ticked s1 s2 → ticked s2 s3 → ticked s1 s3.
Proof.
  unfold ticked. intros F1 F2. rewrite F2, F1. unfold u32. rewrite Zplus_mod_idemp_l. f_equal. lia.
Qed.

Lemma keyed_trans k1 k2 s1 s2 s3 : keyed k1 s1 s2 → keyed k2 s2 s3 → keyed (k1 ++ k2) s1 s3.
Proof.
  intros (ks1 & A1 & O1) (ks2 & A2 & O2). exists (ks1 ++ ks2). rewrite A2, A1, app_assoc.
  split; [done|]. rewrite <- app_assoc. by eapply offered_took.
Qed.

Lemma still_ticked s s' : 0 ≤ ticks (view s) < 4294967296 → still s s' → ticked s s'.
Proof. intros Ht [V _ P _]. unfold ticked. by rewrite P, V, Z.sub_diag, Z.add_0_r, u32_id. Qed.

Lemma still_keyed s s' : still s s' → keyed [] s s'.
Proof.
  intros [_ E _ B]. exists []. rewrite E, B, app_nil_r. split; [done|apply offered_none].
Qed.

(** What interrupt handlers and console drivers may change besides the screen and
    the serial line; [background0] allows for the frame allocator, too. The key
    queue is offered the scan codes read meanwhile, the clock counts the timer
    interrupts taken, and with interrupts disabled both stand still. *)
Record background0 (s s' : kernel) : Prop := {
  bg_pics : master_of (trace (view s')) = master_of (trace (view s)) ∧
            slave_of (trace (view s')) = slave_of (trace (view s));
  bg_cpu : ∃ l, view (C := cpu) s' = with_trace (trace (view s) ++ l) (view s);
  bg_gdt : view (C := gdt_state) s' = view s;
  bg_idt : view (C := idt_state handler) s' = view s;
  bg_heap : view (C := heap) s' = view s;
  bg_kb : kb_ok (view s) → kb_ok (view s') ∧ kb_tail (view s') = kb_tail (view s) ∧
          keyed [] s s';
  bg_ticks : 0 ≤ ticks (view s) < 4294967296 →
             0 ≤ ticks (view s') < 4294967296 ∧ (timer_line (view s) → ticked s s');
  bg_calm : if_flag (view s) = false → still s s'
}.

Definition background (s s' : kernel) : Prop :=
  background0 s s' ∧ view (C := pmm) s' = view s.

#[export] Instance background0_preorder : PreOrder background0.
Proof.
  split.
  - intros s. split; try done.
    + exists []. by rewrite app_nil_r, with_trace_id.
    + intros. split; [done|]. split; [done|]. by apply still_keyed.
    + intros. split; [done|]. intros _. by apply still_ticked.
  - intros s1 s2 s3 [[M1 L1] [l1 C1] G1 I1 H1 K1 T1 Q1] [[M2 L2] [l2 C2] G2 I2 H2 K2 T2 Q2]. split.
    + by rewrite M2, L2.
    + exists (l1 ++ l2). by rewrite C2, C1, with_trace_trace, with_trace_twice, app_assoc.
    + by rewrite G2.
    + by rewrite I2.
    + by rewrite H2.
    + intros Hk. destruct (K1 Hk) as (Hk1 & E1 & O1). destruct (K2 Hk1) as (Hk2 & E2 & O2).
      split; [done|]. split; [by rewrite E2|]. exact (keyed_trans [] [] _ _ _ O1 O2).
    + intros Ht. destruct (T1 Ht) as [Ht1 F1]. destruct (T2 Ht1) as [Ht2 F2]. split; [done|].
      intros Hl. apply (ticked_trans _ s2); [by apply F1|]. apply F2. by rewrite I1.
    + intros Hi. transitivity s2; [by apply Q1|]. apply Q2. by rewrite C1.
Qed.

#[export] Instance background_preorder : PreOrder background.
Proof.
  split; [by intros s|]. intros s1 s2 s3 [B1 P1] [B2 P2]. split; [by etransitivity|by rewrite P2].
Qed.

Record effect0 (ops : list con) (s s' : kernel) : Prop := {
  eff_vga : view (C := vga) s' = paints ops (view s);
  eff_uart : uart_of (trace (view s')) = uart_out (sents ops) (uart_of (trace (view s)));
  eff_bg : background0 s s'
}.

Definition effect (ops : list con) (s s' : kernel) : Prop :=
  effect0 ops s s' ∧ view (C := pmm) s' = view s.

Lemma effect0_refl s : effect0 [] s s.
Proof. split; [done|by rewrite uart_out_nil|reflexivity]. Qed.

Lemma effect0_trans a b s1 s2 s3 :
  effect0 a s1 s2 → effect0 b s2 s3 → effect0 (a ++ b) s1 s3.
Proof.
  intros [V1 U1 B1] [V2 U2 B2]. split.
  - by rewrite V2, V1, paints_app.
  - by rewrite U2, U1, uart_out_app, sents_app.
  - by etransitivity.
Qed.

Lemma effect_refl s : effect [] s s.
Proof. split; [apply effect0_refl|done]. Qed.

Lemma effect_trans a b s1 s2 s3 : effect a s1 s2 → effect b s2 s3 → effect (a ++ b) s1 s3.
Proof.
  intros [E1 P1] [E2 P2]. split; [by eapply effect0_trans|by rewrite P2].
Qed.

Lemma effect0_sane ops s s' : effect0 ops s s' → sane s → sane s'.
Proof.
  intros [V U [Pc C G I Hp K T Q]] [Hd Hk Ht]. split; [|by apply K|by apply T].
  unfold data_mode in *. by rewrite U.
Qed.

Lemma background_screen (v : vga) s : background s (put v s).
Proof.
  assert (background s s) as [[Pc C G I Hh K T Q] P] by reflexivity. split; [by split|done].
Qed.

(** Growth of the trace that neither the interrupt controllers nor the clock nor the
    key queue notice. *)
Lemma background_grow l (s : kernel) :
  fold_left (i8259_step 0x20 0x21) l (master_of (trace (view s))) = master_of (trace (view s)) →
  fold_left (i8259_step 0xA0 0xA1) l (slave_of (trace (view s))) = slave_of (trace (view s)) →
  timer_vectors l = 0 → key_events l = [] →
  background s (grow l s).
Proof.
  intros Hm Hs Ht Hk. assert (background0 s s) as [Pc C G I Hh K T Q] by reflexivity.
  assert (timer_vectors (trace (view s) ++ l) = timer_vectors (trace (view s))) as Et
    by (rewrite timer_vectors_app; lia).
  assert (key_events (trace (view s) ++ l) = key_events (trace (view s))) as Ek
    by (by rewrite key_events_app, Hk, app_nil_r).
  assert (still s (grow l s)) as Hst by (split; by rewrite ?trace_grow).
  split; [|done]. split; try done.
  - by rewrite trace_grow, master_app, slave_app.
  - exists l. by rewrite view_grow.
  - intros Hkb. split; [done|]. split; [done|]. by apply still_keyed.
  - intros Hr. split; [done|]. intros _. by apply still_ticked.
Qed.

(** Accesses to ports other than the keyboard's. *)
Lemma on_ports_calm P l :
  P 0x60 = false → on_ports P l → timer_vectors l = 0 ∧ key_events l = [].
Proof.
  intros HP. induction 1 as [|e l He _ [IHt IHk]]; [done|]. change (e :: l) with ([e] ++ l).
  rewrite timer_vectors_app, key_events_app, IHt, IHk. destruct e; try done.
  unfold key_events. cbn. destruct (Z.eqb_spec port 0x60) as [->|]; [by rewrite He in HP|done].
Qed.

(** ** Interrupts *)

(** From [s] to [s'] interrupt handlers ran. *)
Record served (s s' : kernel) : Prop := {
  sv_bg : background s s';
  sv_vga : view (C := vga) s' = view s;
  sv_trace : ∃ l, trace (view s') = trace (view s) ++ l ∧ off_uart l
}.

#[export] Instance served_preorder : PreOrder served.
Proof.
  split.
  - intros s. split; [reflexivity|done|]. exists []. rewrite app_nil_r. split; [done|constructor].
  - intros s1 s2 s3 [B1 V1 (l1 & T1 & O1)] [B2 V2 (l2 & T2 & O2)].
    split; [by etransitivity|by rewrite V2|]. exists (l1 ++ l2). rewrite T2, T1, app_assoc.
    split; [done|]. by apply off_uart_app.
Qed.

Lemma served_effect s s' : served s s' → effect [] s s'.
Proof.
  intros [[B P] V (l & T & O)]. split; [|done]. split; [done| |done].
  by rewrite T, uart_other, uart_out_nil.
Qed.

(** What the dispatcher and the handlers do at the ports: end-of-interrupt commands,
    register selections, and reads. *)
Definition handler_event (e : event) : Prop :=
  match e with
  | EIn p _ => p = 0x20 ∨ p = 0xA0 ∨ p = 0x60
  | EOut p v => (p = 0x20 ∨ p = 0xA0) ∧ Z.testbit v 4 = false
  | _ => False
  end.

Ltac handler_events :=
  repeat (apply Forall_cons; split); try apply Forall_nil; cbn [handler_event];
  try (split; [|done]); auto.

Lemma handler_off_uart l : Forall handler_event l → off_uart l.
Proof.
  intros Hl. eapply Forall_impl; [exact Hl|]. intros [] He; cbn in *; try done;
    unfold uart_port; lia.
Qed.

Lemma handler_vectors l : Forall handler_event l → timer_vectors l = 0.
Proof.
  induction 1 as [|e l He _ IH]; [done|]. change (e :: l) with ([e] ++ l).
  rewrite timer_vectors_app, IH. by destruct e.
Qed.

Lemma handler_pics l m sl :
  Forall handler_event l →
  fold_left (i8259_step 0x20 0x21) l m = m ∧ fold_left (i8259_step 0xA0 0xA1) l sl = sl.
Proof.
  intros Hl. revert m sl. induction Hl as [|e l He _ IH]; intros m sl; [done|].
  destruct e; try (by apply IH). destruct He as [[-> | ->] Hb]; cbn [fold_left i8259_step Z.eqb Pos.eqb];
    unfold i8259_cmd; rewrite Hb; apply IH.
Qed.

(** An interrupt of the vector [v] and the way through its handler: the port accesses
    [l], the clock [p] and the key buffer [k]. *)
Record interrupted (v : Z) (l : list event) (s : kernel) (p : pit) (k : kb) : Prop := {
  int_events : Forall handler_event l;
  int_ticks : 0 ≤ ticks (view s) < 4294967296 → 0 ≤ ticks p < 4294967296 ∧
    (timer_line (view s) → ticks p = u32 (ticks (view s) + if v =? 32 then 1 else 0));
  int_kb : kb_ok (view s) → kb_ok k ∧ kb_tail k = kb_tail (view s) ∧
    offered (key_events l) (contents (view s)) (contents k)
}.

Section spec.
Context `{!Hardware} `{!PhysMem} `{!Image} `{!Cpuid} `{!Interrupts}.
Variable fuel : nat.

(** Each registered handler returns; it counts a tick or queues a key. *)
Lemma call_run h f (s : kernel) :
  ∃ l (p : pit) (k : kb), call h f s = Ret tt (grow l (put p (put k s)) : kernel) ∧ Forall handler_event l ∧
    ticks p = (match h with pit_irq0 => u32 (ticks (view s) + 1) | _ => ticks (view s) end) ∧
    (kb_ok (view s) → kb_ok k ∧ kb_tail k = kb_tail (view s) ∧
      offered (key_events l) (contents (view s)) (contents k)).
Proof.
  destruct h.
  - eexists [], _, (view s). split; [by rewrite grow_nil|]. split; [done|]. split; [done|].
    intros Hk. split; [done|]. split; [done|apply offered_none].
  - eexists _, (view s), _. split; [cbn [call]; rewrite (irq1_eq f s), put_grow; done|].
    split; [handler_events|]. split; [done|]. intros Hk.
    assert (0 ≤ scan_code s) by apply u8_range.
    destruct (press_kb_spec (scan_code s) (view s)) as [Hk' E]; [done..|].
    split; [done|]. split; [apply press_tail|].
    pose proof (press_offered (scan_code s) (view s)) as O. rewrite <- E in O. exact O.
Qed.

Lemma checks_events tr n : Forall handler_event (checks tr n) ∧ key_events (checks tr n) = [].
Proof. unfold checks. destruct (_ || _); [|done]. unfold isr_reads. split; [handler_events|done]. Qed.

Lemma eoi_handler n :
  ∃ l, (∀ s : kernel, pic_send_eoi n s = Ret tt (grow l s)) ∧ Forall handler_event l ∧
    key_events l = [].
Proof.
  eexists. split; [intros; apply pic_send_eoi_eq|].
  destruct (8 <=? n); (split; [handler_events|done]).
Qed.

(** The dispatcher, for any hardware interrupt, spurious or not, handled or not. *)
Lemma irq_run f (s : kernel) :
  32 ≤ fr_int_no f < 48 →
  ∃ l (p : pit) (k : kb), irq_handler call f s = Ret tt (grow l (put p (put k s)) : kernel) ∧
    interrupted (fr_int_no f) l s p k.
Proof.
  intros Hf. set (n := fr_int_no f - 32). assert (0 ≤ n < 16) as Hn by (unfold n; lia).
  assert ((fr_int_no f =? 32) = (n =? 0)) as En by (unfold n; lia).
  rewrite (irq_handler_cases call f n s) by (unfold n; lia).
  destruct (checks_events (trace (view s)) n) as [Hc Kc]. set (c := checks _ n) in *.
  assert (∀ l, Forall handler_event l → key_events l = [] → spurious (trace (view s)) n = true →
    interrupted (fr_int_no f) l s (view s) (view s)) as Hsp.
  { intros l Hl Kl Esp. split; [done| |].
    - intros Ht. split; [done|]. intros _. rewrite En. assert (n ≠ 0) as Hne by (intros E; by rewrite E in Esp).
      by rewrite (proj2 (Z.eqb_neq n 0) Hne), Z.add_0_r, u32_id.
    - intros Hk. rewrite Kl. split; [done|]. split; [done|apply offered_none]. }
  destruct (spurious _ n) eqn:Esp.
  - destruct (n =? 15).
    + destruct (eoi_handler 2) as (l & E & Hl & Kl). exists (c ++ l), (view s), (view s).
      split; [by rewrite E, grow_grow, !put_view|]. apply Hsp; [by apply Forall_app| |done].
      by rewrite key_events_app, Kc, Kl.
    + exists c, (view s), (view s). split; [by rewrite !put_view|by apply Hsp].
  - rewrite irq_dispatch_eq by done. set (s1 := grow c s).
    change (view (C := idt_state handler) s1) with (view (C := idt_state handler) s).
    destruct (eoi_handler n) as (le & Ee & Hle & Kle).
    destruct (irq_handlers (view s) !!! Z.to_nat n) as [h|] eqn:Eh.
    + destruct (call_run h f s1) as (l & p & k & E & Hl & T & K).
      exists (c ++ l ++ le), p, k. split.
      { rewrite (bind_ret _ _ _ _ _ E), Ee. unfold s1. by rewrite !put_grow, !grow_grow, app_assoc. }
      split; [by rewrite !Forall_app| |by rewrite !key_events_app, Kc, Kle, app_nil_r].
      intros Ht. rewrite T, En. change (ticks (view s1)) with (ticks (view s)). split.
      { destruct h; [apply u32_range|done]. }
      intros Hline. specialize (Hline n Hn). rewrite Eh in Hline.
      destruct h, (Z.eqb_spec n 0) as [Hz|Hz]; try done.
      * by destruct Hline as [Hline _]; destruct Hz; apply Hline.
      * destruct Hline as [_ Hline]. by specialize (Hline Hz).
      * by rewrite Z.add_0_r, u32_id.
    + exists (c ++ le), (view s), (view s). split.
      { rewrite (bind_ret (mret tt) _ s1 tt s1 eq_refl), Ee. unfold s1. by rewrite grow_grow, !put_view. }
      split; [by apply Forall_app| |].
      * intros Ht. split; [done|]. intros Hline. specialize (Hline n Hn). rewrite Eh in Hline.
        rewrite En. destruct (Z.eqb_spec n 0) as [Hz|Hz]; [by apply Hline in Hz|].
        by rewrite Z.add_0_r, u32_id.
      * intros Hk. rewrite key_events_app, Kc, Kle. split; [done|]. split; [done|apply offered_none].
Qed.

(** The interrupt as a whole: the handler runs with the interrupt flag clear. *)
Lemma serve_run f (s : kernel) :
  if_flag (view s) = true → 32 ≤ fr_int_no f < 48 →
  ∃ l (p : pit) (k : kb), let s1 := put (take_vector (fr_int_no f) (view s)) s : kernel in
    let s2 := grow l (put p (put k s1)) : kernel in
    let s' := put (set_if true (view s2)) s2 : kernel in
    irq_handler call f s1 = Ret tt s2 ∧ serve f s = Ret tt s' ∧ Forall handler_event l ∧
    trace (view s') = (trace (view s) ++ [EVector (fr_int_no f)]) ++ l ∧ served s s'.
Proof.
  intros Hif Hf. set (s1 := put (take_vector (fr_int_no f) (view s)) s : kernel).
  destruct (irq_run f s1 Hf) as (l & p & k & E & [Hl T K]). exists l, p, k. cbn zeta.
  set (s2 := grow l (put p (put k s1)) : kernel) in *.
  set (s' := put (set_if true (view s2)) s2 : kernel).
  assert (trace (view s') = (trace (view s) ++ [EVector (fr_int_no f)]) ++ l) as Et by done.
  split; [done|]. split.
  { unfold serve. by rewrite (bind_ret (modify (take_vector (fr_int_no f))) _ s tt s1 eq_refl), (bind_ret _ _ _ _ _ E). }
  split; [done|]. split; [done|]. split; [split; [|done]|done|].
  - split; try done; rewrite ?Et.
    + destruct (handler_pics l (master_of (trace (view s))) (slave_of (trace (view s))) Hl) as [Em Es].
      rewrite <- app_assoc, master_app, slave_app. done.
    + exists ([EVector (fr_int_no f)] ++ l). rewrite app_assoc, <- Et. unfold with_trace.
      rewrite Hif. done.
    + intros Hk. destruct (K Hk) as (Hk' & Ht & O). split; [done|]. split; [done|].
      exists (key_events l). rewrite Et, !key_events_app, app_nil_r. done.
    + intros Ht. destruct (T Ht) as [Ht' F]. split; [done|]. intros Hline.
      unfold ticked. rewrite Et. etransitivity; [exact (F Hline)|]. change (ticks (view s1)) with (ticks (view s)). f_equal.
      rewrite !timer_vectors_app, (handler_vectors l Hl), timer_vector. lia.
    + by rewrite Hif.
  - exists ([EVector (fr_int_no f)] ++ l). rewrite app_assoc. split; [done|].
    apply off_uart_app; [by repeat constructor|by apply handler_off_uart].
Qed.

Lemma served_serve f (s : kernel) :
  if_flag (view s) = true → 32 ≤ fr_int_no f < 48 → ∃ s', serve f s = Ret tt s' ∧ served s s'.
Proof.
  intros Hif Hf. destruct (serve_run f s Hif Hf) as (l & p & k & _ & E & _ & _ & P). by eexists.
Qed.

Lemma served_if s s' : served s s' → if_flag (view s') = if_flag (view s).
Proof. intros [[[_ [l C]] _] _ _]. by rewrite C. Qed.

Lemma irqs_served (s : kernel) : ∃ s', irqs s = Ret tt s' ∧ served s s'.
Proof.
  unfold irqs. rewrite (bind_ret (gets _) _ s _ s eq_refl).
  destruct (if_flag _) eqn:Hif; [|by exists s].
  generalize (pending_irq (trace (view s))). generalize (pending (trace (view s))) as fs.
  intros fs Hfs. revert s Hif. induction fs as [|f fs IH]; intros s Hif; [by exists s|].
  destruct (served_serve f s Hif) as (s1 & E1 & P1); [apply Hfs; by left|].
  destruct (IH (fun g Hg => Hfs g (or_intror Hg)) s1) as (s2 & E2 & P2);
    [by rewrite (served_if _ _ P1)|].
  exists s2. cbn [mapM_]. rewrite (bind_ret _ _ _ _ _ E1). split; [done|]. by etransitivity.
Qed.

(** The kernel's interrupts are what its drivers assume of interrupts. *)
#[export] Program Instance kernel_preempt_ok : PreemptOk kernel := {| drift := background |}.
Next Obligation. apply background_screen. Qed.
Next Obligation.
  intros l s Hl. destruct (pics_other (trace (view s)) l) as [Em Es].
  { eapply on_ports_impl; [apply uart_not_pic|done]. }
  rewrite master_app in Em. rewrite slave_app in Es.
  destruct (on_ports_calm _ _ eq_refl Hl). by apply background_grow.
Qed.
Next Obligation. intros s s' [[_ [l C]] _]. by rewrite C. Qed.
Next Obligation. intros s s' [[_ [l C]] _]. exists l. by rewrite C. Qed.
Next Obligation.
  intros s. destruct (irqs_served s) as (s' & E & [B V (l & T & O)]). by exists s', l.
Qed.

#[export] Instance kernel_kb_preempt : KbPreempt served.
Proof.
  split; [apply _|apply irqs_served|]. intros s s' [[B _] _ _] Hk.
  destruct (bg_kb _ _ B Hk) as (Hk' & Ht & ks & _ & acc & Hacc & _). eauto.
Qed.

Lemma served_hlt (s : kernel) : served s (grow [EHlt] s).
Proof.
  split; [by apply background_grow|done|]. exists [EHlt]. rewrite trace_grow.
  split; [done|by repeat constructor].
Qed.

(** ** Code that only writes to the consoles *)

(** [m] returns and its effect is the transcript [ops]. *)
Definition does {A : Type} (ops : list con) (m : M kernel A) : Prop :=
  ∀ s, sane s → ∃ a s', m s = Ret a s' ∧ effect ops s s'.

Lemma does_ret {A : Type} (a : A) : does [] (mret a : M kernel A).
Proof. intros s _. exists a, s. split; [done|apply effect_refl]. Qed.

Lemma does_bind {A B : Type} a b (m : M kernel A) (k : A → M kernel B) :
  does a m → (∀ x, does b (k x)) → does (a ++ b) (m ≫= k).
Proof.
  intros Hm Hk s Hs. destruct (Hm s Hs) as (x & s1 & E1 & P1).
  destruct (Hk x s1) as (y & s2 & E2 & P2); [by eapply effect0_sane; [apply P1|]|].
  exists y, s2. rewrite (bind_ret _ _ _ _ _ E1). split; [done|]. by eapply effect_trans.
Qed.

Lemma does_irqs : does [] irqs.
Proof.
  intros s _. destruct (irqs_served s) as (s' & E & P). exists tt, s'. split; [done|].
  by apply served_effect.
Qed.

(** An interruptible statement. *)
Lemma does_then {A : Type} a b (m : M kernel unit) (k : M kernel A) :
  does a m → does b k → does (a ++ b) (m;; irqs;; k).
Proof.
  intros Hm Hk. apply does_bind; [done|]. intros _.
  apply (does_bind [] b); [apply does_irqs|done].
Qed.

Lemma does_hlt : does [] hlt.
Proof.
  apply (does_bind [] []); [|intros _; apply does_irqs]. intros s _.
  exists tt, (grow [EHlt] s). split; [done|]. apply served_effect, served_hlt.
Qed.

Lemma does_color fg bg : does [Color fg bg] (color fg bg).
Proof.
  intros s _. eexists tt, _. split; [done|].
  assert (background s (put (vga_set_color fg bg (view s)) s)) as [B P] by apply background_screen.
  split; [|done]. split; [done|by rewrite uart_out_nil|done].
Qed.

Lemma effect_printed t (s s' : kernel) : printed t s s' → effect [Say t] s s'.
Proof.
  intros [[B P] V U]. split; [|done]. split; [done| |done]. rewrite U.
  unfold sents. cbn. by rewrite app_nil_r.
Qed.

Lemma effect_sends t ops (s s' : kernel) :
  sends t s s' → (∀ v, paints ops v = v) → sents ops = t → effect ops s s'.
Proof. intros [[B P] V U] Hp Hs. split; [|done]. split; [by rewrite Hp|by rewrite Hs|done]. Qed.

Hypothesis live : uart_live fuel LSR_TX_EMPTY.

Lemma does_prints m t : prints (S := kernel) m t → does [Say t] m.
Proof.
  intros Hm s Hs. destruct (Hm s (sane_uart _ Hs)) as (s' & E & P).
  exists tt, s'. split; [done|]. by apply effect_printed.
Qed.

Lemma does_puts t : does [Say t] (puts fuel t).
Proof. apply does_prints. exact (prints_emit_str fuel live (Some t)). Qed.

Lemma does_kprintf fmt ap t :
  format fmt ap = (t, true) → does [Say t] (kprintf fuel fmt ap).
Proof.
  intros Hf. apply does_prints.
  pose proof (runs_kprintf fuel live (S := kernel) (length fmt) fmt ap (le_n _)) as Hr.
  by rewrite Hf in Hr.
Qed.

Lemma does_serial_puts t : does [Log t] (serial_puts fuel t : M kernel unit).
Proof.
  intros s Hs. destruct (serial_puts_run fuel t s live (sane_uart _ Hs)) as (s' & E & P).
  exists tt, s'. split; [done|]. apply (effect_sends _ _ _ _ P); [done|].
  unfold sents. cbn. by rewrite app_nil_r.
Qed.

(** Painting a character and sending it are separate interruptible statements. *)
Lemma does_echo_split c :
  does [Say [c]]
    (vga_putchar_i c;; irqs;; serial_putchar fuel c;; irqs;; mret tt : M kernel unit).
Proof.
  intros s Hs.
  destruct (putchar_run (fun _ => True) drawn c s I) as (s1 & E1 & (B1 & l & T1 & O1) & V1).
  change (background s s1) in B1.
  assert (uart_of (trace (view s1)) = uart_of (trace (view s))) as U1 by (rewrite T1; by apply uart_other).
  assert (sane s1) as Hs1.
  { destruct Hs as [Hd Hk Ht], B1 as [B1 _]. split; [unfold data_mode; by rewrite U1| |].
    - by apply (bg_kb _ _ B1).
    - by apply (bg_ticks _ _ B1). }
  destruct (does_irqs s1 Hs1) as ([] & s2 & E2 & P2).
  assert (sane s2) as Hs2 by (eapply effect0_sane; [apply P2|done]).
  destruct (serial_putchar_run fuel c s2 live (sane_uart _ Hs2)) as (s3 & E3 & P3).
  assert (effect [Say [c]] s s3) as P13.
  { destruct P2 as [[V2 U2 B2] Pm2], P3 as [[B3 Pm3] V3 U3], B1 as [B1 Pm1].
    split; [|by rewrite Pm3, Pm2]. split; [by rewrite V3, V2, V1| |by do 2 (etransitivity; [done|])].
    by rewrite U3, U2, uart_out_nil, U1. }
  destruct (does_irqs s3) as ([] & s4 & E4 & P4); [by eapply effect0_sane; [apply P13|]|].
  exists tt, s4. split; [|by apply (effect_trans [_] [] _ s3)].
  rewrite (bind_ret _ _ _ _ _ E1), (bind_ret _ _ _ _ _ E2).
  by rewrite (bind_ret _ _ _ _ _ E3), (bind_ret _ _ _ _ _ E4).
Qed.

(** A transcript, statement by statement; interruptible or not. *)
Lemma does_cons {A : Type} o ops (m : M kernel unit) (k : M kernel A) :
  does [o] m → does ops k → does (o :: ops) (m;; k).
Proof. intros Hm Hk. by apply (does_bind [o] ops). Qed.

Lemma does_cons_i {A : Type} o ops (m : M kernel unit) (k : M kernel A) :
  does [o] m → does ops k → does (o :: ops) (m;; irqs;; k).
Proof. intros Hm Hk. by apply (does_then [o] ops). Qed.

End spec.

(** Follow a transcript through a straight-line block. *)
Ltac does_steps :=
  repeat first
    [ apply does_color | apply does_puts; assumption | apply does_serial_puts; assumption
    | apply does_cons_i; [first [apply does_color | apply does_puts; assumption
                                | apply does_serial_puts; assumption]|]
    | apply does_cons; [first [apply does_color | apply does_puts; assumption
                              | apply does_serial_puts; assumption]|] ].

(** ** The state apart from consoles, key buffer and clock *)

Record config : Type := mk_config {
  c_if : bool;
  c_gdtr : Z * Z;
  c_idtr : Z * Z;
  c_cs : Z;
  c_data : Z;
  c_gdt : list gdt_entry;
  c_idt : idt_state handler;
  c_pmm : pmm;
  c_heap : heap;
  c_master : i8259;
  c_slave : i8259
}.

Definition config_of (s : kernel) : config :=
  mk_config (if_flag (view s)) (gdtr (view s)) (idtr (view s)) (seg_cs (view s))
    (seg_data (view s)) (gdt (view s)) (view s) (view s) (view s)
    (master_of (trace (view s))) (slave_of (trace (view s))).

(** The part of an effect that start-up code has, too; it runs with interrupts
    disabled, and the clock and the keys stand still. *)
Record stage (ops : list con) (s s' : kernel) : Prop := {
  st_vga : view (C := vga) s' = paints ops (view s);
  st_uart : uart_of (trace (view s')) = uart_out (sents ops) (uart_of (trace (view s)));
  st_trace : ∃ l, trace (view s') = trace (view s) ++ l;
  st_calm : if_flag (view s) = false → if_flag (view s') = false ∧ still s s'
}.

Lemma stage_trans a b s1 s2 s3 : stage a s1 s2 → stage b s2 s3 → stage (a ++ b) s1 s3.
Proof.
  intros [V1 U1 [l1 R1] Q1] [V2 U2 [l2 R2] Q2]. split.
  - by rewrite V2, V1, paints_app.
  - by rewrite U2, U1, uart_out_app, sents_app.
  - exists (l1 ++ l2). by rewrite R2, R1, app_assoc.
  - intros Hi. destruct (Q1 Hi) as [Hi1 T1]. destruct (Q2 Hi1) as [Hi2 T2].
    split; [done|by etransitivity].
Qed.

Lemma stage_sane ops s s' : if_flag (view s) = false → stage ops s s' → sane s → sane s'.
Proof.
  intros Hi [V U _ Q] [Hd Hk Ht]. destruct (Q Hi) as [_ [_ _ EP EB]].
  split; [unfold data_mode in *; by rewrite U|by rewrite EB|by rewrite EP].
Qed.

Lemma effect_stage ops s s' : effect ops s s' → stage ops s s'.
Proof.
  intros [[V U [Pc [l C] G I Hh K T Q]] P]. split; [done|done|exists l; by rewrite C|]. intros Hi.
  split; [by rewrite C|by apply Q].
Qed.

Lemma background_config s s' : background s s' → config_of s' = config_of s.
Proof.
  intros [[[M L] [l C] G I Hh K T Q] P]. unfold config_of. by rewrite M, L, C, G, I, Hh, P.
Qed.

Lemma effect_config ops s s' : effect ops s s' → config_of s' = config_of s.
Proof. intros [[_ _ B] P]. by apply background_config. Qed.

(** A change of anything but the consoles, the keys and the clock. *)
Lemma stage_config l (s s' : kernel) :
  view (C := vga) s' = view s → view (C := kb) s' = view s → view (C := pit) s' = view s →
  if_flag (view s') = if_flag (view s) →
  trace (view s') = trace (view s) ++ l → uart_of (trace (view s) ++ l) = uart_of (trace (view s)) →
  timer_vectors l = 0 → key_events l = [] → stage [] s s'.
Proof.
  intros V K T I Tr U Ht Hk. split.
  - by rewrite V.
  - by rewrite Tr, U, uart_out_nil.
  - by exists l.
  - intros Hi. split; [by rewrite I|]. split; [..|done|done].
    + by rewrite Tr, timer_vectors_app, Ht, Z.add_0_r.
    + by rewrite Tr, key_events_app, Hk, app_nil_r.
Qed.
