(* ===== verification/KernelBoot.v ===== *)
(** The boot sequence of kernel/kernel.c: what [kernel_main] has set up and
    printed when the self-test starts, and the refusal of a wrong magic number. *)

From S2P Require Import Prelude Machine Vga Preempt Screen Serial Digits Kprintf Pic Panic Idt Pmm PmmSpec Gdt Pit Keyboard Memory Uptime Kernel KernelSpec.

#[local] Open Scope Z_scope.
#[local] Open Scope c_scope.

(** ** The boot transcript *)

Definition banner_ops : list con :=
  [Color VGA_COLOR_LIGHT_CYAN VGA_COLOR_BLACK;
   Say (bytes "    ___        _               ___  ____  " ++ nl);
   Say (bytes "   / _ \  ___ | |_  _ __  __ _/ _ \/ ___| " ++ nl);
   Say (bytes "  | |_| |/ __|| __|| '__|/ _` | | | \___ \ " ++ nl);
   Say (bytes "  |  _  |\__ \| |_ | |  | (_| | |_| |___) |" ++ nl);
   Say (bytes "  |_| |_||___/ \__||_|   \__,_|\___/|____/ " ++ nl ++ nl);
   Color VGA_COLOR_WHITE VGA_COLOR_BLACK;
   Say (bytes "  AstraOS v0.2  -  Hardened Bare-Metal Kernel" ++ nl);
   Say (bytes "  =============================================" ++ nl ++ nl)].

Definition status_ops (name : list Z) : list con :=
  [Color VGA_COLOR_LIGHT_GREEN VGA_COLOR_BLACK; Say (bytes "  [OK] ");
   Color VGA_COLOR_LIGHT_GREY VGA_COLOR_BLACK; Say name; Say nl].

(** The report of [pmm_init]: megabytes and frames, in decimal. *)
Definition pmm_text (p : pmm) : list Z :=
  bytes "  PMM: " ++ decimal (u32 (Z.shiftr (u32 (total_frames p * 4096)) 20)) ++
  bytes " MB total, " ++ decimal (u32 (Z.shiftr (u32 (free_frames p * 4096)) 20)) ++
  bytes " MB free (" ++ decimal (u32 (free_frames p)) ++ bytes " frames)" ++ nl.

Definition cpu_text `{!Cpuid} : list Z :=
  let '(eax, ebx, ecx, edx) := cpuid 0 in
  bytes "  CPU: " ++ c_string (reg_bytes ebx ++ reg_bytes edx ++ reg_bytes ecx ++ [0]) ++
  bytes " (max leaf 0x" ++ uint_text 16 false (u32 eax) ++ bytes ")" ++ nl.

Definition boot_ops `{!Cpuid} (p : pmm) : list con :=
  banner_ops ++
  status_ops (bytes "Interrupt subsystem (IDT + 8259A PIC)") ++
  [Say (pmm_text p)] ++ status_ops (bytes "Physical Memory Manager") ++
  [Color VGA_COLOR_YELLOW VGA_COLOR_BLACK; Say cpu_text] ++
  status_ops (bytes "PIT timer (100 Hz)") ++
  status_ops (bytes "PS/2 keyboard driver") ++
  [Color VGA_COLOR_LIGHT_GREEN VGA_COLOR_BLACK; Say (bytes "  Interrupts ENABLED" ++ nl)].

(** What the boot loader and the C start-up leave. *)
Record boot_pre (s : kernel) : Prop := {
  pre_if : if_flag (view s) = false;
  pre_pics : pics_ready (trace (view s));
  pre_gdt : length (gdt (view s)) = 3%nat;
  pre_idt : idt_ok (view (C := idt_state handler) s);
  pre_handlers : irq_handlers (view (C := idt_state handler) s) = replicate 16 None;
  pre_kb : kb_ok (view s);
  pre_ticks : 0 ≤ ticks (view s) < 4294967296
}.

Section boot.
Context `{!Hardware} `{!PhysMem} `{!Image} `{!Cpuid} `{!Interrupts}.
Variable fuel : nat.
Hypothesis live : uart_live fuel LSR_TX_EMPTY.

(** ** The steps of the boot sequence *)

#[local] Strategy 1000 [table_after irq_register_handler uart_of master_of slave_of].

Lemma does_banner : does banner_ops (print_banner fuel).
Proof. unfold print_banner, banner_ops. does_steps. Qed.

Lemma does_status name : does (status_ops name) (status_ok fuel name).
Proof. unfold status_ok, status_ops. does_steps. Qed.

Lemma does_cpu_info :
  does [Color VGA_COLOR_YELLOW VGA_COLOR_BLACK; Say cpu_text] (print_cpu_info fuel).
Proof.
  unfold print_cpu_info, cpu_text. destruct (cpuid 0) as [[[eax ebx] ecx] edx].
  generalize (c_string (reg_bytes ebx ++ reg_bytes edx ++ reg_bytes ecx ++ [0])) as vendor.
  intros vendor. apply does_cons; [apply does_color|]. by apply does_kprintf.
Qed.

Lemma pmm_format p :
  format (bytes "  PMM: %u MB total, %u MB free (%u frames)" ++ [10]) (pmm_report p)
  = (pmm_text p, true).
Proof.
  unfold pmm_report, pmm_text, PMM_FRAME_SIZE.
  generalize (Z.shiftr (u32 (total_frames p * 4096)) 20) as a.
  generalize (Z.shiftr (u32 (free_frames p * 4096)) 20) as b.
  generalize (free_frames p) as c. intros c b a. reflexivity.
Qed.

(** Port accesses of a driver's initialisation. *)
Lemma driver_silent (P : Z → bool) l (s s' : kernel) :
  view (C := vga) s' = view s → view (C := kb) s' = view s → view (C := pit) s' = view s →
  if_flag (view s') = if_flag (view s) → trace (view s') = trace (view s) ++ l →
  (∀ p, P p = true → uart_port p = false) → P 0x60 = false → on_ports P l → stage [] s s'.
Proof.
  intros V K T I Tr HP HP' Hl. destruct (on_ports_calm P l HP' Hl).
  apply (stage_config l); try done. by eapply uart_other, on_ports_off_uart.
Qed.

Lemma gdt_stage (s : kernel) :
  length (gdt (view s)) = 3%nat →
  ∃ s', gdt_init gdt_addr s = Ret tt s' ∧ stage [] s s' ∧
    let c := config_of s in
    config_of s' = mk_config (c_if c) (23, gdt_addr) (c_idtr c) 8 16 flat_gdt (c_idt c)
      (c_pmm c) (c_heap c) (c_master c) (c_slave c).
Proof.
  intros Hl. eexists. split; [by apply gdt_init_run|]. split.
  - apply (stage_config [ELgdt 23 gdt_addr; ELjmp 8; ESeg 16]); [reflexivity..| |by rewrite uart_of_app|done|done].
    by rewrite view_put.
  - unfold config_of. cbn zeta. rewrite !view_put. cbn [trace].
    rewrite master_app, slave_app. done.
Qed.

(** The masks of a configuration. *)
Definition c_masked (c : config) (n : Z) : bool :=
  if n <? 8 then Z.testbit (imr (c_master c)) n else Z.testbit (imr (c_slave c)) (n - 8).

Definition c_ready (c : config) : Prop := phase (c_master c) = Ready ∧ phase (c_slave c) = Ready.

Hypothesis readback : imr_readback.

Lemma interrupts_stage (s : kernel) :
  c_ready (config_of s) →
  ∃ s' m sl, interrupts_init (H := handler) stub_addr idt_addr s = Ret tt s' ∧ stage [] s s' ∧
    let c := config_of s in
    config_of s' = mk_config (c_if c) (c_gdtr c) (2047, idt_addr) (c_cs c) (c_data c) (c_gdt c)
      (table_after stub_addr idt_addr (c_idt c)) (c_pmm c) (c_heap c) m sl ∧
    c_ready (config_of s') ∧ offset m = 32 ∧ offset sl = 40 ∧
    ∀ k, 0 ≤ k < 16 → c_masked (config_of s') k = negb (k =? 2) && c_masked c k.
Proof.
  intros Hr. destruct (interrupts_init_run stub_addr idt_addr s readback Hr)
    as (l & E & Hp & Hr' & Ho1 & Ho2 & Hm).
  eexists _, _, _. split; [exact E|]. split.
  - apply (driver_silent pic_port l); [reflexivity..|by rewrite view_put|apply pic_not_uart|done|done].
  - cbn zeta. split; [unfold config_of; by rewrite !view_put|].
    unfold c_ready, c_masked, config_of. rewrite !view_put.
    exact (conj Hr' (conj Ho1 (conj Ho2 Hm))).
Qed.

Lemma pmm_stage mbi p' (s : kernel) :
  sane s → pmm_setup fuel mbi kernel_end (view s) = Done p' →
  ∃ s', memory_init fuel mbi kernel_end s = Ret tt s' ∧ stage [Say (pmm_text p')] s s' ∧
    let c := config_of s in
    config_of s' = mk_config (c_if c) (c_gdtr c) (c_idtr c) (c_cs c) (c_data c) (c_gdt c)
      (c_idt c) p' (c_heap c) (c_master c) (c_slave c).
Proof.
  intros Hs Ep. unfold memory_init, pmm_init.
  rewrite (bind_ret (gets _) _ s _ s eq_refl), Ep.
  set (s1 := put p' s : kernel). rewrite (bind_ret (modify _) _ s tt s1 eq_refl).
  assert (sane s1) as Hs1 by (destruct Hs; by split).
  destruct (does_kprintf fuel live _ _ _ (pmm_format p') s1 Hs1) as ([] & s2 & E & P).
  exists s2. split; [exact E|]. split.
  - apply (stage_trans [] [Say _] s s1); [|by apply effect_stage].
    apply (stage_config []); rewrite ?app_nil_r; done.
  - by rewrite (effect_config _ _ _ P).
Qed.

(** Registering a driver's handler and opening its line. *)
Lemma driver_stage (P : Z → bool) (n : Z) (h : handler) (m : M kernel unit) (l : list event)
    (s : kernel) :
  m s = Ret tt (grow l (put (irq_register_handler n (Some h) (view s)) s)) →
  (∀ p, P p = true → uart_port p = false) → P 0x60 = false → on_ports P l →
  pics_ready (trace (view s) ++ l) →
  offset (master_of (trace (view s) ++ l)) = offset (master_of (trace (view s))) →
  offset (slave_of (trace (view s) ++ l)) = offset (slave_of (trace (view s))) →
  (∀ k, 0 ≤ k < 16 →
     masked (trace (view s) ++ l) k = negb (k =? n) && masked (trace (view s)) k) →
  ∃ s' ma sl, m s = Ret tt s' ∧ stage [] s s' ∧
    let c := config_of s in
    config_of s' = mk_config (c_if c) (c_gdtr c) (c_idtr c) (c_cs c) (c_data c) (c_gdt c)
      (irq_register_handler n (Some h) (c_idt c)) (c_pmm c) (c_heap c) ma sl ∧
    c_ready (config_of s') ∧ offset ma = offset (c_master c) ∧ offset sl = offset (c_slave c) ∧
    ∀ k, 0 ≤ k < 16 → c_masked (config_of s') k = negb (k =? n) && c_masked c k.
Proof.
  intros E HP HP' Hp Hr Ho1 Ho2 Hm. eexists _, _, _. split; [exact E|]. split.
  - apply (driver_silent P l); [reflexivity..|by rewrite trace_grow|done|done|done].
  - cbn zeta. split; [unfold config_of; rewrite trace_grow, view_grow; done|].
    unfold c_ready, c_masked, config_of. rewrite trace_grow.
    exact (conj Hr (conj Ho1 (conj Ho2 Hm))).
Qed.

Lemma pit_stage (s : kernel) :
  c_ready (config_of s) →
  ∃ s' ma sl, pit_init pit_irq0 s = Ret tt s' ∧ stage [] s s' ∧
    let c := config_of s in
    config_of s' = mk_config (c_if c) (c_gdtr c) (c_idtr c) (c_cs c) (c_data c) (c_gdt c)
      (irq_register_handler 0 (Some pit_irq0) (c_idt c)) (c_pmm c) (c_heap c) ma sl ∧
    c_ready (config_of s') ∧ offset ma = offset (c_master c) ∧ offset sl = offset (c_slave c) ∧
    ∀ k, 0 ≤ k < 16 → c_masked (config_of s') k = negb (k =? 0) && c_masked c k.
Proof.
  intros Hr. destruct (pit_init_run pit_irq0 s readback Hr)
    as (l & E & Hp & Hr' & Ho1 & Ho2 & _ & Hm).
  apply (driver_stage (fun p => pit_port p || pic_port p) 0 pit_irq0 _ l); try done.
  intros q Hq. unfold pit_port, pic_port, uart_port in *. lia.
Qed.

Lemma keyboard_stage (s : kernel) :
  c_ready (config_of s) →
  ∃ s' ma sl, keyboard_init keyboard_irq1 s = Ret tt s' ∧ stage [] s s' ∧
    let c := config_of s in
    config_of s' = mk_config (c_if c) (c_gdtr c) (c_idtr c) (c_cs c) (c_data c) (c_gdt c)
      (irq_register_handler 1 (Some keyboard_irq1) (c_idt c)) (c_pmm c) (c_heap c) ma sl ∧
    c_ready (config_of s') ∧ offset ma = offset (c_master c) ∧ offset sl = offset (c_slave c) ∧
    ∀ k, 0 ≤ k < 16 → c_masked (config_of s') k = negb (k =? 1) && c_masked c k.
Proof.
  intros Hr. destruct (keyboard_init_run keyboard_irq1 s readback Hr)
    as (l & E & Hp & Hr' & Ho1 & Ho2 & Hm).
  apply (driver_stage pic_port 1 keyboard_irq1 _ l); try done.
  apply pic_not_uart.
Qed.

(** The state after [sti]. *)
#[local] Strategy 1000 [timer_vectors key_events].

Definition online (s : kernel) : kernel := put (set_if true (log ESti (view s))) s.

Lemma online_trace s : trace (view (online s)) = trace (view s) ++ [ESti].
Proof. done. Qed.

Lemma online_uart s : uart_of (trace (view (online s))) = uart_of (trace (view s)).
Proof. rewrite online_trace. apply uart_other. by repeat constructor. Qed.

Lemma online_config (s : kernel) :
  let c := config_of s in
  config_of (online s) = mk_config true (c_gdtr c) (c_idtr c) (c_cs c) (c_data c) (c_gdt c)
    (c_idt c) (c_pmm c) (c_heap c) (c_master c) (c_slave c).
Proof. unfold config_of. cbn zeta. by rewrite online_trace, master_app, slave_app. Qed.

Lemma online_sane (s : kernel) : sane s → sane (online s).
Proof. intros [Hd Hk Ht]. split; [|done|done]. unfold data_mode in *. by rewrite online_uart. Qed.

Lemma online_still (s : kernel) : still s (online s).
Proof.
  split; rewrite ?online_trace; [|by rewrite key_events_app, app_nil_r|done|done].
  by rewrite timer_vectors_app, Z.add_0_r.
Qed.

(** ** The boot sequence *)

Hypothesis receiver : loopback_answers fuel.

(** Steps 1 and 2: the consoles; [ok] is whether the loopback test passed. *)
Lemma consoles_stage (s : kernel) :
  kb_ok (view s) → 0 ≤ ticks (view s) < 4294967296 →
  ∃ s' ok,
    (∀ k : M kernel unit, (modify vga_init;; serial_init fuel;; k) s = k s') ∧ sane s' ∧
    view (C := vga) s' = vga_init (view s) ∧
    uart_of (trace (view s')) = mk_uart false (negb ok) (wire (uart_of (trace (view s)))) ∧
    config_of s' = config_of s ∧ (∃ l, trace (view s') = trace (view s) ++ l) ∧
    (if_flag (view s) = false → still s s').
Proof.
  intros Hk Ht. set (s1 := put (vga_init (view s)) s : kernel).
  destruct (serial_init_run fuel s1 receiver) as (s' & l & v & E & [D V _] & _ & U).
  change (background s1 s') in D. pose proof (background_screen (vga_init (view s)) s) as D1.
  assert (background s s') as B by (etransitivity; [exact D1|exact D]).
  exists s', (v =? 0xAE). split.
  { intros k. by rewrite (bind_ret (modify _) _ s tt s1 eq_refl), (bind_ret _ _ _ _ _ E). }
  split; [|split; [exact V|split; [exact U|split; [by apply background_config|split; [|by apply B]]]]].
  { split; [unfold data_mode; by rewrite U|by apply B|by apply B]. }
  destruct (bg_cpu _ _ (proj1 B)) as [l' C]. exists l'. by rewrite C.
Qed.

(** The interrupt tables at the end of the boot sequence. *)
Lemma table_entries (d : idt_state handler) :
  idt_ok d → (∀ st, 0 ≤ stub_addr st < 4294967296) →
  let d' := irq_register_handler 1 (Some keyboard_irq1) (irq_register_handler 0 (Some pit_irq0)
    (table_after stub_addr idt_addr d)) in
  (∀ v, 0 ≤ v < 48 →
     kernel_gate (idt d' !!! Z.to_nat v) (stub_addr (vector_stub v))) ∧
  (∀ n, 0 ≤ n < 16 →
     irq_handlers d' !!! Z.to_nat n
     = if n =? 0 then Some pit_irq0 else if n =? 1 then Some keyboard_irq1
       else irq_handlers d !!! Z.to_nat n).
Proof.
  intros Hd Ha d'.
  assert (irq_handlers (table_after stub_addr idt_addr d) = irq_handlers d) as Hh
    by apply set_gates_handlers.
  assert (idt d' = idt (set_gates stub_addr gate_calls d)) as Hi by done. split.
  - intros v Hv. rewrite Hi, gate_calls_seq.
    destruct (set_gates_lookup stub_addr 48 v d Hd ltac:(lia) ltac:(lia) Ha) as [Hg _].
    apply Hg. lia.
  - intros n Hn. unfold d', irq_register_handler. cbn [Z.ltb Z.compare Pos.compare
      Pos.compare_cont NUM_IRQS irq_handlers]. rewrite Hh. destruct Hd as [_ Hl].
    rewrite (wr_in (irq_handlers d)) by (rewrite Hl; lia).
    rewrite wr_in by (rewrite length_insert, Hl; lia).
    destruct (Z.eqb_spec n 0) as [->|]; [|destruct (Z.eqb_spec n 1) as [->|]].
    + rewrite list_lookup_total_insert_ne by lia. apply list_lookup_total_insert_eq. lia.
    + apply list_lookup_total_insert_eq. rewrite length_insert. lia.
    + by rewrite !list_lookup_total_insert_ne by lia.
Qed.

(** From the consoles to the interrupt subsystem. *)
Lemma early_stage (s : kernel) :
  sane s → if_flag (view s) = false → length (gdt (view s)) = 3%nat → c_ready (config_of s) →
  ∃ s' ma sl,
    (∀ k : M kernel unit,
     (print_banner fuel;; gdt_init gdt_addr;; interrupts_init (H := handler) stub_addr idt_addr;;
      status_ok fuel (bytes "Interrupt subsystem (IDT + 8259A PIC)");; k) s = k s') ∧
    stage (banner_ops ++ status_ops (bytes "Interrupt subsystem (IDT + 8259A PIC)")) s s' ∧
    let c := config_of s in
    config_of s' = mk_config (c_if c) (23, gdt_addr) (2047, idt_addr) 8 16 flat_gdt
      (table_after stub_addr idt_addr (c_idt c)) (c_pmm c) (c_heap c) ma sl ∧
    c_ready (config_of s') ∧ offset ma = 32 ∧ offset sl = 40 ∧
    ∀ k, 0 ≤ k < 16 → c_masked (config_of s') k = negb (k =? 2) && c_masked c k.
Proof.
  intros Hs Hi Hg Hr. destruct (does_banner s Hs) as ([] & s1 & E1 & P1).
  pose proof (effect_config _ _ _ P1) as C1.
  destruct (gdt_stage s1) as (s2 & E2 & T2 & C2).
  { change (length (c_gdt (config_of s1)) = 3%nat). by rewrite C1. }
  destruct (interrupts_stage s2) as (s3 & ma & sl & E3 & T3 & C3 & R3 & O3 & O3' & M3).
  { rewrite C2, C1. exact Hr. }
  pose proof (stage_trans _ _ _ _ _ (effect_stage _ _ _ P1)
    (stage_trans _ _ _ _ _ T2 T3)) as T.
  destruct (does_status (bytes "Interrupt subsystem (IDT + 8259A PIC)") s3
    (stage_sane _ _ _ Hi T Hs)) as ([] & s4 & E4 & P4).
  pose proof (effect_config _ _ _ P4) as C4.
  exists s4, ma, sl. split.
  { intros k. by rewrite (bind_ret _ _ _ _ _ E1), (bind_ret _ _ _ _ _ E2),
      (bind_ret _ _ _ _ _ E3), (bind_ret _ _ _ _ _ E4). }
  split; [exact (stage_trans _ _ _ _ _ T (effect_stage _ _ _ P4))|].
  cbn zeta. rewrite C4. split; [by rewrite C3, C2, C1|]. split; [exact R3|].
  split; [exact O3|]. split; [exact O3'|]. intros k Hk. rewrite M3, C2, C1 by done. done.
Qed.

(** Take the next step by [D], which prints: the state after it, its stage, its
    sanity, its configuration and its interrupt flag. *)
Ltac step_does D s Hs Hi s' E T Hs' Hi' C :=
  let P := fresh "P" in
  destruct (D s Hs) as ([] & s' & E & P);
  pose proof (effect_stage _ _ _ P) as T; pose proof (stage_sane _ _ _ Hi T Hs) as Hs';
  pose proof (proj1 (st_calm _ _ _ T Hi)) as Hi';
  pose proof (effect_config _ _ _ P) as C; clear P.

(** The end of step 9: interrupts are on, and the last line is printed. *)
Lemma online_run (s : kernel) :
  sane s →
  ∃ s', (sti;; irqs;; color VGA_COLOR_LIGHT_GREEN VGA_COLOR_BLACK;; irqs;;
         puts fuel (bytes "  Interrupts ENABLED" ++ nl)) s = Ret tt s' ∧
    effect [Color VGA_COLOR_LIGHT_GREEN VGA_COLOR_BLACK;
            Say (bytes "  Interrupts ENABLED" ++ nl)] (online s) s'.
Proof.
  intros Hs.
  assert (does [Color VGA_COLOR_LIGHT_GREEN VGA_COLOR_BLACK;
                Say (bytes "  Interrupts ENABLED" ++ nl)]
    (irqs;; color VGA_COLOR_LIGHT_GREEN VGA_COLOR_BLACK;; irqs;;
     puts fuel (bytes "  Interrupts ENABLED" ++ nl))) as D.
  { apply (does_bind []); [apply does_irqs|intros _]. does_steps. }
  destruct (D (online s) (online_sane _ Hs)) as ([] & s' & E & P). exists s'.
  split; [|exact P]. by rewrite (bind_ret sti _ s tt (online s) eq_refl).
Qed.

(** From the memory map to the end of step 8; interrupts are still off. *)
Lemma late_stage mbi p' (s : kernel) :
  sane s → if_flag (view s) = false → c_ready (config_of s) →
  pmm_setup fuel mbi kernel_end (c_pmm (config_of s)) = Done p' →
  ∃ s' ma sl,
    (∀ k : M kernel unit,
     (memory_init fuel mbi kernel_end;; status_ok fuel (bytes "Physical Memory Manager");;
      print_cpu_info fuel;;
      pit_init pit_irq0;; status_ok fuel (bytes "PIT timer (100 Hz)");;
      keyboard_init keyboard_irq1;; status_ok fuel (bytes "PS/2 keyboard driver");; k) s = k s') ∧
    stage ([Say (pmm_text p')] ++ status_ops (bytes "Physical Memory Manager") ++
      [Color VGA_COLOR_YELLOW VGA_COLOR_BLACK; Say cpu_text] ++
      status_ops (bytes "PIT timer (100 Hz)") ++ status_ops (bytes "PS/2 keyboard driver"))
      s s' ∧ sane s' ∧
    let c := config_of s in
    config_of s' = mk_config (c_if c) (c_gdtr c) (c_idtr c) (c_cs c) (c_data c) (c_gdt c)
      (irq_register_handler 1 (Some keyboard_irq1)
        (irq_register_handler 0 (Some pit_irq0) (c_idt c))) p' (c_heap c) ma sl ∧
    offset ma = offset (c_master c) ∧ offset sl = offset (c_slave c) ∧
    ∀ k, 0 ≤ k < 16 → c_masked (config_of s') k = negb (k <? 2) && c_masked c k.
Proof.
  intros Hs Hi Hr Ep. destruct (pmm_stage mbi p' s Hs Ep) as (s1 & E1 & T1 & C1).
  pose proof (stage_sane _ _ _ Hi T1 Hs) as Hs1. pose proof (proj1 (st_calm _ _ _ T1 Hi)) as Hi1.
  step_does (does_status (bytes "Physical Memory Manager")) s1 Hs1 Hi1 s2 E2 T2 Hs2 Hi2 C2.
  step_does does_cpu_info s2 Hs2 Hi2 s3 E3 T3 Hs3 Hi3 C3.
  destruct (pit_stage s3) as (s4 & m4 & l4 & E4 & T4 & C4 & R4 & O4 & O4' & M4).
  { rewrite C3, C2, C1. exact Hr. }
  pose proof (stage_sane _ _ _ Hi3 T4 Hs3) as Hs4. pose proof (proj1 (st_calm _ _ _ T4 Hi3)) as Hi4.
  step_does (does_status (bytes "PIT timer (100 Hz)")) s4 Hs4 Hi4 s5 E5 T5 Hs5 Hi5 C5.
  destruct (keyboard_stage s5) as (s6 & m6 & l6 & E6 & T6 & C6 & R6 & O6 & O6' & M6).
  { rewrite C5. exact R4. }
  pose proof (stage_sane _ _ _ Hi5 T6 Hs5) as Hs6. pose proof (proj1 (st_calm _ _ _ T6 Hi5)) as Hi6.
  step_does (does_status (bytes "PS/2 keyboard driver")) s6 Hs6 Hi6 s7 E7 T7 Hs7 Hi7 C7.
  exists s7, m6, l6. split.
  { intros k. by rewrite (bind_ret _ _ _ _ _ E1), (bind_ret _ _ _ _ _ E2), (bind_ret _ _ _ _ _ E3),
      (bind_ret _ _ _ _ _ E4), (bind_ret _ _ _ _ _ E5), (bind_ret _ _ _ _ _ E6),
      (bind_ret _ _ _ _ _ E7). }
  split.
  { apply (stage_trans _ _ _ _ _ T1), (stage_trans _ _ _ _ _ T2), (stage_trans _ _ _ _ _ T3),
      (stage_trans [] _ _ _ _ T4), (stage_trans _ _ _ _ _ T5), (stage_trans [] _ _ _ _ T6). exact T7. }
  split; [done|]. cbn zeta in *. split; [by rewrite C7, C6, C5, C4, C3, C2, C1|].
  split; [by rewrite O6, C5, C4; cbn [c_master]; rewrite O4, C3, C2, C1|].
  split; [by rewrite O6', C5, C4; cbn [c_slave]; rewrite O4', C3, C2, C1|].
  intros k Hk. rewrite C7, M6, C5, M4, C3, C2, C1 by done. rewrite andb_assoc, <- negb_orb.
  change (c_masked (mk_config _ _ _ _ _ _ _ p' _ (c_master (config_of s))
    (c_slave (config_of s))) k) with (c_masked (config_of s) k).
  do 2 f_equal. lia.
Qed.

(** The driver's lines are the timer's and the keyboard's own. *)
Lemma boot_timer_line (d : idt_state handler) :
  (∀ n, 0 ≤ n < 16 → irq_handlers d !!! Z.to_nat n
     = if n =? 0 then Some pit_irq0 else if n =? 1 then Some keyboard_irq1 else None) →
  timer_line d.
Proof.
  intros Hd n Hn. rewrite Hd by done.
  destruct (Z.eqb_spec n 0) as [->|]; [done|]. by destruct (n =? 1).
Qed.

(** What the boot sequence leaves. *)
Record booted (p' : pmm) (ok : bool) (s s' : kernel) : Prop := {
  bt_vga : view (C := vga) s' = paints (boot_ops p') (vga_init (view s));
  bt_uart : uart_of (trace (view s'))
    = uart_out (sents (boot_ops p')) (mk_uart false (negb ok) (wire (uart_of (trace (view s)))));
  bt_gdt : (gdtr (view s'), gdt (view s'), seg_cs (view s'), seg_data (view s'))
    = ((23, gdt_addr), flat_gdt, 8, 16);
  bt_idtr : idtr (view s') = (2047, idt_addr);
  bt_gates v : 0 ≤ v < 48 →
    kernel_gate (idt (view (C := idt_state handler) s') !!! Z.to_nat v) (stub_addr (vector_stub v));
  bt_offsets : (offset (master_of (trace (view s'))), offset (slave_of (trace (view s')))) = (32, 40);
  bt_lines n : 0 ≤ n < 16 →
    masked (trace (view s')) n = negb (n <? 3) && masked (trace (view s)) n ∧
    irq_handlers (view (C := idt_state handler) s') !!! Z.to_nat n
    = if n =? 0 then Some pit_irq0 else if n =? 1 then Some keyboard_irq1 else None;
  bt_pmm : view s' = p';
  bt_if : if_flag (view s') = true;
  bt_trace : ∃ l, trace (view s') = trace (view s) ++ l;
  bt_ticked : ticked s s';
  bt_keyed : keyed [] s s';
  bt_sane : sane s'
}.

Lemma booted_timer_line p' ok s s' : booted p' ok s s' → timer_line (view s').
Proof. intros B. apply boot_timer_line. intros n Hn. by apply (bt_lines _ _ _ _ B). Qed.

(** The clock and the keys: still until [sti], then as interrupts go. *)
Lemma boot_clock s s3 s4 :
  0 ≤ ticks (view s) < 4294967296 → still s s3 → sane s3 → timer_line (view (online s3)) →
  background0 (online s3) s4 → ticked s s4 ∧ keyed [] s s4.
Proof.
  intros Ht Qs Hs3 Hl B4. assert (still s (online s3)) as Q by (transitivity s3; [done|apply online_still]).
  split.
  - apply (ticked_trans _ (online s3)); [by apply still_ticked|].
    exact (proj2 (bg_ticks _ _ B4 (sane_ticks _ Hs3)) Hl).
  - apply (keyed_trans [] [] _ (online s3)); [by apply still_keyed|].
    exact (proj2 (proj2 (bg_kb _ _ B4 (sane_kb _ Hs3)))).
Qed.

(** The tables, from what the components report of them. *)
Lemma boot_table (d0 : idt_state handler) :
  idt_ok d0 → irq_handlers d0 = replicate 16 None → (∀ st, 0 ≤ stub_addr st < 4294967296) →
  let d := irq_register_handler 1 (Some keyboard_irq1) (irq_register_handler 0 (Some pit_irq0)
    (table_after stub_addr idt_addr d0)) in
  timer_line d ∧
  (∀ v, 0 ≤ v < 48 → kernel_gate (idt d !!! Z.to_nat v) (stub_addr (vector_stub v))) ∧
  (∀ n, 0 ≤ n < 16 → irq_handlers d !!! Z.to_nat n
    = if n =? 0 then Some pit_irq0 else if n =? 1 then Some keyboard_irq1 else None).
Proof.
  intros Hidt Hh0 Hst d. destruct (table_entries d0 Hidt Hst) as [Hgates Hh]. fold d in Hgates, Hh.
  assert (∀ n, 0 ≤ n < 16 → irq_handlers d !!! Z.to_nat n
    = if n =? 0 then Some pit_irq0 else if n =? 1 then Some keyboard_irq1 else None) as Hlines.
  { intros n Hn. rewrite Hh, Hh0 by done. rewrite list_lookup_total_alt, lookup_replicate_2 by lia. done. }
  split; [by apply boot_timer_line|by split].
Qed.

(** The whole boot sequence. *)
Lemma boot_run mbi p' (s : kernel) :
  boot_pre s → pmm_setup fuel mbi kernel_end (view s) = Done p' →
  (∀ st, 0 ≤ stub_addr st < 4294967296) →
  ∃ s' ok, kernel_boot fuel MULTIBOOT_BOOTLOADER_MAGIC mbi s = Ret tt s' ∧ booted p' ok s s'.
Proof.
  intros [Hif Hpic Hg Hidt Hh0 Hk Ht] Ep Hst.
  destruct (consoles_stage s Hk Ht) as (s1 & ok & E1 & Hs1 & V1 & U1 & C1 & [l1 Tr1] & Q1).
  assert (if_flag (view s1) = false) as Hi1 by (rewrite <- Hif; exact (f_equal c_if C1)).
  destruct (early_stage s1 Hs1 Hi1) as (s2 & m2 & l2 & E2 & T2 & C2 & R2 & O2 & O2' & M2).
  { change (length (c_gdt (config_of s1)) = 3%nat). by rewrite C1. }
  { rewrite C1. exact Hpic. }
  destruct (st_calm _ _ _ T2 Hi1) as [Hi2 _]. pose proof (stage_sane _ _ _ Hi1 T2 Hs1) as Hs2.
  destruct (late_stage mbi p' s2 Hs2 Hi2 R2) as (s3 & m3 & l3 & E3 & T3 & Hs3 & C3 & O3 & O3' & M3).
  { rewrite C2, C1. exact Ep. }
  destruct (online_run s3 Hs3) as (s4 & E4 & P4). pose proof (online_config s3) as Co.
  pose proof (effect_config _ _ _ P4) as C4. cbn zeta in C3, Co. rewrite Co in C4.
  pose proof (stage_trans _ _ _ _ _ T2 T3) as T. destruct (st_calm _ _ _ T Hi1) as [_ Q].
  specialize (Q1 Hif). assert (still s s3) as Qs by by etransitivity.
  set (d := irq_register_handler 1 _ _) in C3.
  assert (d = irq_register_handler 1 (Some keyboard_irq1) (irq_register_handler 0 (Some pit_irq0)
    (table_after stub_addr idt_addr (view s)))) as Hd by (unfold d; by rewrite C2, C1).
  rewrite C3, C2, C1 in C4. cbn [c_gdtr c_idtr c_cs c_data c_gdt c_idt c_pmm c_heap c_master c_slave] in C4.
  destruct (boot_table (view s) Hidt Hh0 Hst) as (Hl & Hgates & Hlines). rewrite <- Hd in Hl, Hgates, Hlines.
  assert (view (C := idt_state handler) s4 = d) as Ed by exact (f_equal c_idt C4).
  assert (timer_line (view (online s3))) as Hl3 by (change (timer_line (c_idt (config_of s3))); by rewrite C3).
  destruct P4 as [[V4 U4 B4] Pm4].
  destruct (boot_clock s s3 s4 Ht Qs Hs3 Hl3 B4) as [Htick Hkey].
  exists s4, ok. split.
  { unfold kernel_boot. rewrite E1.
    change (negb (MULTIBOOT_BOOTLOADER_MAGIC =? MULTIBOOT_BOOTLOADER_MAGIC)) with false.
    cbn iota. rewrite (bind_ret (mret tt) _ s1 tt s1 eq_refl), E2, E3. exact E4. }
  split; rewrite ?Ed; try done.
  - rewrite V4. change (view (C := vga) (online s3)) with (view (C := vga) s3).
    rewrite (st_vga _ _ _ T), V1, <- paints_app. done.
  - rewrite U4, online_uart, (st_uart _ _ _ T), U1, uart_out_app, <- sents_app. done.
  - change ((c_gdtr (config_of s4), c_gdt (config_of s4), c_cs (config_of s4),
      c_data (config_of s4)) = ((23, gdt_addr), flat_gdt, 8, 16)). by rewrite C4.
  - exact (f_equal c_idtr C4).
  - change ((offset (c_master (config_of s4)), offset (c_slave (config_of s4))) = (32, 40)).
    rewrite C4; cbn [c_master c_slave]. rewrite O3, O3', C2; cbn [c_master c_slave]. by rewrite O2, O2'.
  - intros n Hn. split; [|by apply Hlines]. transitivity (c_masked (config_of s3) n).
    { change (c_masked (config_of s4) n = c_masked (config_of s3) n). by rewrite C4, C3. }
    rewrite M3, M2, C1, andb_assoc, <- negb_orb by done.
    transitivity (negb ((n <? 2) || (n =? 2)) && masked (trace (view s)) n); [done|].
    do 2 f_equal. lia.
  - exact (f_equal c_pmm C4).
  - exact (f_equal c_if C4).
  - destruct (st_trace _ _ _ T) as [l3' Tr3], (bg_cpu _ _ B4) as [l4 Tr4].
    eexists. rewrite Tr4, with_trace_trace, online_trace, Tr3, Tr1, <- !app_assoc. reflexivity.
  - apply (effect0_sane _ _ _ (Build_effect0 _ _ _ V4 U4 B4)), online_sane, Hs3.
Qed.

(** ** Properties *)

(** C2: on hardware whose UART gets its bytes sent and, given a byte in loopback,
    receives one, and whose interrupt masks read back, [kernel_main] gets through its whole boot sequence. The screen and the
    serial line show exactly the boot transcript (the line stays silent when the
    loopback test failed); the flat GDT and the IDT are loaded and every one of
    the 48 vectors enters its stub; the controllers are remapped, and timer,
    keyboard and cascade lines are open and all others as masked as before; the
    timer and keyboard handlers, and no others, are registered; the frame
    allocator holds what [pmm_setup] computes; interrupts are enabled, last, and
    the timer interrupts and key presses from then on are counted and queued. *)
Theorem kernel_boot_spec mbi p' (s : kernel) :
  boot_pre s → pmm_setup fuel mbi kernel_end (view s) = Done p' →
  (∀ st, 0 ≤ stub_addr st < 4294967296) →
  ∃ s' ok, kernel_boot fuel MULTIBOOT_BOOTLOADER_MAGIC mbi s = Ret tt s' ∧ booted p' ok s s'.
Proof. apply boot_run. Qed.

(** Started with any other magic number, the kernel reports it and stops. *)
Lemma bad_magic_run n magic mbi (s : kernel) :
  magic ≠ MULTIBOOT_BOOTLOADER_MAGIC →
  kb_ok (view s) → 0 ≤ ticks (view s) < 4294967296 →
  let msg := panic_text
    (bytes "Invalid Multiboot magic — not loaded by a Multiboot bootloader") in
  ∃ s' ok, kernel_main fuel n magic mbi s = Halted s' ∧ if_flag (view s') = false ∧
    view (C := vga) s'
    = vga_puts msg (vga_set_color VGA_COLOR_WHITE VGA_COLOR_RED (vga_init (view s))) ∧
    uart_of (trace (view s'))
    = uart_out (crlf msg) (mk_uart false (negb ok) (wire (uart_of (trace (view s))))).
Proof.
  intros Hm Hk Ht msg.
  destruct (consoles_stage s Hk Ht) as (s1 & ok & E1 & Hs1 & V1 & U1 & _).
  destruct (panic_halted (A := unit) fuel
    (bytes "Invalid Multiboot magic — not loaded by a Multiboot bootloader") s1 live
    (sane_uart _ Hs1)) as (s2 & E2 & Hif & V2 & U2).
  exists s2, ok. split.
  - unfold kernel_main. unfold mbind at 1, M_bind. unfold kernel_boot. rewrite E1.
    rewrite (proj2 (Z.eqb_neq _ _) Hm). cbn [negb]. by rewrite panic_bind, E2.
  - split; [done|]. by rewrite V2, V1, U2, U1.
Qed.

End boot.
(** ** The properties at a concrete machine *)

(** A PC: a 16550 on its line, initialised controllers, and a keyboard
    on which A is pressed. *)
Definition demo_hw : Hardware := fun tr p =>
  if p =? 0x60 then 0x1E else if pic_port p then pic_hw tr p else uart16550 tr p.

Definition demo_image : Image := {|
  stub_addr := stubs0;
  idt_addr := 0x110000;
  gdt_addr := 0x111000;
  heap_area := 0x120000;
  kernel_end := 0x180000
|}.

Definition demo_cpuid : Cpuid := fun _ => (13, 0x756E6547, 0x6C65746E, 0x49656E69).

(** A timer and a keyboard interrupt at every opportunity. *)
#[program] Definition demo_interrupts : Interrupts := {|
  pending := fun _ => [frame0 32; frame0 33]
|}.
Next Obligation. intros tr f [<-|[<-|[]]]; cbn; lia. Qed.

Definition idt_k0 : idt_state handler :=
  mk_idt (replicate 256 (mk_gate 0 0 0 0 0)) (0, 0) (replicate 16 None).

Definition kernel0 : kernel :=
  (vga0, cpu_bios, gdt0, idt_k0, full_pmm, mk_heap 0, mk_pit 0, kb0).

Lemma demo_16550 : has_16550 demo_hw.
Proof.
  intros tr p Hp. unfold uart_port in Hp. unfold port_in, demo_hw, pic_port.
  rewrite (proj2 (Z.eqb_neq p 0x60)), !(proj2 (Z.eqb_neq p _)) by lia. reflexivity.
Qed.

Lemma demo_live : uart_live (H := demo_hw) 5 LSR_TX_EMPTY.
Proof. apply live_16550; [apply demo_16550|lia]. Qed.

Lemma demo_answers : loopback_answers (H := demo_hw) 5.
Proof. apply answers_16550; [apply demo_16550|lia]. Qed.

Lemma demo_readback : imr_readback (H := demo_hw).
Proof. exact pic_hw_readback. Qed.

Lemma demo_stubs st : 0 ≤ stub_addr (Image := demo_image) st < 4294967296.
Proof. destruct st as [n|n]; cbn -[Z.modulo]; dlia. Qed.

Lemma kernel0_pre : boot_pre kernel0.
Proof. split; [done|done|done|done|done|apply kb0_ok|done]. Qed.

Lemma kernel0_setup :
  ∃ p', pmm_setup (H := demo_mem 64 20) 5 0x9000 0x180000 full_pmm = Done p' ∧
    pmm_ok p' ∧ low_reserved p'.
Proof.
  eexists. split; [apply (setup_with_map _ _ _ _ demo_map); [apply demo_map_present|cbn; lia]|].
  set (p := reserve_frames 256 _ _).
  assert (pmm_ok (add_regions demo_map (mk_pmm (mark_all_used (bitmap full_pmm))
    (total_frames full_pmm) (free_frames full_pmm)))) as Hok.
  { apply add_regions_ok; [apply demo_map_present|apply demo_map_disjoint
      |apply marked_ok; [apply full_pmm_length|done]|].
    intros f Hf _. by apply mark_all_used_spec; [apply full_pmm_length|]. }
  destruct (reserve_spec 0x180000 _ p ltac:(lia) (pmm_ok_bitmap _ Hok) eq_refl)
    as (_ & H2 & _ & H4).
  split; [exact (H2 Hok)|]. intros f Hf. by apply H4 in Hf as (_ & ? & _).
Qed.

#[local] Opaque full_pmm.

Lemma kernel_boot_spec_witness :
  ∃ s', kernel_boot (H := demo_hw) (H0 := demo_mem 64 20) (H1 := demo_image) (H2 := demo_cpuid)
      (H3 := demo_interrupts) 5 0x2BADB002 0x9000 kernel0 = Ret tt s' ∧
    if_flag (view s') = true ∧ masked (trace (view s')) 1 = false.
Proof.
  destruct kernel0_setup as (p' & Ep & _).
  destruct (kernel_boot_spec (H := demo_hw) (H0 := demo_mem 64 20) (H1 := demo_image)
    (H2 := demo_cpuid) (H3 := demo_interrupts) 5 demo_live demo_readback
    demo_answers 0x9000 p' kernel0 kernel0_pre Ep demo_stubs)
    as (s' & ok & E & B).
  exists s'. split; [exact E|]. split; [exact (bt_if _ _ _ _ B)|].
  exact (proj1 (bt_lines _ _ _ _ B 1 (conj (Z.le_0_1) (eq_refl : 1 < 16)))).
Defined.
