(* ===== verification/KernelTypes.v ===== *)
(** The kernel is well-typed: its whole state keeps the types the C source declares,
    on any hardware, and no statement leaves the behaviour C defines. *)

From S2P Require Import Prelude Machine Vga Preempt Screen Serial Digits Kprintf Pic Panic Idt Pmm PmmSpec Gdt Pit Keyboard Memory Uptime Kernel KernelSpec KernelBoot Safety.

#[local] Open Scope Z_scope.
#[local] Open Scope c_scope.

(** ** The types of the components *)

Record gate_typed (g : gate) : Prop := {
  gt_low : 0 ≤ g_base_low g < 65536;
  gt_sel : 0 ≤ g_sel g < 65536;
  gt_zero : 0 ≤ g_zero g < 256;
  gt_flags : 0 ≤ g_flags g < 256;
  gt_high : 0 ≤ g_base_high g < 65536
}.

Record entry_typed (e : gdt_entry) : Prop := {
  et_limit : 0 ≤ limit_low e < 65536;
  et_low : 0 ≤ base_low e < 65536;
  et_mid : 0 ≤ base_mid e < 256;
  et_access : 0 ≤ access e < 256;
  et_gran : 0 ≤ granularity e < 256;
  et_high : 0 ≤ base_high e < 256
}.

(** Limit and base of a table, as [lgdt] and [lidt] read them. *)
Definition ptr_typed (p : Z * Z) : Prop := 0 ≤ p.1 < 65536 ∧ 0 ≤ p.2 < 4294967296.

Record gdt_typed (g : gdt_state) : Prop := {
  gdt_typed_length : length (gdt g) = 3%nat;
  gdt_typed_entries : Forall entry_typed (gdt g);
  gdt_typed_ptr : ptr_typed (gdt_ptr g)
}.

Record idt_typed (d : idt_state handler) : Prop := {
  idt_typed_ok : idt_ok d;
  idt_typed_gates : Forall gate_typed (idt d);
  idt_typed_ptr : ptr_typed (idt_ptr d)
}.

Record pmm_typed (p : pmm) : Prop := {
  pmm_typed_bitmap : bitmap_ok (bitmap p);
  pmm_typed_total : 0 ≤ total_frames p < 4294967296;
  pmm_typed_free : 0 ≤ free_frames p < 4294967296
}.

(** The state of the whole kernel. *)
Record well_typed (s : kernel) : Prop := {
  wt_screen : screen_ok (view s);
  wt_cpu : cpu_ok (view s);
  wt_gdt : gdt_typed (view s);
  wt_idt : idt_typed (view s);
  wt_pmm : pmm_typed (view s);
  wt_heap : 0 ≤ heap_offset (view s) ≤ HEAP_SIZE;
  wt_pit : 0 ≤ ticks (view s) < 4294967296;
  wt_kb : kb_ok (view s)
}.

(** All of it but the screen. *)
Record rest_typed (s : kernel) : Prop := {
  rt_cpu : cpu_ok (view s);
  rt_gdt : gdt_typed (view s);
  rt_idt : idt_typed (view s);
  rt_pmm : pmm_typed (view s);
  rt_heap : 0 ≤ heap_offset (view s) ≤ HEAP_SIZE;
  rt_pit : 0 ≤ ticks (view s) < 4294967296;
  rt_kb : kb_ok (view s)
}.

Lemma well_typed_rest (v : vga) (s : kernel) :
  well_typed (put v s : kernel) ↔ screen_ok v ∧ rest_typed s.
Proof. split; [by intros []|by intros [? []]]. Qed.

#[export] Instance rest_typed_cpu : SafeCpu rest_typed.
Proof. split; [apply rt_cpu|]. intros c s [] Hc. by split. Qed.

#[export] Instance well_typed_io : SafeIO well_typed.
Proof.
  split; [split| |].
  - apply wt_cpu.
  - intros c s []. by split.
  - apply wt_screen.
  - intros v s []. by split.
Qed.

(** A statement on the statics of one component. *)
Lemma wt_modify_gdt (f : gdt_state → gdt_state) :
  (∀ g, gdt_typed g → gdt_typed (f g)) → safe well_typed any (modify f).
Proof. intros Hf. apply safe_modify. intros s []. split; try done. by apply Hf. Qed.

Lemma wt_modify_idt (f : idt_state handler → idt_state handler) :
  (∀ d, idt_typed d → idt_typed (f d)) → safe well_typed any (modify f).
Proof. intros Hf. apply safe_modify. intros s []. split; try done. by apply Hf. Qed.

Lemma wt_modify_pmm (f : pmm → pmm) :
  (∀ p, pmm_typed p → pmm_typed (f p)) → safe well_typed any (modify f).
Proof. intros Hf. apply safe_modify. intros s []. split; try done. by apply Hf. Qed.

(** ** Tables *)

Lemma entry_typed_set i base limit acc gran g :
  0 ≤ i < 3 → 0 ≤ acc < 256 → gdt_typed g → gdt_typed (gdt_set_entry i base limit acc gran g).
Proof.
  intros Hi Ha [Hl He Hp]. split; cbn; [rewrite length_wr; [done|rewrite Hl; lia]| |done].
  apply Forall_wr; [done|]. split; cbn; apply u8_range || apply u16_range || exact Ha.
Qed.

Lemma gate_typed_set v base d :
  0 ≤ v < 256 → idt_typed d → idt_typed (idt_set_gate v base d).
Proof.
  intros Hv [Hd Hg Hp]. split; [by apply idt_ok_set_gate| |done].
  apply Forall_wr; [done|]. split; cbn; apply u16_range || (unfold IDT_GATE_FLAGS; lia) || lia.
Qed.

Lemma idt_typed_register n h d :
  0 ≤ n → idt_typed d → idt_typed (irq_register_handler n h d).
Proof.
  intros Hn [Hd Hg Hp]. split; [by apply idt_ok_register|..];
    unfold irq_register_handler; by destruct (n <? NUM_IRQS).
Qed.

(** ** The frame allocator, on any boot information *)

Lemma pmm_typed_frames (f : Z → pmm → pmm) lo hi p :
  (∀ k q, frame_ok k → pmm_typed q → pmm_typed (f k q)) → 0 ≤ lo → pmm_typed p →
  pmm_typed (for_range lo (Z.min hi PMM_MAX_FRAMES) f p).
Proof.
  intros Hf Hlo Hp. destruct (Z.le_gt_cases (Z.min hi PMM_MAX_FRAMES) lo); [by rewrite for_range_empty|].
  apply (for_range_ind (fun _ q => pmm_typed q)); [lia|done|]. intros k q Hk Hq.
  apply Hf; [unfold frame_ok; lia|done].
Qed.

Lemma pmm_typed_add k q : frame_ok k → pmm_typed q → pmm_typed (add_frame k q).
Proof. intros Hk [Hb Ht Hf]. split; [by apply bitmap_clear_ok|apply u32_range..]. Qed.

Lemma pmm_typed_reserve k q : frame_ok k → pmm_typed q → pmm_typed (reserve_frame k q).
Proof.
  intros Hk [Hb Ht Hf]. unfold reserve_frame. destruct (_ =? 0); [|done].
  split; [by apply bitmap_set_ok|done|apply u32_range].
Qed.

Lemma pmm_typed_region e p : pmm_typed p → pmm_typed (add_region e p).
Proof.
  intros Hp. unfold add_region. destruct (e_type e =? 1); [|done].
  destruct (_ <=? _); [done|]. cbn zeta.
  apply pmm_typed_frames; [apply pmm_typed_add|apply u32_range|done].
Qed.

(** The state of a loop, finished or not. *)
Definition progressed {A : Type} (P : A → Prop) (o : progress A) : Prop :=
  match o with Done a | Busy a => P a end.

Lemma pmm_typed_walk `{!PhysMem} n addr end_ p :
  pmm_typed p → progressed pmm_typed (mmap_walk n addr end_ p).
Proof.
  revert addr p. induction n as [|n IH]; intros addr p Hp; [done|]. cbn [mmap_walk].
  destruct (addr <? end_); [|done]. by apply IH, pmm_typed_region.
Qed.

(** Wherever the loader points, whatever it put there. *)
Lemma pmm_typed_setup `{!PhysMem} n mbi kend p :
  pmm_typed p → progressed pmm_typed (pmm_setup n mbi kend p).
Proof.
  intros [Hb Ht Hf]. unfold pmm_setup. set (p1 := mk_pmm (mark_all_used _) _ _).
  assert (pmm_typed p1) as Hp1.
  { split; [|done..]. by apply mark_all_used_spec; destruct Hb. }
  set (o := if Z.land _ _ =? 0 then _ else _).
  assert (progressed pmm_typed o) as Ho.
  { unfold o. destruct (Z.land _ _ =? 0); [|by apply pmm_typed_walk].
    by apply pmm_typed_frames; [apply pmm_typed_add|..]. }
  destruct o as [q|q]; [|exact Ho]. apply pmm_typed_frames; [apply pmm_typed_reserve|done|].
  by apply pmm_typed_frames; [apply pmm_typed_reserve|..].
Qed.

Lemma pmm_typed_alloc p r p' :
  pmm_typed p → pmm_alloc_frame p = (r, p') → 0 ≤ r < 4294967296 ∧ pmm_typed p'.
Proof.
  intros Hp E. destruct (alloc_frame_cases p) as [[E' _]|(f & Hf & _ & _ & E')];
    rewrite E' in E; injection E as <- <-; [done|]. destruct Hp as [Hb Ht Hc].
  split; [unfold frame_ok, PMM_MAX_FRAMES, PMM_FRAME_SIZE in *; lia|].
  split; [by apply bitmap_set_ok|done|apply u32_range].
Qed.

Lemma pmm_typed_release a p :
  0 ≤ a < 4294967296 → pmm_typed p → pmm_typed (pmm_free_frame a p).
Proof.
  intros Ha [Hb Ht Hf]. rewrite free_frame_cases by done. destruct (used _ _); [|done].
  split; [by apply bitmap_clear_ok, free_frame_frame|done|apply u32_range].
Qed.

(** ** Interrupts *)

Section kernel_types.
Context `{!Hardware} `{!PhysMem} `{!Image} `{!Cpuid} `{!Interrupts}.
Variable fuel : nat.

Lemma safe_call h f : safe rest_typed any (call h f).
Proof.
  destruct h; cbn [call].
  - apply safe_modify. intros s []. split; try done. apply u32_range.
  - intros s Hs. rewrite (irq1_eq f s). split; [done|].
    assert (rest_typed (grow [EIn 0x60 (scan_code s)] s)) as [].
    { apply safe_put_cpu; [done|]. apply (cpu_ok_log (EIn _ _)); [apply Hs|].
      split; [lia|apply u8_range]. }
    split; try done. cbn [view lens_snd]. apply press_kb_spec; [apply Hs|apply u8_range].
Qed.

Lemma safe_irq_handler f : safe rest_typed any (irq_handler call f).
Proof.
  assert (∀ n, 0 ≤ n → safe rest_typed any (irq_dispatch call n f)) as Hd.
  { intros n Hn. eapply safe_bind; [by apply (safe_gets _ any)|]. intros hs _.
    apply safe_then; [|apply (safe_pic_send_eoi rest_typed)].
    destruct (Z.ltb_spec n NUM_IRQS); [|by apply safe_ret].
    eapply safe_bind; [by apply safe_fetch_dim|]. intros [h|] _; [apply safe_call|by apply safe_ret]. }
  specialize (Hd (u8 (fr_int_no f -u PIC_MASTER_OFFSET)) (proj1 (u8_range _))).
  unfold irq_handler. cbn zeta. apply safe_if; [|apply safe_if; [|apply Hd]];
    (eapply safe_bind; [apply (safe_pic_read_isr rest_typed)|]); intros v _;
    (apply safe_if; [|apply Hd]); [by apply safe_ret|apply (safe_pic_send_eoi rest_typed)].
Qed.

Lemma safe_set_if b : safe rest_typed any (modify (set_if b)).
Proof.
  apply safe_modify. intros s Hs. apply safe_put_cpu; [done|]. by apply cpu_ok_if, Hs.
Qed.

Lemma safe_take_vector v : safe rest_typed any (modify (take_vector v)).
Proof.
  apply safe_modify. intros s Hs. apply safe_put_cpu; [done|]. by apply cpu_ok_if, cpu_ok_log; [apply Hs|].
Qed.

Lemma rest_irqs : safe rest_typed any irqs.
Proof.
  eapply safe_bind; [by apply (safe_gets _ any)|]. intros c _. apply safe_if; [|by apply safe_ret].
  apply safe_mapM. intros f _. apply safe_then; [apply safe_take_vector|].
  apply safe_then; [apply safe_irq_handler|apply safe_set_if].
Qed.

#[local] Instance kernel_safe : Safe well_typed.
Proof.
  split; [apply _|]. intros v s [Hv Hs]%well_typed_rest.
  destruct (irqs_served s) as (s' & E & P). exists s'. split; [exact E|].
  split; [apply P|]. apply well_typed_rest. split; [done|].
  pose proof (rest_irqs s Hs) as Hr. rewrite E in Hr. apply Hr.
Qed.

Lemma safe_irqs : safe well_typed any irqs.
Proof. apply (safe_preempt well_typed). Qed.

(** ** Statements *)

Lemma safe_color fg bg : safe well_typed any (color fg bg).
Proof. apply (safe_paint well_typed). intros. by apply screen_ok_set_color. Qed.

Lemma safe_puts str : safe well_typed any (puts fuel str).
Proof. apply (safe_emit_str well_typed). Qed.

(** Through a block of prints, interruptible or not. *)
Ltac safe_print :=
  lazymatch goal with
  | |- safe _ _ (mret _) => by apply safe_ret
  | |- safe _ _ (color _ _) => apply safe_color
  | |- safe _ _ (puts _ _) => apply safe_puts
  | |- safe _ _ irqs => apply safe_irqs
  | |- safe _ _ (serial_puts _ _) => apply (safe_serial_puts well_typed)
  end.

Ltac safe_prints :=
  cbv zeta; repeat lazymatch goal with
  | |- safe _ _ (mbind _ _) => apply safe_then; [safe_print|]
  | |- _ => safe_print
  end.

Lemma safe_status name : safe well_typed any (status_ok fuel name).
Proof. unfold status_ok. safe_prints. Qed.

Lemma safe_banner : safe well_typed any (print_banner fuel).
Proof. unfold print_banner. safe_prints. Qed.

Lemma safe_cpu_info : safe well_typed any (print_cpu_info fuel).
Proof.
  unfold print_cpu_info. destruct (cpuid 0) as [[[eax ebx] ecx] edx]. safe_prints.
  by apply (safe_kprintf well_typed).
Qed.

Lemma safe_hlt : safe well_typed any hlt.
Proof. apply safe_then; [by apply (safe_log well_typed)|apply safe_irqs]. Qed.

(** ** The initialisers *)

Hypothesis idt_range : 0 ≤ idt_addr < 4294967296.
Hypothesis gdt_range : 0 ≤ gdt_addr < 4294967296.

Lemma safe_put_event (c : cpu → cpu) :
  (∀ x, cpu_ok x → cpu_ok (c x)) → safe well_typed any (modify c).
Proof. intros Hc. apply safe_modify. intros s Hs. apply safe_put_cpu; [done|]. by apply Hc, Hs. Qed.

Lemma cpu_ok_grow e l : Forall event_ok l → event_ok e → Forall event_ok (l ++ [e]).
Proof. intros Hl He. apply Forall_app. by split; [|constructor]. Qed.

Lemma safe_gdt_init : safe well_typed any (gdt_init gdt_addr).
Proof.
  unfold gdt_init. do 3 (apply safe_then; [apply wt_modify_gdt; intros; by apply entry_typed_set; [lia|..]|]).
  apply safe_then; [apply wt_modify_gdt; intros g []; by split; [..|split; [apply u16_range|]]|].
  eapply safe_bind; [apply (safe_gets _ ptr_typed); intros s Hs; apply Hs|]. intros p [Hl Hb].
  apply safe_then; [|apply safe_then]; (apply safe_put_event; intros x [T G I Sg]);
    (split; cbn; [apply cpu_ok_grow; done || cbn; lia|done || lia..]).
Qed.

Lemma safe_interrupts_init : safe well_typed any (interrupts_init (H := handler) stub_addr idt_addr).
Proof.
  apply safe_then; [apply (safe_pic_init well_typed)|].
  apply safe_then; [|apply (safe_pic_clear_mask well_typed)]. unfold idt_init.
  apply safe_then; [apply safe_mapM; intros c Hc; apply wt_modify_idt; intros; apply gate_typed_set; [|done]|].
  { rewrite gate_calls_seq in Hc. apply list_elem_of_fmap in Hc as (v & -> & Hv).
    apply elem_of_seqZ in Hv. cbn [fst]. lia. }
  apply safe_then; [apply wt_modify_idt; intros d [[? ?] ? ?];
    by split; [split| |split; [apply u16_range|]]|].
  eapply safe_bind; [apply (safe_gets _ ptr_typed); intros s Hs; apply Hs|]. intros p [Hl Hb].
  apply safe_put_event. intros x [T G I Sg]. split; cbn; [by apply cpu_ok_grow|done..].
Qed.

(** Registering a driver's handler and opening its line. *)
Lemma safe_driver n h :
  0 ≤ n → safe well_typed any (modify (irq_register_handler n (Some h));; pic_clear_mask n).
Proof.
  intros Hn. apply safe_then; [|apply (safe_pic_clear_mask well_typed)].
  apply wt_modify_idt. intros. by apply idt_typed_register.
Qed.

Lemma safe_pit_init : safe well_typed any (pit_init pit_irq0).
Proof.
  unfold pit_init. do 3 (apply safe_then; [apply (safe_outb well_typed)|]). by apply safe_driver.
Qed.

Lemma safe_memory_init mbi kend : safe well_typed any (memory_init fuel mbi kend).
Proof.
  eapply safe_bind; [apply (safe_gets _ pmm_typed); intros s Hs; apply Hs|]. intros p Hp.
  pose proof (pmm_typed_setup fuel mbi kend p Hp) as Ht.
  destruct (pmm_setup fuel mbi kend p) as [p'|p'];
    (apply safe_then; [apply wt_modify_pmm; intros _ _; exact Ht|]); [|apply safe_hung].
  apply (safe_kprintf well_typed). by rewrite pmm_format.
Qed.

Lemma safe_boot magic mbi : safe well_typed any (kernel_boot fuel magic mbi).
Proof.
  unfold kernel_boot.
  apply safe_then; [apply (safe_paint well_typed), screen_ok_init|].
  eapply safe_bind; [apply (safe_serial_init well_typed)|]. intros _ _.
  apply safe_then; [apply safe_if; [apply (safe_kernel_panic well_typed)|by apply safe_ret]|].
  apply safe_then; [apply safe_banner|]. apply safe_then; [apply safe_gdt_init|].
  apply safe_then; [apply safe_interrupts_init|]. apply safe_then; [apply safe_status|].
  apply safe_then; [apply safe_memory_init|]. apply safe_then; [apply safe_status|].
  apply safe_then; [apply safe_cpu_info|]. apply safe_then; [apply safe_pit_init|].
  apply safe_then; [apply safe_status|]. apply safe_then; [by apply safe_driver|].
  apply safe_then; [apply safe_status|]. apply safe_then; [apply (safe_sti well_typed)|].
  safe_prints.
Qed.

(** ** The self-test and the main loop *)

Lemma safe_ticks : safe well_typed (fun t => 0 ≤ t < 4294967296) pit_get_ticks.
Proof. apply safe_gets. intros s Hs. apply Hs. Qed.

Lemma safe_selftest : safe well_typed any (run_selftest fuel).
Proof.
  unfold run_selftest. safe_prints.
  eapply safe_bind; [apply safe_ticks|]. intros t0 _. apply safe_then; [apply safe_irqs|].
  eapply safe_bind; [apply safe_ticks|]. intros t1 _. apply safe_then.
  { apply safe_if; safe_prints. by apply (safe_kprintf well_typed). }
  safe_prints. eapply safe_bind; [apply (safe_gets _ pmm_typed); intros s Hs; apply Hs|].
  intros p Hp. destruct (pmm_alloc_frame p) as [r p'] eqn:E.
  destruct (pmm_typed_alloc p r p' Hp E) as [Hr Hp'].
  apply safe_then; [by apply wt_modify_pmm|]. apply safe_then; [apply safe_irqs|].
  apply safe_then; [|safe_prints]. apply safe_if; [|safe_prints].
  apply safe_then; [apply wt_modify_pmm; intros; by apply pmm_typed_release|].
  safe_prints. by apply (safe_kprintf well_typed).
Qed.

Lemma safe_print_uptime sec last :
  0 ≤ sec < 4294967296 → safe well_typed any (print_uptime fuel sec last).
Proof.
  intros Hsec. unfold print_uptime. apply safe_if; [|by apply safe_ret]. safe_prints.
  destruct (uptime_string sec Hsec) as (buf & -> & _). safe_prints.
Qed.

(** Interrupts at the reader: they queue keys, and keep the types. *)
Definition served_typed (s s' : kernel) : Prop := served s s' ∧ (well_typed s → well_typed s').

#[local] Instance typed_kb_preempt : KbPreempt served_typed.
Proof.
  split.
  - split; [by intros s|]. intros s1 s2 s3 [R1 W1] [R2 W2].
    split; [by etransitivity|auto].
  - intros s. destruct (irqs_served s) as (s' & E & R). exists s'. split; [exact E|].
    split; [exact R|]. intros Hs. pose proof (safe_irqs s Hs) as Hp. rewrite E in Hp. apply Hp.
  - intros s s' [R _]. by apply kb_appends.
Qed.

Lemma safe_poll : safe well_typed any (keyboard_poll : M kernel bool).
Proof.
  intros s Hs. destruct (poll_run (R := served_typed) s (wt_kb _ Hs)) as (s' & [_ W] & _ & ->).
  split; [done|auto].
Qed.

Lemma safe_getchar : safe well_typed any (keyboard_getchar : M kernel Z).
Proof.
  intros s Hs. destruct (getchar_run (R := served_typed) s (wt_kb _ Hs)) as (s' & [_ W] & _ & Hg).
  specialize (W Hs). destruct Hg as [(_ & -> & _)|(c & -> & Hk & _)]; split; try done.
  destruct W. by split.
Qed.

Lemma safe_echo_key : safe well_typed any (echo_key fuel).
Proof.
  unfold echo_key. eapply safe_bind; [apply safe_poll|]. intros b _.
  apply safe_if; [|by apply safe_ret]. safe_prints.
  eapply safe_bind; [apply safe_getchar|]. intros c _. apply safe_if; [|by apply safe_ret].
  safe_prints. apply safe_then; [apply (safe_vga_putchar_i well_typed)|]. safe_prints.
  apply safe_then; [apply (safe_serial_putchar well_typed)|]. safe_prints.
Qed.

Lemma safe_rounds n last : safe well_typed any (kernel_rounds fuel n last).
Proof.
  revert last. induction n as [|n IH]; intros last; [by apply safe_ret|]. cbn [kernel_rounds].
  apply (safe_bind well_typed any); [|intros l _; apply IH]. unfold kernel_round.
  eapply safe_bind; [apply safe_ticks|]. cbn beta. intros t Ht. safe_prints.
  eapply safe_bind; [apply safe_print_uptime; unfold PIT_FREQUENCY_HZ; dlia|]. intros l _.
  apply safe_then; [apply safe_echo_key|]. apply safe_then; [apply safe_irqs|].
  apply safe_then; [apply safe_hlt|]. by apply safe_ret.
Qed.

(** ** The property *)

(** C5: type safety on any hardware. Whatever the ports answer, whatever memory and
    boot information the loader left, whichever interrupts arrive when, with any
    magic number and for any number of rounds: [kernel_main] never faults (no number
    overruns its digit buffer, no format string lacks an argument, no table is read
    outside), and in every state it returns, halts or hangs in, the whole kernel has
    its declared types: a 16-bit word in each of 2000 screen cells and the
    cursor on the screen, three well-formed descriptors and 256 gates, a bitmap of 32768
    32-bit words with 32-bit counters, a key buffer of 64 places with both indices
    inside and only characters queued, 32-bit ticks, and on every port access a 16-bit
    port and a byte. An array that was ever accessed outside its bounds is lost and
    stays so ([wr_nil], [wr_length], [access_length]): that all have their lengths at
    the end says that no access on the way was outside. *)
Theorem kernel_main_typed n magic mbi (s : kernel) :
  well_typed s →
  match kernel_main fuel n magic mbi s with
  | Fault _ => False
  | o => well_typed (final o)
  end.
Proof.
  intros Hs. assert (safe well_typed any (kernel_main fuel n magic mbi)) as Hm.
  { unfold kernel_main. apply safe_then; [apply safe_boot|]. safe_prints.
    apply safe_then; [apply safe_selftest|]. safe_prints. apply safe_rounds. }
  specialize (Hm s Hs). by destruct (kernel_main fuel n magic mbi s) as [a s'|s'|s'|s'];
    [destruct Hm|..].
Qed.

End kernel_types.

(** ** The property at a concrete machine *)

#[local] Opaque full_pmm.

Lemma kernel0_typed : well_typed kernel0.
Proof.
  split.
  - split; [split|]; try (cbn; unfold VGA_HEIGHT, VGA_WIDTH; lia).
    + apply length_replicate.
    + apply Forall_replicate. lia.
  - split; [|done..]. repeat (constructor; [done|]). constructor.
  - split; [done|by repeat constructor|done].
  - split; [by split| |done]. by apply Forall_replicate.
  - split; [apply full_pmm_bitmap_ok|done..].
  - done.
  - done.
  - apply kb0_ok.
Qed.

(** A machine without devices: every port reads 0xFF, and memory holds nothing. *)
Lemma kernel_main_typed_witness :
  match kernel_main (H := no_uart) (H0 := fun _ => 0) (H1 := demo_image) (H2 := demo_cpuid)
    (H3 := demo_interrupts) 5 3 0x2BADB002 0xFFFFFFF0 kernel0 with
  | Fault _ => False
  | o => well_typed (final o)
  end.
Proof.
  apply (kernel_main_typed (H := no_uart) (H0 := fun _ => 0) (H1 := demo_image)
    (H2 := demo_cpuid) (H3 := demo_interrupts) 5);
    [split; vm_compute; congruence|split; vm_compute; congruence|exact kernel0_typed].
Defined.
