(* ===== verification/KernelRun.v ===== *)
(** The kernel after boot (kernel/kernel.c): the self-test and the main loop,
    with interrupts arriving between statements. *)

From S2P Require Import Prelude Machine Vga Preempt Screen Serial Digits Kprintf Pic Panic Idt Pmm PmmSpec Gdt Pit Keyboard Memory Uptime Kernel KernelSpec KernelBoot.

#[local] Open Scope Z_scope.
#[local] Open Scope c_scope.

(** ** Transcripts *)

Definition timer_ops (t0 t1 : Z) : list con :=
  if t0 <? t1
  then [Color VGA_COLOR_LIGHT_GREEN VGA_COLOR_BLACK;
        Say (bytes "PASS (ticks advanced " ++ decimal (t1 - t0) ++ bytes ")" ++ nl)]
  else [Color VGA_COLOR_LIGHT_RED VGA_COLOR_BLACK;
        Say (bytes "WARN (no ticks observed — IRQ may be masked)" ++ nl)].

(** [r] is the address [pmm_alloc_frame] returns. *)
Definition alloc_ops (r : Z) : list con :=
  if r =? 0
  then [Color VGA_COLOR_LIGHT_RED VGA_COLOR_BLACK; Say (bytes "FAIL (no free frame)" ++ nl)]
  else [Color VGA_COLOR_LIGHT_GREEN VGA_COLOR_BLACK;
        Say (bytes "PASS (frame at 0x" ++ uint_text 16 false r ++ bytes ")" ++ nl)].

Definition selftest_ops (t0 t1 r : Z) : list con :=
  [Color VGA_COLOR_YELLOW VGA_COLOR_BLACK; Say (nl ++ bytes "  === AstraOS Self-Test ===" ++ nl);
   Color VGA_COLOR_LIGHT_GREY VGA_COLOR_BLACK; Say (bytes "  [1] Timer ... ")] ++
  timer_ops t0 t1 ++
  [Color VGA_COLOR_LIGHT_GREY VGA_COLOR_BLACK; Say (bytes "  [2] PMM alloc/free ... ")] ++
  alloc_ops r ++
  [Color VGA_COLOR_LIGHT_GREEN VGA_COLOR_BLACK; Say (bytes "  Self-test complete." ++ nl ++ nl)].

(** What the main loop puts out. *)
Inductive output : Type := Tick (sec : Z) | Key (c : Z).

Definition output_ops (o : output) : list con :=
  match o with
  | Tick sec => [Log (bytes "[TICK] uptime="); Log (uptime_text sec)]
  | Key c => [Color VGA_COLOR_LIGHT_CYAN VGA_COLOR_BLACK; Say [c]]
  end.

Definition outputs_ops (os : list output) : list con := flat_map output_ops os.

Definition keys_of (os : list output) : list Z :=
  flat_map (fun o => match o with Key c => [c] | Tick _ => [] end) os.

Definition secs_of (os : list output) : list Z :=
  flat_map (fun o => match o with Key _ => [] | Tick sec => [sec] end) os.

(** [ts] are successive readings of the tick counter, which was at [t] before the
    events [l]: each is the count of the timer interrupts taken up to some point
    of [l], no earlier than the point of the reading before it. *)
Fixpoint readings (t : Z) (l : list event) (ts : list Z) : Prop :=
  match ts with
  | [] => True
  | r :: ts => ∃ l1 l2, l = l1 ++ l2 ∧ r = u32 (t + timer_vectors l1) ∧ readings r l2 ts
  end.

(** The readings at the beginnings of the rounds with the events [ls]. *)
Fixpoint round_clocks (t : Z) (ls : list (list event)) : list Z :=
  match ls with
  | [] => []
  | l :: ls => t :: round_clocks (u32 (t + timer_vectors l)) ls
  end.

(** The elements that differ from the one before; [last] is before the first. *)
Fixpoint changes (last : Z) (secs : list Z) : list Z :=
  match secs with
  | [] => []
  | sec :: secs => if sec =? last then changes last secs else sec :: changes sec secs
  end.

(** The last second shown. *)
Fixpoint last_tick (last : Z) (os : list output) : Z :=
  match os with
  | [] => last
  | Tick sec :: os => last_tick sec os
  | Key _ :: os => last_tick last os
  end.

Lemma clock_app t a b : u32 (t + timer_vectors (a ++ b)) = u32 (u32 (t + timer_vectors a) + timer_vectors b).
Proof. rewrite timer_vectors_app. unfold u32. rewrite Zplus_mod_idemp_l. f_equal. lia. Qed.

Lemma readings_later t l m ts : readings (u32 (t + timer_vectors l)) m ts → readings t (l ++ m) ts.
Proof.
  destruct ts as [|r ts]; [done|]. intros (m1 & m2 & -> & -> & Hts).
  exists (l ++ m1), m2. split; [by rewrite app_assoc|]. by rewrite clock_app.
Qed.

Lemma readings_app t l m a b :
  readings t l a → readings (u32 (t + timer_vectors l)) m b → readings t (l ++ m) (a ++ b).
Proof.
  revert t l. induction a as [|r a IH]; intros t l; [intros _; apply readings_later|].
  intros (l1 & l2 & -> & -> & Ha) Hb. exists l1, (l2 ++ m). split; [by rewrite app_assoc|].
  split; [done|]. apply IH; [done|]. by rewrite <- clock_app.
Qed.

(** ** Effects that consume keys and read the clock

    From [s] to [s'] the transcript [ops] was written, the characters [keys] were
    taken from the queue, and the clock was read with the results [ts]. *)
Record ran (ops : list con) (keys ts : list Z) (s s' : kernel) : Prop := {
  ran_vga : view (C := vga) s' = paints ops (view s);
  ran_uart : uart_of (trace (view s')) = uart_out (sents ops) (uart_of (trace (view s)));
  ran_config : config_of s' = config_of s;
  ran_keyed : keyed keys s s';
  ran_clock : ∃ l, trace (view s') = trace (view s) ++ l ∧
    (timer_line (view s) →
     ticks (view s') = u32 (ticks (view s) + timer_vectors l) ∧ readings (ticks (view s)) l ts);
  ran_sane : sane s'
}.

Lemma ran_keys ops keys ts s s' :
  ran ops keys ts s s' → ∃ acc, keys ++ contents (view s') = contents (view s) ++ acc.
Proof. intros [_ _ _ (ks & _ & acc & E & _) _ _]. by exists acc. Qed.

Lemma config_line s s' : config_of s' = config_of s → timer_line (view s) → timer_line (view s').
Proof. intros C. by rewrite <- (f_equal c_idt C : view (C := idt_state handler) s' = view s). Qed.

Lemma ticked_new l s s' :
  ticked s s' → trace (view s') = trace (view s) ++ l →
  ticks (view s') = u32 (ticks (view s) + timer_vectors l).
Proof. unfold ticked. intros -> ->. rewrite timer_vectors_app. f_equal. lia. Qed.

Lemma keyed_new keys l s s' :
  keyed keys s s' → trace (view s') = trace (view s) ++ l →
  offered (key_events l) (contents (view s)) (keys ++ contents (view s')).
Proof.
  intros (ks & E & O) Tr. rewrite Tr, key_events_app in E. by apply app_inv_head in E as ->.
Qed.

Lemma effect_ran ops s s' : sane s → effect ops s s' → ran ops [] [] s s'.
Proof.
  intros Hs He. pose proof (effect0_sane _ _ _ (proj1 He) Hs).
  pose proof (effect_config _ _ _ He). destruct He as [[V U [Pc [l C] G I Hh K T Q]] P].
  split; try done.
  - by apply K, Hs.
  - assert (trace (view s') = trace (view s) ++ l) as Tr by by rewrite C.
    exists l. split; [done|]. intros Hl. split; [|done]. apply ticked_new; [|done].
    by apply T; [apply Hs|].
Qed.

Lemma ran_trans a b ka kb ta tb s1 s2 s3 :
  ran a ka ta s1 s2 → ran b kb tb s2 s3 → ran (a ++ b) (ka ++ kb) (ta ++ tb) s1 s3.
Proof.
  intros [V1 U1 C1 K1 (l1 & R1 & T1) _] [V2 U2 C2 K2 (l2 & R2 & T2) S2]. split; [..|done].
  - by rewrite V2, V1, paints_app.
  - by rewrite U2, U1, uart_out_app, sents_app.
  - by rewrite C2.
  - by eapply keyed_trans.
  - exists (l1 ++ l2). rewrite R2, R1, app_assoc. split; [done|]. intros Hl.
    destruct (T1 Hl) as [E1 F1]. destruct T2 as [E2 F2]; [by apply (config_line s1)|].
    split; [by rewrite E2, E1, clock_app|]. apply readings_app; [done|]. by rewrite <- E1.
Qed.

Lemma ran_quiet ops ks ts s1 s2 s3 : ran ops ks ts s1 s2 → effect [] s2 s3 → ran ops ks ts s1 s3.
Proof.
  intros R P. rewrite <- (app_nil_r ops), <- (app_nil_r ks), <- (app_nil_r ts).
  eapply ran_trans; [exact R|]. apply effect_ran; [apply R|done].
Qed.

(** An effect before or after. *)
Lemma ran_after a b ks ts s1 s2 s3 :
  effect a s1 s2 → sane s1 → ran b ks ts s2 s3 → ran (a ++ b) ks ts s1 s3.
Proof. intros P Hs R. by apply (ran_trans a b [] ks [] ts _ s2); [apply effect_ran|]. Qed.

Lemma ran_before a b ks ts s1 s2 s3 :
  ran a ks ts s1 s2 → effect b s2 s3 → ran (a ++ b) ks ts s1 s3.
Proof.
  intros R P. rewrite <- (app_nil_r ks), <- (app_nil_r ts).
  apply (ran_trans _ _ _ _ _ _ _ s2); [done|]. apply effect_ran; [apply R|done].
Qed.

(** Reading the clock. *)
Lemma ran_read (s : kernel) : sane s → ran [] [] [ticks (view s)] s s.
Proof.
  intros Hs. destruct (effect_ran [] s s Hs (effect_refl s)) as [V U C K (l & T & Hl) S].
  split; try done. exists []. rewrite app_nil_r. split; [done|]. intros Hline.
  rewrite Z.add_0_r, u32_id by apply Hs. split; [done|]. exists [], [].
  by rewrite Z.add_0_r, u32_id by apply Hs.
Qed.

Lemma outputs_ops_app a b : outputs_ops (a ++ b) = outputs_ops a ++ outputs_ops b.
Proof. apply flat_map_app. Qed.
Lemma keys_of_app a b : keys_of (a ++ b) = keys_of a ++ keys_of b.
Proof. apply flat_map_app. Qed.
Lemma secs_of_app a b : secs_of (a ++ b) = secs_of a ++ secs_of b.
Proof. apply flat_map_app. Qed.
Lemma last_tick_app last a b : last_tick last (a ++ b) = last_tick (last_tick last a) b.
Proof. revert last. induction a as [|[sec|c] a IH]; intros last; cbn; auto. Qed.

Section run.
Context `{!Hardware} `{!PhysMem} `{!Image} `{!Cpuid} `{!Interrupts}.
Variable fuel : nat.
Hypothesis live : uart_live fuel LSR_TX_EMPTY.

(** ** The self-test *)

Lemma effect_sane ops s s' : effect ops s s' → sane s → sane s'.
Proof. intros [H4 _]. by eapply effect0_sane. Qed.

Lemma timer_format d :
  0 ≤ d < 4294967296 →
  format (bytes "PASS (ticks advanced %u)" ++ nl) [VInt (u32 d)]
  = (bytes "PASS (ticks advanced " ++ decimal d ++ bytes ")" ++ nl, true).
Proof.
  intros Hd. rewrite u32_id by done. transitivity
    (bytes "PASS (ticks advanced " ++ decimal (u32 d) ++ bytes ")" ++ nl, true);
    [reflexivity|by rewrite u32_id].
Qed.

Lemma frame_format r :
  0 ≤ r < 4294967296 →
  format (bytes "PASS (frame at 0x%x)" ++ nl) [VInt r]
  = (bytes "PASS (frame at 0x" ++ uint_text 16 false r ++ bytes ")" ++ nl, true).
Proof.
  intros Hr. transitivity (bytes "PASS (frame at 0x" ++ uint_text 16 false (u32 r) ++ bytes ")" ++ nl,
    true); [reflexivity|by rewrite u32_id].
Qed.

Lemma does_timer_report t0 t1 :
  0 ≤ t0 < 4294967296 → 0 ≤ t1 < 4294967296 →
  does (timer_ops t0 t1)
    (if t0 <? t1 then
       color VGA_COLOR_LIGHT_GREEN VGA_COLOR_BLACK;; irqs;;
       kprintf fuel (bytes "PASS (ticks advanced %u)" ++ nl) [VInt (t1 -u t0)]
     else
       color VGA_COLOR_LIGHT_RED VGA_COLOR_BLACK;; irqs;;
       puts fuel (bytes "WARN (no ticks observed — IRQ may be masked)" ++ nl)).
Proof.
  intros H4 H5. unfold timer_ops. destruct (Z.ltb_spec t0 t1).
  - apply does_cons_i; [apply does_color|]. apply does_kprintf; [done|].
    apply timer_format. lia.
  - does_steps.
Qed.

(** The timer test: [t0] and [t1] are the two readings of the counter. *)
Lemma timer_test (s : kernel) :
  sane s →
  ∃ t0 t1 s',
    (∀ k : M kernel unit,
     (t0 ← pit_get_ticks; delay;; t1 ← pit_get_ticks;
      (if t0 <? t1 then
         color VGA_COLOR_LIGHT_GREEN VGA_COLOR_BLACK;; irqs;;
         kprintf fuel (bytes "PASS (ticks advanced %u)" ++ nl) [VInt (t1 -u t0)]
       else
         color VGA_COLOR_LIGHT_RED VGA_COLOR_BLACK;; irqs;;
         puts fuel (bytes "WARN (no ticks observed — IRQ may be masked)" ++ nl));; k) s = k s') ∧
    0 ≤ t0 < 4294967296 ∧ 0 ≤ t1 < 4294967296 ∧ ran (timer_ops t0 t1) [] [t0; t1] s s'.
Proof.
  intros Hs. destruct (does_irqs s Hs) as ([] & s1 & E1 & P1).
  pose proof (effect_sane _ _ _ P1 Hs) as Hs1.
  destruct (does_timer_report (ticks (view s)) (ticks (view s1)) (sane_ticks _ Hs)
    (sane_ticks _ Hs1) s1 Hs1) as ([] & s2 & E2 & P2).
  exists (ticks (view s)), (ticks (view s1)), s2. split; [|split_and!].
  - intros k. rewrite (bind_ret pit_get_ticks _ s _ s eq_refl). unfold delay.
    rewrite (bind_ret _ _ _ _ _ E1), (bind_ret pit_get_ticks _ s1 _ s1 eq_refl).
    by rewrite (bind_ret _ _ _ _ _ E2).
  - apply Hs.
  - apply Hs.
  - apply Hs1.
  - apply Hs1.
  - apply (ran_trans [] _ [] [] [_] [_] _ s); [by apply ran_read|].
    apply (ran_after [] _ _ _ _ s1); [done..|].
    apply (ran_trans [] _ [] [] [_] [] _ s1); [by apply ran_read|by apply effect_ran].
Qed.

Lemma alloc_result p r p' :
  pmm_ok p → pmm_alloc_frame p = (r, p') → 0 ≤ r < 4294967296.
Proof.
  intros Hp E. destruct (alloc_frame_cases p) as [[E' _]|(f & Hf & _ & _ & E')];
    rewrite E' in E; simplify_eq; [done|]. unfold frame_ok, PMM_MAX_FRAMES, PMM_FRAME_SIZE in *. lia.
Qed.

Lemma alloc_fails p p' : pmm_ok p → low_reserved p → pmm_alloc_frame p = (0, p') → p' = p.
Proof.
  intros Hp Hlow E. destruct (alloc_frame_cases p) as [[E' _]|(f & Hf & Hu & _ & E')];
    rewrite E' in E; simplify_eq; [done|].
  assert (256 ≤ f) by (apply Hlow, free_set_spec; done). unfold PMM_FRAME_SIZE in *. lia.
Qed.
(** Replacing the frame allocator's state changes nothing else. *)
Lemma effect0_put_pmm (p : pmm) (s : kernel) : effect0 [] s (put p s : kernel).
Proof.
  destruct (effect0_refl s) as [V U [Pc C G I Hh K T Q]].
  split; [exact V|exact U|split; [exact Pc|exact C|exact G|exact I|exact Hh|exact K|exact T|]].
  intros Hi. destruct (Q Hi) as [Q1 Q2 Q3 Q4]. split; [exact Q1|exact Q2|exact Q3|exact Q4].
Qed.

(** The allocation test leaves the allocator as it was. *)
Lemma alloc_test (s : kernel) :
  sane s → pmm_ok (view s) → low_reserved (view s) →
  let r := (pmm_alloc_frame (view s)).1 in
  ∃ s',
    (∀ k : M kernel unit,
     (p ← gets (fun p : pmm => p);
      let '(frame, p') := pmm_alloc_frame p in
      modify (fun _ => p');; irqs;;
      (if negb (frame =? 0) then
         modify (pmm_free_frame frame);; irqs;;
         color VGA_COLOR_LIGHT_GREEN VGA_COLOR_BLACK;; irqs;;
         kprintf fuel (bytes "PASS (frame at 0x%x)" ++ nl) [VInt frame]
       else
         color VGA_COLOR_LIGHT_RED VGA_COLOR_BLACK;; irqs;;
         puts fuel (bytes "FAIL (no free frame)" ++ nl));; k) s = k s') ∧
    effect (alloc_ops r) s s'.
Proof.
  intros Hs Hp Hlow r. unfold r. clear r. destruct (pmm_alloc_frame (view s)) as [r p'] eqn:E.
  cbn [fst]. set (s1 := put p' s : kernel). pose proof (effect0_put_pmm p' s) as P1. fold s1 in P1.
  destruct (does_irqs s1 (effect0_sane _ _ _ P1 Hs)) as ([] & s2 & E2 & [P2 Pm2]).
  pose proof (effect0_trans _ _ _ _ _ P1 P2) as P12.
  pose proof (effect0_sane _ _ _ P12 Hs) as Hs2. unfold alloc_ops.
  destruct (Z.eqb_spec r 0) as [->|Hr]; cbn [negb].
  - assert (effect [] s s2) as P02.
    { split; [exact P12|]. rewrite Pm2. unfold s1. rewrite view_put. by apply alloc_fails. }
    assert (does [Color VGA_COLOR_LIGHT_RED VGA_COLOR_BLACK; Say (bytes "FAIL (no free frame)" ++ nl)]
      (color VGA_COLOR_LIGHT_RED VGA_COLOR_BLACK;; irqs;; puts fuel (bytes "FAIL (no free frame)" ++ nl)))
      as D by does_steps.
    destruct (D s2 Hs2) as ([] & s3 & E3 & P3). exists s3. split.
    + intros k. rewrite (bind_ret (gets _) _ s _ s eq_refl), E.
      rewrite (bind_ret (modify _) _ s tt s1 eq_refl), (bind_ret _ _ _ _ _ E2).
      change (negb (0 =? 0)) with false. cbn iota. by rewrite (bind_ret _ _ _ _ _ E3).
    + by apply (effect_trans [] _ s s2).
  - set (s3 := put (pmm_free_frame r (view s2)) s2 : kernel).
    assert (effect [] s s3) as P03.
    { split; [exact (effect0_trans _ _ _ _ _ P12 (effect0_put_pmm _ s2))|].
      unfold s3. rewrite view_put, Pm2. unfold s1. rewrite view_put.
      by apply alloc_free_restores. }
    assert (does [Color VGA_COLOR_LIGHT_GREEN VGA_COLOR_BLACK;
        Say (bytes "PASS (frame at 0x" ++ uint_text 16 false r ++ bytes ")" ++ nl)]
      (irqs;; color VGA_COLOR_LIGHT_GREEN VGA_COLOR_BLACK;; irqs;;
       kprintf fuel (bytes "PASS (frame at 0x%x)" ++ nl) [VInt r])) as D.
    { apply (does_bind []); [apply does_irqs|intros _].
      apply does_cons_i; [apply does_color|]. apply does_kprintf; [done|].
      apply frame_format. by eapply alloc_result. }
    destruct (D s3 (effect_sane _ _ _ P03 Hs)) as ([] & s4 & E4 & P4). exists s4. split.
    + intros k. rewrite (bind_ret (gets _) _ s _ s eq_refl), E.
      rewrite (bind_ret (modify _) _ s tt s1 eq_refl), (bind_ret _ _ _ _ _ E2).
      rewrite (proj2 (Z.eqb_neq r 0) Hr). cbn [negb]. rewrite bind_assoc.
      rewrite (bind_ret (modify _) _ s2 tt s3 eq_refl). by rewrite (bind_ret _ _ _ _ _ E4).
    + by apply (effect_trans [] _ s s3).
Qed.

(** An interruptible statement at the head of a block. *)
Lemma does_head ops (m : M kernel unit) (s : kernel) :
  does ops m → sane s →
  ∃ s', (∀ (A : Type) (k : M kernel A), (m;; irqs;; k) s = k s') ∧ effect ops s s' ∧ sane s'.
Proof.
  intros Hm Hs. destruct (Hm s Hs) as ([] & s1 & E1 & P1).
  pose proof (effect_sane _ _ _ P1 Hs) as Hs1.
  destruct (does_irqs s1 Hs1) as ([] & s2 & E2 & P2). exists s2.
  split; [intros A k; by rewrite (bind_ret _ _ _ _ _ E1), (bind_ret _ _ _ _ _ E2)|].
  assert (effect ops s s2) as P by (rewrite <- (app_nil_r ops); by eapply effect_trans).
  split; [done|by eapply effect_sane].
Qed.

Lemma ran_pmm ops ks ts s s' : ran ops ks ts s s' → view (C := pmm) s' = view s.
Proof. intros R. exact (f_equal c_pmm (ran_config _ _ _ _ _ R)). Qed.

(** The end of the self-test. *)
Lemma selftest_end (s : kernel) :
  sane s →
  ∃ s', (irqs;; color VGA_COLOR_LIGHT_GREEN VGA_COLOR_BLACK;; irqs;;
         puts fuel (bytes "  Self-test complete." ++ nl ++ nl)) s = Ret tt s' ∧
    effect [Color VGA_COLOR_LIGHT_GREEN VGA_COLOR_BLACK;
            Say (bytes "  Self-test complete." ++ nl ++ nl)] s s'.
Proof.
  intros Hs. assert (does [Color VGA_COLOR_LIGHT_GREEN VGA_COLOR_BLACK;
                Say (bytes "  Self-test complete." ++ nl ++ nl)]
    (irqs;; color VGA_COLOR_LIGHT_GREEN VGA_COLOR_BLACK;; irqs;;
     puts fuel (bytes "  Self-test complete." ++ nl ++ nl))) as D.
  { apply (does_bind []); [apply does_irqs|intros _]. does_steps. }
  destruct (D s Hs) as ([] & s' & E & P). by exists s'.
Qed.

Lemma selftest_run (s : kernel) :
  sane s → pmm_ok (view s) → low_reserved (view s) →
  ∃ t0 t1 s', run_selftest fuel s = Ret tt s' ∧
    0 ≤ t0 < 4294967296 ∧ 0 ≤ t1 < 4294967296 ∧
    ran (selftest_ops t0 t1 (pmm_alloc_frame (view s)).1) [] [t0; t1] s s'.
Proof.
  intros Hs Hp Hlow. unfold run_selftest.
  destruct (does_head [Color _ _] (color VGA_COLOR_YELLOW VGA_COLOR_BLACK) s
    (does_color _ _) Hs) as (s1 & E1 & P1 & Hs1).
  destruct (does_head [Say _] (puts fuel (nl ++ bytes "  === AstraOS Self-Test ===" ++ nl)) s1
    (does_puts fuel live _) Hs1) as (s2 & E2 & P2 & Hs2).
  destruct (does_head [Color _ _] (color VGA_COLOR_LIGHT_GREY VGA_COLOR_BLACK) s2
    (does_color _ _) Hs2) as (s3 & E3 & P3 & Hs3).
  destruct (does_head [Say _] (puts fuel (bytes "  [1] Timer ... ")) s3
    (does_puts fuel live _) Hs3) as (s4 & E4 & P4 & Hs4).
  destruct (timer_test s4 Hs4) as (t0 & t1 & s5 & E5 & Ht0 & Ht1 & R5).
  destruct (does_irqs s5 (ran_sane _ _ _ _ _ R5)) as ([] & s6 & E6 & P6).
  pose proof (ran_quiet _ _ _ _ _ _ R5 P6) as R6.
  destruct (does_head [Color _ _] (color VGA_COLOR_LIGHT_GREY VGA_COLOR_BLACK) s6
    (does_color _ _) (ran_sane _ _ _ _ _ R6)) as (s7 & E7 & P7 & Hs7).
  destruct (does_head [Say _] (puts fuel (bytes "  [2] PMM alloc/free ... ")) s7
    (does_puts fuel live _) Hs7) as (s8 & E8 & P8 & Hs8).
  pose proof (effect_trans _ _ _ _ _ P1 (effect_trans _ _ _ _ _ P2 (effect_trans _ _ _ _ _ P3 P4))) as P14.
  pose proof (ran_before _ _ _ _ _ _ _ (ran_after _ _ _ _ _ _ _ P14 Hs R6)
    (effect_trans _ _ _ _ _ P7 P8)) as R8.
  assert (view (C := pmm) s8 = view s) as Epmm by exact (ran_pmm _ _ _ _ _ R8).
  destruct (alloc_test s8 Hs8) as (s9 & E9 & P9); [by rewrite Epmm..|].
  rewrite Epmm in P9. revert P9. generalize (pmm_alloc_frame (view s)).1 as r. intros r P9.
  destruct (selftest_end s9 (effect_sane _ _ _ P9 Hs8)) as (s10 & E10 & P10).
  exists t0, t1, s10. split.
  { rewrite E1, E2, E3, E4, E5. rewrite (bind_ret _ _ _ _ _ E6), E7, E8, E9. exact E10. }
  split; [done|]. split; [done|]. unfold selftest_ops.
  pose proof (ran_before _ _ _ _ _ _ _ R8 (effect_trans _ _ _ _ _ P9 P10)) as R10.
  rewrite <- !app_assoc in R10. exact R10.
Qed.

(** ** The main loop *)

Lemma print_uptime_run sec last (s : kernel) :
  sane s → 0 ≤ sec < 4294967296 →
  ∃ s', print_uptime fuel sec last s = Ret sec s' ∧
    effect (outputs_ops (if sec =? last then [] else [Tick sec])) s s'.
Proof.
  intros Hs Hsec. unfold print_uptime. destruct (Z.eqb_spec sec last) as [->|Hne]; cbn [negb].
  - exists s. split; [done|apply effect_refl].
  - destruct (uptime_string sec Hsec) as (buf & -> & Hc). rewrite Hc.
    destruct (does_head [Log _] (serial_puts fuel (bytes "[TICK] uptime=")) s
      (does_serial_puts fuel live _) Hs) as (s1 & E1 & P1 & Hs1).
    destruct (does_head [Log _] (serial_puts fuel (uptime_text sec)) s1
      (does_serial_puts fuel live _) Hs1) as (s2 & E2 & P2 & Hs2).
    exists s2. split; [by rewrite E1, E2|]. exact (effect_trans _ _ _ _ _ P1 P2).
Qed.

(** Taking the character at the front of the queue. *)
Lemma ran_pop c (k : kb) (s : kernel) :
  sane s → kb_ok k → contents (view s) = c :: contents k → ran [] [c] [] s (put k s : kernel).
Proof.
  intros [Hd Hk Ht] Hok E. split.
  - done.
  - rewrite uart_out_nil. done.
  - done.
  - exists []. rewrite app_nil_r. split; [done|]. exists []. rewrite app_nil_r, E. done.
  - exists []. rewrite app_nil_r, Z.add_0_r. split; [done|]. intros _. by rewrite u32_id.
  - split; [exact Hd|exact Hok|exact Ht].
Qed.

Lemma typed_nonzero (k : kb) c q : kb_ok k → contents k = c :: q → (c =? 0) = false.
Proof.
  intros Hk E. pose proof (kb_ok_typed _ Hk) as Ht. rewrite E in Ht.
  apply Forall_cons_1 in Ht as [Hc _]. unfold typed in Hc. lia.
Qed.

(** At most one key is echoed per round, and one is if any is waiting. *)
Lemma echo_key_run (s : kernel) :
  sane s →
  ∃ s' ks, echo_key fuel s = Ret tt s' ∧ (length ks ≤ 1)%nat ∧
    (contents (view s) ≠ [] → length ks = 1%nat) ∧
    ran (outputs_ops (map Key ks)) (keys_of (map Key ks)) [] s s'.
Proof.
  intros Hs. destruct (poll_run (R := served) s (sane_kb _ Hs)) as (s1 & P1 & _ & E1).
  apply served_effect in P1. pose proof (effect_sane _ _ _ P1 Hs) as Hs1.
  destruct (ran_keys _ _ _ _ _ (effect_ran _ _ _ Hs P1)) as (acc & Hacc).
  cbn [app] in Hacc. unfold echo_key. rewrite (bind_ret _ _ _ _ _ E1).
  case_bool_decide as Hemp; cbn [negb].
  - exists s1, []. split; [done|]. split; [cbn; lia|]. split; [|by apply effect_ran].
    rewrite Hemp in Hacc. symmetry in Hacc. by apply app_eq_nil in Hacc as [-> _].
  - destruct (does_irqs s1 Hs1) as ([] & s2 & E2 & P2).
    pose proof (effect_sane _ _ _ P2 Hs1) as Hs2. rewrite (bind_ret _ _ _ _ _ E2).
    destruct (ran_keys _ _ _ _ _ (effect_ran _ _ _ Hs1 P2)) as (acc2 & Hacc2).
    destruct (getchar_run (R := served) s2 (sane_kb _ Hs2)) as (s3 & P3 & Hk3 & Hg).
    apply served_effect in P3. pose proof (effect_sane _ _ _ P3 Hs2) as Hs3.
    destruct Hg as [(Hc & _)|(c & Eg & Hk & Ec)].
    { rewrite Hc in Hacc2. symmetry in Hacc2. by apply app_eq_nil in Hacc2 as [? _]. }
    rewrite (bind_ret _ _ _ _ _ Eg), (typed_nonzero _ _ _ (sane_kb _ Hs3) Ec). cbn [negb].
    pose proof (ran_pop c _ s3 Hs3 Hk Ec) as R4. set (s4 := put _ s3 : kernel) in *.
    destruct (does_head [Color _ _] (color VGA_COLOR_LIGHT_CYAN VGA_COLOR_BLACK) s4
      (does_color _ _) (ran_sane _ _ _ _ _ R4)) as (s5 & E5 & P5 & Hs5).
    destruct (does_echo_split fuel live c s5 Hs5) as ([] & s6 & E6 & P6).
    exists s6, [c]. split; [by rewrite E5|]. split; [done|]. split; [done|].
    pose proof (effect_trans _ _ _ _ _ P1 (effect_trans _ _ _ _ _ P2 P3)) as P03.
    exact (ran_after _ _ _ _ _ _ _ P03 Hs
      (ran_before _ _ _ _ _ _ _ R4 (effect_trans _ _ _ _ _ P5 P6))).
Qed.

(** One round: the uptime line if the second changed, then a key if one waits. *)
Lemma kernel_round_run last (s : kernel) :
  sane s →
  let sec := ticks (view s) / 100 in
  ∃ s' ks, kernel_round fuel last s = Ret sec s' ∧ (length ks ≤ 1)%nat ∧
    (contents (view s) ≠ [] → length ks = 1%nat) ∧
    let os := (if sec =? last then [] else [Tick sec]) ++ map Key ks in
    ran (outputs_ops os) (keys_of os) [ticks (view s)] s s'.
Proof.
  intros Hs sec. unfold kernel_round. rewrite (bind_ret pit_get_ticks _ s _ s eq_refl).
  unfold PIT_FREQUENCY_HZ. fold sec.
  assert (0 ≤ sec < 4294967296) as Hsec by (pose proof (sane_ticks _ Hs); unfold sec; dlia).
  destruct (does_irqs s Hs) as ([] & s1 & E1 & P1).
  pose proof (effect_sane _ _ _ P1 Hs) as Hs1.
  destruct (print_uptime_run sec last s1 Hs1 Hsec) as (s2 & E2 & P2).
  pose proof (effect_sane _ _ _ P2 Hs1) as Hs2.
  destruct (echo_key_run s2 Hs2) as (s3 & ks & E3 & Hle & Hone & R3).
  destruct (does_irqs s3 (ran_sane _ _ _ _ _ R3)) as ([] & s4 & E4 & P4).
  pose proof (ran_quiet _ _ _ _ _ _ R3 P4) as R4.
  destruct (does_hlt s4 (ran_sane _ _ _ _ _ R4)) as ([] & s5 & E5 & P5).
  pose proof (effect_trans [] _ _ _ _ P1 P2) as P12.
  exists s5, ks. split.
  { rewrite (bind_ret _ _ _ _ _ E1), (bind_ret _ _ _ _ _ E2), (bind_ret _ _ _ _ _ E3).
    by rewrite (bind_ret _ _ _ _ _ E4), (bind_ret _ _ _ _ _ E5). }
  split; [done|]. split.
  { intros Hne. apply Hone. destruct (ran_keys _ _ _ _ _ (effect_ran _ _ _ Hs P12)) as (acc & Hacc).
    cbn [app] in Hacc. rewrite Hacc. by destruct (contents (view s)). }
  cbn zeta. rewrite outputs_ops_app, keys_of_app.
  replace (keys_of (if sec =? last then [] else [Tick sec])) with (@nil Z)
    by by destruct (sec =? last).
  apply (ran_trans [] _ [] _ [_] [] _ s); [by apply ran_read|].
  exact (ran_after _ _ _ _ _ _ _ P12 Hs (ran_quiet _ _ _ _ _ _ R4 P5)).
Qed.

Lemma keys_of_map ks : keys_of (map Key ks) = ks.
Proof.
  induction ks as [|k ks IH]; [done|]. change (k :: keys_of (map Key ks) = k :: ks). by rewrite IH.
Qed.

Lemma round_outputs sec last ks :
  let os := (if sec =? last then [] else [Tick sec]) ++ map Key ks in
  keys_of os = ks ∧ last_tick last os = sec ∧
  ∀ secs, changes last (sec :: secs) = secs_of os ++ changes sec secs.
Proof.
  assert (∀ l, secs_of (map Key ks) = [] ∧ last_tick l (map Key ks) = l) as Hk.
  { intros l. induction ks as [|k ks IH]; done. }
  cbn zeta. rewrite keys_of_app, keys_of_map, secs_of_app. cbn [changes].
  destruct (Z.eqb_spec sec last) as [->|Hne]; cbn [app].
  - destruct (Hk last) as [-> ->]. done.
  - destruct (Hk sec) as [-> Hl]. by rewrite app_nil_r.
Qed.

(** A round that at most one key arrives in loses none, and does not fill the queue. *)
Lemma offered_one ks q keys q' :
  offered ks q (keys ++ q') → (length ks ≤ 1)%nat → (length q ≤ 62)%nat →
  (q ≠ [] → length keys = 1%nat) →
  keys ++ q' = q ++ ks ∧ (length q' ≤ 62)%nat.
Proof.
  intros (acc & E & _ & F) Hks Hq Hone. specialize (F ltac:(lia)) as ->. split; [done|].
  apply (f_equal length) in E. rewrite !length_app in E.
  destruct q as [|c q]; [cbn in *; lia|]. rewrite Hone in E by done. cbn in *. lia.
Qed.

(** What [n] rounds from [s] do: in each round the events of one element of [ls]
    happen, and the clock reads [ts] at their beginnings. *)
Record rounds (n : nat) (last : Z) (s s' : kernel) (os : list output) (ts : list Z)
    (ls : list (list event)) : Prop := {
  rs_ran : ran (outputs_ops os) (keys_of os) ts s s';
  rs_length : length ls = n;
  rs_readings : length ts = n;
  rs_trace i : (i ≤ n)%nat → ∃ r si, kernel_rounds fuel i last s = Ret r si ∧
    trace (view si) = trace (view s) ++ concat (take i ls);
  rs_secs : secs_of os = changes last (map (fun t => t / 100) ts);
  rs_clocks : timer_line (view s) → ts = round_clocks (ticks (view s)) ls;
  rs_lossless : (length (contents (view s)) ≤ 62)%nat →
    Forall (fun l => (length (key_events l) ≤ 1)%nat) ls →
    keys_of os ++ contents (view s') = contents (view s) ++ key_events (concat ls);
  rs_prompt : (n `min` length (contents (view s)) ≤ length (keys_of os))%nat
}.

Lemma rounds_none last (s : kernel) : sane s → rounds 0 last s s [] [] [].
Proof.
  intros Hs. split; try done; [by apply effect_ran, effect_refl| |].
  - intros i Hi. destruct i; [|lia]. exists last, s. by rewrite app_nil_r.
  - intros _ _. by rewrite app_nil_r.
Qed.

Lemma rounds_step n last (s s1 s' : kernel) l ks os ts ls :
  let sec := ticks (view s) / 100 in
  let os1 := (if sec =? last then [] else [Tick sec]) ++ map Key ks in
  kernel_round fuel last s = Ret sec s1 → ran (outputs_ops os1) ks [ticks (view s)] s s1 →
  trace (view s1) = trace (view s) ++ l → (contents (view s) ≠ [] → length ks = 1%nat) →
  rounds n sec s1 s' os ts ls →
  rounds (S n) last s s' (os1 ++ os) (ticks (view s) :: ts) (l :: ls).
Proof.
  intros sec os1 E R1 Tr Hone [R Hlen Hlen' Hi Hsec Hclk Hless Hmin].
  destruct (round_outputs sec last ks) as (Hkeys & _ & Hch). fold os1 in Hkeys, Hch.
  split.
  - rewrite outputs_ops_app, keys_of_app, Hkeys. by apply (ran_trans _ _ _ _ [_] ts _ s1).
  - by cbn; rewrite Hlen.
  - by cbn; rewrite Hlen'.
  - intros [|i] Hle; [exists last, s; by rewrite app_nil_r|].
    destruct (Hi i ltac:(lia)) as (r & si & Ei & Ti). exists r, si. split.
    + cbn [kernel_rounds]. by rewrite (bind_ret _ _ _ _ _ E).
    + by rewrite Ti, Tr, <- app_assoc.
  - rewrite secs_of_app, Hsec. cbn [map]. by rewrite Hch.
  - intros Hl. destruct (ran_clock _ _ _ _ _ R1) as (l' & Tr' & Hc). destruct (Hc Hl) as [Et _].
    rewrite Tr in Tr'. apply app_inv_head in Tr' as <-. cbn [round_clocks]. rewrite <- Et.
    f_equal. apply Hclk. apply (config_line s); [apply R1|done].
  - intros Hq Hls. apply Forall_cons_1 in Hls as [Hl1 Hls].
    pose proof (keyed_new _ _ _ _ (ran_keyed _ _ _ _ _ R1) Tr) as O.
    destruct (offered_one _ _ _ _ O Hl1 Hq Hone) as [Eq Hq1].
    rewrite keys_of_app, Hkeys. cbn [concat]. rewrite key_events_app, <- app_assoc, Hless by done.
    by rewrite !app_assoc, Eq.
  - destruct (ran_keys _ _ _ _ _ R1) as (acc & Hacc). rewrite keys_of_app, Hkeys.
    apply (f_equal length) in Hacc. rewrite !length_app in *.
    destruct (contents (view s)) as [|c q] eqn:Ec; [cbn; lia|].
    rewrite Hone in * by done. cbn [length] in *. lia.
Qed.

Lemma kernel_rounds_run n last (s : kernel) :
  sane s →
  ∃ s' os ts ls, kernel_rounds fuel n last s = Ret (last_tick last os) s' ∧
    rounds n last s s' os ts ls.
Proof.
  revert last s. induction n as [|n IH]; intros last s Hs.
  - exists s, [], [], []. split; [done|by apply rounds_none].
  - destruct (kernel_round_run last s Hs) as (s1 & ks & E1 & _ & Hone & R1).
    set (sec := ticks (view s) / 100) in *. cbn zeta in R1.
    destruct (round_outputs sec last ks) as (Hkeys & Hlast & _). cbn zeta in Hkeys, Hlast.
    rewrite Hkeys in R1. set (os1 := _ ++ map Key ks) in *.
    destruct (ran_clock _ _ _ _ _ R1) as (l & Tr & _).
    destruct (IH sec s1 (ran_sane _ _ _ _ _ R1)) as (s2 & os2 & ts & ls & E2 & R2).
    exists s2, (os1 ++ os2), (ticks (view s) :: ts), (l :: ls). split; [|by eapply rounds_step].
    rewrite last_tick_app, Hlast. cbn [kernel_rounds]. by rewrite (bind_ret _ _ _ _ _ E1).
Qed.

(** The prompt between self-test and main loop. *)
Definition prompt_ops : list con :=
  [Color VGA_COLOR_WHITE VGA_COLOR_BLACK;
   Say (bytes "  AstraOS is running.  Type on the keyboard to interact." ++ nl);
   Say (bytes "  Uptime: ")].

(** The interface between dispatcher and drivers, for the kernel's handlers. *)
Lemma kernel_callbacks : IrqCallbacks call.
Proof.
  intros [] f s.
  - eexists _, []. split; [done|]. by rewrite app_nil_r.
  - eexists _, [EIn 0x60 (scan_code s)]. split; [apply (irq1_eq f s)|].
    by rewrite view_put_l, trace_grow.
Qed.

(** From the end of the boot sequence on. *)
Lemma after_boot n (s : kernel) :
  sane s → pmm_ok (view s) → low_reserved (view s) →
  ∃ t0 t1 os ts s',
    (irqs;; run_selftest fuel;; irqs;;
     color VGA_COLOR_WHITE VGA_COLOR_BLACK;; irqs;;
     puts fuel (bytes "  AstraOS is running.  Type on the keyboard to interact." ++ nl);; irqs;;
     puts fuel (bytes "  Uptime: ");; irqs;;
     kernel_rounds fuel n 0) s = Ret (last_tick 0 os) s' ∧
    ran (selftest_ops t0 t1 (pmm_alloc_frame (view s)).1 ++ prompt_ops ++ outputs_ops os)
      (keys_of os) ([t0; t1] ++ ts) s s' ∧
    length ts = n ∧ secs_of os = changes 0 (map (fun t => t / 100) ts) ∧
    0 ≤ t0 < 4294967296 ∧ 0 ≤ t1 < 4294967296.
Proof.
  intros Hs Hp Hlow. destruct (does_irqs s Hs) as ([] & s0 & E0 & P0).
  pose proof (effect_sane _ _ _ P0 Hs) as Hs0.
  destruct (selftest_run s0 Hs0) as (t0 & t1 & s1 & E1 & Ht0 & Ht1 & R1);
    [by rewrite (proj2 P0)..|].
  rewrite (proj2 P0) in R1. revert R1. generalize (pmm_alloc_frame (view s)).1 as r. intros r R1.
  destruct (does_irqs s1 (ran_sane _ _ _ _ _ R1)) as ([] & s2 & E2 & P2).
  pose proof (ran_quiet _ _ _ _ _ _ (ran_after _ _ _ _ _ _ _ P0 Hs R1) P2) as R2.
  pose proof (ran_sane _ _ _ _ _ R2) as Hs2.
  destruct (does_head [Color _ _] (color VGA_COLOR_WHITE VGA_COLOR_BLACK) s2
    (does_color _ _) Hs2) as (s3 & E3 & P3 & Hs3).
  destruct (does_head [Say _] (puts fuel
    (bytes "  AstraOS is running.  Type on the keyboard to interact." ++ nl)) s3
    (does_puts fuel live _) Hs3) as (s4 & E4 & P4 & Hs4).
  destruct (does_head [Say _] (puts fuel (bytes "  Uptime: ")) s4
    (does_puts fuel live _) Hs4) as (s5 & E5 & P5 & Hs5).
  destruct (kernel_rounds_run n 0 s5 Hs5) as (s6 & os & ts & ls & E6 & R6).
  exists t0, t1, os, ts, s6. split.
  { rewrite (bind_ret _ _ _ _ _ E0), (bind_ret _ _ _ _ _ E1), (bind_ret _ _ _ _ _ E2).
    rewrite E3, E4, E5. exact E6. }
  split.
  { pose proof (effect_trans _ _ _ _ _ P3 (effect_trans _ _ _ _ _ P4 P5)) as P35.
    apply (ran_trans (selftest_ops t0 t1 r) _ [] _ [t0; t1] ts _ s2); [exact R2|].
    exact (ran_after prompt_ops _ _ _ _ _ _ P35 Hs2 (rs_ran _ _ _ _ _ _ _ R6)). }
  split; [apply R6|].
  exact (conj (rs_secs _ _ _ _ _ _ _ R6) (conj Ht0 Ht1)).
Qed.

(** ** Properties *)


(** C18: the timer interrupt advances the tick counter by one and the keyboard
    interrupt enters the scan code into the key queue, once their handlers are
    registered; each is acknowledged once at the master controller, nothing else
    changes, and the kernel's handlers meet the dispatcher's interface. *)
Theorem kernel_irqs_spec f (s : kernel) :
  IrqCallbacks call ∧
  (irq_handlers (view (C := idt_state handler) s) !!! 0%nat = Some pit_irq0 →
   fr_int_no f = 32 →
   irq_handler call f s
   = Ret tt (grow [EOut 0x20 0x20] (put (mk_pit (u32 (ticks (view s) + 1))) s))) ∧
  (irq_handlers (view (C := idt_state handler) s) !!! 1%nat = Some keyboard_irq1 →
   fr_int_no f = 33 → kb_ok (view s) →
   let sc := u8 (port_in (trace (view s)) 0x60) in
   ∃ k, irq_handler call f s = Ret tt (grow [EIn 0x60 sc; EOut 0x20 0x20] (put k s)) ∧
     kb_ok k ∧ contents k = press sc (contents (view s))).
Proof.
  split; [apply kernel_callbacks|]. split.
  - intros Hh Hf. rewrite (irq_handler_cases call f 0 s Hf) by lia. cbn [spurious Z.eqb orb andb].
    change (spurious _ 0) with false. cbn iota. change (checks _ 0) with (@nil event).
    rewrite grow_nil, irq_dispatch_eq by lia. change (Z.to_nat 0) with 0%nat. rewrite Hh.
    unfold call at 1, pit_irq0_handler. rewrite (bind_ret (modify _) _ s tt _ eq_refl).
    apply pic_send_eoi_eq.
  - intros Hh Hf Hk sc. exists (press_kb sc (view s)).
    assert (0 ≤ sc) as Hsc by apply u8_range.
    split; [|by apply press_kb_spec].
    rewrite (irq_handler_cases call f 1 s Hf) by lia.
    change (spurious _ 1) with false. cbn iota. change (checks _ 1) with (@nil event).
    rewrite grow_nil, irq_dispatch_eq by lia. change (Z.to_nat 1) with 1%nat. rewrite Hh.
    unfold call at 1. rewrite (bind_ret _ _ _ _ _ (irq1_eq f s)).
    rewrite pic_send_eoi_eq, put_grow. by rewrite grow_grow.
Qed.

Hypothesis readback : imr_readback.
Hypothesis receiver : loopback_answers fuel.

(** The kernel as a whole, from the call of [kernel_main] on. [t0] and [t1] are the
    readings of the clock in the self-test, [ts] those of the rounds. *)
Record main_result (n : nat) (p' : pmm) (s s' : kernel) (ok : bool) (t0 t1 : Z) (ts : list Z)
    (os : list output) : Prop := {
  mr_vga : let ops := boot_ops p' ++ selftest_ops t0 t1 (pmm_alloc_frame p').1 ++ prompt_ops ++
             outputs_ops os in
    view (C := vga) s' = paints ops (vga_init (view s)) ∧
    uart_of (trace (view s'))
    = uart_out (sents ops) (mk_uart false (negb ok) (wire (uart_of (trace (view s)))));
  mr_secs : secs_of os = changes 0 (map (fun t => t / 100) ts) ∧ length ts = n;
  mr_events : ∃ l, trace (view s') = trace (view s) ++ l ∧
    readings (ticks (view s)) l ([t0; t1] ++ ts) ∧
    ticks (view s') = u32 (ticks (view s) + timer_vectors l) ∧
    offered (key_events l) (contents (view s)) (keys_of os ++ contents (view s'));
  mr_pmm : view s' = p';
  mr_if : if_flag (view s') = true;
  mr_sane : sane s'
}.

Lemma main_run n mbi p' (s : kernel) :
  boot_pre s → pmm_setup fuel mbi kernel_end (view s) = Done p' →
  pmm_ok p' → low_reserved p' → (∀ st, 0 ≤ stub_addr st < 4294967296) →
  ∃ s' ok t0 t1 ts os, kernel_main fuel n MULTIBOOT_BOOTLOADER_MAGIC mbi s = Ret (last_tick 0 os) s' ∧
    main_result n p' s s' ok t0 t1 ts os.
Proof.
  intros Hpre Ep Hok Hlow Hst.
  destruct (boot_run fuel live readback receiver mbi p' s Hpre Ep Hst) as (s1 & ok & E1 & B).
  pose proof (bt_pmm _ _ _ _ B) as Hp1. rewrite <- Hp1 in Hok, Hlow.
  destruct (after_boot n s1 (bt_sane _ _ _ _ B) Hok Hlow)
    as (t0 & t1 & os & ts & s2 & E2 & R2 & Hlen & Hsec & _).
  rewrite Hp1 in R2. exists s2, ok, t0, t1, ts, os. split.
  { unfold kernel_main. rewrite (bind_ret _ _ _ _ _ E1). exact E2. }
  destruct (ran_clock _ _ _ _ _ R2) as (l2 & Tr2 & Hc). destruct (bt_trace _ _ _ _ B) as (l1 & Tr1).
  destruct (Hc (booted_timer_line _ _ _ _ B)) as [Et Hr].
  rewrite (ticked_new _ _ _ (bt_ticked _ _ _ _ B) Tr1) in Et, Hr.
  destruct R2 as [V2 U2 C2 K2 _ Hs2]. split; [|done| | | |done].
  - split; [rewrite V2, (bt_vga _ _ _ _ B), <- paints_app; done|].
    rewrite U2, (bt_uart _ _ _ _ B), uart_out_app, <- sents_app. done.
  - assert (trace (view s2) = trace (view s) ++ l1 ++ l2) as Tr by by rewrite Tr2, Tr1, app_assoc.
    exists (l1 ++ l2). split; [done|]. split; [by apply readings_later|].
    split; [by rewrite clock_app|]. apply (keyed_new _ _ s s2); [|done].
    exact (keyed_trans [] _ _ _ _ (bt_keyed _ _ _ _ B) K2).
  - rewrite <- Hp1. exact (f_equal c_pmm C2).
  - rewrite <- (bt_if _ _ _ _ B). exact (f_equal c_if C2).
Qed.

End run.

(** ** The properties at a concrete machine *)

#[local] Opaque full_pmm.

Lemma kernel0_sane : sane kernel0.
Proof. split; [done|apply kb0_ok|done]. Qed.

(** The drivers registered, interrupts on, the clock two ticks before it wraps round. *)
Definition kernel_up : kernel :=
  put (set_if true cpu_bios)
    (put (irq_register_handler 1 (Some keyboard_irq1)
            (irq_register_handler 0 (Some pit_irq0) idt_k0))
       (put (mk_pit 0xFFFFFFFE) kernel0)).

Lemma kernel_up_sane : sane kernel_up.
Proof. split; [done|apply kb0_ok|done]. Qed.

Lemma kernel_up_line : timer_line (view kernel_up).
Proof.
  intros n Hn. rewrite <- (Z2Nat.id n) at 2 by lia. assert (Z.to_nat n < 16)%nat as H by lia.
  revert H. generalize (Z.to_nat n) as k. intros k Hk. do 16 (destruct k as [|k]; [by split|]). lia.
Qed.


Lemma kernel_irqs_spec_witness :
  let s := put (irq_register_handler 0 (Some pit_irq0) idt_k0) kernel0 : kernel in
  irq_handler (H0 := demo_hw) (call (H := demo_hw)) (frame0 32) s
  = Ret tt (grow [EOut 0x20 0x20] (put (mk_pit 1) s)).
Proof.
  intros s. destruct (kernel_irqs_spec (H := demo_hw) (frame0 32) s) as (_ & Ht & _).
  exact (Ht eq_refl eq_refl).
Defined.
