(* ===== verification/KernelTime.v ===== *)
(** Time in the running kernel: what the pending interrupts do to the tick counter,
    how long [pit_sleep_ms] sleeps when it halts between them, and which seconds
    the main loop shows. *)

From S2P Require Import Prelude Machine Vga Preempt Screen Serial Digits Kprintf Pic Panic Idt Pmm PmmSpec Gdt Pit Keyboard Memory Uptime Kernel KernelSpec KernelBoot KernelRun.

#[local] Open Scope Z_scope.
#[local] Open Scope c_scope.

(** The timer interrupts among [fs]. *)
Definition timer_irqs (fs : list frame) : Z :=
  Z.of_nat (length (filter (fun f => fr_int_no f = 32) fs)).

(** ** The seconds shown *)

Lemma timer_vectors_pos tr : 0 ≤ timer_vectors tr.
Proof. unfold timer_vectors. lia. Qed.

(** Readings that advance by a second at most give consecutive seconds, up to the
    last reading. *)
Lemma changes_consecutive t last l ls :
  Forall (fun l => timer_vectors l ≤ 100) (l :: ls) → 0 ≤ t →
  t + timer_vectors (concat (l :: ls)) < 4294967296 → last ≤ t / 100 ≤ last + 1 →
  changes last (map (fun t => t / 100) (round_clocks t (l :: ls)))
  = seqZ (last + 1) ((t + timer_vectors (concat (take (length ls) (l :: ls)))) / 100 - last).
Proof.
  revert t last l. induction ls as [|l2 ls IH]; intros t last l Hls Ht Hw Hd.
  { cbn [map round_clocks changes length take concat]. change (timer_vectors []) with 0. rewrite Z.add_0_r. destruct (Z.eqb_spec (t / 100) last) as [->|].
    - by rewrite Z.sub_diag.
    - replace (t / 100) with (last + 1) by lia. by rewrite Z.add_simpl_l. }
  apply Forall_cons_1 in Hls as [Hl Hls]. cbn [concat] in Hw.
  pose proof (timer_vectors_pos l). pose proof (timer_vectors_pos (concat (l2 :: ls))) as Hp.
  cbn [concat] in Hp. rewrite timer_vectors_app in Hw.
  cbn [length take concat]. rewrite timer_vectors_app, Z.add_assoc.
  assert (changes (t / 100) (map (fun t => t / 100) (round_clocks (t + timer_vectors l) (l2 :: ls)))
    = seqZ (t / 100 + 1) ((t + timer_vectors l + timer_vectors (concat (take (length ls) (l2 :: ls))))
        / 100 - t / 100)) as E by (apply IH; [done|lia|cbn [concat]; lia|dlia]).
  pose proof (timer_vectors_pos (concat (take (length ls) (l2 :: ls)))).
  revert E. generalize dependent (timer_vectors (concat (take (length ls) (l2 :: ls)))). intros d Hd' E.
  change (round_clocks t (l :: l2 :: ls))
    with (t :: round_clocks (u32 (t + timer_vectors l)) (l2 :: ls)).
  rewrite u32_id by lia. cbn [map changes].
  destruct (Z.eqb_spec (t / 100) last) as [<-|]; [exact E|].
  assert (t / 100 ≤ (t + timer_vectors l + d) / 100) by (apply Z.div_le_mono; lia).
  rewrite E. replace (t / 100) with (last + 1) in * by lia.
  rewrite (seqZ_cons (last + 1)) by lia. f_equal. f_equal; lia.
Qed.

(** ** Sleeping *)

(** What happens while [pit_sleep_ms] sleeps: interrupts, with what the dispatcher and
    the handlers do at the ports, and halts. *)
Definition irq_event (e : event) : Prop :=
  match e with EVector _ => True | _ => handler_event e end.
Definition sleep_event (e : event) : Prop := e = EHlt ∨ irq_event e.

Definition halts (l : list event) : nat := length (filter (fun e => e = EHlt) l).

Lemma halts_app a b : halts (a ++ b) = (halts a + halts b)%nat.
Proof. unfold halts. by rewrite filter_app, length_app. Qed.

Lemma irq_halts l : Forall irq_event l → halts l = 0%nat.
Proof.
  induction 1 as [|e l He _ IH]; [done|]. change (e :: l) with ([e] ++ l). rewrite halts_app, IH.
  by destruct e.
Qed.

Lemma irq_sleep l : Forall irq_event l → Forall sleep_event l.
Proof. intros Hl. eapply Forall_impl; [exact Hl|]. by right. Qed.

(** Interrupts do not end in a halt. *)
Lemma irq_last l w : Forall irq_event w → w ≠ [] → last (l ++ w) ≠ Some EHlt.
Proof.
  intros Hw Hne. destruct (exists_last Hne) as (w' & e & ->).
  apply Forall_app in Hw as [_ Hw]. apply Forall_cons_1 in Hw as [Hw _].
  rewrite app_assoc, last_snoc. intros [= ->]. destruct Hw.
Qed.

(** From the trace [tr] on, the timer interrupt is among the first [n] wake-ups of
    the processor, whatever interrupts are served before it halts. *)
Fixpoint wakes `{!Interrupts} (n : nat) (tr : list event) : Prop :=
  match n with
  | O => False
  | S n =>
      ∀ w, Forall irq_event w →
        0 < timer_irqs (pending ((tr ++ w) ++ [EHlt])) ∨ wakes n ((tr ++ w) ++ [EHlt])
  end.

Lemma wakes_later `{!Interrupts} n tr w : Forall irq_event w → wakes n tr → wakes n (tr ++ w).
Proof.
  destruct n as [|n]; [done|]. intros Hw Ht w' Hw'. rewrite <- (app_assoc tr).
  apply Ht, Forall_app_2; done.
Qed.

Section kernel_time.
Context `{!Hardware} `{!PhysMem} `{!Image} `{!Cpuid} `{!Interrupts}.

Lemma timer_irqs_cons f fs :
  timer_irqs (f :: fs) = (if fr_int_no f =? 32 then 1 else 0) + timer_irqs fs.
Proof. unfold timer_irqs. rewrite filter_cons. case_decide; case_match; cbn [length]; lia. Qed.

(** Any number of interrupts: each timer interrupt among them counts. *)
Lemma serves_ticks fs (s : kernel) :
  Forall (fun f => 32 ≤ fr_int_no f < 48) fs → if_flag (view s) = true →
  ∃ s' l, mapM_ serve fs s = Ret tt s' ∧ served s s' ∧ trace (view s') = trace (view s) ++ l ∧
    Forall irq_event l ∧ timer_vectors l = timer_irqs fs ∧ (l = [] → fs = []).
Proof.
  intros Hfs. revert s. induction Hfs as [|f fs Hf _ IH]; intros s Hif.
  { exists s, []. rewrite app_nil_r. by split_and!. }
  destruct (serve_run f s Hif Hf) as (l1 & p & k & _ & E1 & Hl & Tr1 & P1).
  set (s1 := put (set_if true _) _ : kernel) in *.
  destruct (IH s1) as (s2 & l2 & E2 & P2 & Tr2 & Ev2 & T2 & _); [by rewrite (served_if _ _ P1)|].
  exists s2, (([EVector (fr_int_no f)] ++ l1) ++ l2). cbn [mapM_].
  rewrite (bind_ret _ _ _ _ _ E1). split; [exact E2|]. split; [by etransitivity|].
  split; [by rewrite Tr2, Tr1, !app_assoc|]. split; [|split; [|done]].
  - apply Forall_app_2; [|done]. apply Forall_app_2; [by repeat constructor|].
    eapply Forall_impl; [exact Hl|]. by intros [] He.
  - rewrite !timer_vectors_app, timer_vector, (handler_vectors l1 Hl), T2, timer_irqs_cons. lia.
Qed.

Lemma irqs_ticks (s : kernel) :
  if_flag (view s) = true →
  ∃ s' l, irqs s = Ret tt s' ∧ served s s' ∧ trace (view s') = trace (view s) ++ l ∧
    Forall irq_event l ∧ timer_vectors l = timer_irqs (pending (trace (view s))) ∧
    (l = [] → pending (trace (view s)) = []).
Proof.
  intros Hif. destruct (serves_ticks (pending (trace (view s))) s) as (s' & l & E & Hl);
    [|done|exists s', l; split; [|done]].
  - apply Forall_forall. intros f Hf. eapply pending_irq. by apply list_elem_of_In.
  - unfold irqs. by rewrite (bind_ret (gets _) _ s _ s eq_refl), Hif.
Qed.

(** A sleep of [k] ticks from [s0] on. At most [a] timer interrupts are served between
    two instructions, at most [b] when the processor wakes up, and one is among
    every [n] wake-ups. *)
Section sleep.
Variables (s0 : kernel) (n : nat) (k a b : Z).
Hypothesis line : timer_line (view s0).
Hypothesis on : if_flag (view s0) = true.
Hypothesis range : 0 ≤ ticks (view s0) < 4294967296.
Hypothesis long : 0 ≤ k ≤ 4294967.
Hypothesis bounds : 0 ≤ a ≤ 2 ^ 29 ∧ 0 ≤ b ≤ 2 ^ 29.
Hypothesis rate : ∀ l, Forall sleep_event l →
  wakes n (trace (view s0) ++ l) ∧
  timer_irqs (pending (trace (view s0) ++ l)) ≤ if decide (last l = Some EHlt) then b else a.

(** The state after the events [l] of the sleep; what woke the processor was served. *)
Record asleep (l : list event) (s : kernel) : Prop := {
  as_served : served s0 s;
  as_trace : trace (view s) = trace (view s0) ++ l;
  as_events : Forall sleep_event l;
  as_awake : last l = Some EHlt → pending (trace (view s)) = []
}.

Lemma asleep_begin : asleep [] s0.
Proof. split; [reflexivity|by rewrite app_nil_r|done|done]. Qed.

Lemma asleep_ticks l s : asleep l s → ticks (view s) = u32 (ticks (view s0) + timer_vectors l).
Proof.
  intros [P Tr _ _]. apply ticked_new; [|done].
  destruct (bg_ticks _ _ (proj1 (sv_bg _ _ P)) range) as [_ T]. by apply T.
Qed.

(** Between two instructions. *)
Lemma asleep_window l s :
  asleep l s →
  ∃ s' w, irqs s = Ret tt s' ∧ asleep (l ++ w) s' ∧ Forall irq_event w ∧ 0 ≤ timer_vectors w ≤ a.
Proof.
  intros [P Tr El Ea]. destruct (irqs_ticks s) as (s' & w & E & P' & Tr' & Ew & T & Hn);
    [by rewrite (served_if _ _ P)|].
  exists s', w. split; [done|]. split; [|split; [done|split; [apply timer_vectors_pos|]]].
  - split; [by etransitivity|by rewrite Tr', Tr, app_assoc|by apply Forall_app_2, irq_sleep|].
    intros Hlast. destruct (decide (w = [])) as [->|Hne]; [|by apply irq_last in Hlast].
    rewrite Tr', app_nil_r. by apply Hn.
  - rewrite T. destruct (decide (last l = Some EHlt)) as [Hl|Hl].
    + rewrite Ea by done. apply bounds.
    + rewrite Tr. destruct (rate l El) as [_ Hr]. by destruct (decide _).
Qed.

(** The processor halts; what wakes it is served. *)
Lemma asleep_hlt l s :
  asleep l s →
  ∃ s' w, hlt s = Ret tt s' ∧ asleep ((l ++ [EHlt]) ++ w) s' ∧ Forall irq_event w ∧
    0 ≤ timer_vectors w ≤ b ∧ timer_vectors w = timer_irqs (pending (trace (view s) ++ [EHlt])).
Proof.
  intros [P Tr El _]. set (s1 := grow [EHlt] s : kernel). pose proof (served_hlt s) as P1. fold s1 in P1.
  assert (trace (view s1) = trace (view s0) ++ l ++ [EHlt]) as Tr1
    by (unfold s1; by rewrite trace_grow, Tr, app_assoc).
  assert (Forall sleep_event (l ++ [EHlt])) as El1 by (apply Forall_app_2; repeat constructor; done).
  destruct (irqs_ticks s1) as (s' & w & E & P' & Tr' & Ew & T & Hn);
    [by rewrite (served_if _ _ P1), (served_if _ _ P)|].
  assert (trace (view s1) = trace (view s) ++ [EHlt]) as Ts by apply trace_grow.
  exists s', w. split; [|split; [|split; [done|split; [split; [apply timer_vectors_pos|]|by rewrite <- Ts]]]].
  - unfold hlt. by rewrite (bind_ret (modify (log EHlt)) _ s tt s1 eq_refl).
  - split; [etransitivity; [exact P|by etransitivity]|by rewrite Tr', Tr1, !app_assoc
      |by apply Forall_app_2, irq_sleep|].
    intros Hlast. destruct (decide (w = [])) as [->|Hne]; [|by apply irq_last in Hlast].
    rewrite Tr', app_nil_r. by apply Hn.
  - rewrite T, Tr1. destruct (rate _ El1) as [_ Hr]. rewrite last_snoc in Hr.
    by destruct (decide _).
Qed.

(** [l1] are the events up to the last test that found time left, [l2] those since. *)
Definition slept (l1 l2 : list event) : Prop :=
  (l1 = [] ∨ timer_vectors l1 < k) ∧ (halts l2 ≤ 1)%nat ∧
  timer_vectors (l1 ++ l2) ≤ Z.max (k - 1 + a + b) a.

(** Once round the loop: interrupts, a halt, interrupts. *)
Lemma round_timers l w w2 :
  timer_vectors (l ++ w ++ [EHlt] ++ w2) = timer_vectors l + timer_vectors w + timer_vectors w2.
Proof. rewrite !timer_vectors_app. change (timer_vectors [EHlt]) with 0. lia. Qed.

Lemma slept_round l w w2 :
  timer_vectors l < k → Forall irq_event w → Forall irq_event w2 →
  timer_vectors w ≤ a → timer_vectors w2 ≤ b → slept l (w ++ [EHlt] ++ w2).
Proof.
  intros Hl Ew Ew2 Ha Hb. split; [by right|].
  rewrite !halts_app, (irq_halts w), (irq_halts w2), round_timers by done.
  change (halts [EHlt]) with 1%nat. split; lia.
Qed.

Lemma sleep_loop fuel m l1 l2 s :
  asleep (l1 ++ l2) s → slept l1 l2 → (0 < fuel)%nat →
  (timer_vectors (l1 ++ l2) < k →
   wakes m (trace (view s)) ∧ (m + n * Z.to_nat (k - 1 - timer_vectors (l1 ++ l2)) < fuel)%nat) →
  ∃ s' go stop after, sleep_until hlt fuel (u32 (ticks (view s0) + k)) s = Ret tt s' ∧
    asleep (go ++ stop ++ after) s' ∧ slept go stop ∧ k ≤ timer_vectors (go ++ stop) ∧
    Forall irq_event after ∧ timer_vectors after ≤ a.
Proof.
  revert m l1 l2 s. induction fuel as [|fuel IH]; intros m l1 l2 s As Sl Hf Hm; [lia|].
  cbn [sleep_until]. rewrite (bind_ret (gets _) _ s _ s eq_refl), (asleep_ticks _ _ As).
  destruct (asleep_window _ _ As) as (s1 & w & E1 & As1 & Ew & Tw).
  change preempt with irqs. rewrite (bind_ret _ _ _ _ _ E1).
  pose proof (timer_vectors_pos (l1 ++ l2)). pose proof Sl as (_ & _ & Hmax).
  rewrite sleep_test by lia. destruct (Z.ltb_spec 0 (k - timer_vectors (l1 ++ l2))) as [Hd|Hd].
  2: { exists s1, l1, l2, w. rewrite app_assoc. split; [done|]. split; [done|]. split; [done|].
       split; [lia|]. split; [done|lia]. }
  destruct (asleep_hlt _ _ As1) as (s2 & w2 & E2 & As2 & Ew2 & Tw2 & Tp).
  rewrite (bind_ret _ _ _ _ _ E2). destruct (Hm ltac:(lia)) as [Hw Hfm]. clear Hm.
  destruct m as [|m]; [done|]. cbn [wakes] in Hw. specialize (Hw w Ew).
  assert (trace (view s1) = trace (view s) ++ w) as Ts1
    by by rewrite (as_trace _ _ As1), (as_trace _ _ As), app_assoc.
  assert ((((l1 ++ l2) ++ w) ++ [EHlt]) ++ w2 = (l1 ++ l2) ++ (w ++ [EHlt] ++ w2)) as Ea
    by by rewrite <- !app_assoc.
  rewrite Ea in As2.
  pose proof (slept_round (l1 ++ l2) w w2 ltac:(lia) Ew Ew2 (proj2 Tw) (proj2 Tw2)) as Sl2.
  pose proof (round_timers (l1 ++ l2) w w2) as Et. set (d := timer_vectors (l1 ++ l2)) in *.
  destruct (decide (timer_vectors w + timer_vectors w2 = 0)) as [Hz|Hz].
  - apply (IH m _ _ _ As2 Sl2); [lia|]. rewrite Et. intros _. split.
    + rewrite Ts1 in Tp. destruct Hw as [Hw|Hw]; [lia|].
      replace (trace (view s2)) with (((trace (view s) ++ w) ++ [EHlt]) ++ w2); [by apply wakes_later|].
      by rewrite (as_trace _ _ As2), (as_trace _ _ As), <- !app_assoc.
    + replace (k - 1 - (d + timer_vectors w + timer_vectors w2)) with (k - 1 - d) by lia. lia.
  - apply (IH n _ _ _ As2 Sl2); [lia|]. rewrite Et. intros Hlt. split.
    + rewrite (as_trace _ _ As2). apply rate, As2.
    + assert (n + n * Z.to_nat (k - 1 - (d + timer_vectors w + timer_vectors w2))
        ≤ n * Z.to_nat (k - 1 - d))%nat by nia. lia.
Qed.

Lemma sleep_ms_run fuel ms :
  k = sleep_ticks ms → (n * Z.to_nat k < fuel)%nat →
  ∃ s' go stop after, pit_sleep_ms hlt fuel ms s0 = Ret tt s' ∧
    asleep (go ++ stop ++ after) s' ∧ slept go stop ∧ k ≤ timer_vectors (go ++ stop) ∧
    Forall irq_event after ∧ timer_vectors after ≤ a.
Proof.
  intros Hk Hf. unfold pit_sleep_ms. rewrite (bind_ret (gets _) _ s0 _ s0 eq_refl).
  change (((ms *u PIT_FREQUENCY_HZ) +u 999) / 1000) with (sleep_ticks ms). rewrite <- Hk.
  destruct (asleep_window [] s0 asleep_begin) as (s1 & w & E1 & As1 & Ew & Tw).
  change preempt with irqs. rewrite (bind_ret _ _ _ _ _ E1).
  apply (sleep_loop fuel n [] w); [exact As1| |lia|].
  - split; [by left|]. rewrite (irq_halts w Ew). split; [lia|]. cbn [app]. lia.
  - intros Hlt. cbn [app] in Hlt |- *. split; [|nia].
    rewrite (as_trace _ _ As1). apply rate, As1.
Qed.

End sleep.

(** ** Properties *)

(** C26: how long [pit_sleep_ms] sleeps in the running kernel, with the tick handler
    on line 0 only and interrupts enabled, also across the wrap-around of the
    counter. Other interrupts may arrive as they like; of the timer's, one is among every
    [n] wake-ups of the processor, at most [b] are served at a wake-up and at
    most [a] between two other instructions, such as the test of [ticks] and the
    [hlt] behind it. Then it returns, having left its loop at the first test that
    found the computed number [k] of timer interrupts since the start (the events [go] up to
    the test before have fewer, and it went to sleep once more at most): never
    earlier, and after [k - 1 + a + b] of them at the latest. So it is exactly [k] when
    the timer only arrives in a halt ([a = 0], [b = 1]), and at most one more when it
    may arrive between the test and the [hlt] ([a = b = 1]). Meanwhile only the clock and
    the key queue change and nothing is put out. For a delay below 42949663 ms,
    [k] is the delay in ticks of 10 ms, rounded up. *)
Theorem kernel_sleep n a b fuel ms (s : kernel) :
  timer_line (view s) → if_flag (view s) = true → 0 ≤ ticks (view s) < 4294967296 →
  0 ≤ a ≤ 2 ^ 29 ∧ 0 ≤ b ≤ 2 ^ 29 →
  (∀ l, Forall sleep_event l →
   wakes n (trace (view s) ++ l) ∧
   timer_irqs (pending (trace (view s) ++ l)) ≤ if decide (last l = Some EHlt) then b else a) →
  let k := sleep_ticks ms in
  (n * Z.to_nat k < fuel)%nat →
  (0 ≤ ms ≤ 42949662 → k = ticks_of_ms ms) ∧
  ∃ s' go stop after, pit_sleep_ms hlt fuel ms s = Ret tt s' ∧ effect [] s s' ∧
    trace (view s') = trace (view s) ++ go ++ stop ++ after ∧
    ticks (view s') = u32 (ticks (view s) + timer_vectors (go ++ stop ++ after)) ∧
    (go = [] ∨ timer_vectors go < k) ∧ (halts stop ≤ 1)%nat ∧
    k ≤ timer_vectors (go ++ stop) ≤ Z.max (k - 1 + a + b) a ∧
    halts after = 0%nat ∧ timer_vectors after ≤ a.
Proof.
  intros Hl Hif Ht Hab Hr k Hf. split; [apply sleep_ticks_exact|].
  destruct (sleep_ms_run s n k a b Hl Hif Ht (sleep_ticks_range ms) Hab Hr fuel ms eq_refl Hf)
    as (s' & go & stop & after & E & As & (Hgo & Hst & Hmax) & Hmin & Eaf & Taf).
  exists s', go, stop, after. split; [done|]. split; [by apply served_effect, As|].
  split; [apply As|]. split; [by eapply asleep_ticks|]. by split_and!; try apply irq_halts.
Qed.

(** C27: the uptime log misses no second. In [n + 1] rounds of the main loop with the
    events [ls], the clock counts at the beginning of every round the timer interrupts
    of the rounds before; and when at most 100 of them (one second) arrive per round,
    and the counter does not overflow (497 days), then the seconds shown on the serial
    line are all those from the one after [last] up to what the clock shows at the
    beginning of the last round, in order and once each. *)
Theorem kernel_uptime_complete fuel n last (s : kernel) :
  uart_live fuel LSR_TX_EMPTY → sane s → timer_line (view s) →
  last ≤ ticks (view s) / 100 ≤ last + 1 →
  ∃ s' os ls, kernel_rounds fuel (S n) last s = Ret (last_tick last os) s' ∧
    uart_of (trace (view s')) = uart_out (sents (outputs_ops os)) (uart_of (trace (view s))) ∧
    length ls = S n ∧
    (∀ k, (k ≤ S n)%nat → ∃ r sk, kernel_rounds fuel k last s = Ret r sk ∧
       trace (view sk) = trace (view s) ++ concat (take k ls) ∧
       ticks (view sk) = u32 (ticks (view s) + timer_vectors (concat (take k ls)))) ∧
    (Forall (fun l => timer_vectors l ≤ 100) ls →
     ticks (view s) + timer_vectors (concat ls) < 4294967296 →
     secs_of os
     = seqZ (last + 1) ((ticks (view s) + timer_vectors (concat (take n ls))) / 100 - last)).
Proof.
  intros live Hs Hl Hlast.
  destruct (kernel_rounds_run fuel live (S n) last s Hs) as (s' & os & ts & ls & E & R).
  pose proof (rs_length _ _ _ _ _ _ _ _ R) as Hn.
  exists s', os, ls. split; [exact E|]. split; [apply R|]. split; [exact Hn|]. split.
  - intros k Hk. destruct (rs_trace _ _ _ _ _ _ _ _ R k Hk) as (r & sk & Ek & Tk).
    exists r, sk. split; [exact Ek|]. split; [exact Tk|].
    destruct (kernel_rounds_run fuel live k last s Hs) as (s2 & os2 & ts2 & ls2 & E2 & R2).
    rewrite Ek in E2. injection E2 as _ <-.
    destruct (ran_clock _ _ _ _ _ (rs_ran _ _ _ _ _ _ _ _ R2)) as (l & Tr & Hc).
    rewrite Tk in Tr. apply app_inv_head in Tr as ->. by apply Hc.
  - intros Hls Hw. rewrite (rs_secs _ _ _ _ _ _ _ _ R), (rs_clocks _ _ _ _ _ _ _ _ R Hl).
    destruct ls as [|l ls]; [done|]. injection Hn as <-.
    apply changes_consecutive; [done|apply Hs|done|done].
Qed.

End kernel_time.

(** ** The property at a concrete machine *)

(** The timer is the only interrupt, and arrives when the processor halts. *)
#[program] Definition calm_interrupts : Interrupts := {|
  pending := fun tr => if decide (last tr = Some EHlt) then [frame0 32] else []
|}.
Next Obligation.
  intros tr f. cbn beta. destruct (decide (last tr = Some EHlt)); [|intros []]. intros [<-|[]]. cbn. lia.
Qed.

Lemma calm_rate l :
  wakes (H := calm_interrupts) 1 (trace (view kernel_up) ++ l) ∧
  timer_irqs (pending (Interrupts := calm_interrupts) (trace (view kernel_up) ++ l))
  ≤ if decide (last l = Some EHlt) then 1 else 0.
Proof.
  split.
  - intros w _. left. cbn [pending calm_interrupts]. rewrite last_snoc. by case_decide.
  - cbn [pending calm_interrupts]. rewrite last_app. destruct (last l) as [e|]; [|done].
    by destruct (decide (Some e = Some EHlt)).
Qed.

(** Sleeping for 25 ms from two ticks before the counter wraps around: with a timer
    that only arrives in a halt, and with one at every opportunity. *)
Lemma kernel_sleep_witness :
  (∃ s', pit_sleep_ms (Preempt0 := kernel_preempt (H := demo_hw) (H3 := calm_interrupts))
      (hlt (H := demo_hw) (H3 := calm_interrupts)) 4 25 kernel_up = Ret tt s' ∧
    ticks (view s') = 1) ∧
  (∃ s' go stop after,
    pit_sleep_ms (Preempt0 := kernel_preempt (H := demo_hw) (H3 := demo_interrupts))
      (hlt (H := demo_hw) (H3 := demo_interrupts)) 4 25 kernel_up = Ret tt s' ∧
    trace (view s') = trace (view kernel_up) ++ go ++ stop ++ after ∧
    3 ≤ timer_vectors (go ++ stop) ≤ 4).
Proof.
  split.
  - destruct (kernel_sleep (H := demo_hw) (H3 := calm_interrupts) 1 0 1 4 25 kernel_up
      kernel_up_line eq_refl) as (_ & s' & go & stop & after & E & _ & _ & T & _ & _ & K & _ & A);
      [by vm_compute|lia|intros l _; apply calm_rate|vm_compute; lia|].
    exists s'. split; [exact E|]. rewrite T, app_assoc, timer_vectors_app.
    change (sleep_ticks 25) with 3 in K.
    assert (timer_vectors (go ++ stop) = 3) as -> by lia.
    pose proof (timer_vectors_pos after). by assert (timer_vectors after = 0) as -> by lia.
  - destruct (kernel_sleep (H := demo_hw) (H3 := demo_interrupts) 1 1 1 4 25 kernel_up
      kernel_up_line eq_refl) as (_ & s' & go & stop & after & E & _ & Tr & _ & _ & _ & K & _);
      [by vm_compute|lia| |vm_compute; lia|].
    + intros l _. split; [by left|by destruct (decide _)].
    + exists s', go, stop, after. split; [exact E|]. split; [exact Tr|].
      change (sleep_ticks 25) with 3 in K. lia.
Defined.

(** The clock at 99 ticks. *)
Definition second_due : kernel := put (mk_pit 99) kernel_up.

Lemma second_due_sane : sane second_due.
Proof. destruct kernel_up_sane as [Hd Hk _]. split; [exact Hd|exact Hk|cbn; lia]. Qed.

Lemma timer_vectors_concat l ls : l ∈ ls → timer_vectors l ≤ timer_vectors (concat ls).
Proof.
  induction ls as [|l' ls IH]; [by intros ?%not_elem_of_nil|]. cbn [concat].
  rewrite timer_vectors_app. pose proof (timer_vectors_pos l'). pose proof (timer_vectors_pos (concat ls)).
  intros [->|Hin]%elem_of_cons; [lia|]. specialize (IH Hin). lia.
Qed.

(** Two rounds: the clock passes 100 in the first, and the second is shown. *)
Lemma kernel_uptime_complete_witness :
  ∃ s' os, kernel_rounds (H := demo_hw) (H3 := calm_interrupts) 5 2 0 second_due
      = Ret (last_tick 0 os) s' ∧ secs_of os = [1].
Proof.
  destruct (kernel_uptime_complete (H := demo_hw) (H3 := calm_interrupts) 5 1 0 second_due
    demo_live second_due_sane kernel_up_line)
    as (s' & os & ls & E & _ & L & Hk & Hsec); [by vm_compute|].
  exists s', os. split; [exact E|].
  assert (∀ k, (k ≤ 2)%nat → timer_vectors (trace (view (final
    (kernel_rounds (H := demo_hw) (H3 := calm_interrupts) 5 k 0 second_due))))
    = timer_vectors (concat (take k ls))) as Hv.
  { intros k Hle. destruct (Hk k Hle) as (r & sk & -> & Tr & _). cbn [final]. rewrite Tr.
    apply timer_vectors_app. }
  assert (timer_vectors (concat ls) = 2) as H2.
  { rewrite <- (firstn_all ls), L, <- Hv by done. by vm_compute. }
  assert (timer_vectors (concat (take 1 ls)) = 1) as H1 by (rewrite <- Hv by lia; by vm_compute).
  rewrite H1, H2 in Hsec. apply Hsec; [|by vm_compute].
  apply Forall_forall. intros l Hl%timer_vectors_concat. lia.
Defined.
