(* ===== verification/KernelEntry.v ===== *)
(** The entry stubs under the running kernel: what an interrupt does between the
    instruction it interrupts and the return to it is the step [serve] by which
    [Kernel] delivers interrupts. *)

From S2P Require Import Prelude Machine Vga Preempt Screen Serial Digits Kprintf Pic Panic Idt X86 Entry Pmm PmmSpec Gdt Pit Keyboard Memory Uptime Kernel KernelSpec KernelBoot KernelRun.

#[local] Open Scope Z_scope.
#[local] Open Scope c_scope.

Section kernel_entry.
Context `{!Hardware} `{!PhysMem} `{!Image} `{!Cpuid} `{!Interrupts}.
Context {stack_end : Z} `{!Abi stack_end}.
Variable fuel : nat.
Variable return_addr : cfun → Z.

(** The selectors [gdt_init] loads, and [boot.s] before it. *)
Definition flat_segs : segs := mk_segs 8 16 16 16 16 16.

(** Code of the kernel that is running with interrupts on. *)
Record running (x : x86) (s : kernel) : Prop := {
  run_interruptible : interruptible (stack_end := stack_end) stub_addr idt_addr x s;
  run_if : if_flag (view s) = true;
  run_segs : seg x = flat_segs
}.

(** What an interrupt does not change for the interrupted code. *)
Record resumed (x x' : x86) : Prop := {
  res_gpr : gpr x' = gpr x;
  res_seg : seg x' = seg x;
  res_eip : eip x' = eip x;
  res_flags : eflags x' = eflags x;
  res_stack a : esp (gpr x) ≤ a < stack_end → mem x' a = mem x a
}.

#[export] Instance resumed_preorder : PreOrder resumed.
Proof.
  split; [by split|]. intros x1 x2 x3 [G1 S1 I1 F1 M1] [G2 S2 I2 F2 M2].
  split; [by rewrite G2|by rewrite S2|by rewrite I2|by rewrite F2|].
  intros a Ha. rewrite M2 by by rewrite G1. by apply M1.
Qed.

Lemma installed_config (s s' : kernel) :
  config_of s' = config_of s →
  installed (H := handler) stub_addr idt_addr s → installed (H := handler) stub_addr idt_addr s'.
Proof.
  intros C [I G T A].
  assert (idtr (view s') = idtr (view s)) as Ci by exact (f_equal c_idtr C).
  assert (gdtr (view s') = gdtr (view s)) as Cg by exact (f_equal c_gdtr C).
  assert (view (C := idt_state handler) s' = view s) as Ct by exact (f_equal c_idt C).
  split; [by rewrite Ci|by rewrite Cg| |exact A]. by rewrite Ct.
Qed.

Lemma resumed_running x x' (s s' : kernel) :
  running x s → resumed x x' → config_of s' = config_of s → running x' s'.
Proof.
  intros [[I [Wg Wc Ws] F E] Hif Hseg] [G' S' I' F' _] C.
  assert (if_flag (view s') = true) as Hif' by (rewrite <- Hif; exact (f_equal c_if C)).
  split; [|done|by rewrite S'].
  split; [by apply (installed_config s)| | |by rewrite G'].
  - split; by rewrite ?G', ?I', ?F', ?S'.
  - unfold coherent. by rewrite F', Hif', <- Hif.
Qed.

(** Interrupted at the same place, a stub builds the same frame. *)
Lemma resumed_frame v e x x' :
  0 ≤ esp (gpr x) → esp (gpr x) + 8 ≤ stack_end < 4294967296 → resumed x x' →
  frame_of v e x' = frame_of v e x.
Proof.
  intros Hlo Hhi [G S I F M]. unfold frame_of. rewrite G, S, I, F. cbn zeta. f_equal.
  - apply load_ext; [lia..|]. intros a Ha. apply M. lia.
  - rewrite u32_id by lia. apply load_ext; [lia..|]. intros a Ha. apply M. lia.
Qed.

(** The way through the vector, the stub, the handler and back is [serve]. *)
Lemma irq_serves n k x (s : kernel) :
  running x s → 0 ≤ n < 16 →
  ∃ x' s', serve (frame_of (32 + n) 0 x) s = Ret tt s' ∧
    take fuel call return_addr stub_addr idt_addr (21 + k) (32 + n) None (x, s) = Ret tt (x', s') ∧
    resumed x x' ∧ effect [] s s'.
Proof.
  intros [Hx Hif Hseg] Hn. set (f := frame_of (32 + n) 0 x).
  destruct (serve_run f s Hif) as (l & p & k' & E & Es & _ & _ & P); [cbn; lia|].
  set (s2 := grow l _ : kernel) in *.
  destruct (irq_transparent fuel call return_addr stub_addr idt_addr n k x s s2 Hx Hn E)
    as (x' & E' & R1 & R2 & R3 & R4 & R5).
  { rewrite Hseg. apply (sel_ok_limit 16 23); [done|]. apply Hx. }
  exists x', (put (set_if true (view s2)) s2). split; [exact Es|]. rewrite Hif in E'.
  split; [exact E'|]. split; [|by apply served_effect].
  split; try done. by rewrite R4, Hseg.
Qed.

(** Interrupts one after the other, by the numbers of their lines. *)
Fixpoint takes (k : nat) (ns : list Z) : M (x86 * kernel) unit :=
  match ns with
  | [] => mret tt
  | n :: ns => take fuel call return_addr stub_addr idt_addr k (32 + n) None;; takes k ns
  end.

(** An exception, with the error code of the processor where the vector has one. *)
Definition except (k : nat) (v e : Z) : M (x86 * kernel) unit :=
  take fuel call return_addr stub_addr idt_addr k v (if pushes_error v then Some e else None).

(** The frames of these interrupts in the kernel's model. *)
Definition frames (x : x86) (ns : list Z) : list frame := map (fun n => frame_of (32 + n) 0 x) ns.

Lemma takes_serve ns k x (s : kernel) :
  running x s → Forall (fun n => 0 ≤ n < 16) ns →
  ∃ x' s', takes (21 + k) ns (x, s) = Ret tt (x', s') ∧
    mapM_ serve (frames x ns) s = Ret tt s' ∧ resumed x x' ∧ effect [] s s'.
Proof.
  intros Hr Hns. revert x s Hr. induction Hns as [|n ns Hn Hns IH]; intros x s Hr.
  - exists x, s. split; [done|]. split; [done|]. split; [reflexivity|apply effect_refl].
  - destruct (irq_serves n k x s Hr Hn) as (x1 & s1 & E1 & T1 & R1 & P1).
    pose proof (resumed_running _ _ _ _ Hr R1 (effect_config _ _ _ P1)) as Hr1.
    destruct (IH x1 s1 Hr1) as (x2 & s2 & T2 & E2 & R2 & P2).
    assert (frames x1 ns = frames x ns) as Ef.
    { apply map_ext. intros m. destruct (in_stack _ _ _ _ (run_interruptible _ _ Hr)).
      apply resumed_frame; [lia..|done]. }
    exists x2, s2. cbn [takes frames map mapM_].
    rewrite (bind_ret _ _ _ _ _ T1), (bind_ret _ _ _ _ _ E1). split; [exact T2|].
    split; [rewrite Ef in E2; exact E2|]. split; [by etransitivity|]. by apply (effect_trans [] [] _ s1).
Qed.

Hypothesis live : uart_live fuel LSR_TX_EMPTY.
Hypothesis receiver : loopback_answers fuel.
Hypothesis readback : imr_readback.

(** The boot sequence installs the stubs, and the rest of the kernel leaves them
    installed. *)
Lemma main_installs n mbi p' (s : kernel) :
  boot_pre s → pmm_setup fuel mbi kernel_end (view s) = Done p' →
  pmm_ok p' → low_reserved p' → (∀ st, 0 ≤ stub_addr st < 4294967296) →
  (∀ v v', 0 ≤ v < 48 → 0 ≤ v' < 48 →
     stub_addr (vector_stub v) = stub_addr (vector_stub v') → v = v') →
  ∃ r s', kernel_main fuel n MULTIBOOT_BOOTLOADER_MAGIC mbi s = Ret r s' ∧
    installed (H := handler) stub_addr idt_addr s' ∧ if_flag (view s') = true ∧ sane s'.
Proof.
  intros Hpre Ep Hok Hlow Hst Hinj.
  destruct (boot_run fuel live readback receiver mbi p' s Hpre Ep Hst)
    as (s1 & ok & E1 & [_ _ Hg Hi Ht _ _ Hp1 Hif _ _ _ Hs1]).
  rewrite <- Hp1 in Hok, Hlow.
  destruct (after_boot fuel live n s1 Hs1 Hok Hlow) as (t0 & t1 & os & ts & s2 & E2 & R2 & _).
  exists (last_tick 0 os), s2. split.
  { unfold kernel_main. rewrite (bind_ret _ _ _ _ _ E1). exact E2. }
  pose proof (ran_config _ _ _ _ _ R2) as C. split.
  - apply (installed_config s1 _ C). split; [done| |done|done].
    assert (gdtr (view s1) = (23, gdt_addr)) as -> by exact (f_equal (fun t => t.1.1.1) Hg). done.
  - split; [|exact (ran_sane _ _ _ _ _ R2)]. rewrite <- Hif. exact (f_equal c_if C).
Qed.

(** Code of the kernel [kernel_main] has left in the state [s], with room on its
    stack. *)
Record kernel_code (x : x86) : Prop := {
  code_wf : wf_x86 x;
  code_if : Z.testbit (eflags x) 9 = true;
  code_segs : seg x = flat_segs;
  code_stack : 64 ≤ esp (gpr x) ∧ esp (gpr x) + 8 ≤ stack_end < 4294967296
}.

Lemma code_running x (s : kernel) :
  installed (H := handler) stub_addr idt_addr s → if_flag (view s) = true → kernel_code x →
  running x s.
Proof.
  intros Hi Hif [Hwf Hf Hseg Hst]. split; [|exact Hif|exact Hseg].
  split; [exact Hi|exact Hwf| |exact Hst]. unfold coherent. by rewrite Hf, Hif.
Qed.

(** C4: interrupts of the running kernel are transparent. After [kernel_main] has
    booted and run for any number of rounds, whatever kernel code is executing
    (with room on its stack), any sequence of hardware interrupts goes through
    the IDT, the entry stubs and the C handlers and comes back: every register,
    the flags, the address and the interrupted stack are as before, although the
    handlers are free to use the scratch registers and the stack below. On the
    kernel's state the detour is the step [serve] by which the model delivers
    interrupts, on the frames the stubs build; it may add ticks and keys, nothing
    else. *)
Theorem kernel_irqs_transparent n mbi p' (s : kernel) :
  boot_pre s → pmm_setup fuel mbi kernel_end (view s) = Done p' →
  pmm_ok p' → low_reserved p' → (∀ st, 0 ≤ stub_addr st < 4294967296) →
  (∀ v v', 0 ≤ v < 48 → 0 ≤ v' < 48 →
     stub_addr (vector_stub v) = stub_addr (vector_stub v') → v = v') →
  ∃ r s', kernel_main fuel n MULTIBOOT_BOOTLOADER_MAGIC mbi s = Ret r s' ∧
    ∀ x ns k, kernel_code x → Forall (fun n => 0 ≤ n < 16) ns →
      ∃ x' s'', takes (21 + k) ns (x, s') = Ret tt (x', s'') ∧
        mapM_ serve (frames x ns) s' = Ret tt s'' ∧ resumed x x' ∧ effect [] s' s''.
Proof.
  intros Hpre Ep Hok Hlow Hst Hinj.
  destruct (main_installs n mbi p' s Hpre Ep Hok Hlow Hst Hinj) as (r & s' & E & Hi & Hif & _).
  exists r, s'. split; [exact E|]. intros x ns k Hx Hns.
  apply takes_serve; [|done]. by apply code_running.
Qed.

(** C12: an exception in the running kernel. After [kernel_main] has booted and run
    for any number of rounds, and after any sequence of hardware interrupts, let
    the processor take any exception (vectors 0 to 31; a non-maskable interrupt or
    a machine check can come at any time). It goes through the IDT and its stub to
    [isr_handler], which adds to what the kernel has printed the report of the
    exception, with the address and the error code of the interrupted code, and the
    panic message, on both consoles; the processor stops with interrupts off. *)
Theorem kernel_exception n mbi p' (s : kernel) :
  boot_pre s → pmm_setup fuel mbi kernel_end (view s) = Done p' →
  pmm_ok p' → low_reserved p' → (∀ st, 0 ≤ stub_addr st < 4294967296) →
  (∀ v v', 0 ≤ v < 48 → 0 ≤ v' < 48 →
     stub_addr (vector_stub v) = stub_addr (vector_stub v') → v = v') →
  ∃ r s', kernel_main fuel n MULTIBOOT_BOOTLOADER_MAGIC mbi s = Ret r s' ∧
    ∀ x ns v e k, kernel_code x → Forall (fun n => 0 ≤ n < 16) ns →
      0 ≤ v < 32 → 0 ≤ e < 4294967296 →
      ∃ x' s'',
        (takes (21 + k) ns;; except (21 + k) v e) (x, s') = Halted (x', s'') ∧
        if_flag (view s'') = false ∧
        let msg := panic_text (bytes "Unhandled CPU exception") in
        let report := exception_text (frame_of v e x) in
        view (C := vga) s''
        = vga_puts msg (vga_set_color VGA_COLOR_WHITE VGA_COLOR_RED (vga_puts report (view s'))) ∧
        uart_of (trace (view s''))
        = uart_out (crlf msg) (uart_out report (uart_of (trace (view s')))).
Proof.
  intros Hpre Ep Hok Hlow Hst Hinj.
  destruct (main_installs n mbi p' s Hpre Ep Hok Hlow Hst Hinj) as (r & s' & E & Hi & Hif & Hs).
  exists r, s'. split; [exact E|]. intros x ns v e k Hx Hns Hv He.
  pose proof (code_running _ _ Hi Hif Hx) as Hr.
  destruct (takes_serve ns k x s' Hr Hns) as (x1 & s1 & T1 & _ & R1 & P1).
  pose proof (resumed_running _ _ _ _ Hr R1 (effect_config _ _ _ P1)) as [Hx1 _ _].
  destruct (exception_halts fuel call return_addr stub_addr idt_addr v e x1 s1 k live
    (sane_uart _ (effect_sane _ _ _ P1 Hs)) Hx1 Hv He) as (x2 & s2 & T2 & F2 & V2 & U2).
  exists x2, s2. rewrite (bind_ret _ _ _ _ _ T1). split; [exact T2|]. split; [exact F2|].
  destruct (code_stack _ Hx). rewrite (resumed_frame v e x x1) in V2, U2 by (lia || done).
  destruct P1 as [[V1 U1 _] _]. rewrite uart_out_nil in U1. cbn zeta.
  rewrite V2, U2, V1, U1. done.
Qed.

End kernel_entry.

(** ** The property at a concrete machine *)

#[local] Opaque full_pmm.

Lemma x86_0_code : kernel_code (stack_end := 0x180000) x86_0.
Proof. split; [exact x86_0_wf|done|done|cbn; lia]. Qed.

Lemma kernel_irqs_transparent_witness :
  ∃ r s' x' s'', kernel_main (H := demo_hw) (H0 := demo_mem 64 20) (H1 := demo_image)
      (H2 := demo_cpuid) (H3 := demo_interrupts) 5 100 0x2BADB002 0x9000 kernel0 = Ret r s' ∧
    takes (H := demo_hw) (H1 := demo_image) (H3 := demo_interrupts) (Abi0 := wild_abi 0x180000) 5
      (fun _ => 0x103000) 21 [0; 1; 7; 15] (x86_0, s') = Ret tt (x', s'') ∧ gpr x' = gpr x86_0.
Proof.
  destruct kernel0_setup as (p' & Ep & Hok & Hlow).
  destruct (kernel_irqs_transparent (H := demo_hw) (H0 := demo_mem 64 20) (H1 := demo_image)
    (H2 := demo_cpuid) (H3 := demo_interrupts) (Abi0 := wild_abi 0x180000) 5 (fun _ => 0x103000)
    demo_live demo_answers demo_readback
    100 0x9000 p' kernel0 kernel0_pre Ep Hok Hlow demo_stubs stubs0_inj)
    as (r & s' & E & Hx).
  destruct (Hx x86_0 [0; 1; 7; 15] 0%nat x86_0_code) as (x' & s'' & E' & _ & R & _).
  { repeat constructor; lia. }
  exists r, s', x', s''. split; [exact E|]. split; [exact E'|exact (res_gpr _ _ R)].
Defined.

(** A page fault (vector 14, error code 2) after two timer interrupts and a key. *)
Lemma kernel_exception_witness :
  ∃ r s' x' s'', kernel_main (H := demo_hw) (H0 := demo_mem 64 20) (H1 := demo_image)
      (H2 := demo_cpuid) (H3 := demo_interrupts) 5 100 0x2BADB002 0x9000 kernel0 = Ret r s' ∧
    (takes (H := demo_hw) (H1 := demo_image) (H3 := demo_interrupts) (Abi0 := wild_abi 0x180000) 5
       (fun _ => 0x103000) 21 [0; 1; 0];;
     except (H := demo_hw) (H1 := demo_image) (H3 := demo_interrupts) (Abi0 := wild_abi 0x180000) 5
       (fun _ => 0x103000) 21 14 2)
      (x86_0, s') = Halted (x', s'') ∧ if_flag (view s'') = false.
Proof.
  destruct kernel0_setup as (p' & Ep & Hok & Hlow).
  destruct (kernel_exception (H := demo_hw) (H0 := demo_mem 64 20) (H1 := demo_image)
    (H2 := demo_cpuid) (H3 := demo_interrupts) (Abi0 := wild_abi 0x180000) 5 (fun _ => 0x103000)
    demo_live demo_answers demo_readback
    100 0x9000 p' kernel0 kernel0_pre Ep Hok Hlow demo_stubs stubs0_inj)
    as (r & s' & E & Hx).
  destruct (Hx x86_0 [0; 1; 0] 14 2 0%nat x86_0_code) as (x' & s'' & E' & F & _); [|lia|lia|].
  { repeat constructor; lia. }
  exists r, s', x', s''. split; [exact E|]. split; [exact E'|exact F].
Defined.
