(* ===== verification/Boot.v ===== *)
(** From the boot loader to C (boot/boot.s) and the layout of the image (linker.ld):
    the Multiboot header, the sections, the stack, and the call of [kernel_main]. *)

From S2P Require Import Prelude Machine Vga Preempt Screen Serial Digits Kprintf Pic Panic Idt X86 Entry Pmm PmmSpec Gdt Pit Keyboard Memory Uptime Kernel KernelSpec KernelBoot KernelRun.
From stdpp Require Import relations.

#[local] Open Scope Z_scope.
#[local] Open Scope c_scope.

(** ** The Multiboot header *)

Definition ALIGN : Z := 1 <<u 0.
Definition MEMINFO : Z := 1 <<u 1.
Definition FLAGS : Z := Z.lor ALIGN MEMINFO.
Definition MAGIC : Z := 0x1BADB002.
Definition CHECKSUM : Z := u32 (- (MAGIC + FLAGS)).

(** The words of section [.multiboot]. *)
Definition multiboot_header : list Z := [MAGIC; FLAGS; CHECKSUM].

(** What a loader looks for, by the Multiboot specification: the magic number, a
    checksum that cancels it and the flags, and among the flags the request for a
    memory map (bit 1) and none that this loader version would have to refuse. *)
Definition header_accepted (h : list Z) : Prop :=
  ∃ flags sum, h = [0x1BADB002; flags; sum] ∧ u32 (0x1BADB002 + flags + sum) = 0 ∧
    Z.testbit flags 1 = true ∧ Z.land flags 0xFFFC = 0.

Lemma multiboot_header_accepted : header_accepted multiboot_header.
Proof. exists FLAGS, CHECKSUM. by vm_compute. Qed.

(** ** The image *)

(** The sizes of the four output sections. *)
Record sections : Type := mk_sections {
  text_size : Z;
  rodata_size : Z;
  data_size : Z;
  bss_size : Z
}.

(** Where the linker script puts them, and the symbol [kernel_end]. *)
Record layout : Type := mk_layout {
  text_at : Z;
  rodata_at : Z;
  data_at : Z;
  bss_at : Z;
  image_end : Z
}.

Definition align (n a : Z) : Z := (a + n - 1) / n * n.

Definition linker_ld (z : sections) : layout :=
  let text := align 4096 0x100000 in
  let rodata := align 4096 (text + text_size z) in
  let data := align 4096 (rodata + rodata_size z) in
  let bss := align 4096 (data + data_size z) in
  mk_layout text rodata data bss (bss + bss_size z).

(** [.skip 16384], in section .bss *)
Definition STACK_SIZE : Z := 16384.

Definition sections_ok (z : sections) : Prop :=
  0 ≤ text_size z ∧ 0 ≤ rodata_size z ∧ 0 ≤ data_size z ∧ 0 ≤ bss_size z ∧
  image_end (linker_ld z) < 4294963200.

Lemma align_bounds a : 0 ≤ a → a ≤ align 4096 a < a + 4096 ∧ align 4096 a mod 4096 = 0.
Proof. unfold align. intros Ha. rewrite Z.mod_mul by lia. dlia. Qed.

(** The sections follow one another, page-aligned, without overlap. *)
Lemma linker_ld_sections z :
  sections_ok z →
  let l := linker_ld z in
  text_at l = 0x100000 ∧ text_at l + text_size z ≤ rodata_at l ∧
  rodata_at l + rodata_size z ≤ data_at l ∧ data_at l + data_size z ≤ bss_at l ∧
  bss_at l + bss_size z = image_end l ∧
  Forall (fun a => a mod PMM_FRAME_SIZE = 0) [text_at l; rodata_at l; data_at l; bss_at l].
Proof.
  intros (Ht & Hr & Hd & Hb & He). cbn zeta. unfold linker_ld in *.
  cbn [text_at rodata_at data_at bss_at image_end] in *. change (align 4096 0x100000) with 0x100000 in *.
  destruct (align_bounds (0x100000 + text_size z)) as [B1 M1]; [lia|].
  set (r := align 4096 (0x100000 + text_size z)) in *.
  destruct (align_bounds (r + rodata_size z)) as [B2 M2]; [lia|].
  set (d := align 4096 (r + rodata_size z)) in *.
  destruct (align_bounds (d + data_size z)) as [B3 M3]; [lia|].
  split_and!; try lia. repeat constructor; done.
Qed.

(** An address inside the image. *)
Definition in_image (z : sections) (a : Z) : Prop := 0x100000 ≤ a < image_end (linker_ld z).

(** The byte at [a] belongs to frame [f]. *)
Definition in_frame (f a : Z) : Prop := f * PMM_FRAME_SIZE ≤ a < f * PMM_FRAME_SIZE + PMM_FRAME_SIZE.

(** C7: the frame allocator never hands out a part of the kernel. On a well-formed
    memory map whose regions are disjoint, for every image the linker script can
    lay out, whatever a client allocates and releases after [pmm_init], no frame
    it ever owns contains a byte below 1 MiB or of a section of the image. *)
Theorem image_never_allocated `{!PhysMem} z fuel mbi p p' l q o :
  sections_ok z → map_present mbi l → (length l < fuel)%nat → disjoint_regions l →
  Z.of_nat (length (bitmap p)) = BITMAP_WORDS → free_frames p = 0 →
  pmm_setup fuel mbi (image_end (linker_ld z)) p = Done p' →
  rtc client (p', ∅) (q, o) →
  ∀ f a, f ∈ o → in_frame f a → 0x100000 ≤ a ∧ ¬ in_image z a.
Proof.
  intros Hz Hm Hlen Hd Hl H0 E Hc f a Hf Ha.
  pose proof (linker_ld_sections z Hz) as Hs. cbn zeta in Hs.
  assert (0 ≤ image_end (linker_ld z) < 4294963200) as Hk by (destruct Hz; lia).
  rewrite (setup_with_map _ _ _ _ l) in E by done. injection E as E.
  destruct Hm as (_ & _ & _ & He). destruct (mark_all_used_spec (bitmap p) Hl) as [_ Hu].
  assert (pmm_ok (add_regions l
    (mk_pmm (mark_all_used (bitmap p)) (total_frames p) (free_frames p)))) as Hr
    by (apply add_regions_ok; [done|done|by apply marked_ok|auto]).
  destruct (reserve_spec _ _ _ Hk (pmm_ok_bitmap _ Hr) (eq_sym E)) as (_ & Hok & _ & Hav).
  assert (low_reserved p') as Hlow by (intros g Hg; by apply Hav in Hg as (_ & ? & _)).
  destruct (clients_inv p' (q, o) (Hok Hr) Hlow Hc) as (_ & _ & Hun).
  cbn [fst snd] in Hun. assert (f ∈ available p') as Hfa by (rewrite <- Hun; by apply elem_of_union_l).
  apply Hav in Hfa as (_ & H256 & Hend). unfold in_frame, in_image, PMM_FRAME_SIZE in *. lia.
Qed.

(** ** The entry point *)

Inductive cfun : Type := C_kernel_main.
Inductive label : Type := start | hang.

Section start.
(** [stack_bottom] is a label in .bss. *)
Variable stack_bottom : Z.

Definition stack_top : Z := stack_bottom + STACK_SIZE.

Definition hang_loop : list (instr cfun label) := [Hlt; Jmp hang].

Definition boot_s (l : label) : list (instr cfun label) :=
  match l with
  | start => [Mov_imm_esp stack_top; Push_r EBX; Push_r EAX; Call C_kernel_main; Cli] ++ hang_loop
  | hang => hang_loop
  end.

Section call.
Context {S : Type} `{!Lens S cpu} {stack_end : Z} `{!Abi stack_end}.
Variable return_addr : cfun → Z.
(** [kernel_main(magic, mbi)] *)
Variable kmain : Z → Z → M S unit.

(** Its parameters are the words above the return address. *)
Definition main_call (f : cfun) (m : Z → Z) (arg : Z) : M S unit :=
  match f with C_kernel_main => kmain (load32 m arg) (load32 m (arg +u 4)) end.

Definition _start (k : nat) : M (x86 * S) unit := X86.run main_call return_addr boot_s k (boot_s start).

(** The processor as the loader leaves it, on the kernel's stack. *)
Definition on_stack (x : x86) : x86 := set_esp stack_top x.

(** The stack at the entry of [kernel_main]. *)
Definition main_frame (x : x86) : list Z :=
  [u32 (return_addr C_kernel_main); eax (gpr x); ebx (gpr x)].

Lemma start_call k x (s : S) :
  0 ≤ stack_bottom → stack_top < 4294967296 → wf_x86 x →
  ∃ x1, _start (3 + k) (x, s)
    = X86.run main_call return_addr boot_s k (Call C_kernel_main :: Cli :: hang_loop) (x1, s) ∧
    let y := push32 (return_addr C_kernel_main) x1 in
    pushed stack_top (on_stack x) (main_frame x) y ∧
    main_call C_kernel_main (mem y) (esp (gpr y) +u 4) = kmain (eax (gpr x)) (ebx (gpr x)).
Proof.
  intros Hb Ht [Hg _ _]. rewrite !Forall_cons in Hg. set (x0 := on_stack x).
  assert (esp (gpr x0) = stack_top) as E0 by done. unfold stack_top, STACK_SIZE in *.
  assert (pushed (stack_bottom + 16384) x0 [] x0) as P0 by (apply pushed_nil; rewrite ?E0; lia).
  assert (pushed (stack_bottom + 16384) x0 [ebx (gpr x)] (push32 (ebx (gpr x)) x0)) as P1
    by (apply pushed_push; [done|rewrite E0; cbn; lia|apply u32_id; lia]).
  set (x1 := push32 (ebx (gpr x)) x0) in *.
  assert (pushed (stack_bottom + 16384) x0 [eax (gpr x); ebx (gpr x)] (push32 (eax (gpr x)) x1)) as P2
    by (apply pushed_push; [done|rewrite E0; cbn; lia|apply u32_id; lia]).
  set (x2 := push32 (eax (gpr x)) x1) in *.
  assert (pushed (stack_bottom + 16384) x0 (main_frame x) (push32 (return_addr C_kernel_main) x2)) as P3
    by (apply pushed_push; [done|rewrite E0; cbn; lia|done]).
  exists x2. split; [|split; [exact P3|]].
  - unfold _start. cbn [boot_s app Nat.add]. do 2 step_instr.
    change (push32 (ebx (gpr (set_esp stack_top x))) (set_esp stack_top x)) with x1.
    assert (eax (gpr x1) = eax (gpr x)) as E1 by (unfold x1; by rewrite push32_eax).
    step_instr. by rewrite E1.
  - unfold main_call. f_equal; [exact (pushed_top _ _ _ _ _ 1 P3 eq_refl)|].
    pose proof (pushed_esp _ _ _ _ P3) as Ee. cbn [length main_frame] in Ee.
    rewrite E0 in Ee. rewrite (u32_id (esp _ + 4)), <- Z.add_assoc by lia.
    exact (pushed_top _ _ _ _ _ 2 P3 eq_refl).
Qed.

(** Were [kernel_main] to return, the processor would stop, interrupts off. *)
Lemma start_returns k x (s s' : S) :
  0 ≤ stack_bottom → stack_top < 4294967296 → wf_x86 x →
  kmain (eax (gpr x)) (ebx (gpr x)) s = Ret tt s' →
  ∃ x', _start (6 + k) (x, s)
        = Halted (x', put (log EHlt (set_if false (log ECli (view s')))) s').
Proof.
  intros Hb Ht Hwf Hm. destruct (start_call (Datatypes.S (2 + k)) x s Hb Ht Hwf) as (x1 & E & _ & Ec).
  cbn zeta in Ec. rewrite <- Ec in Hm.
  erewrite run_exec in E; [|reflexivity|exact (exec_call _ _ _ _ _ _ Hm)].
  eexists. etransitivity; [exact E|]. cbn [Nat.add].
  erewrite run_exec; [|reflexivity|reflexivity].
  cbn [hang_loop X86.run]. unfold exec, mbind, M_bind, lift, gets, modify.
  cbn -[drop32 push32]. rewrite !view_put, put_put. done.
Qed.

End call.

(** ** The kernel behind it *)

Section kernel_start.
Context `{!Hardware} `{!PhysMem} `{!Image} `{!Cpuid} `{!Interrupts}.
Context {stack_end : Z} `{!Abi stack_end}.
Variable fuel : nat.
Variable return_addr : cfun → Z.

(** [kernel_main] does not return: after [n] rounds of its loop it is still in it. *)
Definition kmain (n : nat) (magic mbi : Z) : M kernel unit := kernel_main fuel n magic mbi;; hung.

#[local] Abbreviation enter n := (_start return_addr (kmain n)).

Hypothesis live : uart_live fuel LSR_TX_EMPTY.
Hypothesis receiver : loopback_answers fuel.
Hypothesis readback : imr_readback.
Hypothesis stack_low : 0 ≤ stack_bottom.
Hypothesis stack_high : stack_top < 4294967296.



End kernel_start.
End start.

(** ** The properties at concrete machines *)

#[local] Opaque full_pmm pmm_setup.

(** An image of 16 pages, and the frames above it. *)
Definition demo_sections : sections := mk_sections 0x8000 0x2000 0x1000 0x5000.

Lemma image_never_allocated_witness :
  ∃ p' q r, pmm_setup (H := demo_mem 64 20) 3 0x9000 (image_end (linker_ld demo_sections)) full_pmm
      = Done p' ∧ rtc client (p', ∅) (q, {[r]}) ∧ ∀ a, in_frame r a → ¬ in_image demo_sections a.
Proof.
  destruct (setup_free (H := demo_mem 64 20) 3 0x9000 (image_end (linker_ld demo_sections)) full_pmm
    demo_map demo_map_present ltac:(cbn; lia) full_pmm_length ltac:(by vm_compute))
    as (p' & E & _ & H256 & Hav & _).
  assert (272 ∈ available p') as Hin.
  { apply Hav. unfold frame_ok, PMM_MAX_FRAMES. split; [lia|]. split; [by vm_compute|]. split; [lia|by vm_compute]. }
  destruct (alloc_frame_cases p') as [[_ He]|(f & Hf & Hu & Hl & Ea)].
  { rewrite He in Hin. destruct (not_elem_of_empty _ Hin). }
  assert (256 ≤ f) as Hlow by (apply H256, free_set_spec; exact (conj Hf Hu)).
  assert (rtc client (p', ∅) (took f p', {[f]})) as Hrtc.
  { apply rtc_once. replace {[f]} with ({[f * PMM_FRAME_SIZE / PMM_FRAME_SIZE]} ∪ ∅ : gset Z).
    - apply client_alloc; [exact Ea|unfold PMM_FRAME_SIZE; lia].
    - unfold PMM_FRAME_SIZE. rewrite Z.div_mul by lia. by rewrite (right_id_L ∅ (∪)). }
  exists p', (took f p'), f. split; [exact E|]. split; [exact Hrtc|]. intros a Ha.
  refine (proj2 (image_never_allocated (H := demo_mem 64 20) demo_sections 3 0x9000 full_pmm p'
    demo_map (took f p') {[f]} _ demo_map_present _ demo_map_disjoint full_pmm_length eq_refl E Hrtc
    f a _ Ha)); [|cbn; lia|by apply elem_of_singleton].
  unfold sections_ok. split_and!; by vm_compute.
Defined.

(** What GRUB leaves in the registers. *)
Definition loaded (magic : Z) : x86 :=
  mk_x86 (mk_gprs magic 0 0 0x9000 0x7FF00 0 0 0) (mk_segs 8 16 16 16 16 16) 0x10000C 2 (fun _ => 0).

Lemma loaded_wf magic : 0 ≤ magic < 4294967296 → wf_x86 (loaded magic).
Proof. intros. split; cbn; repeat constructor; lia. Qed.

Section on_demo.
#[local] Existing Instances demo_hw demo_image demo_cpuid demo_interrupts.
#[local] Instance demo_ram : PhysMem := demo_mem 64 20.
#[local] Instance demo_abi : Abi 0x174000 := wild_abi 0x174000.



End on_demo.
